(* ===== verification/_CoqProject ===== *)
-Q . S2P
Prelude.v
PyJson.v
PyJsonLoads.v
PyStr.v
DateTime.v
Sha256.v
Hashing.v
Schema.v
Descriptor.v
Catalog.v
Policy.v
Flow.v
RateLimiter.v
BusPublish.v
PyColl.v
Db.v
AuditLog.v
Migrate.v
Grants.v
Hydrate.v
Store.v
Statements.v
Threads.v
Writers.v
PyEq.v
PyIo.v
PyBytes.v
GovGrants.v
McpSource.v
Service.v
ServiceRuns.v
Embedders.v
Vouching.v
WellTyped.v
Liveness.v
GovRedemption.v
Gateway.v
Subprocess.v
GatewayRuns.v
GatewayBounds.v
Server.v
ServerRuns.v
OpenApi.v
OpenApiRuns.v
Client.v
ClientRuns.v
Cli.v
Argv.v
ArgvRuns.v
CliRuns.v
CatalogExperiments.v
Experiments.v
