(* ===== verification/Prelude.v ===== *)
(** * ToolConnect: a verification library

    ToolConnect decides which principal may call which tool of which source, issues one-use
    grants bound to the arguments of a call, redeems them, and keeps an audit log of what it
    decided.  This library models the Python package [src/toolconnect] and states what makes
    it correct.  File names below are those of [src/src/toolconnect].

    ** The program and its model

    - The interpreter.  [PyJson] has Python values as the JSON decoder builds them and
      [json.dumps]; [PyJsonLoads] has [json.loads]; [PyStr], [PyEq], [PyColl], [PyIo] and
      [PyBytes] have the string methods, [==] and [in], the collection conversions, [int(v)],
      [readline] and base64; [Sha256] has the hash, executable; [DateTime] the instants.
    - [hashing.py] is [Hashing]: the canonical text of call arguments and its digest.
    - [schema.py] is [Schema], [descriptor.py] is [Descriptor], [catalog.py] is [Catalog]:
      claimed against asserted metadata, the in-memory catalog, assertion evidence, drift.
    - [policy.py] is [Policy]: principals, decisions, the broker, the adapter of the Cedar
      engine.  [flow.py] is [Flow]: the flows a set of tools confers.
    - [store.py] is [Db] (tables, statements, failures, the clock), [AuditLog] (the hash
      chain and its head), [Migrate] (opening and upgrading a file, statement by statement,
      under [sqlite3]'s transactions), [Grants] (issue, redeem, close; governance
      redemptions), [Hydrate] (rows of the catalog and [load_catalog]) and [Store] (all its
      methods as one interface, [store_op], with the law [good_step]).  [Statements] takes
      the methods apart into their statements; [Threads] interleaves those of several threads
      and processes under the store's lock and SQLite's; [Writers] has several processes.
    - [govgrants.py] is [GovGrants]: governance grants and revocation lists, verified offline.
    - [buspublish.py] is [BusPublish]: the best-effort copy of decisions on the bus.
    - [mcp_source.py] is [McpSource]: discovery over a subprocess.
    - [service.py] is [Service], its methods as computations on a [world]: the catalog, the
      database, the broker's audit list and the bus.  [ServiceRuns] has histories of calls;
      [Embedders] interleaves the calls of several callers at every call of the store.
    - [gateway.py] is [Gateway]: the proxy in front of one downstream server.  [Subprocess]
      has the end of the processes the gateway and discovery start.
    - [server.py] is [RateLimiter] and [Server]: the limiter and the HTTP front.
    - [openapi_source.py] is [OpenApi]; [client.py] is [Client]; [cli.py] is [Cli], every
      command from its parsed arguments to its exit code, and [Argv], the parsers and the
      process from its argument vector to its exit status.
    - [src/experiments] is [CatalogExperiments] (the drift and flow measurements, with the
      sample catalog of [src/fixtures/real_catalog.py]) and [Experiments] (the demonstration
      that a truncated log is detected), run on the rest.

    The layers call each other as in the code.  [Cli.main] opens databases ([Migrate]), starts
    a service on them ([Service.start_service], which runs [Hydrate.load_catalog]) and runs a
    server, a gateway or one call.  [Server] and [Gateway] reach the database only through
    [Service]; [Service] changes it only through the methods of [AuditLog], [Grants] and
    [Hydrate], each of which is one statement or one transaction.  Code that is not in the
    repository is a class of the model with its documented laws: the text of floats
    ([PyFloatRuntime]), instants ([PyDatetime]), UTF-8 ([Utf8]), signatures and keys
    ([Cryptography]), the policy engine and its parser ([PolicyEngine], [Cedar],
    [CedarParser]), processes ([Processes]) and the bus's POST ([BusEndpoint]).  Each has a
    concrete instance, which the witnesses use.

    ** How state and effects are modelled

    A fallible function returns [res A], a value or the exception raised; a stateful one is
    [st S A], and what it changed before raising stays changed.  A method of the store is an
    [act A]: it runs statements in order against a database, and an [oracle] decides which
    statements fail and what each reading of the clock returns; theorems hold for every
    oracle.  A transaction restores the database when its body raises.  An act is
    run whole.  That the store's lock makes this right for the threads of a process is a
    theorem of [Threads], about the statements derived from the same acts ([Stepwise]).
    Callers that share a service without the HTTP front interleave in [Embedders]; behind it
    the handler's lock covers a whole call and the limiter's a whole check, so a run of the
    server is a sequence of requests, and a theorem about all sequences is one about all runs.
    The peers are environments: a process or a network is the sequence of what it gives, and
    the theorems hold for every such sequence.

    ** What is shown

    - Authorisation.  A grant is on file only if an audited decision permitted it
      ([ServiceRuns], and [CliRuns] across restarts); it is redeemed at most once, for its
      principal and arguments, while its tool is invocable ([Grants], [ServiceRuns],
      [GovRedemption] for governance grants); the argument hash binds ([Hashing]).
    - Evidence.  A tool is invocable only if a human vouched for exactly its claim, in the
      catalog ([Catalog]), across a restart ([Hydrate]) and over service histories ([Vouching]).
    - The log.  It grows only, verifies after any history, and a rewritten or shortened one
      is detected short of a SHA-256 collision ([AuditLog], [Store], [CliRuns]).
    - Concurrency.  Calls of threads that share a store take effect one by one, in the order
      in which they return, and threads never deadlock ([Threads]).  Of several processes on
      one file at most one redeems a grant, methods that write first take turns, and two that
      append to the log at once can fork its chain ([Writers]).  Callers of one service never
      obtain a grant for another's decision ([Embedders]).
    - Front ends.  The server acts for authenticated requests only and answers what the
      service did ([ServerRuns]); the gateway forwards a call only against a grant of its own,
      answers each request once and is bounded ([GatewayRuns], [GatewayBounds]); the client
      runs its function at most once and only when redeemed ([ClientRuns]); OpenAPI documents
      map to payloads and back ([OpenApiRuns]).
    - Operations.  Opening upgrades atomically ([Migrate]); a command line's servers fail
      closed and its exit codes mean what they say ([CliRuns]); a command written down in any order and
      spelling is read back exactly ([ArgvRuns]).
    - Totality.  Discovery, the gateway and the decoder end ([McpSource], [GatewayBounds],
      [PyJsonLoads]); the service's data is JSON, so it can always be started again
      ([WellTyped]); in a world without failures a permitted call goes through ([Liveness]).
    - Measurements.  The figures the documentation gives are those the scripts compute, and
      the truncation demonstration always tells ([CatalogExperiments], [Experiments]).
    - Exactness.  Each verifier has its specification: governance grants and scopes
      ([GovGrants]), flows ([Flow]), the limiter against a reference ([RateLimiter]).

    ** Fuel and bounds

    [json_loads] runs on twice the length of its text plus two, which the round trip shows
    enough.  Discovery's loops run on the number of frames the process has left before the
    deadline, a paged listing of the gateway on its limit of 100 pages, and the loops that
    read an input on its length: [discover_terminates] and the theorems of [GatewayBounds]
    show that none of them runs out.  Deadlines are the end of the sequence of what a peer
    gives.  Integers are unbounded as in Python; the words of SHA-256 are below 2^32.

    ** Not modelled

    Log lines on standard error; usage and help texts; the parsing of
    TOML, YAML, policies, keys, URLs and HTTP messages, which are libraries (a request comes
    decoded); SQLite's pragmas; opening or copying a file while another process writes it; a
    method that waits longer than SQLite's timeout for another writer, other than as a
    statement that fails; the separators of printed JSON; timeouts other than through what a peer gives; the other fixtures and the tests.

    The limits of the model are marked where they are: text has code points below 256; the
    limiter's instants are integers; the texts of some exceptions of the interpreter are
    shortened; a dictionary made of pairs with a key that is no string, names declared for a
    source that are no strings, and a host or token of a configuration file that is no string
    end in [NotModelled]; the order in which
    [find_all] and [list_sources] enumerate a dictionary is that of the map.  Values are
    immutable, so a deep copy is the value. *)

From stdpp Require Export prelude gmap strings sorting.
From Stdlib Require Export Ascii ZArith Lia.

#[global] Open Scope Z_scope.

(** ** Notation and automation *)

(** Python's [x in xs] and [x == y] as boolean tests, where equality is decidable. *)
Declare Scope py_scope.
Delimit Scope py_scope with py.
Notation "x ∈? X" := (bool_decide (x ∈ X)) (at level 70, no associativity) : py_scope.
Notation "x ≟ y" := (bool_decide (x = y)) (at level 70, no associativity) : py_scope.
#[global] Open Scope py_scope.

(** [results] inverts computations that returned a value; [collections] knows the sorted
    enumerations.  The components have databases of their own, named after what they
    prove: [keeps], [quiet], [answers], [bounds], [preserve], [json], [typed]. *)
Create Rewrite HintDb results.
Create Rewrite HintDb collections.

(** ** Python exceptions *)

(** The exceptions the modelled code raises and catches.  The message is kept
    where the code builds one that a caller can observe. *)
Inductive exn :=
| ServiceError (status : Z) (msg : string)
| KeyError (msg : string)
| AmbiguousToolName (msg : string)
| ValueError (msg : string)
| TypeError (msg : string)
| AttributeError (msg : string)
| ArgsNotHashable (msg : string)
| SchemaValidationError (msg : string)
| JSONDecodeError
| OperationalError
| IntegrityError
| SchemaTooNewError (current supported : Z)
| InvalidSignature
| UnsupportedAlgorithm
| AssertionError
| IndexError
| McpDiscoveryError (kind msg : string)
| OpenAPISpecError (kind msg : string)
| DownstreamTransportError (kind msg : string)
| ToolConnectUnavailable (msg : string)
| ToolConnectDenied (reason : string)
| GrantRedeemDenied (reason : string)
| OverflowError
| OSError
| ProgrammingError
| NotModelled
| SystemExit (msg : string)
| CallerError (name : string)
| TimeoutExpired.

#[global] Instance exn_eq_dec : EqDecision exn.
Proof. solve_decision. Defined.

(** [except KeyError] catches [AmbiguousToolName] too. *)
Definition is_KeyError (e : exn) : bool :=
  match e with KeyError _ | AmbiguousToolName _ => true | _ => false end.

(** [except ValueError] catches its subclasses. *)
Definition is_ValueError (e : exn) : bool :=
  match e with
  | ValueError _ | ArgsNotHashable _ | SchemaValidationError _ | JSONDecodeError => true
  | _ => false
  end.

Definition is_TypeError (e : exn) : bool :=
  match e with TypeError _ => true | _ => false end.

(** ** Results: a value or a raised exception *)

Inductive res (A : Type) : Type :=
| Ok (a : A)
| Raise (e : exn).
Arguments Ok {A} _.
Arguments Raise {A} _.

#[global] Instance res_ret : MRet res := @Ok.
#[global] Instance res_bind : MBind res := λ A B f m,
  match m with Ok a => f a | Raise e => Raise e end.
#[global] Instance res_fmap : FMap res := λ A B f m,
  match m with Ok a => Ok (f a) | Raise e => Raise e end.

#[global] Instance res_eq_dec {A} `{EqDecision A} : EqDecision (res A).
Proof. solve_decision. Defined.

Definition is_ok {A} (r : res A) : bool :=
  match r with Ok _ => true | Raise _ => false end.

(** [if cond: raise e] *)
Definition raise_if (b : bool) (e : exn) : res unit :=
  if b then Raise e else Ok tt.

(** Run a checker over a list, stopping at the first exception. *)
Fixpoint for_each {A} (f : A → res unit) (l : list A) : res unit :=
  match l with
  | [] => Ok tt
  | x :: l' => f x ≫= λ _, for_each f l'
  end.

Lemma for_each_ok {A} (f : A → res unit) l :
  for_each f l = Ok tt ↔ Forall (λ x, f x = Ok tt) l.
Proof.
  induction l as [|x l IH]; simpl; [done|].
  rewrite Forall_cons, <- IH.
  destruct (f x) as [[]|e] eqn:E; cbn; naive_solver.
Qed.

Lemma raise_if_ok b e : raise_if b e = Ok tt ↔ b = false.
Proof. destruct b; naive_solver. Qed.

(** ** Sorting *)

(** Merge sort commutes with a map that reflects the order. *)
Section merge_sort_map.
Context {A B : Type} (R : relation A) (S : relation B).
Context `{!∀ x y, Decision (R x y)} `{!∀ x y, Decision (S x y)}.
Context (f : A → B) (HRS : ∀ x y, R x y ↔ S (f x) (f y)).

Lemma list_merge_map l1 l2 :
  list_merge S (map f l1) (map f l2) = map f (list_merge R l1 l2).
Proof using HRS.
  revert l2. induction l1 as [|x l1 IH1]; intros l2; cbn [map].
  { by rewrite !list_merge_nil_l. }
  induction l2 as [|y l2 IH2]; cbn [map].
  { by rewrite !list_merge_nil_r. }
  rewrite !list_merge_cons.
  destruct (decide (R x y)) as [HR|HR].
  - rewrite decide_True by (by apply HRS). simpl. f_equal. apply (IH1 (y :: l2)).
  - rewrite decide_False by (by rewrite <- HRS). simpl. f_equal. apply IH2.
Qed.

Let fs (st : list (option (list A))) := map (fmap (map f)) st.

Lemma merge_list_to_stack_map st l :
  merge_list_to_stack S (fs st) (map f l) = fs (merge_list_to_stack R st l).
Proof using HRS.
  revert l. induction st as [|[l'|] st IH]; intros l; simpl; [done| |done].
  rewrite list_merge_map, IH. done.
Qed.

Lemma merge_stack_map st : merge_stack S (fs st) = map f (merge_stack R st).
Proof using HRS.
  induction st as [|[l|] st IH]; simpl; [done| |done]. by rewrite IH, list_merge_map.
Qed.

Lemma merge_sort_map l : merge_sort S (map f l) = map f (merge_sort R l).
Proof using HRS.
  unfold merge_sort. change (@nil (option (list B))) with (fs []).
  generalize (@nil (option (list A))). induction l as [|x l IH]; intros st; simpl.
  - apply merge_stack_map.
  - rewrite <- IH, <- (merge_list_to_stack_map st [x]). done.
Qed.
End merge_sort_map.

(** ** Sequencing *)

Lemma bind_ok {A B} (m : res A) (f : A → res B) b :
  m ≫= f = Ok b ↔ ∃ a, m = Ok a ∧ f a = Ok b.
Proof.
  destruct m as [a|e]; cbn; split.
  - intros H. by exists a.
  - by intros (a' & [= <-] & H).
  - done.
  - by intros (a' & [=] & _).
Qed.

Lemma seq_ok (m k : res unit) : m ≫= (λ _, k) = Ok tt ↔ m = Ok tt ∧ k = Ok tt.
Proof. destruct m as [[]|e]; cbn; split; try done; by intros []. Qed.

#[export] Hint Rewrite @for_each_ok raise_if_ok seq_ok @bind_ok : results.

Lemma bind_raise {A B} (m : res A) (f : A → res B) e :
  m ≫= f = Raise e ↔ m = Raise e ∨ ∃ a, m = Ok a ∧ f a = Raise e.
Proof.
  destruct m as [a|e']; cbn; split.
  - intros H. right. by exists a.
  - intros [[=]|(a' & [= <-] & H)]. done.
  - intros [= ->]. by left.
  - intros [H|(a' & [=] & _)]. by injection H as ->.
Qed.

(** ** State passing with exceptions

    [st S A] is a method on an object of type [S]: a state change made before an
    exception is raised stays, as it does in Python. *)

Definition st (S A : Type) : Type := S → res A * S.

#[global] Instance st_ret {S} : MRet (st S) := λ A a s, (Ok a, s).
#[global] Instance st_bind {S} : MBind (st S) := λ A B f m s,
  match m s with
  | (Ok a, s') => f a s'
  | (Raise e, s') => (Raise e, s')
  end.

Definition st_get {S} : st S S := λ s, (Ok s, s).
Definition st_modify {S} (f : S → S) : st S unit := λ s, (Ok tt, f s).
Definition st_lift {S A} (r : res A) : st S A := λ s, (r, s).
Definition st_throw {S A} (e : exn) : st S A := st_lift (Raise e).

(** Run the state and exception monads one step further. *)
Ltac run_st :=
  lazy beta iota zeta delta [mbind mret st_bind st_ret st_get st_modify st_lift st_throw res_bind
    res_ret fst snd negb andb].

(** ** Sorted enumeration of a set *)

(** [sorted(X)] on a set of strings. *)
Definition sorted_set (X : gset string) : list string := merge_sort String.le (elements X).

Lemma elem_of_sorted_set X x : x ∈ sorted_set X ↔ x ∈ X.
Proof. unfold sorted_set. by rewrite merge_sort_Permutation, elem_of_elements. Qed.

Lemma sorted_set_nil X : sorted_set X = [] ↔ X = ∅.
Proof.
  split; [|by intros ->]. intros H. apply set_eq. intros x.
  rewrite <- elem_of_sorted_set, H. set_solver.
Qed.

Lemma sorted_set_NoDup X : NoDup (sorted_set X).
Proof. unfold sorted_set. rewrite merge_sort_Permutation. apply NoDup_elements. Qed.

#[export] Hint Rewrite elem_of_sorted_set sorted_set_nil : collections.

(** A list without elements is empty. *)
Lemma list_nil_iff {A} (l : list A) : l = [] ↔ ∀ x, x ∉ l.
Proof.
  split; [intros ->; intros x; apply not_elem_of_nil|].
  destruct l as [|x l]; [done|]. intros H. exfalso. apply (H x). by left.
Qed.

(** Sets with empty differences are equal. *)
Lemma set_differences_empty (X Y : gset string) : X ∖ Y = ∅ → Y ∖ X = ∅ → X = Y.
Proof.
  intros H1 H2. apply set_eq. intros x. split; intros Hx; apply dec_stable; set_solver.
Qed.

Lemma filter_all {A} (P : A → Prop) {dec : ∀ x, Decision (P x)} (l : list A) :
  Forall P l → filter P l = l.
Proof. induction 1 as [|x l Hx _ IH]; [done|]. by rewrite filter_cons, decide_True, IH. Qed.
