(* ===== verification/PyJson.v ===== *)
(** Python values as the JSON decoder produces them, and the part of [json.dumps]
    the program relies on: [sort_keys], compact separators, [ensure_ascii] on or off.

    A Python [str] is a Rocq [string], each character standing for the code point
    U+0000..U+00FF of the same number.  A [float] is an IEEE binary64 datum
    ([spec_float]); its shortest decimal [repr] and the inverse conversion belong to
    the interpreter's C runtime and are the class [PyFloatRuntime]. *)

From Stdlib Require Import Floats.SpecFloat DecimalString DecimalZ.
From S2P Require Import Prelude.

(** ** Values *)

(** A dictionary key: a string, or a key object [json.dumps] cannot coerce. *)
Inductive pykey :=
| KStr (s : string)
| KOther (r : string).

#[global] Instance pykey_eq_dec : EqDecision pykey.
Proof. solve_decision. Defined.

Inductive pyval :=
| PNone
| PBool (b : bool)
| PInt (z : Z)
| PFloat (f : spec_float)
| PStr (s : string)
| PList (l : list pyval)
| PDict (d : list (pykey * pyval))
| POther (type_name : string).

(** The induction principle that reaches inside lists and dictionaries. *)
Section pyval_ind.
Context (P : pyval → Prop).
Context (HNone : P PNone) (HBool : ∀ b, P (PBool b)) (HInt : ∀ z, P (PInt z))
        (HFloat : ∀ f, P (PFloat f)) (HStr : ∀ s, P (PStr s))
        (HList : ∀ l, Forall P l → P (PList l))
        (HDict : ∀ d, Forall (λ kv, P kv.2) d → P (PDict d))
        (HOther : ∀ t, P (POther t)).

Fixpoint pyval_ind' (v : pyval) : P v :=
  match v with
  | PNone => HNone
  | PBool b => HBool b
  | PInt z => HInt z
  | PFloat f => HFloat f
  | PStr s => HStr s
  | PList l => HList l
      ((fix go l : Forall P l :=
          match l with
          | [] => Forall_nil_2 _
          | x :: l' => Forall_cons_2 _ _ _ (pyval_ind' x) (go l')
          end) l)
  | PDict d => HDict d
      ((fix go d : Forall (λ kv, P kv.2) d :=
          match d with
          | [] => Forall_nil_2 _
          | kv :: d' => Forall_cons_2 _ _ _ (pyval_ind' kv.2) (go d')
          end) d)
  | POther t => HOther t
  end.
End pyval_ind.

#[global] Instance spec_float_eq_dec : EqDecision spec_float.
Proof. solve_decision. Defined.

#[global] Instance pyval_eq_dec : EqDecision pyval.
Proof.
  unfold EqDecision, Decision. fix go 1. intros v w. decide equality;
    try match goal with |- {?a = ?b} + {_} => exact (decide (a = b)) end.
  - apply (List.list_eq_dec go).
  - apply List.list_eq_dec. intros [k x] [k' y].
    destruct (decide (k = k')) as [->|]; [|right; congruence].
    destruct (go x y) as [->|]; [by left|right; congruence].
Defined.

(** ** Dictionaries: association lists in insertion order *)

Fixpoint dict_get {A} (k : pykey) (d : list (pykey * A)) : option A :=
  match d with
  | [] => None
  | (k', v) :: d' => if decide (k = k') then Some v else dict_get k d'
  end.

(** [d[k] = v]: in place when the key is present, appended otherwise. *)
Fixpoint dict_set {A} (k : pykey) (v : A) (d : list (pykey * A)) : list (pykey * A) :=
  match d with
  | [] => [(k, v)]
  | (k', v') :: d' =>
      if decide (k = k') then (k', v) :: d' else (k', v') :: dict_set k v d'
  end.

Definition dict_of_pairs {A} (l : list (pykey * A)) : list (pykey * A) :=
  foldl (λ d kv, dict_set kv.1 kv.2 d) [] l.

(** [d.get(k)] with the default [None]; [k in d]. *)
Definition dget (k : string) (d : list (pykey * pyval)) : pyval :=
  default PNone (dict_get (KStr k) d).
Definition dhas (k : string) (d : list (pykey * pyval)) : bool :=
  bool_decide (is_Some (dict_get (KStr k) d)).
(** [d.get(k, dflt)]: the default only replaces a missing key. *)
Definition dget_or (k : string) (dflt : pyval) (d : list (pykey * pyval)) : pyval :=
  default dflt (dict_get (KStr k) d).

(** An item with a text key. *)
Definition str_pair (k : string) (v : pyval) : pykey * pyval := (KStr k, v).

(** ** Truthiness, types *)

Definition py_truthy (v : pyval) : bool :=
  match v with
  | PNone => false
  | PBool b => b
  | PInt z => negb (z =? 0)
  | PFloat (S754_zero _) => false
  | PFloat _ => true
  | PStr s => bool_decide (s ≠ "")
  | PList l => bool_decide (l ≠ [])
  | PDict d => bool_decide (d ≠ [])
  | POther _ => true
  end.

(** [a or b] *)
Definition py_or (a b : pyval) : pyval := if py_truthy a then a else b.

Definition is_str (v : pyval) : bool := match v with PStr _ => true | _ => false end.
Definition is_mapping (v : pyval) : bool := match v with PDict _ => true | _ => false end.
Definition is_list (v : pyval) : bool := match v with PList _ => true | _ => false end.

Definition type_name (v : pyval) : string :=
  match v with
  | PNone => "NoneType" | PBool _ => "bool" | PInt _ => "int" | PFloat _ => "float"
  | PStr _ => "str" | PList _ => "list" | PDict _ => "dict" | POther t => t
  end.

(** [math.isfinite] *)
Definition float_finite (f : spec_float) : bool :=
  match f with S754_zero _ | S754_finite _ _ _ => true | _ => false end.

(** A binary64 datum. *)
Definition float_valid (f : spec_float) : bool := valid_binary 53 1024 f.

(** ** Text helpers *)

Definition quote_char : ascii := "034"%char.
Definition dquote : string := String quote_char EmptyString.
Definition char_code (c : ascii) : Z := Z.of_N (N_of_ascii c).

Fixpoint join (sep : string) (l : list string) : string :=
  match l with
  | [] => ""
  | [x] => x
  | x :: l' => x +:+ sep +:+ join sep l'
  end.

Fixpoint string_map (f : ascii → string) (s : string) : string :=
  match s with
  | EmptyString => EmptyString
  | String c s' => f c +:+ string_map f s'
  end.

(** Decimal rendering of an [int], as [int.__repr__]. *)
Definition string_of_Z (z : Z) : string := NilZero.string_of_int (Z.to_int z).
Definition Z_of_string (s : string) : option Z := Z.of_int <$> NilZero.int_of_string s.

Definition hex_digit (n : Z) : ascii :=
  ascii_of_N (Z.to_N (if n <? 10 then 48 + n else 87 + n)).
Definition hex2 (n : Z) : string :=
  String (hex_digit (n / 16)) (String (hex_digit (n mod 16)) EmptyString).

(** ** Numbers as JSON tokens *)

Definition is_digit (c : ascii) : bool := (48 <=? char_code c) && (char_code c <=? 57).

Fixpoint drop_digits (s : string) : string :=
  match s with
  | String c s' => if is_digit c then drop_digits s' else s
  | EmptyString => EmptyString
  end.

(** One digit or more; returns what follows. *)
Definition digits1 (s : string) : option string :=
  match s with
  | String c s' => if is_digit c then Some (drop_digits s') else None
  | EmptyString => None
  end.

(** An optional minus sign, then [0] or a digit run not starting with [0]; returns what follows. *)
Definition int_part (s : string) : option string :=
  let s := match s with String "-" s' => s' | _ => s end in
  match s with
  | String "0" s' => Some s'
  | _ => digits1 s
  end.

Definition exp_part (s : string) : option string :=
  match s with
  | String "e" s' | String "E" s' =>
      digits1 (match s' with String "+" t | String "-" t => t | _ => s' end)
  | _ => None
  end.

Definition is_int_token (s : string) : bool :=
  match int_part s with Some EmptyString => true | _ => false end.

(** An integer part followed by a fraction, an exponent or both. *)
Definition is_float_token (s : string) : bool :=
  match int_part s with
  | Some (String "." t) =>
      match digits1 t with
      | Some EmptyString => true
      | Some t' => bool_decide (exp_part t' = Some EmptyString)
      | None => false
      end
  | Some t => bool_decide (exp_part t = Some EmptyString)
  | None => false
  end.

Definition is_num_char (c : ascii) : bool :=
  is_digit c || bool_decide (c ∈ ["+"%char; "-"%char; "."%char; "e"%char; "E"%char]).

Fixpoint all_chars (p : ascii → bool) (s : string) : bool :=
  match s with
  | EmptyString => true
  | String c s' => p c && all_chars p s'
  end.

(** What the program uses of the interpreter's float/text conversion, with its
    documented guarantees: the [repr] of a finite float is a number token with a
    fraction or an exponent, and converting it back gives the same float. *)
Class PyFloatRuntime := {
  float_repr : spec_float → string;
  float_of_string : string → spec_float;
  float_repr_token f :
    float_finite f = true → float_valid f = true → is_float_token (float_repr f) = true;
  float_repr_chars f :
    float_finite f = true → float_valid f = true → all_chars is_num_char (float_repr f) = true;
  float_of_repr f :
    float_finite f = true → float_valid f = true → float_of_string (float_repr f) = f;
  float_of_string_valid t : float_valid (float_of_string t) = true;
}.

(** ** [repr] and [str] *)

Definition py_printable (n : Z) : bool :=
  ((32 <=? n) && (n <=? 126)) || ((161 <=? n) && negb (n =? 173)).

Definition repr_char (q c : ascii) : string :=
  if decide (c = q) then String "\" (String c EmptyString)
  else if decide (c = "\"%char) then "\\"
  else if char_code c =? 9 then "\t"
  else if char_code c =? 10 then "\n"
  else if char_code c =? 13 then "\r"
  else if py_printable (char_code c) then String c EmptyString
  else "\x" +:+ hex2 (char_code c).

Fixpoint string_has (c : ascii) (s : string) : bool :=
  match s with
  | EmptyString => false
  | String c' s' => bool_decide (c = c') || string_has c s'
  end.

(** Single quotes unless the text has one and no double quote. *)
Definition repr_str (s : string) : string :=
  let q := if string_has "'" s && negb (string_has quote_char s)
           then quote_char else "'"%char in
  String q (string_map (repr_char q) s) +:+ String q EmptyString.

Section repr.
Context {rt : PyFloatRuntime}.

Definition repr_float (f : spec_float) : string :=
  match f with
  | S754_nan => "nan"
  | S754_infinity false => "inf"
  | S754_infinity true => "-inf"
  | _ => float_repr f
  end.

Definition repr_key (k : pykey) : string :=
  match k with KStr s => repr_str s | KOther r => r end.

Fixpoint py_repr (v : pyval) : string :=
  match v with
  | PNone => "None"
  | PBool true => "True"
  | PBool false => "False"
  | PInt z => string_of_Z z
  | PFloat f => repr_float f
  | PStr s => repr_str s
  | PList l => "[" +:+ join ", " (map py_repr l) +:+ "]"
  | PDict d => "{" +:+ join ", " (map (λ kv, repr_key kv.1 +:+ ": " +:+ py_repr kv.2) d) +:+ "}"
  | POther t => "<" +:+ t +:+ ">"
  end.

Definition py_str (v : pyval) : string :=
  match v with PStr s => s | _ => py_repr v end.
End repr.

(** ** [json.dumps] *)

(** The escapes of [ESCAPE_ASCII] ([ensure_ascii=True]) and [ESCAPE]. *)
Definition json_escape_char (ensure_ascii : bool) (c : ascii) : string :=
  let n := char_code c in
  if n =? 34 then String "\" dquote
  else if n =? 92 then "\\"
  else if n =? 10 then "\n"
  else if n =? 13 then "\r"
  else if n =? 9 then "\t"
  else if n =? 8 then "\b"
  else if n =? 12 then "\f"
  else if (32 <=? n) && ((n <=? 126) || negb ensure_ascii) then String c EmptyString
  else "\u00" +:+ hex2 n.

Definition json_string (ensure_ascii : bool) (s : string) : string :=
  dquote +:+ string_map (json_escape_char ensure_ascii) s +:+ dquote.

Definition key_text (k : pykey) : string :=
  match k with KStr s => s | KOther r => r end.

Definition key_le {A} (x y : pykey * A) : Prop := String.le (key_text x.1) (key_text y.1).
#[global] Instance key_le_dec {A} : RelDecision (@key_le A).
Proof. intros x y. unfold key_le. apply _. Defined.
#[global] Instance key_le_total {A} : Total (@key_le A).
Proof. intros x y. apply (total String.le). Qed.
#[global] Instance key_le_trans {A} : Transitive (@key_le A).
Proof. intros x y z. unfold key_le. apply (transitivity (R := String.le)). Qed.

(** [sorted(d.items())] for string keys. *)
Definition sort_items {A} (d : list (pykey * A)) : list (pykey * A) := merge_sort key_le d.

Section dumps.
Context {rt : PyFloatRuntime}.

Definition json_float (f : spec_float) : string :=
  match f with
  | S754_nan => "NaN"
  | S754_infinity false => "Infinity"
  | S754_infinity true => "-Infinity"
  | _ => float_repr f
  end.

(** The text of a value, on the values [json_serializable] accepts. *)
Fixpoint json_text (ensure_ascii sort_keys : bool) (v : pyval) : string :=
  match v with
  | PNone => "null"
  | PBool true => "true"
  | PBool false => "false"
  | PInt z => string_of_Z z
  | PFloat f => json_float f
  | PStr s => json_string ensure_ascii s
  | PList l => "[" +:+ join "," (map (json_text ensure_ascii sort_keys) l) +:+ "]"
  | PDict d =>
      let items := map (λ kv, (kv.1, json_text ensure_ascii sort_keys kv.2)) d in
      let items := if sort_keys then sort_items items else items in
      "{" +:+ join "," (map (λ kv, json_string ensure_ascii (key_text kv.1)
                                     +:+ ":" +:+ kv.2) items) +:+ "}"
  | POther t => t
  end.
End dumps.

(** Values [json.dumps] renders: no foreign objects, string keys.  With
    [allow_nan=False] non-finite floats are refused as well. *)
Fixpoint json_serializable (allow_nan : bool) (v : pyval) : bool :=
  match v with
  | PFloat f => allow_nan || float_finite f
  | PList l => forallb (json_serializable allow_nan) l
  | PDict d => forallb (λ kv, match kv.1 with KStr _ => json_serializable allow_nan kv.2
                              | KOther _ => false end) d
  | POther _ => false
  | _ => true
  end.

Definition json_dumps {rt : PyFloatRuntime} (ensure_ascii sort_keys allow_nan : bool)
    (v : pyval) : res string :=
  if json_serializable true v then
    if json_serializable allow_nan v then Ok (json_text ensure_ascii sort_keys v)
    else Raise (ValueError "Out of range float values are not JSON compliant")
  else Raise (TypeError "Object is not JSON serializable").
