(* ===== verification/PyJsonLoads.v ===== *)
(** [json.loads]: a recursive-descent decoder, and the round trip through
    [json.dumps(..., sort_keys=True)].

    The decoder recurses with fuel; [json_loads] supplies twice the length of the
    text plus two, which the round trip shows to be enough. *)

From Stdlib Require Import Floats.SpecFloat DecimalString DecimalZ.
From S2P Require Import Prelude PyJson.

(** ** The decoder *)

Definition is_ws (c : ascii) : bool :=
  bool_decide (char_code c ∈ [32; 9; 10; 13]).

Fixpoint skip_ws (s : string) : string :=
  match s with
  | String c s' => if is_ws c then skip_ws s' else s
  | EmptyString => EmptyString
  end.

Definition hex_value (c : ascii) : option Z :=
  let n := char_code c in
  if (48 <=? n) && (n <=? 57) then Some (n - 48)
  else if (97 <=? n) && (n <=? 102) then Some (n - 87)
  else if (65 <=? n) && (n <=? 70) then Some (n - 55)
  else None.

Definition ascii_of_Z (n : Z) : ascii := ascii_of_N (Z.to_N n).

Definition cons_char (c : ascii) (r : option (string * string)) : option (string * string) :=
  match r with Some (x, rest) => Some (String c x, rest) | None => None end.

(** The body of a string literal, up to its closing quote.  Control characters are
    refused ([strict=True]); a [\u] escape above U+00FF has no character here. *)
Fixpoint scan_str (s : string) : option (string * string) :=
  match s with
  | EmptyString => None
  | String c r =>
    if char_code c =? 34 then Some (EmptyString, r)
    else if char_code c =? 92 then
      match r with
      | EmptyString => None
      | String e r' =>
        let n := char_code e in
        if (n =? 34) || (n =? 92) || (n =? 47) then cons_char e (scan_str r')
        else if n =? 98 then cons_char (ascii_of_Z 8) (scan_str r')
        else if n =? 102 then cons_char (ascii_of_Z 12) (scan_str r')
        else if n =? 110 then cons_char (ascii_of_Z 10) (scan_str r')
        else if n =? 114 then cons_char (ascii_of_Z 13) (scan_str r')
        else if n =? 116 then cons_char (ascii_of_Z 9) (scan_str r')
        else if n =? 117 then
          match r' with
          | String a (String b (String d (String f r4))) =>
            match hex_value a, hex_value b, hex_value d, hex_value f with
            | Some a, Some b, Some d, Some f =>
              if (a =? 0) && (b =? 0) then cons_char (ascii_of_Z (16 * d + f)) (scan_str r4)
              else None
            | _, _, _, _ => None
            end
          | _ => None
          end
        else None
      end
    else if char_code c <? 32 then None
    else cons_char c (scan_str r)
  end.

(** The longest prefix of number characters. *)
Fixpoint take_num (s : string) : string * string :=
  match s with
  | String c s' =>
    if is_num_char c then let '(t, r) := take_num s' in (String c t, r) else (EmptyString, s)
  | EmptyString => (EmptyString, EmptyString)
  end.

Fixpoint strip_prefix (p s : string) : option string :=
  match p, s with
  | EmptyString, _ => Some s
  | String a p', String b s' => if decide (a = b) then strip_prefix p' s' else None
  | String _ _, EmptyString => None
  end.

Section loads.
Context {rt : PyFloatRuntime}.

Definition parse_number (s : string) : option (pyval * string) :=
  let '(t, r) := take_num s in
  if is_int_token t then
    match Z_of_string t with Some z => Some (PInt z, r) | None => None end
  else if is_float_token t then Some (PFloat (float_of_string t), r)
  else None.

(** Everything that starts with neither a quote, a bracket nor a brace. *)
Definition parse_scalar (s : string) : option (pyval * string) :=
  match strip_prefix "null" s with Some r => Some (PNone, r) | None =>
  match strip_prefix "true" s with Some r => Some (PBool true, r) | None =>
  match strip_prefix "false" s with Some r => Some (PBool false, r) | None =>
  match strip_prefix "NaN" s with Some r => Some (PFloat S754_nan, r) | None =>
  match strip_prefix "Infinity" s with Some r => Some (PFloat (S754_infinity false), r) | None =>
  match strip_prefix "-Infinity" s with Some r => Some (PFloat (S754_infinity true), r) | None =>
  parse_number s end end end end end end.

Fixpoint parse_value (n : nat) (s : string) {struct n} : option (pyval * string) :=
  match n, s with
  | S n', String c r =>
    if char_code c =? 34 then
      match scan_str r with Some (x, r') => Some (PStr x, r') | None => None end
    else if char_code c =? 91 then
      match skip_ws r with
      | String "]" r' => Some (PList [], r')
      | r' => match parse_elems n' r' with
              | Some (l, r'') => Some (PList l, r'') | None => None end
      end
    else if char_code c =? 123 then
      match skip_ws r with
      | String "}" r' => Some (PDict [], r')
      | r' => match parse_members n' r' with
              | Some (l, r'') => Some (PDict (dict_of_pairs l), r'') | None => None end
      end
    else parse_scalar s
  | _, _ => None
  end
with parse_elems (n : nat) (s : string) {struct n} : option (list pyval * string) :=
  match n with
  | S n' =>
    match parse_value n' s with
    | Some (v, r) =>
      match skip_ws r with
      | String "]" r' => Some ([v], r')
      | String "," r' => match parse_elems n' (skip_ws r') with
                         | Some (l, r'') => Some (v :: l, r'') | None => None end
      | _ => None
      end
    | None => None
    end
  | O => None
  end
with parse_members (n : nat) (s : string) {struct n} : option (list (pykey * pyval) * string) :=
  match n, s with
  | S n', String c r0 =>
    if char_code c =? 34 then
      match scan_str r0 with
      | Some (k, r) =>
        match skip_ws r with
        | String ":" r1 =>
          match parse_value n' (skip_ws r1) with
          | Some (v, r2) =>
            match skip_ws r2 with
            | String "}" r' => Some ([(KStr k, v)], r')
            | String "," r' => match parse_members n' (skip_ws r') with
                               | Some (l, r'') => Some ((KStr k, v) :: l, r'') | None => None end
            | _ => None
            end
          | None => None
          end
        | _ => None
        end
      | None => None
      end
    else None
  | _, _ => None
  end.

Definition json_loads (s : string) : res pyval :=
  match parse_value (2 * String.length s + 2) (skip_ws s) with
  | Some (v, r) => match skip_ws r with EmptyString => Ok v | _ => Raise JSONDecodeError end
  | None => Raise JSONDecodeError
  end.

Lemma json_loads_raises s e : json_loads s = Raise e → e = JSONDecodeError.
Proof.
  unfold json_loads. destruct (parse_value _ _) as [[v r]|]; [|by intros [= <-]].
  destruct (skip_ws r); by intros [= <-].
Qed.
End loads.

(** ** Text lemmas *)

Lemma char_code_inj c c' : char_code c = char_code c' → c = c'.
Proof.
  unfold char_code. intros H%N2Z.inj.
  rewrite <- (ascii_N_embedding c), <- (ascii_N_embedding c'). by f_equal.
Qed.

Lemma char_code_range c : 0 ≤ char_code c < 256.
Proof. unfold char_code. pose proof (N_ascii_bounded c). lia. Qed.

Lemma ascii_of_char_code c n : char_code c = n → ascii_of_Z n = c.
Proof.
  intros <-. unfold ascii_of_Z, char_code. by rewrite N2Z.id, ascii_N_embedding.
Qed.

Lemma sapp_assoc (a b c : string) : (a +:+ b) +:+ c = a +:+ (b +:+ c).
Proof. induction a as [|x a IH]; [done|]. unfold String.append in *. simpl. by rewrite IH. Qed.

Lemma sapp_nil_r (a : string) : a +:+ "" = a.
Proof. induction a as [|x a IH]; [done|]. unfold String.append in *. simpl. by rewrite IH. Qed.

Lemma sapp_cons (c : ascii) (a b : string) : String c a +:+ b = String c (a +:+ b).
Proof. done. Qed.

Lemma slength_app (a b : string) :
  String.length (a +:+ b) = (String.length a + String.length b)%nat.
Proof. induction a as [|x a IH]; [done|]. rewrite sapp_cons. simpl. by rewrite IH. Qed.

Lemma all_chars_app p a b : all_chars p (a +:+ b) = all_chars p a && all_chars p b.
Proof. induction a as [|c a IH]; [done|]. rewrite sapp_cons. simpl. by rewrite IH, andb_assoc. Qed.

Lemma all_chars_weaken (p q : ascii → bool) s :
  (∀ c, p c = true → q c = true) → all_chars p s = true → all_chars q s = true.
Proof.
  intros Hpq. induction s as [|c s IH]; simpl; [done|].
  intros [Hc Hs]%andb_true_iff. by rewrite Hpq, IH.
Qed.

Lemma strip_prefix_app p s : strip_prefix p (p +:+ s) = Some s.
Proof.
  induction p as [|c p IH]; [by destruct s|].
  rewrite sapp_cons. simpl. by rewrite decide_True.
Qed.

(** ** String literals *)

(** Decoding an escaped character gives the character back. *)
Lemma scan_str_escape c s :
  scan_str (json_escape_char true c +:+ s) = cons_char c (scan_str s).
Proof. destruct c as [[] [] [] [] [] [] [] []]; reflexivity. Qed.

Lemma scan_str_json_string x s :
  scan_str (string_map (json_escape_char true) x +:+ dquote +:+ s) = Some (x, s).
Proof.
  induction x as [|c x IH]; [done|].
  simpl string_map. rewrite sapp_assoc, scan_str_escape, IH. done.
Qed.

(** ** Numbers *)

Definition num_stop (s : string) : Prop :=
  match s with EmptyString => True | String c _ => is_num_char c = false end.

Lemma take_num_app t s :
  all_chars is_num_char t = true → num_stop s → take_num (t +:+ s) = (t, s).
Proof.
  intros Ht Hs. induction t as [|c t IH]; simpl in Ht.
  - destruct s as [|c s]; [done|]. change (EmptyString +:+ String c s) with (String c s).
    simpl in *. by rewrite Hs.
  - apply andb_true_iff in Ht as [Hc Ht]. rewrite sapp_cons. simpl.
    by rewrite Hc, (IH Ht).
Qed.

Lemma uint_chars (P : ascii → bool) d :
  (∀ c, is_digit c = true → P c = true) → all_chars P (NilEmpty.string_of_uint d) = true.
Proof. intros H. induction d; simpl; rewrite ?IHd, ?andb_true_r; auto. Qed.

Lemma string_of_Z_chars z : all_chars is_num_char (string_of_Z z) = true.
Proof.
  assert (∀ d, all_chars is_num_char (NilZero.string_of_uint d) = true) as Hu.
  { intros d. assert (all_chars is_num_char (NilEmpty.string_of_uint d) = true).
    { apply uint_chars. intros c Hc. unfold is_num_char. by rewrite Hc. }
    destruct d; done. }
  unfold string_of_Z. destruct (Z.to_int z); simpl; rewrite ?Hu; done.
Qed.

Lemma Z_of_string_of_Z z : Z_of_string (string_of_Z z) = Some z.
Proof.
  unfold Z_of_string, string_of_Z. rewrite NilZero.isi.
  - cbn. by rewrite DecimalZ.of_to.
  - destruct z; simpl; try done. intros [= H].
    by apply (DecimalPos.Unsigned.to_uint_nonnil p).
  - destruct z; simpl; try done. intros [= H].
    by apply (DecimalPos.Unsigned.to_uint_nonnil p).
Qed.

Lemma nzhead_not_D0 d d' : Decimal.nzhead d ≠ Decimal.D0 d'.
Proof. induction d; simpl; done. Qed.

Lemma to_uint_head p d : Pos.to_uint p ≠ Decimal.D0 d.
Proof.
  intros H. assert (Decimal.unorm (Pos.to_uint p) = Pos.to_uint p) as Hn.
  { pose proof (DecimalZ.to_of (Z.to_int (Z.pos p))) as Ht.
    rewrite DecimalZ.of_to in Ht. simpl in Ht. congruence. }
  rewrite H in Hn. unfold Decimal.unorm in Hn.
  destruct (Decimal.nzhead (Decimal.D0 d)) eqn:E; try done.
  - assert (d = Decimal.Nil) as -> by congruence.
    assert (Z.of_int (Z.to_int (Z.pos p)) = 0) as Hz by (simpl; by rewrite H).
    by rewrite DecimalZ.of_to in Hz.
  - by apply nzhead_not_D0 in E.
Qed.

Lemma drop_digits_uint d : drop_digits (NilEmpty.string_of_uint d) = "".
Proof. by induction d. Qed.

Lemma int_part_uint p : int_part (NilEmpty.string_of_uint (Pos.to_uint p)) = Some "".
Proof.
  pose proof (to_uint_head p) as Hh. pose proof (DecimalPos.Unsigned.to_uint_nonnil p).
  destruct (Pos.to_uint p) as [|d|d|d|d|d|d|d|d|d|d]; try done;
    [by destruct (Hh d)|..];
    unfold int_part; simpl; by rewrite drop_digits_uint.
Qed.

Lemma is_int_token_of_Z z : is_int_token (string_of_Z z) = true.
Proof.
  assert (∀ p, NilZero.string_of_uint (Pos.to_uint p) = NilEmpty.string_of_uint (Pos.to_uint p)) as Hs.
  { intros p. pose proof (DecimalPos.Unsigned.to_uint_nonnil p).
    by destruct (Pos.to_uint p). }
  unfold is_int_token, string_of_Z. destruct z as [|p|p]; [done|..]; simpl; rewrite Hs.
  - by rewrite int_part_uint.
  - pose proof (int_part_uint p) as Hp. pose proof (to_uint_head p) as Hh.
    pose proof (DecimalPos.Unsigned.to_uint_nonnil p).
    destruct (Pos.to_uint p) as [|d|d|d|d|d|d|d|d|d|d]; try done; [by destruct (Hh d)|..];
      unfold int_part in *; simpl in *; by rewrite drop_digits_uint.
Qed.

Lemma float_token_not_int t : is_float_token t = true → is_int_token t = false.
Proof. unfold is_float_token, is_int_token. by destruct (int_part t) as [[|]|]. Qed.

(** A number token starts neither [null] nor [-Infinity] nor another literal. *)
Lemma parse_scalar_number {rt : PyFloatRuntime} t s v :
  all_chars is_num_char t = true → is_Some (int_part t) →
  num_stop s → parse_number (t +:+ s) = v → parse_scalar (t +:+ s) = v.
Proof.
  intros Hc [r Hi] Hs Hv.
  destruct t as [|c t]; [by vm_compute in Hi|].
  simpl in Hc. apply andb_true_iff in Hc as [Hc1 Hc2].
  rewrite !sapp_cons in *. unfold parse_scalar. simpl strip_prefix.
  rewrite 5!decide_False by (intros <-; discriminate Hc1).
  destruct (decide ("-"%char = c)) as [<-|]; [|done].
  destruct t as [|c2 t]; [by vm_compute in Hi|].
  simpl in Hc2. apply andb_true_iff in Hc2 as [Hc2 _].
  rewrite sapp_cons in *. simpl. rewrite decide_False by (intros <-; discriminate Hc2). done.
Qed.

Lemma is_int_token_int_part t : is_int_token t = true → is_Some (int_part t).
Proof. unfold is_int_token. by destruct (int_part t); eauto. Qed.
Lemma is_float_token_int_part t : is_float_token t = true → is_Some (int_part t).
Proof. unfold is_float_token. by destruct (int_part t); eauto. Qed.

Lemma parse_scalar_int {rt : PyFloatRuntime} z s :
  num_stop s → parse_scalar (string_of_Z z +:+ s) = Some (PInt z, s).
Proof.
  intros Hs. apply parse_scalar_number;
    auto using string_of_Z_chars, is_int_token_int_part, is_int_token_of_Z.
  unfold parse_number. rewrite take_num_app by auto using string_of_Z_chars.
  by rewrite is_int_token_of_Z, Z_of_string_of_Z.
Qed.

Lemma parse_scalar_float {rt : PyFloatRuntime} f s :
  float_valid f = true → num_stop s →
  parse_scalar (json_float f +:+ s) = Some (PFloat f, s).
Proof.
  intros Hv Hs. destruct (float_finite f) eqn:Hf; [|by destruct f as [| [] | |]].
  assert (json_float f = float_repr f) as -> by (by destruct f).
  apply parse_scalar_number; auto using float_repr_chars, is_float_token_int_part, float_repr_token.
  unfold parse_number. rewrite take_num_app by auto using float_repr_chars.
  by rewrite float_token_not_int, float_repr_token, float_of_repr by auto using float_repr_token.
Qed.

(** ** The round trip *)

(** A JSON value as [json.loads] can return it: string keys, no key twice, every
    float a binary64 datum. *)
Fixpoint json_ok (v : pyval) : Prop :=
  match v with
  | PFloat f => float_valid f = true
  | PList l => foldr (λ x P, json_ok x ∧ P) True l
  | PDict d => NoDup (d.*1) ∧ foldr (λ kv P, is_str (match kv.1 with KStr s => PStr s | KOther _ => PNone end) = true
                                           ∧ json_ok kv.2 ∧ P) True d
  | POther _ => False
  | _ => True
  end.

(** The value with the items of every dictionary sorted by key. *)
Fixpoint sorted_json (v : pyval) : pyval :=
  match v with
  | PList l => PList (map sorted_json l)
  | PDict d => PDict (sort_items (map (λ kv, (kv.1, sorted_json kv.2)) d))
  | _ => v
  end.

Definition key_is_str (k : pykey) : Prop := match k with KStr _ => True | KOther _ => False end.

Lemma json_ok_list l : json_ok (PList l) ↔ Forall json_ok l.
Proof. simpl. induction l; simpl; [by split|]. rewrite Forall_cons. naive_solver. Qed.

Lemma json_ok_dict d :
  json_ok (PDict d) ↔ NoDup d.*1 ∧ Forall (λ kv, key_is_str kv.1 ∧ json_ok kv.2) d.
Proof.
  simpl. apply and_iff_compat_l.
  induction d as [|[[k|k] x] d IH]; simpl; [by split|..]; rewrite Forall_cons; naive_solver.
Qed.

Lemma json_ok_serializable v : json_ok v → json_serializable true v = true.
Proof.
  induction v as [| | | | |l IH|d IH|] using pyval_ind'; intros Hok; try done.
  - apply json_ok_list in Hok. simpl. apply forallb_forall. intros x Hx%list_elem_of_In.
    rewrite Forall_forall in IH, Hok. by apply IH, Hok.
  - apply json_ok_dict in Hok as [_ Hok]. simpl. apply forallb_forall. intros x Hx%list_elem_of_In.
    rewrite Forall_forall in IH, Hok. destruct (Hok x Hx) as [Hk Hv].
    destruct x as [[k|k] v]; [|done]. by apply (IH (KStr k, v)).
Qed.

Lemma dict_set_keys k (v : pyval) d x : x ∈ (dict_set k v d).*1 → x = k ∨ x ∈ d.*1.
Proof.
  induction d as [|[k' v'] d IH]; csimpl; [set_solver|].
  destruct (decide (k = k')) as [->|Hne]; csimpl; [set_solver|].
  intros [->|Hx]%elem_of_cons; [set_solver|]. destruct (IH Hx); set_solver.
Qed.

Lemma dict_set_json_ok k v d :
  json_ok (PDict d) → json_ok v → json_ok (PDict (dict_set (KStr k) v d)).
Proof.
  rewrite !json_ok_dict. intros [Hnd Hall] Hv.
  induction d as [|[k' v'] d IH]; csimpl.
  - split; [constructor; [apply not_elem_of_nil|constructor]|]. by apply Forall_singleton.
  - apply NoDup_cons in Hnd as [Hk Hnd]. apply Forall_cons in Hall as [[Hk' Hv'] Hall].
    destruct (decide (KStr k = k')) as [<-|Hne]; csimpl.
    + split; [by apply NoDup_cons|]. by apply Forall_cons.
    + destruct (IH Hnd Hall) as [H1 H2]. split; [|by apply Forall_cons].
      apply NoDup_cons. split; [|done]. intros [->|Hin]%dict_set_keys; done.
Qed.

Lemma dict_of_pairs_json_ok l :
  Forall (λ kv, key_is_str kv.1 ∧ json_ok kv.2) l → json_ok (PDict (dict_of_pairs l)).
Proof.
  unfold dict_of_pairs. assert (json_ok (PDict [])) as H0 by (by apply json_ok_dict; repeat constructor). revert H0.
  generalize (@nil (pykey * pyval)). induction l as [|[[k|k] v] l IH]; intros d Hd Hl; [done| |].
  - apply Forall_cons in Hl as [[_ Hv] Hl]. simpl. apply IH; [|done]. by apply dict_set_json_ok.
  - by apply Forall_cons in Hl as [[[] _] _].
Qed.

Lemma sort_items_perm {A} (d : list (pykey * A)) : sort_items d ≡ₚ d.
Proof. apply merge_sort_Permutation. Qed.

Lemma sort_items_map {A B} (f : A → B) (d : list (pykey * A)) :
  sort_items (map (λ kv, (kv.1, f kv.2)) d) = map (λ kv, (kv.1, f kv.2)) (sort_items d).
Proof. apply (merge_sort_map key_le key_le). done. Qed.

Lemma items_map_keys {A B} (f : A → B) (d : list (pykey * A)) :
  (map (λ kv, (kv.1, f kv.2)) d).*1 = d.*1.
Proof. induction d as [|[k v] d IH]; simpl; [done|]. by f_equal. Qed.

Lemma dict_set_fresh {A} k (v : A) d : k ∉ d.*1 → dict_set k v d = d ++ [(k, v)].
Proof.
  induction d as [|[k' v'] d IH]; simpl; [done|]. intros [Hk Hd]%not_elem_of_cons.
  by rewrite decide_False, IH.
Qed.

Lemma dict_of_pairs_NoDup {A} (d : list (pykey * A)) : NoDup d.*1 → dict_of_pairs d = d.
Proof.
  unfold dict_of_pairs. change d with ([] ++ d) at 1 3. generalize (@nil (pykey * A)).
  induction d as [|[k v] d IH]; intros acc Hnd; simpl; [by rewrite app_nil_r|].
  rewrite fmap_app in Hnd. simpl in Hnd.
  rewrite dict_set_fresh.
  - rewrite IH; [by rewrite <- app_assoc|].
    rewrite <- app_assoc, fmap_app. done.
  - apply NoDup_app in Hnd as (_ & Hd & _). intros Hin. by apply (Hd _ Hin), list_elem_of_here.
Qed.

Section roundtrip.
Context {rt : PyFloatRuntime}.
Abbreviation text := (json_text true true).

Definition entry (kv : pykey * pyval) : string :=
  json_string true (key_text kv.1) +:+ ":" +:+ text kv.2.

Lemma text_dict d :
  text (PDict d) = "{" +:+ join "," (map entry (sort_items d)) +:+ "}".
Proof. simpl. rewrite sort_items_map, map_map. done. Qed.

Lemma sorted_json_dict d :
  sorted_json (PDict d) = PDict (map (λ kv, (kv.1, sorted_json kv.2)) (sort_items d)).
Proof. simpl. by rewrite sort_items_map. Qed.

(** The first character of a rendered value. *)
Definition value_head (s : string) : Prop :=
  match s with
  | String c _ => is_ws c = false ∧ c ≠ "]"%char ∧ c ≠ "}"%char
  | EmptyString => False
  end.

Lemma num_head t s :
  all_chars is_num_char t = true → is_Some (int_part t) → value_head (t +:+ s).
Proof.
  intros Ht [r Hr]. destruct t as [|c t]; [by vm_compute in Hr|].
  simpl in *. apply andb_true_iff in Ht as [Hc _]. clear -Hc.
  destruct c as [[] [] [] [] [] [] [] []]; try discriminate Hc; done.
Qed.

Lemma text_head v s : json_ok v → value_head (text v +:+ s).
Proof.
  destruct v as [|[]|z|f|x|l|d|t]; intros Hv; try done.
  - simpl. apply num_head; auto using string_of_Z_chars, is_int_token_int_part, is_int_token_of_Z.
  - simpl in *. destruct (float_finite f) eqn:Hf; [|by destruct f as [|[]| |]].
    assert (json_float f = float_repr f) as -> by (by destruct f).
    apply num_head; auto using float_repr_chars, is_float_token_int_part, float_repr_token.
Qed.

Lemma skip_ws_head s : value_head s → skip_ws s = s.
Proof. destruct s as [|c s]; [done|]. intros (Hc & _). simpl. by rewrite Hc. Qed.

Lemma text_nonempty v : json_ok v → (1 ≤ String.length (text v))%nat.
Proof.
  intros Hv. pose proof (text_head v "" Hv) as Hh. rewrite sapp_nil_r in Hh.
  destruct (text v); [done|]. simpl. lia.
Qed.

(** What the decoder does on the text of [v], with enough fuel. *)
Definition decodes (v : pyval) : Prop := ∀ n s,
  (2 * String.length (text v) ≤ n)%nat → num_stop s →
  parse_value n (text v +:+ s) = Some (sorted_json v, s).

Lemma parse_value_number n t s :
  all_chars is_num_char t = true → is_Some (int_part t) →
  parse_value (S n) (t +:+ s) = parse_scalar (t +:+ s).
Proof.
  intros Ht [r Hr]. destruct t as [|c t]; [by vm_compute in Hr|].
  simpl in Ht. apply andb_true_iff in Ht as [Hc _].
  rewrite sapp_cons. generalize (t +:+ s). intros u. clear -Hc.
  destruct c as [[] [] [] [] [] [] [] []]; try discriminate Hc; reflexivity.
Qed.

Lemma parse_elems_text l s n :
  l ≠ [] → Forall json_ok l → Forall decodes l →
  (2 * String.length (join "," (map text l)) + 1 ≤ n)%nat →
  parse_elems n (join "," (map text l) +:+ "]" +:+ s) = Some (map sorted_json l, s).
Proof.
  intros Hne Hok Hdec. revert n Hne.
  induction l as [|v l IH]; intros n Hne Hn; [done|].
  inversion_clear Hok as [|? ? Hv Hl]. inversion_clear Hdec as [|? ? Dv Dl].
  destruct n as [|n]; [lia|]. destruct l as [|w l].
  - simpl in *. rewrite Dv; [done|lia|done].
  - assert (value_head (join "," (map text (w :: l)) +:+ "]" +:+ s)) as Hhead.
    { inversion_clear Hl as [|? ? Hw _]. destruct l as [|u l]; simpl; rewrite ?sapp_assoc;
        by apply text_head. }
    specialize (IH Hl Dl n ltac:(done)).
    change (join "," (map text (v :: w :: l)))
      with (text v +:+ "," +:+ join "," (map text (w :: l))) in *.
    remember (join "," (map text (w :: l))) as J eqn:HJ. clear HJ.
    rewrite !slength_app in Hn. simpl (String.length ",") in Hn.
    rewrite !sapp_assoc. simpl parse_elems.
    rewrite Dv; [|pose proof (text_nonempty _ Hv); lia|done].
    change ("," +:+ ?t) with (String ","%char t). simpl.
    rewrite skip_ws_head by done. rewrite IH by lia. done.
Qed.

Lemma entry_length k v :
  (String.length (text v) + 3 ≤ String.length (entry (k, v)))%nat.
Proof.
  unfold entry, json_string. cbn [snd]. rewrite !slength_app.
  change (String.length dquote) with 1%nat. change (String.length ":") with 1%nat. lia.
Qed.

Lemma parse_members_text d s n :
  d ≠ [] → Forall (λ kv, key_is_str kv.1 ∧ json_ok kv.2) d → Forall (λ kv, decodes kv.2) d →
  (2 * String.length (join "," (map entry d)) + 1 ≤ n)%nat →
  parse_members n (join "," (map entry d) +:+ "}" +:+ s) =
    Some (map (λ kv, (kv.1, sorted_json kv.2)) d, s).
Proof.
  intros Hne Hok Hdec. revert n Hne.
  induction d as [|[[k|k] v] d IH]; intros n Hne Hn; [done| |].
  2: { inversion_clear Hok as [|? ? [Hk _] _]. done. }
  inversion_clear Hok as [|? ? [_ Hv] Hl]. inversion_clear Hdec as [|? ? Dv Dl].
  simpl in Hv, Dv. pose proof (entry_length (KStr k) v) as He.
  destruct n as [|n]; [lia|]. destruct d as [|w d].
  - change (join "," (map entry [?x])) with (entry x) in *. unfold entry, json_string. simpl key_text. rewrite !sapp_assoc.
    change (dquote +:+ ?t) with (String quote_char t). simpl parse_members.
    change (String quote_char ?t) with (dquote +:+ t).
    rewrite scan_str_json_string.
    change (":" +:+ ?t) with (String ":"%char t). simpl.
    rewrite skip_ws_head by (by apply text_head).
    rewrite Dv; [done|lia|done].
  - assert (value_head (join "," (map entry (w :: d)) +:+ "}" +:+ s)) as Hhead
      by (destruct d; done).
    specialize (IH Hl Dl n ltac:(done)).
    change (join "," (map entry ((KStr k, v) :: w :: d)))
      with (entry (KStr k, v) +:+ "," +:+ join "," (map entry (w :: d))) in *.
    remember (join "," (map entry (w :: d))) as J eqn:HJ. clear HJ.
    rewrite !slength_app in Hn. simpl (String.length ",") in Hn.
    unfold entry, json_string. simpl key_text. rewrite !sapp_assoc.
    change (dquote +:+ ?t) with (String quote_char t). simpl parse_members.
    change (String quote_char ?t) with (dquote +:+ t). rewrite scan_str_json_string.
    change (":" +:+ ?t) with (String ":"%char t). simpl.
    rewrite skip_ws_head by (by apply text_head). rewrite Dv; [|lia|done].
    change ("," +:+ ?t) with (String ","%char t). simpl.
    rewrite skip_ws_head by done. rewrite IH by lia. done.
Qed.

Lemma sort_items_Forall {A} (P : pykey * A → Prop) d :
  Forall P d → Forall P (sort_items d).
Proof. by rewrite sort_items_perm. Qed.

Lemma list_decodes l : json_ok (PList l) → Forall decodes l → decodes (PList l).
Proof.
  intros Hok Hdec n s Hn _. pose proof (text_nonempty _ Hok) as Hlen. destruct n as [|n]; [lia|]. clear Hlen.
  apply json_ok_list in Hok. destruct l as [|v l]; [done|].
  assert (value_head (join "," (map text (v :: l)) +:+ "]" +:+ s)) as Hhead.
  { inversion_clear Hok as [|? ? Hv _]. destruct l; simpl; rewrite ?sapp_assoc; by apply text_head. }
  pose proof (parse_elems_text (v :: l) s n ltac:(done) Hok Hdec) as Hpe.
  change (text (PList (v :: l))) with ("[" +:+ join "," (map text (v :: l)) +:+ "]") in *.
  change (sorted_json (PList (v :: l))) with (PList (map sorted_json (v :: l))).
  remember (join "," (map text (v :: l))) as J eqn:HJ. clear HJ.
  rewrite !slength_app in Hn. simpl in Hn. specialize (Hpe ltac:(lia)).
  rewrite !sapp_assoc. change ("[" +:+ ?t) with (String "["%char t). simpl parse_value.
  rewrite skip_ws_head by done.
  destruct (J +:+ "]" +:+ s) as [|c r]; [done|]. destruct Hhead as (_ & Hc & _).
  clear -Hc Hpe. by destruct c as [[] [] [] [] [] [] [] []]; try rewrite Hpe.
Qed.

Lemma dict_decodes d : json_ok (PDict d) → Forall (λ kv, decodes kv.2) d → decodes (PDict d).
Proof.
  intros Hok Hdec n s Hn _. pose proof (text_nonempty _ Hok) as Hlen. destruct n as [|n]; [lia|]. clear Hlen.
  apply json_ok_dict in Hok as [Hnd Hok].
  rewrite text_dict, sorted_json_dict in *.
  assert (dict_of_pairs (map (λ kv, (kv.1, sorted_json kv.2)) (sort_items d))
          = map (λ kv, (kv.1, sorted_json kv.2)) (sort_items d)) as Hnd'.
  { apply dict_of_pairs_NoDup.
    rewrite items_map_keys. by rewrite sort_items_perm. }
  apply sort_items_Forall in Hok, Hdec.
  remember (sort_items d) as d' eqn:Hd'. clear Hd' Hnd d.
  destruct d' as [|[k v] d]; [done|].
  assert (value_head (join "," (map entry ((k, v) :: d)) +:+ "}" +:+ s)) as Hhead
    by (destruct d; done).
  pose proof (parse_members_text ((k, v) :: d) s n ltac:(done) Hok Hdec) as Hpm.
  remember (join "," (map entry ((k, v) :: d))) as J eqn:HJ. clear HJ.
  rewrite !slength_app in Hn. simpl in Hn. specialize (Hpm ltac:(lia)).
  rewrite !sapp_assoc. change ("{" +:+ ?t) with (String "{"%char t). simpl parse_value.
  rewrite skip_ws_head by done.
  destruct (J +:+ "}" +:+ s) as [|c r]; [done|]. destruct Hhead as (_ & _ & Hc).
  clear -Hc Hpm Hnd'. by destruct c as [[] [] [] [] [] [] [] []]; try rewrite Hpm, Hnd'.
Qed.

Lemma json_text_decodes v : json_ok v → decodes v.
Proof.
  induction v as [|b|z|f|x|l IH|d IH|t] using pyval_ind'; intros Hok n s Hn Hs;
    pose proof (text_nonempty _ Hok) as Hlen; destruct n as [|n]; try lia.
  - done.
  - by destruct b.
  - simpl json_text. rewrite parse_value_number;
      auto using parse_scalar_int, string_of_Z_chars, is_int_token_int_part, is_int_token_of_Z.
  - simpl json_text in *. destruct (float_finite f) eqn:Hf; [|by destruct f as [|[]| |]].
    simpl sorted_json. rewrite <- (parse_scalar_float f s) by done.
    assert (json_float f = float_repr f) as -> by (by destruct f).
    apply parse_value_number;
      auto using float_repr_chars, is_float_token_int_part, float_repr_token.
  - simpl json_text. unfold json_string. rewrite !sapp_assoc.
    change (dquote +:+ ?t) with (String quote_char t). simpl parse_value.
    change (String quote_char ?t) with (dquote +:+ t). by rewrite scan_str_json_string.
  - apply list_decodes; [done| |done..]. apply json_ok_list in Hok.
    clear -IH Hok. induction IH; inversion_clear Hok; constructor; auto.
  - apply dict_decodes; [done| |done..]. apply json_ok_dict in Hok as [_ Hok].
    clear -IH Hok. induction IH; inversion_clear Hok; constructor; naive_solver.
  - done.
Qed.

(** Decoding what [json.dumps(v, sort_keys=True)] wrote gives [v] back, with the
    items of every dictionary in sorted order. *)
Lemma json_loads_text v : json_ok v → json_loads (text v) = Ok (sorted_json v).
Proof.
  intros Hok. unfold json_loads.
  rewrite skip_ws_head by (rewrite <- (sapp_nil_r (text v)); by apply text_head).
  rewrite <- (sapp_nil_r (text v)) at 2. by rewrite json_text_decodes by (done || lia).
Qed.

(** Two values with the same text are the same up to the order of dictionary items. *)
Lemma json_text_inj v w :
  json_ok v → json_ok w → text v = text w → sorted_json v = sorted_json w.
Proof.
  intros Hv Hw Heq. apply json_loads_text in Hv, Hw. congruence.
Qed.
End roundtrip.

(** ** Canonical texts *)

Lemma sort_items_perm_eq {A} (d1 d2 : list (pykey * A)) :
  d1 ≡ₚ d2 → NoDup d1.*1 → Forall (λ kv, key_is_str kv.1) d1 → sort_items d1 = sort_items d2.
Proof.
  intros Hp Hnd Hk.
  apply (StronglySorted_unique_strong key_le);
    [|by apply (StronglySorted_merge_sort _)|by apply (StronglySorted_merge_sort _)|
     by rewrite !sort_items_perm].
  intros [k x] [k' x'] Hx Hx' H1 H2. rewrite sort_items_perm in Hx.
  rewrite sort_items_perm, <- Hp in Hx'.
  assert (key_text k = key_text k') as Hkk by (by apply (anti_symm String.le)).
  rewrite Forall_forall in Hk. pose proof (Hk _ Hx) as Hs. pose proof (Hk _ Hx') as Hs'.
  destruct k as [k|], k' as [k'|]; try done. simpl in Hkk. subst k'.
  f_equal. clear -Hnd Hx Hx'. induction d1 as [|[k1 y] d IH]; [by apply not_elem_of_nil in Hx|].
  simpl in Hnd. apply NoDup_cons in Hnd as [Hn Hnd].
  apply elem_of_cons in Hx as [Hx|Hx], Hx' as [Hx'|Hx']; simplify_eq; auto.
  - destruct Hn. apply list_elem_of_fmap. by exists (KStr k, x').
  - destruct Hn. apply list_elem_of_fmap. by exists (KStr k, x).
Qed.

Lemma items_map_Forall {A B} (f : A → B) (P : pykey → Prop) (d : list (pykey * A)) :
  Forall (λ kv, P kv.1) d → Forall (λ kv, P kv.1) (map (λ kv, (kv.1, f kv.2)) d).
Proof. induction 1; simpl; by constructor. Qed.

Lemma sort_items_idemp {A} (d : list (pykey * A)) :
  NoDup d.*1 → Forall (λ kv, key_is_str kv.1) d → sort_items (sort_items d) = sort_items d.
Proof.
  intros Hnd Hk. apply sort_items_perm_eq; [apply sort_items_perm| |].
  - by rewrite sort_items_perm.
  - by apply sort_items_Forall.
Qed.

(** Rendering only sees a value up to the order of dictionary items. *)
Lemma json_text_sorted {rt : PyFloatRuntime} v :
  json_ok v → json_text true true (sorted_json v) = json_text true true v.
Proof.
  induction v as [| | | | |l IH|d IH|] using pyval_ind'; intros Hok; try done.
  - apply json_ok_list in Hok. simpl. rewrite map_map. do 3 f_equal.
    apply map_ext_Forall. clear -IH Hok. induction IH; inversion_clear Hok; constructor; auto.
  - apply json_ok_dict in Hok as [Hnd Hok]. rewrite sorted_json_dict, !text_dict.
    do 3 f_equal. rewrite sort_items_map, sort_items_idemp, map_map.
    + apply map_ext_Forall, sort_items_Forall. clear -IH Hok.
      induction IH as [|[k v] d Hv _ IHd]; inversion_clear Hok as [|? ? [Hk Hj] Hd]; constructor; auto.
      unfold entry. simpl in *. by rewrite Hv.
    + done.
    + eapply Forall_impl; [done|]. naive_solver.
Qed.

(** The canonical text identifies a value exactly, up to item order. *)
Lemma json_text_eq_iff {rt : PyFloatRuntime} v w :
  json_ok v → json_ok w →
  json_text true true v = json_text true true w ↔ sorted_json v = sorted_json w.
Proof.
  intros Hv Hw. split; [by apply json_text_inj|].
  intros Heq. rewrite <- (json_text_sorted v), <- (json_text_sorted w) by done. by rewrite Heq.
Qed.

(** Reordering the items of a dictionary does not change its sorted form. *)
Lemma sorted_json_perm d d' :
  json_ok (PDict d) → d ≡ₚ d' → sorted_json (PDict d) = sorted_json (PDict d').
Proof.
  intros [Hnd Hok]%json_ok_dict Hp. simpl. f_equal. apply sort_items_perm_eq.
  - by apply Permutation_map.
  - by rewrite items_map_keys.
  - apply items_map_Forall. eapply Forall_impl; [done|]. naive_solver.
Qed.

(** ** A runtime meeting the guarantees of [PyFloatRuntime]

    It writes a float as [1e] and a number coding sign, mantissa and exponent: not
    what CPython prints, but enough to instantiate the parameter on concrete inputs. *)
Definition float_code (f : spec_float) : positive :=
  match f with
  | S754_zero s => encode (s, None : option (positive * Z))
  | S754_finite s m e => encode (s, Some (m, e))
  | _ => 1%positive
  end.

Definition float_decode (p : positive) : spec_float :=
  match (decode p : option (bool * option (positive * Z))) with
  | Some (s, None) => S754_zero s
  | Some (s, Some (m, e)) => if float_valid (S754_finite s m e) then S754_finite s m e else S754_nan
  | None => S754_nan
  end.

Definition coded_repr (f : spec_float) : string := "1e" +:+ string_of_Z (Z.pos (float_code f)).
Definition coded_parse (t : string) : spec_float :=
  match strip_prefix "1e" t with
  | Some t' => match Z_of_string t' with Some (Z.pos p) => float_decode p | _ => S754_nan end
  | None => S754_nan
  end.

Lemma coded_repr_token p : is_float_token ("1e" +:+ string_of_Z (Z.pos p)) = true.
Proof.
  change ("1e" +:+ ?t) with (String "1"%char (String "e"%char t)).
  unfold is_float_token. simpl. unfold string_of_Z. simpl.
  pose proof (DecimalPos.Unsigned.to_uint_nonnil p).
  destruct (Pos.to_uint p); simpl; rewrite ?drop_digits_uint; done.
Qed.

#[refine] Definition coded_float_runtime : PyFloatRuntime :=
  {| float_repr := coded_repr; float_of_string := coded_parse |}.
Proof.
  - intros f _ _. apply coded_repr_token.
  - intros f _ _. unfold coded_repr.
    change ("1e" +:+ ?t) with (String "1"%char (String "e"%char t)). apply string_of_Z_chars.
  - intros f Hf Hv. unfold coded_parse, coded_repr. rewrite strip_prefix_app, Z_of_string_of_Z.
    unfold float_decode, float_code. destruct f; try done; rewrite decode_encode; [done|by rewrite Hv].
  - intros t. unfold coded_parse, float_decode. repeat case_match; done.
Defined.
