(* ===== verification/PyStr.v ===== *)
(** Python [str] methods the program uses, on strings of code points below 256. *)

From Stdlib Require Import DecimalString DecimalPos DecimalZ.
From S2P Require Import Prelude PyJson PyJsonLoads.

(** [str.isspace] of one character, as [strip] uses it. *)
Definition py_space (c : ascii) : bool :=
  let n := char_code c in
  ((9 <=? n) && (n <=? 13)) || ((28 <=? n) && (n <=? 32)) || (n =? 133) || (n =? 160).

Fixpoint lstrip_by (p : ascii → bool) (s : string) : string :=
  match s with
  | String c s' => if p c then lstrip_by p s' else s
  | EmptyString => EmptyString
  end.

Fixpoint rstrip_by (p : ascii → bool) (s : string) : string :=
  match s with
  | String c s' =>
      match rstrip_by p s' with
      | EmptyString => if p c then EmptyString else String c EmptyString
      | t => String c t
      end
  | EmptyString => EmptyString
  end.

(** [s.strip()], [s.rstrip("/")] *)
Definition py_strip (s : string) : string := rstrip_by py_space (lstrip_by py_space s).
Definition rstrip_slash (s : string) : string := rstrip_by (λ c, bool_decide (c = "/"%char)) s.

(** [s.lower()]: ASCII letters and the Latin-1 capitals. *)
Definition lower_char (c : ascii) : ascii :=
  let n := char_code c in
  if ((65 <=? n) && (n <=? 90)) || ((192 <=? n) && (n <=? 222) && negb (n =? 215))
  then ascii_of_Z (n + 32) else c.

Fixpoint py_lower (s : string) : string :=
  match s with
  | String c s' => String (lower_char c) (py_lower s')
  | EmptyString => EmptyString
  end.

(** [s.partition(c)]: before, whether found, after. *)
Fixpoint partition (sep : ascii) (s : string) : string * bool * string :=
  match s with
  | EmptyString => (EmptyString, false, EmptyString)
  | String c s' =>
      if decide (c = sep) then (EmptyString, true, s')
      else let '(a, f, b) := partition sep s' in (String c a, f, b)
  end.

(** [s.startswith(p)] *)
Definition startswith (p s : string) : bool := bool_decide (is_Some (strip_prefix p s)).

(** ** Lemmas *)

Lemma rstrip_by_app_stop p s c :
  p c = false → rstrip_by p (s +:+ String c EmptyString) = s +:+ String c EmptyString.
Proof.
  intros Hc. induction s as [|d s IH]; simpl.
  - change (EmptyString +:+ String c EmptyString) with (String c EmptyString). simpl. by rewrite Hc.
  - rewrite sapp_cons. simpl. rewrite IH. by destruct s.
Qed.

Lemma rstrip_by_app p s t : all_chars p t = true → rstrip_by p (s +:+ t) = rstrip_by p s.
Proof.
  intros Ht. assert (∀ u, all_chars p u = true → rstrip_by p u = "") as Hu.
  { induction u as [|c u IH]; simpl; [done|]. intros [Hc Hu]%andb_true_iff. by rewrite IH, Hc. }
  induction s as [|c s IH]; [by apply Hu|]. rewrite sapp_cons. simpl. by rewrite IH.
Qed.

Lemma rstrip_by_idemp p s : rstrip_by p (rstrip_by p s) = rstrip_by p s.
Proof.
  induction s as [|c s IH]; simpl; [done|].
  destruct (rstrip_by p s) as [|d t] eqn:E.
  - destruct (p c) eqn:Hc; simpl; [done|]. by rewrite Hc.
  - change (rstrip_by p (String c (String d t))) with
      (match rstrip_by p (String d t) with
       | EmptyString => if p c then EmptyString else String c EmptyString
       | t => String c t end). by rewrite IH.
Qed.

(** ** [int(s)] on text: spaces around, a sign, digits with single underscores between *)

Fixpoint int_digits (acc : Z) (after_digit : bool) (s : string) : option Z :=
  match s with
  | EmptyString => if after_digit then Some acc else None
  | String c s' =>
      if is_digit c then int_digits (10 * acc + (char_code c - 48)) true s'
      else if after_digit && bool_decide (c = "_"%char) then int_digits acc false s'
      else None
  end.

Definition py_int (s : string) : res Z :=
  match
    match py_strip s with
    | String "-" s' => Z.opp <$> int_digits 0 false s'
    | String "+" s' => int_digits 0 false s'
    | s' => int_digits 0 false s'
    end
  with
  | Some z => Ok z
  | None => Raise (ValueError "invalid literal for int() with base 10")
  end.

Lemma int_digits_acc d : ∀ p b,
  d ≠ Decimal.Nil ∨ b = true →
  int_digits (Z.pos p) b (NilEmpty.string_of_uint d) = Some (Z.pos (Pos.of_uint_acc d p)).
Proof.
  induction d as [|d IH|d IH|d IH|d IH|d IH|d IH|d IH|d IH|d IH|d IH]; intros p b Hb;
    [destruct Hb as [Hb| ->]; [done|reflexivity]|..];
    cbn [Pos.of_uint_acc]; rewrite <- (IH _ true) by auto;
    cbn [NilEmpty.string_of_uint int_digits]; f_equal; unfold char_code; simpl; lia.
Qed.

Lemma int_digits_uint d : ∀ b,
  d ≠ Decimal.Nil ∨ b = true →
  int_digits 0 b (NilEmpty.string_of_uint d) = Some (Z.of_N (Pos.of_uint d)).
Proof.
  induction d as [|d IH|d IH|d IH|d IH|d IH|d IH|d IH|d IH|d IH|d IH]; intros b Hb;
    [destruct Hb as [Hb| ->]; [done|reflexivity]|by apply IH; right|..];
    apply (int_digits_acc d _ true); by right.
Qed.

Lemma lstrip_by_stop p s c : p c = false → lstrip_by p (String c s) = String c s.
Proof. intros Hc. simpl. by rewrite Hc. Qed.

Lemma rstrip_by_none p s : all_chars (λ c, negb (p c)) s = true → rstrip_by p s = s.
Proof.
  induction s as [|c s IH]; simpl; [done|]. intros [Hc Hs]%andb_true_iff.
  apply negb_true_iff in Hc. rewrite IH by done. destruct s; [by rewrite Hc|done].
Qed.

Lemma py_strip_none s : all_chars (λ c, negb (py_space c)) s = true → py_strip s = s.
Proof.
  intros Hs. unfold py_strip. assert (lstrip_by py_space s = s) as ->; [|by apply rstrip_by_none].
  destruct s as [|c s]; [done|]. apply lstrip_by_stop. simpl in Hs.
  by apply andb_true_iff in Hs as [Hc%negb_true_iff _].
Qed.

Lemma num_char_no_space c : is_num_char c = true → negb (py_space c) = true.
Proof. by destruct c as [[] [] [] [] [] [] [] []]. Qed.

(** [int(str(z)) = z] *)
Lemma py_int_of_Z z : py_int (string_of_Z z) = Ok z.
Proof.
  unfold py_int. rewrite py_strip_none.
  2: { apply (all_chars_weaken is_num_char); [apply num_char_no_space|apply string_of_Z_chars]. }
  assert (∀ p, NilZero.string_of_uint (Pos.to_uint p) = NilEmpty.string_of_uint (Pos.to_uint p)) as Hs.
  { intros p. pose proof (DecimalPos.Unsigned.to_uint_nonnil p). by destruct (Pos.to_uint p). }
  assert (∀ p, int_digits 0 false (NilEmpty.string_of_uint (Pos.to_uint p)) = Some (Z.pos p)) as Hd.
  { intros p. rewrite int_digits_uint by (left; apply DecimalPos.Unsigned.to_uint_nonnil).
    by rewrite DecimalPos.Unsigned.of_to. }
  unfold string_of_Z. destruct z as [|p|p]; [done|..]; cbn [Z.to_int NilZero.string_of_int];
    rewrite Hs; [|by rewrite Hd]. pose proof (Hd p) as Hp.
  destruct (NilEmpty.string_of_uint (Pos.to_uint p)) as [|c s]; [done|].
  destruct c as [[] [] [] [] [] [] [] []]; first [discriminate Hp|by rewrite Hp].
Qed.
