(* ===== verification/DateTime.v ===== *)
(** Instants as the program handles them: [datetime.now(timezone.utc)], its
    [isoformat()] text, and [datetime.fromisoformat] on stored or presented text.

    An aware instant is its UTC microsecond count and a naive one its own; the text
    conversions are an interface with the two documented facts the program relies on. *)

From S2P Require Import Prelude PyJson PyJsonLoads.

Inductive datetime :=
| Aware (utc : Z)
| Naive (local : Z).

(** Microseconds of [datetime.min] and [datetime.max] in UTC, from the epoch. *)
Definition datetime_min : Z := -62135596800000000.
Definition datetime_max : Z := 253402300799999999.
Definition in_calendar (t : Z) : Prop := datetime_min ≤ t ≤ datetime_max.

(** The separator the audit chain frames its fields with. *)
Definition unit_separator : ascii := "031"%char.
Definition plain_char (c : ascii) : bool := negb (bool_decide (c = unit_separator)).
Definition plain (s : string) : bool := all_chars plain_char s.

Class PyDatetime := {
  isoformat : Z → string;
  fromisoformat : string → option datetime;
  fromisoformat_iso t : in_calendar t → fromisoformat (isoformat t) = Some (Aware t);
  isoformat_plain t : plain (isoformat t) = true;
}.

(** [a <= b] on datetimes: a naive and an aware one do not compare. *)
Definition datetime_le (a b : datetime) : res bool :=
  match a, b with
  | Aware x, Aware y | Naive x, Naive y => Ok (x <=? y)
  | _, _ => Raise (TypeError "can't compare offset-naive and offset-aware datetimes")
  end.

(** [datetime.fromisoformat(s)] *)
Definition parse_datetime {dt : PyDatetime} (s : string) : res datetime :=
  match fromisoformat s with
  | Some d => Ok d
  | None => Raise (ValueError "Invalid isoformat string")
  end.

Definition microseconds : Z := 1000000.

(** An instance for concrete runs: the decimal microsecond count. *)
Lemma decimal_plain z : plain (string_of_Z z) = true.
Proof.
  apply (all_chars_weaken is_num_char); [|apply string_of_Z_chars].
  intros c. destruct (decide (c = unit_separator)) as [->|Hc]; [done|].
  intros _. unfold plain_char. by rewrite bool_decide_false.
Qed.

#[refine] Definition decimal_datetime : PyDatetime :=
  {| isoformat := string_of_Z; fromisoformat s := Aware <$> Z_of_string s |}.
Proof.
- intros t _. by rewrite Z_of_string_of_Z.
- apply decimal_plain.
Defined.
