(* ===== verification/Sha256.v ===== *)
(** SHA-256 ([hashlib.sha256]) on the UTF-8 encoding of a text, executable: 32-bit
    words are integers below 2^32 and every sum is reduced modulo 2^32. *)

From S2P Require Import Prelude PyJson PyJsonLoads.

Definition word_mod : Z := 2 ^ 32.
Definition add32 (x y : Z) : Z := (x + y) mod word_mod.
Definition rotr (n x : Z) : Z :=
  Z.lor (Z.shiftr x n) (Z.land (Z.shiftl x (32 - n)) (word_mod - 1)).

Definition sigma0 (x : Z) : Z := Z.lxor (rotr 7 x) (Z.lxor (rotr 18 x) (Z.shiftr x 3)).
Definition sigma1 (x : Z) : Z := Z.lxor (rotr 17 x) (Z.lxor (rotr 19 x) (Z.shiftr x 10)).
Definition Sigma0 (x : Z) : Z := Z.lxor (rotr 2 x) (Z.lxor (rotr 13 x) (rotr 22 x)).
Definition Sigma1 (x : Z) : Z := Z.lxor (rotr 6 x) (Z.lxor (rotr 11 x) (rotr 25 x)).
Definition ch (x y z : Z) : Z := Z.lxor (Z.land x y) (Z.land (word_mod - 1 - x) z).
Definition maj (x y z : Z) : Z := Z.lxor (Z.land x y) (Z.lxor (Z.land x z) (Z.land y z)).

(** The constants of the standard: the first 32 bits of the fractional parts of the
    cube roots of the first 64 primes, and of the square roots of the first 8. *)
Definition primes_below (n : Z) : list Z :=
  filter (λ p, forallb (λ d, negb (p mod d =? 0)) (seqZ 2 (Z.sqrt p - 1)) = true) (seqZ 2 (n - 2)).

(** The integer cube root of [x], by bisection between [lo] and [lo + 2^n]. *)
Fixpoint cbrt_from (n : nat) (lo x : Z) : Z :=
  match n with
  | O => lo
  | S n' => let mid := lo + 2 ^ Z.of_nat n' in cbrt_from n' (if mid ^ 3 <=? x then mid else lo) x
  end.

Definition round_constants : list Z := Eval vm_compute in
  map (λ p, cbrt_from 40 0 (p * 2 ^ 96) mod word_mod) (primes_below 312).

Definition initial_hash : list Z := Eval vm_compute in
  map (λ p, Z.sqrt (p * 2 ^ 64) mod word_mod) (primes_below 20).

Example constants_number : (length round_constants, length initial_hash) = (64, 8)%nat.
Proof. reflexivity. Qed.

(** The next word of the message schedule from the last sixteen, oldest first. *)
Definition next_word (w : list Z) : Z :=
  add32 (add32 (sigma1 (nth 14 w 0)) (nth 9 w 0)) (add32 (sigma0 (nth 1 w 0)) (nth 0 w 0)).

Definition sha_round (k w : Z) (h : list Z) : list Z :=
  match h with
  | [a; b; c; d; e; f; g; h] =>
      let t1 := add32 (add32 h (Sigma1 e)) (add32 (ch e f g) (add32 k w)) in
      let t2 := add32 (Sigma0 a) (maj a b c) in
      [add32 t1 t2; a; b; c; add32 d t1; e; f; g]
  | _ => h
  end.

Fixpoint sha_rounds (ks w h : list Z) : list Z :=
  match ks with
  | [] => h
  | k :: ks' => sha_rounds ks' (tail w ++ [next_word w]) (sha_round k (nth 0 w 0) h)
  end.

Definition compress (h block : list Z) : list Z :=
  zip_with add32 h (sha_rounds round_constants block h).

(** UTF-8 of a code point below 256. *)
Definition utf8_char (c : ascii) : list Z :=
  let n := char_code c in
  if n <? 128 then [n] else [192 + n / 64; 128 + n mod 64].

Fixpoint utf8_encode (s : string) : list Z :=
  match s with
  | EmptyString => []
  | String c s' => utf8_char c ++ utf8_encode s'
  end.

(** [n] bytes of [x], most significant first. *)
Fixpoint be_bytes (n : nat) (x : Z) : list Z :=
  match n with
  | O => []
  | S n' => be_bytes n' (x / 256) ++ [x mod 256]
  end.

Definition be_value (bs : list Z) : Z := foldl (λ acc b, 256 * acc + b) 0 bs.

(** A one bit, zeros up to 56 modulo 64, the bit length on eight bytes. *)
Definition pad (bs : list Z) : list Z :=
  let len := Z.of_nat (length bs) in
  bs ++ [128] ++ replicate (Z.to_nat ((55 - len) mod 64)) 0 ++ be_bytes 8 (8 * len).

Fixpoint words_of_bytes (bs : list Z) : list Z :=
  match bs with
  | a :: b :: c :: d :: bs' => be_value [a; b; c; d] :: words_of_bytes bs'
  | _ => []
  end.

(** Process sixteen words at a time; [n] bounds the number of blocks. *)
Fixpoint sha_blocks (n : nat) (ws h : list Z) : list Z :=
  match n, ws with
  | S n', _ :: _ => sha_blocks n' (drop 16 ws) (compress h (take 16 ws))
  | _, _ => h
  end.

(** [hashlib.sha256(bs).digest()] *)
Definition sha256_bytes (bs : list Z) : list Z :=
  let ws := words_of_bytes (pad bs) in
  mbind (be_bytes 4) (sha_blocks (length ws) ws initial_hash).

Definition hex_of_bytes (bs : list Z) : string := foldr (λ b s, hex2 b +:+ s) "" bs.

(** [hashlib.sha256(text.encode("utf-8")).hexdigest()] *)
Definition sha256_hex (s : string) : string := hex_of_bytes (sha256_bytes (utf8_encode s)).

(** [int.from_bytes(hashlib.sha256(text.encode("utf-8")).digest()[:8], "big")] *)
Definition sha256_prefix64 (s : string) : Z := be_value (take 8 (sha256_bytes (utf8_encode s))).

#[global] Arguments sha256_bytes : simpl never.
#[global] Arguments sha256_hex : simpl never.
#[global] Arguments sha256_prefix64 : simpl never.

Example sha256_abc :
  sha256_hex "abc" = "ba7816bf8f01cfea414140de5dae2223b00361a396177a9cb410ff61f20015ad".
Proof. vm_compute. reflexivity. Qed.

Example sha256_two_blocks :
  sha256_hex "abcdbcdecdefdefgefghfghighijhijkijkljklmklmnlmnomnopnopq"
  = "248d6a61d20638b8e5c026930c3e6039a33ce45964ff2167f6ecedd419db06c1".
Proof. vm_compute. reflexivity. Qed.

(** ** The digest is plain hexadecimal text *)

Definition is_hex_char (c : ascii) : bool := is_digit c || (97 <=? char_code c) && (char_code c <=? 102).

Lemma hex_digit_char n : 0 ≤ n < 16 → is_hex_char (hex_digit n) = true.
Proof.
  intros H. assert (n ∈ seqZ 0 16) as Hn by (apply elem_of_seqZ; lia). clear H.
  revert n Hn. apply Forall_forall. cbn. by repeat constructor.
Qed.

Lemma hex_of_bytes_chars bs :
  Forall (λ b, 0 ≤ b < 256) bs → all_chars is_hex_char (hex_of_bytes bs) = true.
Proof.
  induction 1 as [|b bs Hb _ IH]; [done|].
  simpl. rewrite all_chars_app, IH, andb_true_r. unfold hex2. simpl.
  rewrite !hex_digit_char; [done| |].
  - apply Z.mod_pos_bound. lia.
  - split; [apply Z.div_pos; lia|apply Z.div_lt_upper_bound; lia].
Qed.

Lemma be_bytes_range n x : Forall (λ b, 0 ≤ b < 256) (be_bytes n x).
Proof.
  revert x. induction n as [|n IH]; intros x; simpl; [done|].
  apply Forall_app; split; [done|]. repeat constructor; by apply Z.mod_pos_bound.
Qed.

Lemma sha256_bytes_range bs : Forall (λ b, 0 ≤ b < 256) (sha256_bytes bs).
Proof.
  unfold sha256_bytes. generalize (sha_blocks (length (words_of_bytes (pad bs)))
    (words_of_bytes (pad bs)) initial_hash) as ws.
  induction ws as [|w ws IH]; [done|]. rewrite bind_cons. by apply Forall_app_2; [apply be_bytes_range|].
Qed.

Lemma sha256_hex_chars s : all_chars is_hex_char (sha256_hex s) = true.
Proof. apply hex_of_bytes_chars, sha256_bytes_range. Qed.
