(* ===== verification/Hashing.v ===== *)
(** [hashing.py]: the canonical rendering of call arguments and their SHA-256,
    the only implementation of the rule that binds a grant to exact arguments. *)

From S2P Require Import Prelude PyJson PyJsonLoads Sha256.

Section hashing.
Context {rt : PyFloatRuntime}.

(** [_check(obj, path)]: refuse what the canonical form cannot represent. *)
Fixpoint _check (obj : pyval) (path : string) : res unit :=
  match obj with
  | PDict d =>
      (fix go (d : list (pykey * pyval)) : res unit :=
         match d with
         | [] => Ok tt
         | (k, v) :: d' =>
             match k with
             | KOther r => Raise (ArgsNotHashable (path +:+ ": non-string object key " +:+ r))
             | KStr s => _check v (path +:+ "." +:+ s) ≫= λ _, go d'
             end
         end) d
  | PList l =>
      (fix go (i : Z) (l : list pyval) : res unit :=
         match l with
         | [] => Ok tt
         | v :: l' => _check v (path +:+ "[" +:+ string_of_Z i +:+ "]") ≫= λ _, go (i + 1) l'
         end) 0 l
  | PBool _ | PNone | PStr _ | PInt _ => Ok tt
  | PFloat f =>
      if float_finite f then Ok tt
      else Raise (ArgsNotHashable (path +:+ ": non-finite float (NaN/Infinity)"))
  | POther t => Raise (ArgsNotHashable (path +:+ ": unsupported type " +:+ t))
  end.

(** [canonical_args(args)] *)
Definition canonical_args (args : pyval) : res string :=
  match args with
  | PDict plain =>
      _check (PDict plain) "args" ≫= λ _, json_dumps true true false (PDict plain)
  | _ => Raise (ArgsNotHashable "args must be a JSON object")
  end.

(** [args_hash(args)] *)
Definition args_hash (args : pyval) : res string :=
  canonical_args args ≫= λ text, Ok (sha256_hex text).

(** ** What [_check] accepts *)

Lemma check_ok_iff v path : _check v path = Ok tt ↔ json_serializable false v = true.
Proof.
  revert path. induction v as [| | |f| |l IH|d IH|] using pyval_ind'; intros path; simpl; try done.
  - by destruct (float_finite f).
  - generalize 0 as i. induction IH as [|v l Hv _ IHl]; intros i; simpl; [done|].
    by rewrite seq_ok, andb_true_iff, Hv, IHl.
  - induction IH as [|[[s|r] v] d Hv _ IHd]; simpl; [done| |done].
    by rewrite seq_ok, andb_true_iff, Hv, IHd.
Qed.

(** [_check] raises nothing but [ArgsNotHashable]. *)
Lemma check_raises v path e : _check v path = Raise e → ∃ m, e = ArgsNotHashable m.
Proof.
  revert path. induction v as [| | |f| |l IH|d IH|t] using pyval_ind'; intros path; simpl; try done.
  - destruct (float_finite f); [done|]. intros [= <-]. by eexists.
  - generalize 0 as i. induction IH as [|v l Hv _ IHl]; intros i; simpl; [done|].
    intros [Hr|(? & _ & Hr)]%bind_raise; eauto.
  - induction IH as [|[[s|r] v] d Hv _ IHd]; simpl; [done| |].
    + intros [Hr|(? & _ & Hr)]%bind_raise; eauto.
    + intros [= <-]. by eexists.
  - intros [= <-]. by eexists.
Qed.

Lemma serializable_mono v : json_serializable false v = true → json_serializable true v = true.
Proof.
  induction v as [| | | | |l IH|d IH|] using pyval_ind'; simpl; try done.
  - induction IH as [|v l Hv _ IHl]; simpl; [done|]. rewrite !andb_true_iff. intros []; auto.
  - induction IH as [|[[s|r] v] d Hv _ IHd]; simpl; [done| |done].
    rewrite !andb_true_iff. intros []; auto.
Qed.

Lemma canonical_args_ok v text :
  canonical_args v = Ok text ↔
    is_mapping v = true ∧ json_serializable false v = true ∧ text = json_text true true v.
Proof.
  destruct v as [| | | | | |d|]; try (split; [done|by intros (? & _)]).
  change (canonical_args (PDict d))
    with (_check (PDict d) "args" ≫= λ _, json_dumps true true false (PDict d)).
  rewrite bind_ok. unfold json_dumps. split.
  - intros ([] & Hc & H). apply check_ok_iff in Hc. rewrite Hc, (serializable_mono _ Hc) in H.
    by injection H as <-.
  - intros (_ & Hc & ->). exists tt. rewrite check_ok_iff.
    by rewrite Hc, (serializable_mono _ Hc).
Qed.

(** ** Properties *)

(** Two argument objects have the same canonical form exactly when they are the
    same JSON object up to the order of keys at every level: reordering keys never
    changes the binding, and no two different objects ([1] and [1.0], [true] and [1],
    a list and its reordering) share a canonical form. *)
Theorem canonical_args_eq_iff (a b : pyval) (ta tb : string) :
  json_ok a → json_ok b →
  canonical_args a = Ok ta → canonical_args b = Ok tb →
  ta = tb ↔ sorted_json a = sorted_json b.
Proof.
  intros Ha Hb (_ & _ & ->)%canonical_args_ok (_ & _ & ->)%canonical_args_ok.
  by apply json_text_eq_iff.
Qed.

(** C40 -- A hash binds the arguments: when two argument objects have the same
    [args_hash] they are the same object up to key order, or their two canonical
    texts are a SHA-256 collision. *)
Theorem args_hash_binds (a b : pyval) (h : string) :
  json_ok a → json_ok b → args_hash a = Ok h → args_hash b = Ok h →
  sorted_json a = sorted_json b ∨
  (json_text true true a ≠ json_text true true b ∧
   sha256_hex (json_text true true a) = sha256_hex (json_text true true b)).
Proof.
  intros Ha Hb. unfold args_hash. rewrite !bind_ok.
  intros (ta & (_ & _ & ->)%canonical_args_ok & [= <-]) (tb & (_ & _ & ->)%canonical_args_ok & [= Hh]).
  destruct (decide (json_text true true a = json_text true true b)) as [He|Hne]; [|by right].
  left. by apply json_text_eq_iff.
Qed.

(** [args_hash] is total on what it accepts and refuses everything else with
    [ArgsNotHashable]: it succeeds exactly on objects whose every key is a string,
    whose every float is finite and whose every leaf is a JSON scalar. *)
Theorem args_hash_domain (v : pyval) :
  (is_mapping v = true ∧ json_serializable false v = true ∧ is_ok (args_hash v) = true)
  ∨ ((is_mapping v = false ∨ json_serializable false v = false) ∧
     ∃ m, args_hash v = Raise (ArgsNotHashable m)).
Proof.
  unfold args_hash. destruct (canonical_args v) as [t|e] eqn:E.
  - apply canonical_args_ok in E as (? & ? & _). left. done.
  - right. destruct v as [| | | | | |d|]; try (split; [by left|injection E as <-; by eexists]).
    apply bind_raise in E as [Hc|([] & Hc%check_ok_iff & Hd)].
    + destruct (check_raises _ _ _ Hc) as [m ->]. split; [|by eexists].
      right. apply not_true_is_false. rewrite <- (check_ok_iff _ "args"). by rewrite Hc.
    + unfold json_dumps in Hd. by rewrite Hc, (serializable_mono _ Hc) in Hd.
Qed.
End hashing.

(** ** Witnesses *)

Definition sample_args : pyval := PDict [(KStr "b", PInt 1); (KStr "a", PList [PBool true; PNone])].
Definition sample_args' : pyval := PDict [(KStr "a", PList [PBool true; PNone]); (KStr "b", PInt 1)].

Lemma sample_args_ok : json_ok sample_args ∧ json_ok sample_args'.
Proof.
  split; apply json_ok_dict; (split; [by apply (bool_decide_unpack _); vm_compute|]);
    repeat constructor.
Defined.

Lemma canonical_args_eq_iff_witness :
  canonical_args (rt := coded_float_runtime) sample_args
    = canonical_args (rt := coded_float_runtime) sample_args' ∧
  sorted_json sample_args = sorted_json sample_args'.
Proof.
  split; [reflexivity|].
  apply (canonical_args_eq_iff (rt := coded_float_runtime) sample_args sample_args' _ _
           (proj1 sample_args_ok) (proj2 sample_args_ok) eq_refl eq_refl).
  reflexivity.
Defined.

Definition sample_hash : string :=
  "51705a2c9eb3e7e410a58f696a770c3ac3885a0cf43eb7fc88f5e47c11d4d30d".

Lemma args_hash_binds_witness :
  args_hash (rt := coded_float_runtime) sample_args = Ok sample_hash ∧
  args_hash (rt := coded_float_runtime) sample_args' = Ok sample_hash ∧
  sorted_json sample_args = sorted_json sample_args'.
Proof.
  assert (args_hash (rt := coded_float_runtime) sample_args = Ok sample_hash) as Ha
    by (vm_compute; reflexivity).
  assert (args_hash (rt := coded_float_runtime) sample_args' = Ok sample_hash) as Hb
    by (vm_compute; reflexivity).
  split; [exact Ha|]. split; [exact Hb|].
  destruct (args_hash_binds (rt := coded_float_runtime) sample_args sample_args' sample_hash
    (proj1 sample_args_ok) (proj2 sample_args_ok) Ha Hb) as [H|[Hne _]]; [exact H|].
  exfalso. apply Hne. vm_compute. reflexivity.
Defined.
