(* ===== verification/Schema.v ===== *)
(** [schema.py]: grant-time structural validation of a declared [input_schema]. *)

From S2P Require Import Prelude PyJson.

(** [_JSON_SCHEMA_TYPES], and its sorted rendering in error messages. *)
Definition JSON_SCHEMA_TYPES : list string :=
  ["array"; "boolean"; "integer"; "null"; "number"; "object"; "string"].

Definition repr_names (l : list string) : string := "[" +:+ join ", " (map repr_str l) +:+ "]".

Section schema.
Context {rt : PyFloatRuntime}.

(** One entry of the [type] field. *)
Definition check_type_name (t : pyval) : res unit :=
  raise_if (negb (match t with PStr n => bool_decide (n ∈ JSON_SCHEMA_TYPES) | _ => false end))
    (SchemaValidationError ("input_schema 'type' " +:+ py_repr t +:+
       " is not a JSON Schema type (one of " +:+ repr_names JSON_SCHEMA_TYPES +:+ ")")).

Definition check_property (kv : pykey * pyval) : res unit :=
  raise_if (negb (is_mapping kv.2))
    (SchemaValidationError ("input_schema property " +:+ repr_key kv.1 +:+
       " must map to an object subschema")).

(** The keys [set(props.keys())] as far as a string can name one. *)
Definition declared_names (props : pyval) : list pykey :=
  match props with PDict d => d.*1 | _ => [] end.

Definition strings_of (l : list pyval) : list string :=
  omap (λ v, match v with PStr s => Some s | _ => None end) l.

Definition check_required (props required : pyval) : res unit :=
  match required with
  | PNone => Ok tt
  | PList l =>
      if negb (forallb is_str l) then
        Raise (SchemaValidationError
                 "input_schema 'required' must be a list of property-name strings")
      else
        let declared := declared_names props in
        if bool_decide (declared ≠ []) then
          let missing := filter (λ r, KStr r ∉ declared) (strings_of l) in
          raise_if (bool_decide (missing ≠ []))
            (SchemaValidationError ("input_schema 'required' names not in 'properties': "
               +:+ repr_names missing))
        else Ok tt
  | _ => Raise (SchemaValidationError
                  "input_schema 'required' must be a list of property-name strings")
  end.

(** [validate_input_schema(schema)] *)
Definition validate_input_schema (schema : pyval) : res unit :=
  match schema with
  | PDict [] => Ok tt
  | PDict d =>
      let stype := dget "type" d in
      (if decide (stype = PNone) then Ok tt
       else for_each check_type_name (match stype with PList l => l | _ => [stype] end)) ≫= λ _,
      let props := dget "properties" d in
      raise_if (bool_decide (props ≠ PNone) && negb (is_mapping props))
        (SchemaValidationError
           "input_schema 'properties' must be an object mapping names to subschemas") ≫= λ _,
      (match props with PDict ps => for_each check_property ps | _ => Ok tt end) ≫= λ _,
      check_required props (dget "required" d)
  | _ => Raise (SchemaValidationError
                  ("input_schema must be a JSON object, got " +:+ type_name schema))
  end.
End schema.

(** ** What the module documentation promises *)

Definition names_json_type (v : pyval) : Prop := ∃ n, v = PStr n ∧ n ∈ JSON_SCHEMA_TYPES.

(** A structurally coherent schema object. *)
Record coherent (d : list (pykey * pyval)) : Prop := {
  coh_type :
    match dget "type" d with
    | PNone => True
    | PList l => Forall names_json_type l
    | t => names_json_type t
    end;
  coh_properties :
    match dget "properties" d with
    | PNone => True
    | PDict ps => Forall (λ kv, is_mapping kv.2 = true) ps
    | _ => False
    end;
  coh_required :
    match dget "required" d with
    | PNone => True
    | PList l => ∃ names, l = map PStr names ∧
        match dget "properties" d with
        | PDict ps => ps ≠ [] → Forall (λ r, KStr r ∈ ps.*1) names
        | _ => True
        end
    | _ => False
    end;
}.

Section proofs.
Context {rt : PyFloatRuntime}.

Lemma check_type_name_ok v : check_type_name v = Ok tt ↔ names_json_type v.
Proof.
  unfold check_type_name, names_json_type. rewrite raise_if_ok, negb_false_iff.
  destruct v; try (split; [done|by intros (? & [=] & _)]).
  rewrite bool_decide_eq_true. split; [by eauto|]. by intros (n & [= <-] & H).
Qed.

Lemma strings_of_ok l : forallb is_str l = true ↔ l = map PStr (strings_of l).
Proof.
  induction l as [|v l IH]; [done|].
  destruct v; simpl; try (split; [done|]; destruct (strings_of l); discriminate).
  rewrite IH. split; [intros H; by rewrite <- H|intros [= H]; done].
Qed.

Lemma map_PStr_inj names l : l = map PStr names → strings_of l = names.
Proof. intros ->. induction names as [|n names IH]; simpl; [done|]. by f_equal. Qed.

Lemma check_required_ok props required :
  check_required props required = Ok tt ↔
  match required with
  | PNone => True
  | PList l => ∃ names, l = map PStr names ∧
      match props with
      | PDict ps => ps ≠ [] → Forall (λ r, KStr r ∈ ps.*1) names
      | _ => True
      end
  | _ => False
  end.
Proof.
  destruct required as [| | | | |l| |]; simpl; try (split; done).
  destruct (forallb is_str l) eqn:Es; simpl.
  - apply strings_of_ok in Es.
    assert (∀ ps : list pykey, filter (λ r, KStr r ∉ ps) (strings_of l) = [] ↔
                  Forall (λ r, KStr r ∈ ps) (strings_of l)) as Hf.
    { intros ps. split.
      - intros Hnil. apply Forall_forall. intros r Hr.
        destruct (decide (KStr r ∈ ps)) as [|Hn]; [done|].
        assert (r ∈ filter (λ r, KStr r ∉ ps) (strings_of l)) as Hc
          by (by apply list_elem_of_filter).
        rewrite Hnil in Hc. by apply not_elem_of_nil in Hc.
      - intros Hall. destruct (filter _ _) as [|r rs] eqn:E; [done|].
        assert (r ∈ filter (λ r, KStr r ∉ ps) (strings_of l)) as Hc by (rewrite E; left).
        apply list_elem_of_filter in Hc as [Hn Hr].
        rewrite Forall_forall in Hall. by destruct (Hn (Hall _ Hr)). }
    destruct props as [| | | | | |ps|]; simpl.
    all: try (split; [intros _; by exists (strings_of l)|done]).
    case_bool_decide as Hd.
    + rewrite raise_if_ok, bool_decide_eq_false. split.
      * intros Hn. exists (strings_of l). split; [done|]. intros _. apply Hf.
        apply dec_stable. exact Hn.
      * intros (names & Hl & Hp). apply map_PStr_inj in Hl. subst names.
        intros Hc. apply Hc, Hf, Hp. by intros ->.
    + split; [|done]. intros _. exists (strings_of l). split; [done|]. intros Hps.
      by destruct ps.
  - split; [done|]. intros (names & Hl & _).
    assert (forallb is_str l = true) as Ht; [|by rewrite Ht in Es].
    apply strings_of_ok. by rewrite (map_PStr_inj _ _ Hl).
Qed.

Lemma type_field_ok stype :
  (if decide (stype = PNone) then Ok tt
   else for_each check_type_name (match stype with PList l => l | _ => [stype] end)) = Ok tt ↔
  match stype with
  | PNone => True
  | PList l => Forall names_json_type l
  | t => names_json_type t
  end.
Proof.
  case_decide as Hn; [by subst|]. rewrite for_each_ok.
  destruct stype; try done; rewrite ?Forall_singleton, ?check_type_name_ok; try done.
  by apply Forall_proper; [intros x; apply check_type_name_ok|].
Qed.

Lemma properties_ok props :
  raise_if (bool_decide (props ≠ PNone) && negb (is_mapping props))
    (SchemaValidationError
       "input_schema 'properties' must be an object mapping names to subschemas") = Ok tt ∧
  match props with PDict ps => for_each check_property ps | _ => Ok tt end = Ok tt ↔
  match props with
  | PNone => True
  | PDict ps => Forall (λ kv, is_mapping kv.2 = true) ps
  | _ => False
  end.
Proof.
  destruct props as [| | | | | |ps|]; simpl; try (split; [by intros []|done]).
  rewrite for_each_ok. split.
  - intros [_ Hf]. eapply Forall_impl; [done|]. intros kv H.
    apply raise_if_ok, negb_false_iff in H. done.
  - intros Hf. split; [done|]. eapply Forall_impl; [done|]. intros kv H.
    apply raise_if_ok, negb_false_iff. done.
Qed.

(** [validate_input_schema] accepts exactly the structurally coherent schema
    objects (the empty schema included): every entry of [type] is a JSON Schema type,
    [properties] maps names to objects, [required] lists strings that are declared
    whenever any property is. *)
Theorem validate_input_schema_spec (v : pyval) :
  validate_input_schema v = Ok tt ↔ ∃ d, v = PDict d ∧ coherent d.
Proof.
  destruct v as [| | | | | |d|]; try (split; [done|by intros (? & [=] & _)]).
  destruct d as [|kv d].
  - split; [|done]. intros _. exists []. split; [done|]. by split.
  - change (validate_input_schema (PDict (kv :: d)) = Ok tt) with
      ((let stype := dget "type" (kv :: d) in
        if decide (stype = PNone) then Ok tt
        else for_each check_type_name (match stype with PList l => l | _ => [stype] end)) ≫= (λ _,
       raise_if (bool_decide (dget "properties" (kv :: d) ≠ PNone)
                 && negb (is_mapping (dget "properties" (kv :: d))))
         (SchemaValidationError
            "input_schema 'properties' must be an object mapping names to subschemas") ≫= (λ _,
       (match dget "properties" (kv :: d) with
        | PDict ps => for_each check_property ps | _ => Ok tt end) ≫= (λ _,
       check_required (dget "properties" (kv :: d)) (dget "required" (kv :: d))))) = Ok tt).
    rewrite !seq_ok, type_field_ok, check_required_ok.
    pose proof (properties_ok (dget "properties" (kv :: d))) as [Hp1 Hp2].
    split.
    + intros (H1 & H2 & H3 & H4). eexists. split; [done|]. split; [by destruct (dget "type" (kv :: d))|by apply Hp1|done].
    + intros (d' & [= <-] & [H1 H2 H3]). apply Hp2 in H2 as [H2 H2'].
      split_and!; try done. by destruct (dget "type" (kv :: d)).
Qed.
End proofs.
