(* ===== verification/Descriptor.v ===== *)
(** [descriptor.py]: claimed versus asserted tool metadata.

    The descriptions, hints, flags, scopes and schemas are annotated [str], [bool | None]
    and so on in the source but arrive unvalidated from JSON or from a stored column, so
    they are Python values here and the code's tests ([is None], truthiness, [is not
    False]) are written out.  A [frozenset] of scopes is the list of its elements. *)

From S2P Require Import Prelude PyJson.

(** ** Enumerations, with the string value of each member *)

Module DataClass.
Inductive t := PUBLIC | INTERNAL | PII | SECRET | CREDENTIAL | EXTERNAL.

Definition value (c : t) : string :=
  match c with
  | PUBLIC => "public" | INTERNAL => "internal" | PII => "pii"
  | SECRET => "secret" | CREDENTIAL => "credential" | EXTERNAL => "external"
  end.

Definition all : list t := [PUBLIC; INTERNAL; PII; SECRET; CREDENTIAL; EXTERNAL].

(** [DataClass(v)] *)
Definition of_value (v : string) : option t :=
  snd <$> list_find (λ c, value c = v) all.

Definition is_sensitive (c : t) : bool :=
  match c with PII | SECRET | CREDENTIAL => true | _ => false end.

#[global] Instance eq_dec : EqDecision t.
Proof. solve_decision. Defined.

Lemma dataclass_of_value c : of_value (value c) = Some c.
Proof. by destruct c. Qed.

#[global] Instance countable : Countable t := inj_countable value of_value dataclass_of_value.
End DataClass.

Module Effect.
Inductive t := READ | WRITE | DESTRUCTIVE | EXTERNAL.

Definition value (e : t) : string :=
  match e with
  | READ => "read" | WRITE => "write" | DESTRUCTIVE => "destructive" | EXTERNAL => "external"
  end.

Definition all : list t := [READ; WRITE; DESTRUCTIVE; EXTERNAL].
Definition of_value (v : string) : option t :=
  snd <$> list_find (λ c, value c = v) all.

#[global] Instance eq_dec : EqDecision t.
Proof. solve_decision. Defined.

Lemma effect_of_value c : of_value (value c) = Some c.
Proof. by destruct c. Qed.
End Effect.

Module TrustTier.
Inductive t := VERIFIED | KNOWN | UNTRUSTED | QUARANTINED.

Definition value (x : t) : string :=
  match x with
  | VERIFIED => "verified" | KNOWN => "known" | UNTRUSTED => "untrusted"
  | QUARANTINED => "quarantined"
  end.

Definition all : list t := [VERIFIED; KNOWN; UNTRUSTED; QUARANTINED].
Definition of_value (v : string) : option t :=
  snd <$> list_find (λ c, value c = v) all.

Definition invocable (x : t) : bool :=
  match x with VERIFIED | KNOWN => true | _ => false end.

#[global] Instance eq_dec : EqDecision t.
Proof. solve_decision. Defined.

Lemma trusttier_of_value c : of_value (value c) = Some c.
Proof. by destruct c. Qed.
End TrustTier.

(** ** Records *)

Record ToolRef := mkToolRef { ref_name : string; ref_version : string }.

(** What the server said about itself. *)
Record ClaimedMetadata := mkClaimed {
  description : pyval;
  read_only_hint : pyval;
  destructive_hint : pyval;
  idempotent_hint : pyval;
  open_world_hint : pyval;
}.

(** Operator-reviewed metadata. *)
Record AssertedDescriptor := mkAsserted {
  effect : Effect.t;
  reads : gset DataClass.t;
  writes : gset DataClass.t;
  scopes : list pyval;
  reversible : pyval;
  idempotent : pyval;
  requires_approval : pyval;
  declassifies : pyval;
  asserted_by : pyval;
}.

Record ToolVersion := mkTool {
  ref : ToolRef;
  source_id : string;
  claimed : ClaimedMetadata;
  asserted : option AssertedDescriptor;
  input_schema : pyval;
}.

Record TrustedSource := mkSource {
  src_id : string;
  tier : TrustTier.t;
  transport : string;
}.

#[global] Instance ToolRef_eq_dec : EqDecision ToolRef.
Proof. solve_decision. Defined.
#[global] Instance ClaimedMetadata_eq_dec : EqDecision ClaimedMetadata.
Proof. solve_decision. Defined.
#[global] Instance AssertedDescriptor_eq_dec : EqDecision AssertedDescriptor.
Proof. solve_decision. Defined.
#[global] Instance ToolVersion_eq_dec : EqDecision ToolVersion.
Proof. solve_decision. Defined.
#[global] Instance TrustedSource_eq_dec : EqDecision TrustedSource.
Proof. solve_decision. Defined.

(** [ToolVersion.qualified_name] *)
Definition qualified_name (tv : ToolVersion) : string :=
  source_id tv +:+ ":" +:+ ref_name (ref tv).

(** [ToolVersion.is_asserted] *)
Definition is_asserted (tv : ToolVersion) : bool :=
  match asserted tv with Some _ => true | None => false end.

(** [replace(tv, asserted=a)] and [replace(tv, input_schema=s)] *)
Definition with_asserted (a : option AssertedDescriptor) (tv : ToolVersion) : ToolVersion :=
  mkTool (ref tv) (source_id tv) (claimed tv) a (input_schema tv).
Definition with_schema (s : pyval) (tv : ToolVersion) : ToolVersion :=
  mkTool (ref tv) (source_id tv) (claimed tv) (asserted tv) s.

(** [ClaimedMetadata.implied_effect] *)
Definition implied_effect (c : ClaimedMetadata) : option Effect.t :=
  if decide (read_only_hint c = PNone ∧ destructive_hint c = PNone ∧ open_world_hint c = PNone)
  then None
  else if py_truthy (read_only_hint c) then Some Effect.READ
  else if decide (destructive_hint c ≠ PBool false) then Some Effect.DESTRUCTIVE
  else if decide (open_world_hint c ≠ PBool false) then Some Effect.EXTERNAL
  else Some Effect.WRITE.

(** [AssertedDescriptor.reads_sensitive] *)
Definition reads_sensitive (d : AssertedDescriptor) : bool :=
  existsb DataClass.is_sensitive (elements (reads d)) && negb (py_truthy (declassifies d)).

(** [AssertedDescriptor.is_external_sink] *)
Definition is_external_sink (d : AssertedDescriptor) : bool :=
  bool_decide (DataClass.EXTERNAL ∈ writes d).

(** [ToolVersion.claim_conflicts] *)
Definition claim_conflicts (tv : ToolVersion) : list string :=
  match asserted tv with
  | None => []
  | Some a =>
      let c := claimed tv in
      (match implied_effect c with
       | Some implied =>
           if decide (implied ≠ effect a) then
             ["claimed effect " +:+ repr_str (Effect.value implied) +:+ " != asserted "
                +:+ repr_str (Effect.value (effect a))]
           else []
       | None => []
       end) ++
      (if py_truthy (read_only_hint c) && bool_decide (effect a ≠ Effect.READ)
       then ["claims readOnlyHint=true but asserted effect is not read"] else []) ++
      (if bool_decide (idempotent_hint c = PBool true) && negb (py_truthy (idempotent a))
       then ["claims idempotentHint=true but asserted idempotent=false"] else []) ++
      (if bool_decide (open_world_hint c = PBool false) && is_external_sink a
       then ["claims openWorldHint=false but asserted to write external"] else [])
  end.

(** A claim whose description is a string and whose hints are [bool | None], as declared. *)
Definition hint_ok (v : pyval) : Prop := match v with PNone | PBool _ => True | _ => False end.
Definition claim_ok (c : ClaimedMetadata) : Prop :=
  is_str (description c) = true ∧ hint_ok (read_only_hint c) ∧ hint_ok (destructive_hint c) ∧
  hint_ok (idempotent_hint c) ∧ hint_ok (open_world_hint c).

#[global] Instance hint_ok_dec v : Decision (hint_ok v).
Proof. destruct v; simpl; apply _. Defined.
#[global] Instance claim_ok_dec c : Decision (claim_ok c).
Proof. unfold claim_ok. apply _. Defined.

(** ** Properties *)

Lemma reads_sensitive_iff d :
  reads_sensitive d = true ↔
  py_truthy (declassifies d) = false ∧
  ∃ c, c ∈ reads d ∧ DataClass.is_sensitive c = true.
Proof.
  unfold reads_sensitive. rewrite andb_true_iff, negb_true_iff, existsb_exists.
  split.
  - intros [(c & Hc & Hs) Hd]. split; [done|]. exists c. split; [|done].
    by apply elem_of_elements, list_elem_of_In.
  - intros (Hd & c & Hc & Hs). split; [|done]. exists c. split; [|done].
    by apply list_elem_of_In, elem_of_elements.
Qed.

(** A claim contradicts an assertion in no reported way exactly when the effect
    its hints imply (if it makes any) is the asserted one, it is not read-only against a
    non-read assertion, an idempotence claim is confirmed, and a closed-world claim is
    not asserted to write externally; an unasserted tool is never in conflict. *)
Theorem claim_conflicts_nil_iff (tv : ToolVersion) :
  claim_conflicts tv = [] ↔
  ∀ a, asserted tv = Some a →
    (∀ e, implied_effect (claimed tv) = Some e → e = effect a) ∧
    (idempotent_hint (claimed tv) = PBool true → py_truthy (idempotent a) = true) ∧
    (open_world_hint (claimed tv) = PBool false → DataClass.EXTERNAL ∉ writes a).
Proof.
  unfold claim_conflicts. destruct (asserted tv) as [a|]; [|by split].
  rewrite !app_nil. split.
  - intros (H1 & H2 & H3 & H4) a' [= <-]. split_and!.
    + intros e He. rewrite He in H1. by case_decide.
    + intros Hi. rewrite bool_decide_true in H3 by done. simpl in H3.
      by destruct (py_truthy (idempotent a)).
    + intros Hi Hx. rewrite bool_decide_true in H4 by done. unfold is_external_sink in H4.
      by rewrite bool_decide_true in H4.
  - intros H. destruct (H a eq_refl) as (He & Hi & Hw). split_and!.
    + destruct (implied_effect (claimed tv)) as [e|] eqn:E; [|done].
      rewrite decide_False; [done|]. intros Hn. by apply Hn, He.
    + destruct (py_truthy (read_only_hint (claimed tv))) eqn:Hr; [|done]. simpl.
      rewrite bool_decide_false; [done|]. intros Hn. apply Hn. symmetry. apply He.
      unfold implied_effect. rewrite decide_False; [by rewrite Hr|].
      intros (Hro & _). by rewrite Hro in Hr.
    + case_bool_decide as Hb; [|done]. by rewrite (Hi Hb).
    + case_bool_decide as Hb; [|done]. unfold is_external_sink.
      by rewrite bool_decide_false by (by apply Hw).
Qed.
