(* ===== verification/Catalog.v ===== *)
(** [catalog.py]: the in-memory catalog, assertion evidence and drift detection.

    The catalog's methods are [st Catalog] computations: they mutate the four maps of
    the object and raise, and what they wrote before raising stays written. *)

From S2P Require Import Prelude PyJson PyJsonLoads Sha256 Descriptor.

(** [ToolId]: the source first. *)
Abbreviation ToolId := (string * string)%type.

Module AssertionStatus.
Inductive t := NEVER | ASSERTED | CHANGED.

Definition value (x : t) : string :=
  match x with
  | NEVER => "never_asserted" | ASSERTED => "asserted" | CHANGED => "asserted_then_changed"
  end.

#[global] Instance eq_dec : EqDecision t.
Proof. solve_decision. Defined.
End AssertionStatus.

Record AssertionRecord := mkRecord {
  descriptor : AssertedDescriptor;
  fingerprint : Z;
}.

Record DriftReport := mkDrift {
  drift_source : string;
  advertised_missing : list string;
  undeclared_present : list string;
  unasserted : list string;
  drift_conflicts : list (string * string);
  redefined_after_assertion : list string;
}.

(** [DriftReport.clean] *)
Definition clean (r : DriftReport) : bool :=
  bool_decide (advertised_missing r = []) && bool_decide (undeclared_present r = []) &&
  bool_decide (unasserted r = []) && bool_decide (drift_conflicts r = []) &&
  bool_decide (redefined_after_assertion r = []).

(** [DriftReport.summary] *)
Definition summary (r : DriftReport) : string :=
  let part {A} (l : list A) (what : string) : list string :=
    match l with [] => [] | _ => [string_of_Z (Z.of_nat (length l)) +:+ what] end in
  if clean r then drift_source r +:+ ": no drift"
  else drift_source r +:+ ": " +:+ join ", "
    (part (advertised_missing r) " advertised-missing" ++
     part (undeclared_present r) " undeclared-present" ++
     part (unasserted r) " unasserted" ++
     part (drift_conflicts r) " claim-conflicts" ++
     part (redefined_after_assertion r) " redefined-after-assertion").

Record Catalog := mkCatalog {
  sources : gmap string TrustedSource;
  tools : gmap ToolId ToolVersion;
  declared : gmap string (gset string);
  assertions : gmap ToolId AssertionRecord;
}.

Definition empty_catalog : Catalog := mkCatalog ∅ ∅ ∅ ∅.

Definition set_tool (tid : ToolId) (tv : ToolVersion) (c : Catalog) : Catalog :=
  mkCatalog (sources c) (<[tid := tv]> (tools c)) (declared c) (assertions c).
Definition set_assertion (tid : ToolId) (r : AssertionRecord) (c : Catalog) : Catalog :=
  mkCatalog (sources c) (tools c) (declared c) (<[tid := r]> (assertions c)).

Section catalog.
Context {rt : PyFloatRuntime}.

(** ** Registration *)

Definition register_source (source : TrustedSource) (declares : option (gset string)) :
    st Catalog unit :=
  st_modify (λ c, mkCatalog
    (<[src_id source := source]> (sources c)) (tools c)
    (<[src_id source := default ∅ declares]> (declared c)) (assertions c)).

(** The claim a source makes, as the list [_fingerprint] renders. *)
Definition claim_list (tv : ToolVersion) : pyval :=
  PList [PStr (ref_version (ref tv)); description (claimed tv);
         read_only_hint (claimed tv); destructive_hint (claimed tv);
         idempotent_hint (claimed tv); open_world_hint (claimed tv)].

Definition _fingerprint (tv : ToolVersion) : res Z :=
  sha256_prefix64 <$> json_dumps true false true (claim_list tv).

Definition ingest_claimed (source_id name : string) (claimed : ClaimedMetadata)
    (version : string) : st Catalog ToolVersion :=
  c ← st_get;
  if decide (sources c !! source_id = None) then
    st_throw (KeyError ("unknown source " +:+ repr_str source_id))
  else
    let tid := (source_id, name) in
    let tv := mkTool (mkToolRef name version) source_id claimed None (PDict []) in
    tv ← match assertions c !! tid with
         | Some record =>
             fp ← st_lift (_fingerprint tv);
             mret (if fp =? fingerprint record
                   then with_asserted (Some (descriptor record)) tv else tv)
         | None => mret tv
         end;
    _ ← st_modify (set_tool tid tv);
    mret tv.

Definition assert_descriptor (source_id name : string) (desc : AssertedDescriptor) :
    st Catalog ToolVersion :=
  if negb (py_truthy (asserted_by desc)) then
    st_throw (ValueError "assert_descriptor requires asserted_by; promotion is human-only")
  else
    let tid := (source_id, name) in
    c ← st_get;
    match tools c !! tid with
    | None => st_throw (KeyError (repr_str source_id +:+ ", " +:+ repr_str name))
    | Some tv =>
        let new := with_asserted (Some desc) tv in
        _ ← st_modify (set_tool tid new);
        fp ← st_lift (_fingerprint new);
        _ ← st_modify (set_assertion tid (mkRecord desc fp));
        mret new
    end.

(** [tv = replace(tv, input_schema=...); self.catalog.tools[tid] = tv], which the
    service runs on a tool it has just ingested. *)
Definition attach_schema (source_id name : string) (schema : pyval) :
    st Catalog unit :=
  st_modify (λ c,
    match tools c !! (source_id, name) with
    | Some tv => set_tool (source_id, name) (with_schema schema tv) c
    | None => c
    end).
End catalog.

(** ** Resolution *)

Definition get (c : Catalog) (source_id name : string) : option ToolVersion :=
  tools c !! (source_id, name).

(** The ids of [find_all], in the map's enumeration order: [resolve], its only user,
    depends on their number, on the sorted sources and on a single element. *)
Definition find_all (c : Catalog) (name : string) : list ToolId :=
  filter (λ tid, tid.2 = name) (map_to_list (tools c)).*1.

Definition resolve (c : Catalog) (name : string) : res ToolId :=
  match find_all c name with
  | [] => Raise (KeyError ("no tool named " +:+ repr_str name))
  | [tid] => Ok tid
  | many =>
      Raise (AmbiguousToolName
        (repr_str name +:+ " is exposed by " +:+ string_of_Z (Z.of_nat (length many))
           +:+ " sources: [" +:+ join ", " (map repr_str (merge_sort String.le many.*1))
           +:+ "]; qualify with a source_id"))
  end.

Definition assertion_status (c : Catalog) (source_id name : string) : AssertionStatus.t :=
  match assertions c !! (source_id, name) with
  | None => AssertionStatus.NEVER
  | Some _ =>
      match tools c !! (source_id, name) with
      | Some tv => if is_asserted tv then AssertionStatus.ASSERTED else AssertionStatus.CHANGED
      | None => AssertionStatus.CHANGED
      end
  end.

Definition invocable (c : Catalog) (sid name : string) : res bool :=
  match get c sid name with
  | None => Ok false
  | Some tv =>
      if negb (is_asserted tv) then Ok false
      else match sources c !! source_id tv with
           | Some s => Ok (TrustTier.invocable (tier s))
           | None => Raise (KeyError (source_id tv))
           end
  end.

(** Tuples of strings compare lexicographically. *)
Definition tid_le (x y : ToolId) : Prop := x.1 ≠ y.1 ∧ String.le x.1 y.1 ∨ x.1 = y.1 ∧ String.le x.2 y.2.
#[global] Instance tid_le_dec : RelDecision tid_le.
Proof. intros x y. unfold tid_le. apply _. Defined.

Definition sorted_ids (X : gset ToolId) : list ToolId := merge_sort tid_le (elements X).

Definition toolset (c : Catalog) (ids : list ToolId) : list ToolVersion :=
  omap (λ tid, tools c !! tid) (sorted_ids (list_to_set ids)).

Fixpoint resolve_all (c : Catalog) (names : list string) : res (list ToolId) :=
  match names with
  | [] => Ok []
  | n :: names' => tid ← resolve c n; tids ← resolve_all c names'; Ok (tid :: tids)
  end.

Definition select (c : Catalog) (names : list string) : res (list ToolVersion) :=
  toolset c <$> resolve_all c names.

(** ** Drift *)

(** The names a source has in the catalog. *)
Definition mine (c : Catalog) (source_id : string) : gset string :=
  list_to_set (filter (λ tid : ToolId, tid.1 = source_id) (map_to_list (tools c)).*1).*2.

Definition drift (c : Catalog) (source_id : string) (discovered : gset string) : DriftReport :=
  let decl := default ∅ (declared c !! source_id) in
  let both := discovered ∩ mine c source_id in
  mkDrift source_id
    (sorted_set (decl ∖ discovered))
    (sorted_set (discovered ∖ decl))
    (sorted_set (filter (λ n, assertion_status c source_id n = AssertionStatus.NEVER) discovered))
    (n ← sorted_set both;
     match tools c !! (source_id, n) with
     | Some tv => (λ msg, (n, msg)) <$> claim_conflicts tv
     | None => []
     end)
    (sorted_set (filter (λ n, assertion_status c source_id n = AssertionStatus.CHANGED) both)).

(** ** What each operation does *)

(** Claims whose hints [json.dumps] can render, as every claim that arrived as JSON. *)
Definition claim_renders (c : ClaimedMetadata) : Prop :=
  Forall (λ v, json_serializable true v = true)
    [description c; read_only_hint c; destructive_hint c; idempotent_hint c; open_world_hint c].

Section ops.
Context {rt : PyFloatRuntime}.
Implicit Types (c : Catalog) (tv : ToolVersion) (tid : ToolId) (r : AssertionRecord).

(** The fingerprint reads the version and the claim only. *)
Lemma fingerprint_with_asserted a tv : _fingerprint (with_asserted a tv) = _fingerprint tv.
Proof. done. Qed.
Lemma fingerprint_with_schema s tv : _fingerprint (with_schema s tv) = _fingerprint tv.
Proof. done. Qed.

Lemma fingerprint_renders tv :
  claim_renders (claimed tv) →
  _fingerprint tv = Ok (sha256_prefix64 (json_text true false (claim_list tv))).
Proof.
  unfold claim_renders. rewrite !Forall_cons. intros (H0 & H1 & H2 & H3 & H4 & _).
  unfold _fingerprint, json_dumps.
  assert (json_serializable true (claim_list tv) = true) as ->; [|done].
  simpl. by rewrite H0, H1, H2, H3, H4.
Qed.

(** The assertion a freshly announced claim inherits. *)
Definition carried c tid tv : option AssertedDescriptor :=
  match assertions c !! tid with
  | Some r => if decide (_fingerprint tv = Ok (fingerprint r)) then Some (descriptor r) else None
  | None => None
  end.

Definition fresh_tool sid n cl ver : ToolVersion :=
  mkTool (mkToolRef n ver) sid cl None (PDict []).

Lemma ingest_run c sid n cl ver :
  claim_renders cl → is_Some (sources c !! sid) →
  let tv := fresh_tool sid n cl ver in
  let new := with_asserted (carried c (sid, n) tv) tv in
  ingest_claimed sid n cl ver c = (Ok new, set_tool (sid, n) new c).
Proof.
  intros Hr [s Hs] tv new. unfold ingest_claimed, mbind, st_bind, st_get. simpl.
  rewrite decide_False by (by rewrite Hs). subst new. unfold carried.
  destruct (assertions c !! (sid, n)) as [r|] eqn:E; [|done].
  unfold st_lift. fold (fresh_tool sid n cl ver). fold tv.
  rewrite (fingerprint_renders tv) by done.
  generalize (sha256_prefix64 (json_text true false (claim_list tv))). intros fp. simpl.
  destruct (Z.eqb_spec fp (fingerprint r)) as [->|Hn].
  - by rewrite decide_True.
  - rewrite decide_False; [done|]. by intros [=].
Qed.

Lemma ingest_unknown c sid n cl ver :
  sources c !! sid = None →
  ingest_claimed sid n cl ver c = (Raise (KeyError ("unknown source " +:+ repr_str sid)), c).
Proof.
  intros Hs. unfold ingest_claimed, mbind, st_bind, st_get. simpl. by rewrite decide_True.
Qed.

Lemma assert_run c sid n d tv :
  py_truthy (asserted_by d) = true → tools c !! (sid, n) = Some tv →
  claim_renders (claimed tv) →
  ∃ fp, _fingerprint tv = Ok fp ∧
    assert_descriptor sid n d c =
      (Ok (with_asserted (Some d) tv),
       set_assertion (sid, n) (mkRecord d fp) (set_tool (sid, n) (with_asserted (Some d) tv) c)).
Proof.
  intros Hd Ht Hr. exists (sha256_prefix64 (json_text true false (claim_list tv))).
  split; [by apply fingerprint_renders|].
  unfold assert_descriptor, mbind, st_bind, st_get, st_lift. rewrite Hd. simpl.
  rewrite Ht. simpl. rewrite fingerprint_with_asserted. by rewrite fingerprint_renders.
Qed.

Lemma assert_refused c sid n d :
  py_truthy (asserted_by d) = false ∨ tools c !! (sid, n) = None →
  ∃ e, assert_descriptor sid n d c = (Raise e, c).
Proof.
  intros Hd. unfold assert_descriptor. destruct (py_truthy (asserted_by d)) eqn:E; simpl.
  - destruct Hd as [[=]|Ht]. unfold mbind, st_bind, st_get. rewrite Ht. by eexists.
  - by eexists.
Qed.

(** ** Histories of a catalog *)

Inductive cat_op :=
| OpRegister (source : TrustedSource) (declares : option (gset string))
| OpIngest (sid n : string) (cl : ClaimedMetadata) (ver : string)
| OpAssert (sid n : string) (d : AssertedDescriptor)
| OpSchema (sid n : string) (schema : pyval).

Definition step (c : Catalog) (op : cat_op) : Catalog :=
  match op with
  | OpRegister s ds => (register_source s ds c).2
  | OpIngest sid n cl ver => (ingest_claimed sid n cl ver c).2
  | OpAssert sid n d => (assert_descriptor sid n d c).2
  | OpSchema sid n schema => (attach_schema sid n schema c).2
  end.

Definition run (ops : list cat_op) : Catalog := foldl step empty_catalog ops.

Definition op_tid (op : cat_op) : option ToolId :=
  match op with
  | OpRegister _ _ => None
  | OpIngest sid n _ _ | OpAssert sid n _ | OpSchema sid n _ => Some (sid, n)
  end.

Definition op_renders (op : cat_op) : Prop :=
  match op with OpIngest _ _ cl _ => claim_renders cl | _ => True end.

Lemma run_snoc ops op : run (ops ++ [op]) = step (run ops) op.
Proof. unfold run. by rewrite foldl_app. Qed.

(** ** The invariant *)

(** Tools are stored under their own identity and a registered source; an assertion
    in force has evidence with the same descriptor and the fingerprint of the current
    claim, and evidence with that fingerprint is in force; evidence belongs to a tool of
    the catalog and names its human. *)
Record inv c : Prop := {
  inv_tool tid tv : tools c !! tid = Some tv →
    source_id tv = tid.1 ∧ ref_name (ref tv) = tid.2 ∧ is_Some (sources c !! tid.1) ∧
    claim_renders (claimed tv);
  inv_asserted tid tv d : tools c !! tid = Some tv → asserted tv = Some d →
    ∃ r, assertions c !! tid = Some r ∧ descriptor r = d ∧ _fingerprint tv = Ok (fingerprint r);
  inv_evidence tid r : assertions c !! tid = Some r →
    is_Some (tools c !! tid) ∧ py_truthy (asserted_by (descriptor r)) = true;
  inv_current tid tv r : tools c !! tid = Some tv → assertions c !! tid = Some r →
    _fingerprint tv = Ok (fingerprint r) → asserted tv = Some (descriptor r);
  inv_declared sid : is_Some (sources c !! sid) ↔ is_Some (declared c !! sid);
}.

Lemma inv_empty : inv empty_catalog.
Proof. split; simpl; intros *; rewrite ?lookup_empty; try done. Qed.

Lemma inv_set_tool c tid tv :
  inv c →
  source_id tv = tid.1 ∧ ref_name (ref tv) = tid.2 ∧ is_Some (sources c !! tid.1) ∧
    claim_renders (claimed tv) →
  (∀ d, asserted tv = Some d →
    ∃ r, assertions c !! tid = Some r ∧ descriptor r = d ∧ _fingerprint tv = Ok (fingerprint r)) →
  (∀ r, assertions c !! tid = Some r → _fingerprint tv = Ok (fingerprint r) →
    asserted tv = Some (descriptor r)) →
  inv (set_tool tid tv c).
Proof.
  intros Hc Hid Has Hcur. split; simpl.
  - intros tid' tv' [[<- <-]|[_ H]]%lookup_insert_Some; [done|]. by apply Hc.
  - intros tid' tv' d [[<- <-]|[_ H]]%lookup_insert_Some; [by apply Has|]. by apply Hc.
  - intros tid' r H. destruct (inv_evidence _ Hc _ _ H) as [Ht Hb]. split; [|done].
    rewrite lookup_insert_is_Some'. by right.
  - intros tid' tv' r [[<- <-]|[_ H]]%lookup_insert_Some; [by apply Hcur|]. by apply Hc.
  - apply Hc.
Qed.

Lemma inv_step c op : inv c → op_renders op → inv (step c op).
Proof.
  intros Hc Hop. destruct op as [s ds|sid n cl ver|sid n d|sid n schema]; simpl.
  - split; simpl; try apply Hc.
    + intros tid tv H. destruct (inv_tool _ Hc _ _ H) as (? & ? & Hs & ?).
      split_and!; try done. rewrite lookup_insert_is_Some'. by right.
    + intros sid. rewrite !lookup_insert_is_Some'. by rewrite (inv_declared _ Hc sid).
  - destruct (sources c !! sid) as [s|] eqn:Hs; [|by rewrite ingest_unknown].
    rewrite ingest_run by (done || by eexists). apply inv_set_tool; [done|..]; simpl.
    + by rewrite Hs.
    + intros d Hd. unfold carried in Hd. destruct (assertions c !! (sid, n)) as [r|]; [|done].
      case_decide as Hf; [|done]. injection Hd as <-. by exists r.
    + intros r Hr Hf. unfold carried. by rewrite Hr, decide_True.
  - destruct (py_truthy (asserted_by d)) eqn:Hd;
      [|by destruct (assert_refused c sid n d) as [e ->]; [by left|]].
    destruct (tools c !! (sid, n)) as [tv|] eqn:Ht;
      [|by destruct (assert_refused c sid n d) as [e ->]; [by right|]].
    destruct (inv_tool _ Hc _ _ Ht) as (Hi1 & Hi2 & Hi3 & Hi4).
    destruct (assert_run c sid n d tv) as (fp & Hfp & ->); [done..|]. simpl.
    split; simpl; try apply Hc.
    + intros tid tv' [[<- <-]|[_ H]]%lookup_insert_Some; [done|]. by apply Hc.
    + intros tid tv' d' [[<- <-]|[Hne H]]%lookup_insert_Some Ha.
      * injection Ha as <-. eexists. by rewrite lookup_insert_eq.
      * rewrite lookup_insert_ne by done. by apply Hc.
    + intros tid r. rewrite lookup_insert_is_Some'.
      intros [[<- <-]|[Hne H]]%lookup_insert_Some; [by auto|].
      destruct (inv_evidence _ Hc _ _ H). auto.
    + intros tid tv' r [[<- <-]|[Hne H]]%lookup_insert_Some.
      * rewrite lookup_insert_eq. by intros [= <-].
      * rewrite lookup_insert_ne by done. by apply Hc.
  - destruct (tools c !! (sid, n)) as [tv|] eqn:Ht; [|done].
    apply inv_set_tool; [done|by apply (inv_tool _ Hc _ _ Ht)|..].
    + intros d. apply (inv_asserted _ Hc _ _ _ Ht).
    + intros r. apply (inv_current _ Hc _ _ _ Ht).
Qed.

Lemma inv_run ops : Forall op_renders ops → inv (run ops).
Proof.
  induction ops as [|op ops IH] using rev_ind; intros Hops; [apply inv_empty|].
  apply Forall_app in Hops as [Hops Hop]. inversion_clear Hop.
  rewrite run_snoc. apply inv_step; auto.
Qed.

(** An operation leaves every other tool's entry and evidence alone. *)
Lemma step_frame c op tid :
  op_tid op ≠ Some tid →
  tools (step c op) !! tid = tools c !! tid ∧ assertions (step c op) !! tid = assertions c !! tid.
Proof.
  destruct op as [s ds|sid n cl ver|sid n d|sid n schema]; simpl; intros Hne; [done|..].
  - unfold ingest_claimed, mbind, st_bind, st_get, st_lift. simpl.
    case_decide; [done|].
    destruct (assertions c !! (sid, n)); [destruct (_fingerprint _)|]; simpl;
      rewrite ?lookup_insert_ne by congruence; done.
  - unfold assert_descriptor, mbind, st_bind, st_get, st_lift.
    destruct (py_truthy (asserted_by d)); simpl; [|done].
    destruct (tools c !! (sid, n)); [|done]. simpl.
    destruct (_fingerprint _); simpl; rewrite ?lookup_insert_ne by congruence; done.
  - destruct (tools c !! (sid, n)); simpl; rewrite ?lookup_insert_ne by congruence; done.
Qed.

(** Evidence changes by a successful assertion only. *)
Lemma step_evidence c op tid r :
  inv c → op_renders op → assertions (step c op) !! tid = Some r →
  assertions c !! tid = Some r ∧
    (∀ d, op = OpAssert tid.1 tid.2 d → py_truthy (asserted_by d) = false) ∨
  op = OpAssert tid.1 tid.2 (descriptor r) ∧ py_truthy (asserted_by (descriptor r)) = true ∧
    ∃ tv, tools c !! tid = Some tv ∧ _fingerprint tv = Ok (fingerprint r).
Proof.
  intros Hc Hop H. destruct (decide (op_tid op = Some tid)) as [Ht|Ht].
  - destruct op as [s ds|sid n cl ver|sid n d|sid n schema]; simplify_eq/=.
    + left. destruct (sources c !! sid) as [s|] eqn:Hs.
      * by rewrite ingest_run in H by (done || by eexists).
      * by rewrite ingest_unknown in H.
    + destruct (tools c !! (sid, n)) as [tv|] eqn:Ht.
      * destruct (py_truthy (asserted_by d)) eqn:Hd.
        -- destruct (assert_run c sid n d tv) as (fp & Hfp & Hr);
             [done|done|by apply (inv_tool _ Hc _ _ Ht)|].
           rewrite Hr in H. simpl in H. rewrite lookup_insert_eq in H. injection H as <-.
           right. eauto 10.
        -- destruct (assert_refused c sid n d) as [e Hr]; [by left|].
           rewrite Hr in H. left. split; [done|]. by intros d' [= <-].
      * destruct (assert_refused c sid n d) as [e Hr]; [by right|].
        rewrite Hr in H. destruct (inv_evidence _ Hc _ _ H) as [[tv' Ht'] _]. congruence.
    + left. by destruct (tools c !! (sid, n)).
  - left. destruct (step_frame c op tid Ht) as [_ He]. rewrite He in H. split; [done|].
    intros d ->. by destruct tid.
Qed.

(** The last successful assertion of a tool in a history, with the state it was made in. *)
Definition vouched ops tid r : Prop :=
  ∃ before after tv0,
    ops = before ++ OpAssert tid.1 tid.2 (descriptor r) :: after ∧
    tools (run before) !! tid = Some tv0 ∧ _fingerprint tv0 = Ok (fingerprint r) ∧
    ∀ d, OpAssert tid.1 tid.2 d ∈ after → py_truthy (asserted_by d) = false.

Lemma evidence_vouched ops tid r :
  Forall op_renders ops → assertions (run ops) !! tid = Some r → vouched ops tid r.
Proof.
  revert r. induction ops as [|op ops IH] using rev_ind; intros r Hops H; [done|].
  apply Forall_app in Hops as [Hops Hop]. inversion_clear Hop as [|? ? Hop' _].
  rewrite run_snoc in H.
  destruct (step_evidence _ _ _ _ (inv_run _ Hops) Hop' H) as [[Hr Hn]|(-> & Hb & tv & Ht & Hf)].
  - destruct (IH r Hops Hr) as (l1 & l2 & tv0 & -> & Ht & Hf & Hl).
    exists l1, (l2 ++ [op]), tv0. rewrite <- app_assoc. split_and!; [done..|].
    intros d [Hd|Hd]%elem_of_app; [by apply Hl|]. apply Hn. by apply list_elem_of_singleton in Hd.
  - exists ops, [], tv. split_and!; [done..|]. intros d []%elem_of_nil.
Qed.
End ops.

(** ** Fingerprints and claims *)

Section fingerprints.
Context {rt : PyFloatRuntime}.
Implicit Types (c : Catalog) (tv : ToolVersion).

Lemma claim_ok_renders cl : claim_ok cl → claim_renders cl.
Proof.
  assert (∀ v, hint_ok v → json_serializable true v = true) as Hh by (by intros []).
  intros (H0 & H1 & H2 & H3 & H4). unfold claim_renders.
  assert (json_serializable true (description cl) = true) by (by destruct (description cl)). rewrite !Forall_cons, Forall_nil. auto 10.
Qed.

(** Hints that are [None] or a boolean contain no object, so key sorting is moot. *)
Lemma hint_ok_flat v :
  hint_ok v → json_ok v ∧ sorted_json v = v ∧ json_text true false v = json_text true true v.
Proof. by intros; destruct v. Qed.

Lemma claim_list_flat tv :
  claim_ok (claimed tv) →
  json_ok (claim_list tv) ∧ sorted_json (claim_list tv) = claim_list tv ∧
  json_text true false (claim_list tv) = json_text true true (claim_list tv).
Proof.
  intros (H0 & (? & S1 & T1)%hint_ok_flat & (? & S2 & T2)%hint_ok_flat &
          (? & S3 & T3)%hint_ok_flat & (? & S4 & T4)%hint_ok_flat).
  unfold claim_list. destruct (description (claimed tv)) as [| | | |s| | |]; try done. split_and!.
  - apply json_ok_list. by repeat constructor.
  - simpl. by rewrite S1, S2, S3, S4.
  - simpl. by rewrite T1, T2, T3, T4.
Qed.

Lemma claim_list_inj a b :
  claim_list a = claim_list b ↔
  ref_version (ref a) = ref_version (ref b) ∧ claimed a = claimed b.
Proof.
  destruct a as [[na va] sa [] aa ia], b as [[nb vb] sb [] ab ib]. unfold claim_list. simpl.
  split; [intros [=]; by subst|intros [-> [=]]; by subst].
Qed.

(** Two texts whose digests agree on the 64 bits the catalog keeps. *)
Definition fingerprint_collision a b : Prop :=
  json_text true false (claim_list a) ≠ json_text true false (claim_list b) ∧
  sha256_prefix64 (json_text true false (claim_list a)) =
  sha256_prefix64 (json_text true false (claim_list b)).

Lemma fingerprint_same_claim a b :
  claim_ok (claimed a) → claim_ok (claimed b) →
  _fingerprint a = _fingerprint b ↔
  (ref_version (ref a) = ref_version (ref b) ∧ claimed a = claimed b) ∨ fingerprint_collision a b.
Proof.
  intros Ha Hb. rewrite <- claim_list_inj. unfold fingerprint_collision.
  rewrite !fingerprint_renders by (by apply claim_ok_renders).
  destruct (claim_list_flat _ Ha) as (Oa & Sa & ->), (claim_list_flat _ Hb) as (Ob & Sb & ->).
  rewrite (json_text_eq_iff _ _ Oa Ob), Sa, Sb.
  split.
  - intros [= He]. destruct (decide (claim_list a = claim_list b)); auto.
  - intros [He|[_ He]]; [by rewrite He|by rewrite He].
Qed.
End fingerprints.

(** ** Properties *)

Section properties.
Context {rt : PyFloatRuntime}.

Lemma invocable_true c sid n :
  invocable c sid n = Ok true →
  ∃ tv d s, get c sid n = Some tv ∧ asserted tv = Some d ∧
    sources c !! source_id tv = Some s ∧ TrustTier.invocable (tier s) = true.
Proof.
  unfold invocable, is_asserted. destruct (get c sid n) as [tv|]; [|done].
  destruct (asserted tv) as [d|] eqn:Ha; simpl; [|done].
  destruct (sources c !! source_id tv) as [s|] eqn:Hs; [|done]. intros [= Ht]. eauto 10.
Qed.

(** C35 -- No tool is invocable unless a human vouched for exactly it: after any
    history of registrations, ingests, schema updates and assertions, an invocable
    (source, name) has an earlier successful assertion of that very pair, naming a
    human, not superseded by a later one; the descriptor in force is the asserted one;
    the claim now served has the fingerprint of the claim that was vouched for; and the
    source's tier permits invocation. *)
Theorem invocable_provenance (ops : list cat_op) (sid n : string) :
  Forall op_renders ops → invocable (run ops) sid n = Ok true →
  ∃ tv d before after tv0 s,
    get (run ops) sid n = Some tv ∧ asserted tv = Some d ∧
    ops = before ++ OpAssert sid n d :: after ∧ py_truthy (asserted_by d) = true ∧
    (∀ d', OpAssert sid n d' ∈ after → py_truthy (asserted_by d') = false) ∧
    get (run before) sid n = Some tv0 ∧ _fingerprint tv = _fingerprint tv0 ∧
    sources (run ops) !! sid = Some s ∧ (tier s = TrustTier.VERIFIED ∨ tier s = TrustTier.KNOWN).
Proof.
  intros Hops (tv & d & s & Ht & Ha & Hs & Htier)%invocable_true.
  pose proof (inv_run _ Hops) as Hc.
  destruct (inv_asserted _ Hc _ _ _ Ht Ha) as (r & Hr & <- & Hf).
  destruct (evidence_vouched _ _ _ Hops Hr) as (l1 & l2 & tv0 & Hl & Ht0 & Hf0 & Hlast).
  rewrite (proj1 (inv_tool _ Hc _ _ Ht)) in Hs.
  exists tv, (descriptor r), l1, l2, tv0, s. split_and!; try done.
  - by apply (inv_evidence _ Hc _ _ Hr).
  - by rewrite Hf0.
  - revert Htier. destruct (tier s); simpl; auto; discriminate.
Qed.

(** Re-announcing an asserted tool: the identical claim and version keep the
    assertion and the answer of [invocable]; any change of the version, the description
    or a hint leaves the tool asserted-then-changed and not invocable with its evidence
    kept, unless the two claim texts collide on 64 bits of SHA-256. *)
Theorem reingest_outcome (c : Catalog) (sid n : string) (tv : ToolVersion)
    (d : AssertedDescriptor) (cl : ClaimedMetadata) (ver : string) :
  inv c → get c sid n = Some tv → asserted tv = Some d → claim_ok (claimed tv) → claim_ok cl →
  let c' := (ingest_claimed sid n cl ver c).2 in
  let same := cl = claimed tv ∧ ver = ref_version (ref tv) in
  (same ∧ get c' sid n = Some (with_schema (PDict []) tv) ∧ invocable c' sid n = invocable c sid n ∧
   assertion_status c' sid n = AssertionStatus.ASSERTED)
  ∨ (¬ same ∧ invocable c' sid n = Ok false ∧ assertions c' = assertions c ∧
     assertion_status c' sid n = AssertionStatus.CHANGED)
  ∨ (¬ same ∧ fingerprint_collision (fresh_tool sid n cl ver) tv).
Proof.
  intros Hc Ht Ha Hok Hcl c' same.
  destruct (inv_tool _ Hc _ _ Ht) as (Hsid & Hn & Hs & _). simpl in *.
  destruct (inv_asserted _ Hc _ _ _ Ht Ha) as (r & Hr & Hd & Hf).
  subst c'. rewrite ingest_run by (done || by apply claim_ok_renders).
  unfold carried. rewrite Hr, <- Hf, Hd.
  pose proof (fingerprint_same_claim (fresh_tool sid n cl ver) tv Hcl Hok) as Hiff.
  simpl in Hiff. unfold invocable, assertion_status, get in *. simpl.
  rewrite !lookup_insert_eq, Hr, Ht. case_decide as Hfp.
  - apply Hiff in Hfp as [[Hv Hcl']|Hcol]; [left|].
    + simpl. unfold is_asserted. rewrite Ha, Hsid. simpl. split_and!; try done.
      destruct tv as [[]]. simpl in *. by subst.
    + right; right. split; [|done]. intros [-> ->]. destruct Hcol as [Hne _].
      apply Hne, f_equal. by apply claim_list_inj.
  - right; left. split_and!; try done. intros [-> ->]. apply Hfp, Hiff. by left.
Qed.

(** The operations that can bear on one tool: its own and its source's registrations. *)
Definition concerns (sid n : string) (op : cat_op) : Prop :=
  match op with
  | OpRegister s _ => src_id s = sid
  | OpIngest sid' n' _ _ | OpAssert sid' n' _ | OpSchema sid' n' _ => (sid', n') = (sid, n)
  end.
#[local] Instance concerns_dec sid n op : Decision (concerns sid n op).
Proof. destruct op; simpl; apply _. Defined.

(** Two catalogs that look the same from one tool. *)
Definition agree (sid n : string) (c c' : Catalog) : Prop :=
  tools c !! (sid, n) = tools c' !! (sid, n) ∧
  assertions c !! (sid, n) = assertions c' !! (sid, n) ∧
  sources c !! sid = sources c' !! sid ∧
  ∀ tv, tools c !! (sid, n) = Some tv → source_id tv = sid.

Lemma step_sources c op :
  sources (step c op) = match op with
                        | OpRegister s _ => <[src_id s := s]> (sources c)
                        | _ => sources c
                        end.
Proof.
  destruct op as [s ds|sid n cl ver|sid n d|sid n schema]; simpl; [done|..].
  - unfold ingest_claimed, mbind, st_bind, st_get, st_lift. simpl.
    case_decide; [done|]. destruct (assertions c !! _); [destruct (_fingerprint _)|]; done.
  - unfold assert_descriptor, mbind, st_bind, st_get, st_lift.
    destruct (py_truthy _); [|done]. simpl. destruct (tools c !! _); [|done]. simpl.
    by destruct (_fingerprint _).
  - by destruct (tools c !! _).
Qed.

Lemma agree_skip sid n c c' op :
  ¬ concerns sid n op → agree sid n c c' → agree sid n (step c op) c'.
Proof.
  intros Hop (Ht & Ha & Hs & Hid). unfold agree. rewrite step_sources.
  assert (op_tid op ≠ Some (sid, n)) as Hne.
  { destruct op; simpl in *; try done; congruence. }
  destruct (step_frame c op _ Hne) as [-> ->]. split_and!; try done.
  destruct op as [s ds| | |]; [|done..]. simpl in Hop. by rewrite lookup_insert_ne.
Qed.

Lemma agree_step sid n c c' op :
  concerns sid n op → agree sid n c c' → agree sid n (step c op) (step c' op).
Proof.
  intros Hop (Ht & Ha & Hs & Hid). unfold agree. rewrite !step_sources.
  destruct op as [s ds|sid' n' cl ver|sid' n' d|sid' n' schema]; simpl in Hop; simplify_eq/=.
  - rewrite !lookup_insert_eq. done.
  - unfold ingest_claimed, mbind, st_bind, st_get, st_lift. simpl. rewrite <- Hs, <- Ha.
    case_decide; [by split_and!|].
    destruct (assertions c !! (sid, n)) eqn:E; [destruct (_fingerprint _); [destruct (_ =? _)|]|];
      simpl; rewrite ?lookup_insert_eq; split_and!; try congruence; try done; by intros ? [= <-].
  - unfold assert_descriptor, mbind, st_bind, st_get, st_lift. simpl.
    destruct (py_truthy _); simpl; [|by split_and!]. rewrite <- Ht.
    destruct (tools c !! (sid, n)) as [tv|] eqn:E; simpl; [|by rewrite E, <- Ht].
    destruct (_fingerprint _); simpl; rewrite !lookup_insert_eq; split_and!; try congruence; try done;
      intros ? [= <-]; by apply (Hid tv).
  - rewrite <- Ht. destruct (tools c !! (sid, n)) as [tv|] eqn:E; simpl;
      [|by rewrite E, <- Ht].
    rewrite !lookup_insert_eq. split_and!; try done. intros ? [= <-]. by apply (Hid tv).
Qed.

(** Namespacing: what the catalog says of a (source, name) after any history is
    what it says after the operations on that pair and the registrations of that source
    alone; no other tool, the same bare name under another source included, can shadow,
    overwrite, enable or disable it. *)
Theorem tool_isolation (ops : list cat_op) (sid n : string) :
  let own := run (filter (concerns sid n) ops) in
  get (run ops) sid n = get own sid n ∧
  invocable (run ops) sid n = invocable own sid n ∧
  assertion_status (run ops) sid n = assertion_status own sid n.
Proof.
  intros own. assert (agree sid n (run ops) own) as (Ht & Ha & Hs & Hid).
  { subst own. induction ops as [|op ops IH] using rev_ind.
    - split_and!; [done..|]. by intros tv [=].
    - rewrite filter_app, filter_cons, run_snoc. case_decide as Hop.
      + rewrite filter_nil, run_snoc. by apply agree_step.
      + rewrite filter_nil, app_nil_r. by apply agree_skip. }
  unfold get, invocable, assertion_status, get. rewrite <- Ht, <- Ha.
  split_and!; try done. destruct (tools (run ops) !! (sid, n)) as [tv|]; [|done].
  by rewrite (Hid tv eq_refl), Hs.
Qed.

(** ** Resolution *)

Lemma elem_of_find_all c name tid :
  tid ∈ find_all c name ↔ tid.2 = name ∧ is_Some (tools c !! tid).
Proof.
  unfold find_all. rewrite list_elem_of_filter. apply and_iff_compat_l.
  rewrite list_elem_of_fmap. split.
  - intros ([tid' tv] & -> & H%elem_of_map_to_list). by exists tv.
  - intros [tv H]. exists (tid, tv). by rewrite elem_of_map_to_list.
Qed.

Lemma find_all_NoDup c name : NoDup (find_all c name).
Proof. apply NoDup_filter, NoDup_fst_map_to_list. Qed.

(** Bare-name resolution never picks among sources: it answers exactly when one
    source alone exposes the name, raises [KeyError] exactly when none does and
    [AmbiguousToolName] otherwise. *)
Theorem resolve_spec (c : Catalog) (name : string) :
  match resolve c name with
  | Ok tid => tid.2 = name ∧ is_Some (tools c !! tid) ∧
              ∀ tid', tid'.2 = name → is_Some (tools c !! tid') → tid' = tid
  | Raise (KeyError _) => ∀ tid, tid.2 = name → tools c !! tid = None
  | Raise e => (∃ m, e = AmbiguousToolName m) ∧
               ∃ sid1 sid2, sid1 ≠ sid2 ∧ is_Some (tools c !! (sid1, name)) ∧
                            is_Some (tools c !! (sid2, name))
  end.
Proof.
  pose proof (elem_of_find_all c name) as Hf. pose proof (find_all_NoDup c name) as Hnd.
  unfold resolve. destruct (find_all c name) as [|[s1 n1] [|[s2 n2] l]].
  - intros tid Ht. apply eq_None_not_Some. intros Hs.
    assert (tid ∈ @nil ToolId) as []%elem_of_nil by by apply Hf.
  - destruct (Hf (s1, n1)) as [Hf1 _]. destruct Hf1 as [? ?]; [by left|].
    split_and!; [done..|]. intros tid' Hn Hs.
    by assert (tid' ∈ [(s1, n1)]) as ->%list_elem_of_singleton by by apply Hf.
  - destruct (proj1 (Hf (s1, n1))) as [E1 ?]; [set_solver|].
    destruct (proj1 (Hf (s2, n2))) as [E2 ?]; [set_solver|]. simpl in *. subst n1 n2.
    split; [by eexists|]. exists s1, s2. split_and!; try done.
    intros ->. apply NoDup_cons in Hnd as [Hn _]. set_solver.
Qed.

(** ** Drift *)

Lemma elem_of_mine c sid n : n ∈ mine c sid ↔ is_Some (tools c !! (sid, n)).
Proof.
  unfold mine. rewrite elem_of_list_to_set, list_elem_of_fmap. split.
  - intros ([s n'] & -> & [Hs Hm]%list_elem_of_filter). simpl in *. subst s.
    apply list_elem_of_fmap in Hm as ([tid tv] & -> & H%elem_of_map_to_list). by exists tv.
  - intros [tv H]. exists (sid, n). split; [done|]. apply list_elem_of_filter. split; [done|].
    apply list_elem_of_fmap. exists ((sid, n), tv). by rewrite elem_of_map_to_list.
Qed.

(** A drift report is clean exactly when the source serves what it declared and
    every discovered tool is in the catalog with its assertion in force and no claim
    contradicting it. *)
Theorem drift_clean_iff (c : Catalog) (sid : string) (discovered : gset string) :
  inv c →
  clean (drift c sid discovered) = true ↔
  default ∅ (declared c !! sid) = discovered ∧
  ∀ n, n ∈ discovered → ∃ tv, get c sid n = Some tv ∧
    is_asserted tv = true ∧ claim_conflicts tv = [].
Proof.
  intros Hc. unfold clean, drift, get. simpl.
  generalize (default ∅ (declared c !! sid)). intros decl.
  rewrite !andb_true_iff, !bool_decide_eq_true, !sorted_set_nil. split.
  - intros ((((Hm & Hu) & Hn) & Hcf) & Hch). split; [by apply set_differences_empty|].
    intros n Hd. assert (is_Some (tools c !! (sid, n))) as [tv Ht].
    { destruct (assertions c !! (sid, n)) as [r|] eqn:Hr; [by eapply inv_evidence|].
      exfalso. assert (n ∈ (∅ : gset string)) as []%elem_of_empty. rewrite <- Hn.
      apply elem_of_filter. split; [|done]. unfold assertion_status. by rewrite Hr. }
    exists tv. assert (n ∈ discovered ∩ mine c sid) as Hboth.
    { apply elem_of_intersection. split; [done|]. apply elem_of_mine. by eexists. }
    split_and!; [done| |].
    + apply not_false_is_true. intros Has.
      destruct (assertions c !! (sid, n)) as [r|] eqn:Hr.
      * assert (n ∈ (∅ : gset string)) as []%elem_of_empty. rewrite <- Hch.
        apply elem_of_filter. unfold assertion_status. by rewrite Hr, Ht, Has.
      * assert (n ∈ (∅ : gset string)) as []%elem_of_empty. rewrite <- Hn.
        apply elem_of_filter. unfold assertion_status. by rewrite Hr.
    + assert (∀ msg, msg ∉ claim_conflicts tv) as Hno; [|by apply list_nil_iff].
      intros msg Hmsg. assert ((n, msg) ∈ @nil (string * string)) as []%elem_of_nil.
      rewrite <- Hcf. apply list_elem_of_bind. exists n. rewrite Ht, elem_of_sorted_set.
      split; [|done]. by apply list_elem_of_fmap_2.
  - intros [Hdecl Hall].
    assert (∀ n, n ∈ discovered → assertion_status c sid n = AssertionStatus.ASSERTED) as Hst.
    { intros n Hd. destruct (Hall n Hd) as (tv & Ht & Has & _). unfold is_asserted in Has.
      destruct (asserted tv) as [d|] eqn:E; [|done].
      destruct (inv_asserted _ Hc _ _ _ Ht E) as (r & Hr & _).
      unfold assertion_status, is_asserted. by rewrite Hr, Ht, E. }
    rewrite Hdecl. split_and!; [apply difference_diag_L| apply difference_diag_L| | |].
    + apply set_eq. intros n. split; [|set_solver].
      intros [Hf Hd]%elem_of_filter. by rewrite Hst in Hf.
    + apply list_nil_iff. intros [n msg]. rewrite list_elem_of_bind.
      intros (n' & Hin & Hb). rewrite elem_of_sorted_set in Hb.
      apply elem_of_intersection in Hb as [Hd _].
      destruct (Hall n' Hd) as (tv & Ht & _ & Hcf). rewrite Ht, Hcf in Hin. set_solver.
    + apply set_eq. intros n. split; [|set_solver].
      intros [Hf [Hd _]%elem_of_intersection]%elem_of_filter. by rewrite Hst in Hf.
Qed.
End properties.

(** ** Witnesses *)

Definition sample_source : TrustedSource := mkSource "ws" TrustTier.VERIFIED "stdio".
Definition sample_claim : ClaimedMetadata :=
  mkClaimed (PStr "search files") (PBool true) PNone (PBool true) (PBool false).
Definition sample_desc : AssertedDescriptor :=
  mkAsserted Effect.READ {[DataClass.INTERNAL]} ∅ [] (PBool true) (PBool true) (PBool false)
    (PBool false) (PStr "ops").
Definition sample_history : list cat_op :=
  [OpRegister sample_source (Some {["search"]}); OpIngest "ws" "search" sample_claim "1.0.0";
   OpAssert "ws" "search" sample_desc].
Definition sample_catalog : Catalog := run (rt := coded_float_runtime) sample_history.

Lemma sample_claim_ok : claim_ok sample_claim.
Proof. by apply (bool_decide_unpack _). Qed.

Lemma sample_history_renders : Forall op_renders sample_history.
Proof. repeat constructor. Qed.

Lemma sample_catalog_inv : inv (rt := coded_float_runtime) sample_catalog.
Proof. apply inv_run, sample_history_renders. Qed.

Lemma invocable_provenance_witness :
  invocable sample_catalog "ws" "search" = Ok true ∧
  ∃ tv, get sample_catalog "ws" "search" = Some tv.
Proof.
  assert (invocable sample_catalog "ws" "search" = Ok true) as H by (vm_compute; reflexivity).
  split; [exact H|].
  destruct (invocable_provenance (rt := coded_float_runtime) sample_history "ws" "search"
    sample_history_renders H) as (tv & _ & _ & _ & _ & _ & Ht & _).
  by exists tv.
Defined.

Definition sample_tool : ToolVersion :=
  mkTool (mkToolRef "search" "1.0.0") "ws" sample_claim (Some sample_desc) (PDict []).

(** The changed description is noticed: the third outcome is excluded by computation. *)
Lemma reingest_outcome_witness :
  let cl := mkClaimed (PStr "delete files") (PBool true) PNone (PBool true) (PBool false) in
  let c' := (ingest_claimed (rt := coded_float_runtime) "ws" "search" cl "1.0.0" sample_catalog).2 in
  get sample_catalog "ws" "search" = Some sample_tool ∧
  assertion_status c' "ws" "search" = AssertionStatus.CHANGED.
Proof.
  intros cl c'. assert (get sample_catalog "ws" "search" = Some sample_tool) as Ht
    by (vm_compute; reflexivity).
  split; [exact Ht|].
  destruct (reingest_outcome (rt := coded_float_runtime) sample_catalog "ws" "search" sample_tool
    sample_desc cl "1.0.0" sample_catalog_inv Ht eq_refl sample_claim_ok ltac:(by apply (bool_decide_unpack _)))
    as [(([=] & _) & _)|[(_ & _ & _ & H)|(_ & Hcol)]].
  - exact H.
  - exfalso. destruct Hcol as [_ Hcol]. vm_compute in Hcol. discriminate Hcol.
Defined.

Lemma drift_clean_iff_witness :
  clean (drift sample_catalog "ws" {["search"]}) = true ∧
  default ∅ (declared sample_catalog !! "ws") = {["search"]}.
Proof.
  assert (clean (drift sample_catalog "ws" {["search"]}) = true) as H by (vm_compute; reflexivity).
  split; [exact H|].
  by apply (drift_clean_iff (rt := coded_float_runtime) sample_catalog "ws" {["search"]}
              sample_catalog_inv).
Defined.
