(* ===== verification/Policy.v ===== *)
(** [policy.py]: principals, decisions, the Cedar adapter and the broker.

    The Cedar engine is a parameter: a function from the request, the policy set and
    the entities to a response, or to the text of the exception it raised. *)

From S2P Require Import Prelude PyJson PyJsonLoads Descriptor Catalog.

(** ** Principals and delegation *)

Inductive Principal := mkPrincipal {
  principal_id : string;
  privacy_tier : string;
  kind : string;
  on_behalf_of : option Principal;
}.

(** [order.get(tier, 99)] *)
Definition tier_order (tier : string) : Z :=
  if decide (tier = "local") then 0
  else if decide (tier = "trusted-cloud") then 1
  else if decide (tier = "rented") then 2
  else 99.

(** The [while] loop of [effective_tier], over the rest of the chain. *)
Fixpoint effective_tier_loop (worst : string) (node : Principal) : string :=
  let worst := if tier_order worst <? tier_order (privacy_tier node)
               then privacy_tier node else worst in
  match on_behalf_of node with
  | Some next => effective_tier_loop worst next
  | None => worst
  end.

(** [Principal.effective_tier] *)
Definition effective_tier (p : Principal) : string :=
  match on_behalf_of p with
  | Some node => effective_tier_loop (privacy_tier p) node
  | None => privacy_tier p
  end.

(** The delegation chain, the principal first. *)
Fixpoint chain (p : Principal) : list Principal :=
  p :: match on_behalf_of p with Some next => chain next | None => [] end.

(** ** Decisions *)

Record Decision := mkDecision {
  allowed : bool;
  reason : string;
  determining_policies : list string;
  errors : list string;
}.

(** [Decision.is_default_deny] *)
Definition is_default_deny (d : Decision) : bool :=
  negb (allowed d) && bool_decide (determining_policies d = []) && bool_decide (errors d = []).

(** The [PolicyEngine] protocol.  An implementation may raise. *)
Class PolicyEngine := {
  decide_tool : Principal → ToolVersion → list (pykey * pyval) → res Decision;
}.

(** ** The Cedar adapter *)

Record CedarResponse := mkResponse {
  cedar_allow : bool;
  cedar_reasons : list string;
  cedar_annotations : gmap string string;
  cedar_errors : list string;
}.

(** What [cedarpy] does: [inl] is the text of the exception raised. *)
Class Cedar := {
  cedar_policies : Type;
  is_authorized : pyval → cedar_policies → pyval → string + CedarResponse;
}.

Definition entity (type id : string) (attrs : list (pykey * pyval)) : pyval :=
  PDict [str_pair "uid" (PDict [str_pair "type" (PStr type); str_pair "id" (PStr id)]);
         str_pair "attrs" (PDict attrs); str_pair "parents" (PList [])].

(** [CedarPolicyEngine._entities], [d] being the asserted descriptor. *)
Definition _entities (p : Principal) (tool : ToolVersion) (d : AssertedDescriptor) : pyval :=
  PList [
    entity "Agent" (principal_id p)
      [str_pair "privacy_tier" (PStr (effective_tier p));
       str_pair "kind" (PStr (kind p));
       str_pair "delegated" (PBool (bool_decide (on_behalf_of p ≠ None)))];
    entity "Tool" (ref_name (ref tool))
      [str_pair "effect" (PStr (Effect.value (effect d)));
       str_pair "reversible" (reversible d);
       str_pair "idempotent" (idempotent d);
       str_pair "requires_approval" (requires_approval d);
       str_pair "reads_sensitive" (PBool (reads_sensitive d));
       str_pair "external_sink" (PBool (is_external_sink d))]].

Definition cedar_request (p : Principal) (tool : ToolVersion) (context : list (pykey * pyval)) : pyval :=
  PDict [
    str_pair "principal" (PDict [str_pair "type" (PStr "Agent"); str_pair "id" (PStr (principal_id p))]);
    str_pair "action" (PDict [str_pair "type" (PStr "Action"); str_pair "id" (PStr "invoke")]);
    str_pair "resource" (PDict [str_pair "type" (PStr "Tool"); str_pair "id" (PStr (ref_name (ref tool)))]);
    str_pair "context" (PDict context)].

Section cedar.
Context {ce : Cedar} (policies : cedar_policies).

(** [CedarPolicyEngine.decide] *)
Definition decide_cedar (p : Principal) (tool : ToolVersion) (context : list (pykey * pyval)) : Decision :=
  match asserted tool with
  | None =>
      mkDecision false (ref_name (ref tool) +:+ " has no operator-asserted descriptor")
        ["<unasserted>"] []
  | Some d =>
      match is_authorized (cedar_request p tool context) policies (_entities p tool d) with
      | inl exc => mkDecision false ("policy engine error: " +:+ exc) [] [exc]
      | inr r =>
          let named := (λ x, default x (cedar_annotations r !! x)) <$> cedar_reasons r in
          let errs := cedar_errors r in
          if cedar_allow r then mkDecision true ("permitted by " +:+ join ", " named) named errs
          else if decide (named ≠ []) then
            mkDecision false ("forbidden by " +:+ join ", " named) named errs
          else if decide (errs ≠ []) then
            mkDecision false ("policy evaluation errored: " +:+ join "; " errs) [] errs
          else mkDecision false "default deny: no policy matched" [] []
      end
  end.

(** Cedar as an instance of the protocol: it never raises. *)
#[export] Instance CedarPolicyEngine : PolicyEngine :=
  {| decide_tool p tool context := Ok (decide_cedar p tool context) |}.
End cedar.

(** [cedarpy.PolicySet.from_str]: [inl] is the text of the exception raised. *)
Class CedarParser {ce : Cedar} := { from_str : string → string + cedar_policies }.

(** [CedarPolicyEngine(policies)] *)
Definition new_engine {ce : Cedar} {parser : CedarParser} (policies : string) : res PolicyEngine :=
  match from_str policies with
  | inl exc => Raise (ValueError ("invalid Cedar policy set: " +:+ exc))
  | inr set => Ok (CedarPolicyEngine set)
  end.

(** ** The broker *)

Section broker.
Context {engine : PolicyEngine}.

Definition bool_text (b : bool) : string := if b then "True" else "False".

(** The decision [Broker.authorize] reaches. *)
Definition authorize_decision (c : Catalog) (p : Principal) (source_id name : string)
    (context : list (pykey * pyval)) : res Decision :=
  let qualified := source_id +:+ ":" +:+ name in
  match get c source_id name with
  | None => Ok (mkDecision false ("unknown tool " +:+ repr_str qualified) ["<unregistered>"] [])
  | Some tool =>
      ok ← invocable c source_id name;
      if negb ok then
        match sources c !! Descriptor.source_id tool with
        | None => Raise (KeyError (Descriptor.source_id tool))
        | Some s =>
            Ok (mkDecision false
              (qualified +:+ " not invocable (source tier=" +:+ TrustTier.value (tier s)
                 +:+ ", asserted=" +:+ bool_text (is_asserted tool) +:+ ")")
              ["<not-invocable>"] [])
        end
      else decide_tool p tool context
  end.

(** The audit record of a decision. *)
Definition decision_record (p : Principal) (source_id name : string) (d : Decision) :
    list (pykey * pyval) :=
  [str_pair "principal" (PStr (principal_id p));
   str_pair "source" (PStr source_id);
   str_pair "tool" (PStr name);
   str_pair "qualified" (PStr (source_id +:+ ":" +:+ name));
   str_pair "allowed" (PBool (allowed d));
   str_pair "reason" (PStr (reason d));
   str_pair "determining_policies" (PList (PStr <$> determining_policies d));
   str_pair "default_deny" (PBool (is_default_deny d))].

(** [Broker.authorize]: decide, then append to the audit list. *)
Definition authorize (c : Catalog) (p : Principal) (source_id name : string)
    (context : list (pykey * pyval)) : st (list (list (pykey * pyval))) Decision :=
  d ← st_lift (authorize_decision c p source_id name context);
  _ ← st_modify (λ audit, audit ++ [decision_record p source_id name d]);
  mret d.
End broker.

(** ** Delegation *)

Lemma effective_tier_loop_spec p : ∀ worst,
  let e := effective_tier_loop worst p in
  tier_order worst ≤ tier_order e ∧
  (∀ q, q ∈ chain p → tier_order (privacy_tier q) ≤ tier_order e) ∧
  (e = worst ∨ ∃ q, q ∈ chain p ∧ e = privacy_tier q).
Proof.
  revert p. fix IH 1. intros [i t k [next|]] worst; simpl.
  - destruct (IH next (if tier_order worst <? tier_order t then t else worst)) as (Hw & Hc & He).
    destruct (Z.ltb_spec (tier_order worst) (tier_order t)); split_and!; try lia.
    + intros q [->|Hq]%elem_of_cons; simpl; [lia|]. by apply Hc.
    + destruct He as [->|(q & Hq & ->)]; right; [|by exists q; split; [right|]].
      eexists. by split; [left|].
    + intros q [->|Hq]%elem_of_cons; simpl; [lia|]. by apply Hc.
    + destruct He as [->|(q & Hq & ->)]; [by left|]. right. exists q. by split; [right|].
  - destruct (Z.ltb_spec (tier_order worst) (tier_order t)); split_and!; try lia.
    + intros q ->%list_elem_of_singleton. simpl. lia.
    + right. eexists. split; [by left|done].
    + intros q ->%list_elem_of_singleton. simpl. lia.
    + by left.
Qed.

Lemma effective_tier_spec p :
  (∃ q, q ∈ chain p ∧ effective_tier p = privacy_tier q) ∧
  ∀ q, q ∈ chain p → tier_order (privacy_tier q) ≤ tier_order (effective_tier p).
Proof.
  destruct p as [i t k [next|]]; unfold effective_tier; simpl.
  - destruct (effective_tier_loop_spec next t) as (Hw & Hc & He). split.
    + destruct He as [->|(q & Hq & ->)]; [|by exists q; split; [right|]].
      eexists. by split; [left|].
    + intros q [->|Hq]%elem_of_cons; [done|]. by apply Hc.
  - split; [eexists; split; [by left|done]|]. by intros q ->%list_elem_of_singleton.
Qed.

(** Delegation only loses authority: the effective tier of a principal is the tier
    of a member of its delegation chain, no member of the chain has a less privileged one
    (an unknown tier counts as the least privileged), and delegating further never makes
    the effective tier more privileged. *)
Theorem effective_tier_is_weakest (p : Principal) :
  (∃ q, q ∈ chain p ∧ effective_tier p = privacy_tier q) ∧
  (∀ q, q ∈ chain p → tier_order (privacy_tier q) ≤ tier_order (effective_tier p)) ∧
  (∀ i t k, tier_order (effective_tier p) ≤ tier_order (effective_tier (mkPrincipal i t k (Some p)))).
Proof.
  destruct (effective_tier_spec p) as [Hex Hall]. split_and!; [done..|]. intros i t k.
  destruct Hex as (q & Hq & ->).
  apply (proj2 (effective_tier_spec (mkPrincipal i t k (Some p)))). by right.
Qed.

(** ** Fail closed *)

Lemma is_default_deny_iff d :
  is_default_deny d = true ↔ allowed d = false ∧ determining_policies d = [] ∧ errors d = [].
Proof.
  unfold is_default_deny. rewrite !andb_true_iff, negb_true_iff, !bool_decide_eq_true. tauto.
Qed.

(** Only Cedar's explicit Allow permits: the adapter allows exactly when the tool
    has an asserted descriptor and the engine answered Allow to the request built from
    that descriptor and the chain's effective tier; an engine failure, an unasserted
    tool and an unmatched request are denials, and only the last is a default deny. *)
Theorem cedar_fail_closed {ce : Cedar} (policies : cedar_policies) (p : Principal)
    (tool : ToolVersion) (context : list (pykey * pyval)) :
  let d := decide_cedar policies p tool context in
  (allowed d = true ↔
     ∃ a r, asserted tool = Some a ∧
       is_authorized (cedar_request p tool context) policies (_entities p tool a) = inr r ∧
       cedar_allow r = true) ∧
  (is_default_deny d = true ↔
     ∃ a r, asserted tool = Some a ∧
       is_authorized (cedar_request p tool context) policies (_entities p tool a) = inr r ∧
       cedar_allow r = false ∧ cedar_reasons r = [] ∧ cedar_errors r = []).
Proof.
  intros d. rewrite is_default_deny_iff. subst d. unfold decide_cedar.
  destruct (asserted tool) as [a|]; simpl; [|split; split; naive_solver].
  destruct (is_authorized _ _ _) as [exc|r] eqn:E.
  { split; (split; [by intros; destruct_and?|]);
      intros (a' & r & [= <-] & Hr & _); by rewrite E in Hr. }
  assert (∀ P : CedarResponse → Prop,
    (∃ a' r', Some a = Some a' ∧
       is_authorized (cedar_request p tool context) policies (_entities p tool a') = inr r' ∧ P r')
    ↔ P r) as HP.
  { intros P. split; [|by exists a, r]. intros (a' & r' & [= <-] & Hr & HP).
    rewrite E in Hr. by injection Hr as <-. }
  rewrite (HP (λ r', cedar_allow r' = true)), (HP (λ r', cedar_allow r' = false ∧ _)).
  destruct (cedar_allow r); [simpl; naive_solver|].
  destruct (cedar_reasons r); [|simpl; naive_solver].
  destruct (cedar_errors r); simpl; naive_solver.
Qed.

(** The broker never permits past the catalog: when it allows, the tool is
    registered, currently asserted, from a source of an invocable tier, and the engine
    allowed it; a call that returns appends exactly one audit record, which states the
    decision, and a call that raises appends none and permits nothing. *)
Theorem authorize_sound {engine : PolicyEngine} (c : Catalog) (p : Principal) (sid n : string)
    (context : list (pykey * pyval)) (audit : list (list (pykey * pyval))) :
  match authorize c p sid n context audit with
  | (Ok d, audit') =>
      audit' = audit ++ [decision_record p sid n d] ∧
      (allowed d = true →
       ∃ tool s, get c sid n = Some tool ∧ is_asserted tool = true ∧
         sources c !! source_id tool = Some s ∧ TrustTier.invocable (tier s) = true ∧
         decide_tool p tool context = Ok d)
  | (Raise e, audit') => audit' = audit
  end.
Proof.
  unfold authorize, mbind, st_bind, st_lift.
  destruct (authorize_decision c p sid n context) as [d|e] eqn:E; simpl; [|done].
  split; [done|]. intros Hd. revert E. unfold authorize_decision, mbind, res_bind.
  destruct (get c sid n) as [tool|] eqn:Ht; [|by intros [= <-]].
  destruct (invocable c sid n) as [[]|] eqn:Hi; simpl; [| |done].
  - apply invocable_true in Hi as (tv & a & s & Ht' & Ha & Hs & Htier).
    rewrite Ht in Ht'. injection Ht' as <-. intros He. exists tool, s.
    unfold is_asserted. by rewrite Ha.
  - destruct (sources c !! _); [|done]. by intros [= <-].
Qed.
