(* ===== verification/Flow.v ===== *)
(** [flow.py]: which flows from sensitive classes to the outside a toolset confers. *)

From Stdlib Require Import Floats.SpecFloat.
From S2P Require Import Prelude PyJson PyJsonLoads Descriptor.

Record FlowFinding := mkFinding {
  source_class : DataClass.t;
  sink_class : DataClass.t;
  readers : list string;
  sinks : list string;
}.

(** [FlowFinding.path_count] *)
Definition path_count (f : FlowFinding) : Z :=
  Z.of_nat (length (readers f)) * Z.of_nat (length (sinks f)).

(** [FlowFinding.describe] *)
Definition describe (f : FlowFinding) : string :=
  DataClass.value (source_class f) +:+ " -> " +:+ DataClass.value (sink_class f) +:+ ": "
    +:+ string_of_Z (Z.of_nat (length (readers f))) +:+ " reader(s) x "
    +:+ string_of_Z (Z.of_nat (length (sinks f))) +:+ " sink(s) = "
    +:+ string_of_Z (path_count f) +:+ " path(s)".

Record FlowReport := mkReport {
  findings : list FlowFinding;
  pairwise_paths : list (string * string);
  unlabeled : list string;
}.

(** [FlowReport.has_exfiltration_path] *)
Definition has_exfiltration_path (r : FlowReport) : bool := bool_decide (findings r ≠ []).

(** [FlowReport.collapse_ratio]: a binary64 division, of lengths below 2^53. *)
Definition float_of_nat (n : nat) : spec_float := binary_normalize 53 1024 (Z.of_nat n) 0 false.
Definition collapse_ratio (r : FlowReport) : spec_float :=
  if decide (findings r = []) then S754_zero false
  else SFdiv 53 1024 (float_of_nat (length (pairwise_paths r))) (float_of_nat (length (findings r))).

Definition _TRACKED_SOURCES : list DataClass.t :=
  [DataClass.SECRET; DataClass.CREDENTIAL; DataClass.PII].

(** [sorted(t.ref.name for t in ts)] *)
Definition sorted_names (ts : list ToolVersion) : list string :=
  merge_sort String.le ((λ t, ref_name (ref t)) <$> ts).

Definition asserts (p : AssertedDescriptor → bool) (t : ToolVersion) : bool :=
  match asserted t with Some d => p d | None => false end.

Definition is_sink (t : ToolVersion) : bool := asserts is_external_sink t.
Definition reads_class (c : DataClass.t) (t : ToolVersion) : bool :=
  asserts (λ d, bool_decide (c ∈ reads d) && negb (py_truthy (declassifies d))) t.

(** One iteration of the loop over the tracked classes. *)
Definition class_finding (labeled ext : list ToolVersion)
    (accepted : gset (DataClass.t * DataClass.t)) (c : DataClass.t) : option FlowFinding :=
  if decide ((c, DataClass.EXTERNAL) ∈ accepted) then None
  else
    let rs := filter (λ t, reads_class c t = true) labeled in
    if decide (rs = [] ∨ ext = []) then None
    else Some (mkFinding c DataClass.EXTERNAL (sorted_names rs) (sorted_names ext)).

(** [analyze_toolset] *)
Definition analyze_toolset (tools : list ToolVersion)
    (accepted : gset (DataClass.t * DataClass.t)) : FlowReport :=
  let labeled := filter (λ t, is_asserted t = true) tools in
  let ext := filter (λ t, is_sink t = true) labeled in
  let fs := omap (class_finding labeled ext accepted) _TRACKED_SOURCES in
  mkReport fs
    (f ← fs; r ← readers f; (λ s, (r, s)) <$> sinks f)
    (sorted_names (filter (λ t, is_asserted t = false) tools)).

(** ** Lemmas *)

Lemma sorted_names_perm ts : sorted_names ts ≡ₚ (λ t, ref_name (ref t)) <$> ts.
Proof. apply merge_sort_Permutation. Qed.

Lemma sorted_names_length ts : length (sorted_names ts) = length ts.
Proof. by rewrite sorted_names_perm, length_fmap. Qed.

Lemma elem_of_sorted_names ts x : x ∈ sorted_names ts ↔ ∃ t, t ∈ ts ∧ ref_name (ref t) = x.
Proof. rewrite sorted_names_perm, list_elem_of_fmap. naive_solver. Qed.

Lemma asserts_asserted p t : asserts p t = true → is_asserted t = true.
Proof. unfold asserts, is_asserted. by destruct (asserted t). Qed.

Lemma reads_class_iff c t :
  reads_class c t = true ↔
  ∃ d, asserted t = Some d ∧ c ∈ reads d ∧ py_truthy (declassifies d) = false.
Proof.
  unfold reads_class, asserts. destruct (asserted t) as [d|]; [|naive_solver].
  rewrite andb_true_iff, bool_decide_eq_true, negb_true_iff. naive_solver.
Qed.

Lemma is_sink_iff t :
  is_sink t = true ↔ ∃ d, asserted t = Some d ∧ DataClass.EXTERNAL ∈ writes d.
Proof.
  unfold is_sink, asserts, is_external_sink. destruct (asserted t) as [d|]; [|naive_solver].
  rewrite bool_decide_eq_true. naive_solver.
Qed.

Lemma tracked_iff c : c ∈ _TRACKED_SOURCES ↔ DataClass.is_sensitive c = true.
Proof. unfold _TRACKED_SOURCES. rewrite !elem_of_cons, elem_of_nil. destruct c; naive_solver. Qed.

(** ** Properties *)

(** A finding is exactly a capability of the set: class [c] is reported if and only
    if it is sensitive, not accepted, some tool of the set reads it without
    declassifying and some tool of the set (the same or another) writes to the outside;
    its readers and sinks are then the names of all such tools. *)
Theorem findings_exact (tools : list ToolVersion) (accepted : gset (DataClass.t * DataClass.t))
    (f : FlowFinding) :
  let rs := filter (λ t, reads_class (source_class f) t = true) tools in
  let ss := filter (λ t, is_sink t = true) tools in
  f ∈ findings (analyze_toolset tools accepted) ↔
  (DataClass.is_sensitive (source_class f) = true ∧ sink_class f = DataClass.EXTERNAL ∧
  ((source_class f, DataClass.EXTERNAL) ∉ accepted) ∧
  rs ≠ [] ∧ ss ≠ [] ∧ readers f = sorted_names rs ∧ sinks f = sorted_names ss).
Proof.
  intros rs ss. subst rs ss.
  assert (∀ p, (∀ t, p t = true → is_asserted t = true) →
    filter (λ t, p t = true) (filter (λ t, is_asserted t = true) tools)
    = filter (λ t, p t = true) tools) as Hff.
  { intros p Hp. induction tools as [|t l IH]; [done|]. rewrite !filter_cons.
    destruct (decide (p t = true)) as [Ht|Ht].
    - rewrite (decide_True (P := is_asserted t = true)) by auto. rewrite filter_cons.
      rewrite decide_True by done. by rewrite IH.
    - case_decide; [|done]. rewrite filter_cons. by rewrite decide_False. }
  unfold analyze_toolset. cbn [findings]. rewrite list_elem_of_omap.
  rewrite (Hff is_sink (asserts_asserted _)). unfold class_finding. split.
  - intros (c & Hc%tracked_iff & Hf). rewrite (Hff (reads_class c) (asserts_asserted _)) in Hf.
    case_decide as Ha; [done|]. case_decide as Hn; [done|]. injection Hf as <-. simpl.
    split_and!; try done; contradict Hn; auto.
  - intros (Hs & Hk & Ha & Hr & Hk' & E1 & E2). exists (source_class f).
    split; [by apply tracked_iff|]. rewrite (Hff (reads_class (source_class f)) (asserts_asserted _)).
    rewrite decide_False by done. rewrite decide_False by (by intros [?|?]).
    destruct f; simpl in *; by subst.
Qed.

Lemma filter_ne_nil {A} (P : A → Prop) {dec : ∀ x, Decision (P x)} (l : list A) :
  filter P l ≠ [] ↔ ∃ x, x ∈ l ∧ P x.
Proof.
  split.
  - destruct (filter P l) as [|x k] eqn:E; [done|]. intros _.
    assert (x ∈ filter P l) as [? ?]%list_elem_of_filter by (rewrite E; by left). eauto.
  - intros (x & Hx & HP) E. apply (proj1 (list_nil_iff _) E x). by apply list_elem_of_filter.
Qed.

(** A class is found when a reader and a sink are in the set. *)
Lemma class_found tools accepted c t u :
  t ∈ tools → u ∈ tools → DataClass.is_sensitive c = true → (c, DataClass.EXTERNAL) ∉ accepted →
  reads_class c t = true → is_sink u = true →
  ∃ f, f ∈ findings (analyze_toolset tools accepted) ∧ source_class f = c.
Proof.
  intros Ht Hu Hc Ha Hr Hs. unfold analyze_toolset. cbn [findings].
  eexists (mkFinding c DataClass.EXTERNAL _ _). split; [|done].
  apply list_elem_of_omap. exists c. split; [by apply tracked_iff|]. unfold class_finding.
  rewrite decide_False by done. rewrite decide_False; [done|].
  intros [Hn|Hn]; revert Hn; apply filter_ne_nil; [exists t|exists u]; (split; [|done]);
    apply list_elem_of_filter; eauto using asserts_asserted.
Qed.

Lemma found_class tools accepted f :
  f ∈ findings (analyze_toolset tools accepted) →
  ∃ t u, t ∈ tools ∧ u ∈ tools ∧ DataClass.is_sensitive (source_class f) = true ∧
    ((source_class f, DataClass.EXTERNAL) ∉ accepted) ∧
    reads_class (source_class f) t = true ∧ is_sink u = true.
Proof.
  unfold analyze_toolset. cbn [findings]. rewrite list_elem_of_omap.
  intros (c & Hc%tracked_iff & Hf). unfold class_finding in Hf.
  case_decide as Ha; [done|]. case_decide as Hn; [done|]. injection Hf as <-. simpl.
  destruct (proj1 (filter_ne_nil _ _) (λ E, Hn (or_introl E))) as (t & [_ Ht]%list_elem_of_filter & Hr).
  destruct (proj1 (filter_ne_nil _ _) (λ E, Hn (or_intror E))) as (u & [[_ Hu]%list_elem_of_filter Hs]).
  exists t, u. naive_solver.
Qed.

(** The exfiltration property belongs to the set: it holds exactly when a sensitive
    class that is not accepted is read, without declassification, by some tool and some
    tool writes to the outside; in particular granting more tools or accepting fewer
    flows never removes it. *)
Theorem exfiltration_iff (tools : list ToolVersion) (accepted : gset (DataClass.t * DataClass.t)) :
  (has_exfiltration_path (analyze_toolset tools accepted) = true ↔
   ∃ c t u, DataClass.is_sensitive c = true ∧ ((c, DataClass.EXTERNAL) ∉ accepted) ∧
     t ∈ tools ∧ u ∈ tools ∧ reads_class c t = true ∧ is_sink u = true) ∧
  ∀ tools' accepted', tools ⊆ tools' → accepted' ⊆ accepted →
    has_exfiltration_path (analyze_toolset tools accepted) = true →
    has_exfiltration_path (analyze_toolset tools' accepted') = true.
Proof.
  assert (∀ tools accepted,
    has_exfiltration_path (analyze_toolset tools accepted) = true ↔
    ∃ c t u, DataClass.is_sensitive c = true ∧ ((c, DataClass.EXTERNAL) ∉ accepted) ∧
      t ∈ tools ∧ u ∈ tools ∧ reads_class c t = true ∧ is_sink u = true) as Hiff.
  { clear. intros tools accepted. unfold has_exfiltration_path.
    rewrite bool_decide_eq_true. split.
    - destruct (findings _) as [|f l] eqn:E; [done|]. intros _.
      destruct (found_class tools accepted f) as (t & u & ?); [rewrite E; by left|].
      exists (source_class f), t, u. naive_solver.
    - intros (c & t & u & Hc & Ha & Ht & Hu & Hr & Hs) Hn.
      destruct (class_found tools accepted c t u) as (f & Hf & _); [done..|].
      rewrite Hn in Hf. by apply elem_of_nil in Hf. }
  split; [apply Hiff|]. intros tools' accepted' Ht Ha. rewrite !Hiff.
  intros (c & t & u & Hc & Hn & Hin & Hiu & Hr & Hs). exists c, t, u. split_and!; auto.
Qed.

Lemma length_product {A B} (l : list A) (k : list B) :
  length (r ← l; (λ s, (r, s)) <$> k) = (length l * length k)%nat.
Proof. induction l as [|x l IH]; [done|]. by rewrite bind_cons, length_app, length_fmap, IH. Qed.

(** The collapsed findings subsume the pairwise paths exactly: a (reader, sink) pair
    is listed if and only if some finding has it, and the path counts of the findings add
    up to the number of pairs; a tool without an assertion is never dropped, it is listed
    as unlabeled, as often as it occurs, and contributes no finding. *)
Theorem findings_subsume_paths (tools : list ToolVersion)
    (accepted : gset (DataClass.t * DataClass.t)) :
  let r := analyze_toolset tools accepted in
  (∀ a b, (a, b) ∈ pairwise_paths r ↔ ∃ f, f ∈ findings r ∧ a ∈ readers f ∧ b ∈ sinks f) ∧
  Z.of_nat (length (pairwise_paths r)) = foldr (λ f n, path_count f + n) 0 (findings r) ∧
  unlabeled r ≡ₚ (λ t, ref_name (ref t)) <$> filter (λ t, is_asserted t = false) tools.
Proof.
  intros r. subst r. unfold analyze_toolset. cbn [findings pairwise_paths unlabeled].
  generalize (omap (class_finding (filter (λ t, is_asserted t = true) tools)
    (filter (λ t, is_sink t = true) (filter (λ t, is_asserted t = true) tools)) accepted)
    _TRACKED_SOURCES). intros fs. split_and!.
  - intros a b. rewrite list_elem_of_bind. split.
    + intros (f & Hin & Hf). apply list_elem_of_bind in Hin as (x & Hx & Hr).
      apply list_elem_of_fmap in Hx as (y & [= -> ->] & Hy). eauto.
    + intros (f & Hf & Ha & Hb). exists f. split; [|done]. apply list_elem_of_bind.
      exists a. split; [|done]. by apply list_elem_of_fmap_2.
  - induction fs as [|f fs IH]; [done|]. rewrite bind_cons, length_app, length_product. simpl.
    unfold path_count at 1. rewrite <- IH. lia.
  - apply sorted_names_perm.
Qed.
