(* ===== verification/RateLimiter.v ===== *)
(** [server.py], class [_RateLimiter]: the per-client request limiter.

    Instants and durations are integers in a fixed unit of the monotonic clock; the
    float rounding of the subtractions is not modelled.  The lock makes a check atomic,
    so concurrent requests are a sequence of checks. *)

From S2P Require Import Prelude PyJson PyJsonLoads.

Record limiter := mkLimiter {
  per_window : Z;
  window : Z;
  hits : gmap string (list Z);
  last_sweep : Z;
}.

(** [_RateLimiter.__init__] *)
Definition new_limiter (per_window window : Z) : limiter := mkLimiter per_window window ∅ 0.

(** [while dq and dq[0] < cutoff: dq.popleft()] *)
Fixpoint trim (cutoff : Z) (dq : list Z) : list Z :=
  match dq with
  | t :: dq' => if t <? cutoff then trim cutoff dq' else dq
  | [] => []
  end.

(** [_RateLimiter._sweep] *)
Definition _sweep (cutoff now : Z) (l : limiter) : limiter :=
  if now - last_sweep l <? window l then l
  else
    mkLimiter (per_window l) (window l)
      (filter (λ kv : string * list Z, kv.2 ≠ []) (trim cutoff <$> hits l)) now.

(** [_RateLimiter.enabled] *)
Definition enabled (l : limiter) : bool := 0 <? per_window l.

(** [_RateLimiter.check]: the answer, the wait it suggests, and the limiter after. *)
Definition check (key : string) (now : Z) (l : limiter) : (bool * Z) * limiter :=
  if negb (enabled l) then ((true, 0), l)
  else
    let cutoff := now - window l in
    let l := _sweep cutoff now l in
    let dq := trim cutoff (default [] (hits l !! key)) in
    let store dq := mkLimiter (per_window l) (window l) (<[key := dq]> (hits l)) (last_sweep l) in
    if per_window l <=? Z.of_nat (length dq) then
      ((false, Z.max 0 (window l - (now - default 0 (head dq)))), store dq)
    else ((true, 0), store (dq ++ [now])).

(** A sequence of checks; the answers in order. *)
Fixpoint check_all (reqs : list (string * Z)) (l : limiter) : list (bool * Z) * limiter :=
  match reqs with
  | [] => ([], l)
  | (k, now) :: reqs' =>
      let '(r, l1) := check k now l in
      let '(rs, l2) := check_all reqs' l1 in
      (r :: rs, l2)
  end.

(** ** The reference: one log of accepted hits, never trimmed *)

Definition recent (log : list (string * Z)) (k : string) (from : Z) : list (string * Z) :=
  filter (λ h : string * Z, h.1 = k ∧ from ≤ h.2) log.

Definition ref_check (n w : Z) (k : string) (now : Z) (log : list (string * Z)) :
    bool * list (string * Z) :=
  if Z.of_nat (length (recent log k (now - w))) <? n then (true, log ++ [(k, now)]) else (false, log).

Fixpoint ref_all (n w : Z) (reqs : list (string * Z)) (log : list (string * Z)) :
    list bool * list (string * Z) :=
  match reqs with
  | [] => ([], log)
  | (k, now) :: reqs' =>
      let '(r, log1) := ref_check n w k now log in
      let '(rs, log2) := ref_all n w reqs' log1 in
      (r :: rs, log2)
  end.

(** ** The deques against the log *)

Definition dq_of (l : limiter) (k : string) : list Z := default [] (hits l !! k).
Definition at_least (c : Z) (dq : list Z) : list Z := filter (λ t, c ≤ t) dq.
Definition log_of (log : list (string * Z)) (k : string) : list Z :=
  (filter (λ h : string * Z, h.1 = k) log).*2.

Abbreviation sorted_dq := (StronglySorted Z.le).

Lemma at_least_all c dq : Forall (λ t, c ≤ t) dq → at_least c dq = dq.
Proof.
  unfold at_least. induction 1 as [|t dq Ht _ IH]; [done|]. by rewrite filter_cons, decide_True, IH.
Qed.

Lemma trim_at_least c dq : sorted_dq dq → trim c dq = at_least c dq.
Proof.
  induction 1 as [|t dq Hs IH Ht]; [done|]. simpl. destruct (Z.ltb_spec t c).
  - unfold at_least in *. by rewrite filter_cons, decide_False by lia.
  - symmetry. apply at_least_all. constructor; [done|].
    eapply Forall_impl; [exact Ht|]. simpl. lia.
Qed.

Lemma at_least_twice c c' dq : c ≤ c' → at_least c' (at_least c dq) = at_least c' dq.
Proof. intros Hc. apply list_filter_filter_l. simpl. lia. Qed.

Lemma at_least_Forall (P : Z → Prop) c dq : Forall P dq → Forall P (at_least c dq).
Proof. rewrite !Forall_forall. intros H t [_ Ht]%list_elem_of_filter. by apply H. Qed.

Lemma at_least_sorted c dq : sorted_dq dq → sorted_dq (at_least c dq).
Proof.
  unfold at_least. induction 1 as [|t dq Hs IH Ht]; [constructor|]. rewrite filter_cons.
  case_decide; [|done]. constructor; [done|]. by apply at_least_Forall.
Qed.

Lemma sorted_dq_snoc dq t : sorted_dq dq → Forall (λ u, u ≤ t) dq → sorted_dq (dq ++ [t]).
Proof.
  induction 1 as [|u dq Hs IH Hu]; intros Ht; simpl.
  - repeat constructor.
  - inversion_clear Ht. constructor; [auto|]. apply Forall_app. split; [done|]. by repeat constructor.
Qed.

Lemma at_least_snoc c dq t : c ≤ t → at_least c (dq ++ [t]) = at_least c dq ++ [t].
Proof. intros H. unfold at_least. by rewrite filter_app, filter_cons, decide_True. Qed.

Lemma recent_length log k c :
  length (recent log k c) = length (at_least c (log_of log k)).
Proof.
  unfold recent, log_of, at_least. induction log as [|[k' t] log IH]; [done|].
  rewrite !filter_cons. simpl. destruct (decide (k' = k)) as [->|Hk].
  - simpl. rewrite filter_cons. destruct (decide (c ≤ t)).
    + rewrite decide_True by done. simpl. by rewrite IH.
    + by rewrite decide_False by naive_solver.
  - by rewrite decide_False by naive_solver.
Qed.

Lemma log_of_snoc log k k' t :
  log_of (log ++ [(k, t)]) k' = log_of log k' ++ (if decide (k = k') then [t] else []).
Proof.
  unfold log_of. rewrite filter_app, fmap_app, filter_cons. simpl. by case_decide.
Qed.

Lemma at_least_length c dq : (length (at_least c dq) ≤ length dq)%nat.
Proof. apply length_filter. Qed.

(** ** The invariant of a limiter against the log, at the time of the last check *)

Record tracks (l : limiter) (log : list (string * Z)) (now : Z) : Prop := {
  tr_window : 0 ≤ window l;
  tr_sorted k : sorted_dq (dq_of l k);
  tr_past k : Forall (λ t, t ≤ now) (dq_of l k);
  tr_len k : Z.of_nat (length (dq_of l k)) ≤ per_window l;
  tr_log k c : now - window l ≤ c → at_least c (dq_of l k) = at_least c (log_of log k);
}.

Lemma dq_of_sweep c now l k :
  (dq_of (_sweep c now l) k = dq_of l k ∨ dq_of (_sweep c now l) k = trim c (dq_of l k)).
Proof.
  unfold _sweep, dq_of. destruct (now - last_sweep l <? window l); [by left|right]. simpl.
  destruct (hits l !! k) as [dq|] eqn:E.
  - destruct (decide (trim c dq = [])) as [Hn|Hn].
    + rewrite map_lookup_filter_None_2; [by simpl; rewrite Hn|]. right. intros dq' Hdq'.
      rewrite lookup_fmap, E in Hdq'. injection Hdq' as <-. simpl. by intros H.
    + erewrite map_lookup_filter_Some_2; [by simpl| |done]. by rewrite lookup_fmap, E.
  - rewrite map_lookup_filter_None_2; [done|]. left. by rewrite lookup_fmap, E.
Qed.

Lemma sweep_fixed c now l :
  per_window (_sweep c now l) = per_window l ∧ window (_sweep c now l) = window l.
Proof. unfold _sweep. by case_match. Qed.

Lemma sweep_tracks l log now0 now :
  tracks l log now0 → now0 ≤ now → tracks (_sweep (now - window l) now l) log now.
Proof.
  intros Hl Hn. destruct (sweep_fixed (now - window l) now l) as [_ Hw].
  pose proof (tr_window _ _ _ Hl) as Hw0.
  assert (∀ k, dq_of (_sweep (now - window l) now l) k = dq_of l k ∨
               dq_of (_sweep (now - window l) now l) k = at_least (now - window l) (dq_of l k)) as Hdq.
  { intros k. rewrite <- (trim_at_least _ (dq_of l k)) by apply Hl. apply dq_of_sweep. }
  split; rewrite ?Hw; [done|..].
  - intros k. destruct (Hdq k) as [->| ->]; [|apply at_least_sorted]; apply Hl.
  - intros k. assert (Forall (λ t, t ≤ now) (dq_of l k)) as Hp.
    { eapply Forall_impl; [apply Hl|]. simpl. lia. }
    destruct (Hdq k) as [->| ->]; [done|by apply at_least_Forall].
  - intros k. destruct (sweep_fixed (now - window l) now l) as [-> _].
    pose proof (tr_len _ _ _ Hl k). pose proof (at_least_length (now - window l) (dq_of l k)).
    destruct (Hdq k) as [->| ->]; lia.
  - intros k c Hc. destruct (Hdq k) as [->| ->]; [|rewrite at_least_twice by done];
      apply Hl; lia.
Qed.

Lemma dq_of_store n w h s k dq k' :
  dq_of (mkLimiter n w (<[k := dq]> h) s) k' =
  if decide (k = k') then dq else dq_of (mkLimiter n w h s) k'.
Proof.
  unfold dq_of. simpl. case_decide; [subst; by rewrite lookup_insert_eq|].
  by rewrite lookup_insert_ne.
Qed.

Lemma check_tracks l log now0 k now :
  enabled l = true → tracks l log now0 → now0 ≤ now →
  let '((ok, wait), l') := check k now l in
  let '(ok', log') := ref_check (per_window l) (window l) k now log in
  ok = ok' ∧ tracks l' log' now ∧ per_window l' = per_window l ∧ window l' = window l.
Proof.
  intros Hen Hl Hn. unfold check. rewrite Hen. simpl.
  pose proof (sweep_tracks _ _ _ _ Hl Hn) as Hs.
  destruct (sweep_fixed (now - window l) now l) as [Hp Hw].
  set (l1 := _sweep (now - window l) now l) in *. fold (dq_of l1 k).
  rewrite trim_at_least by apply Hs. rewrite <- Hw in *. rewrite Hp.
  pose proof (tr_window _ _ _ Hs) as Hw0.
  unfold ref_check. rewrite recent_length, <- (tr_log _ _ _ Hs k) by lia.
  set (dq := at_least (now - window l1) (dq_of l1 k)).
  assert (∀ k', dq_of (mkLimiter (per_window l) (window l1) (hits l1) (last_sweep l1)) k' = dq_of l1 k')
    as Hsame by done.
  destruct (Z.leb_spec (per_window l) (Z.of_nat (length dq))).
  - rewrite (proj2 (Z.ltb_ge _ _)) by done. simpl. split_and!; try done. split; simpl; [done|..].
    + intros k'. rewrite dq_of_store. case_decide; [apply at_least_sorted|]; apply Hs.
    + intros k'. rewrite dq_of_store. case_decide; [apply at_least_Forall|]; apply Hs.
    + intros k'. rewrite dq_of_store. pose proof (tr_len _ _ _ Hs k') as Hlen. rewrite Hp in Hlen.
      case_decide; [|done]. subst k'.
      pose proof (at_least_length (now - window l1) (dq_of l1 k)). subst dq. simpl. lia.
    + intros k' c Hc. rewrite dq_of_store. case_decide; [|by apply Hs]. subst k'.
      subst dq. rewrite at_least_twice by done. by apply Hs.
  - rewrite (proj2 (Z.ltb_lt _ _)) by done. simpl. split_and!; try done. split; simpl; [done|..].
    + intros k'. rewrite dq_of_store. case_decide; [|apply Hs].
      apply sorted_dq_snoc; [apply at_least_sorted|apply at_least_Forall]; apply Hs.
    + intros k'. rewrite dq_of_store. case_decide; [|apply Hs].
      apply Forall_app. split; [apply at_least_Forall, Hs|]. by repeat constructor.
    + intros k'. rewrite dq_of_store. pose proof (tr_len _ _ _ Hs k') as Hlen. rewrite Hp in Hlen.
      case_decide; [|done]. rewrite length_app. simpl. lia.
    + intros k' c Hc. rewrite dq_of_store, log_of_snoc. case_decide; [|rewrite app_nil_r; by apply Hs].
      subst k'. destruct (decide (c ≤ now)) as [Hcn|Hcn].
      * rewrite !at_least_snoc by done. subst dq. rewrite at_least_twice by done. f_equal. by apply Hs.
      * unfold at_least in *. subst dq. rewrite !filter_app, !filter_cons, filter_nil.
        rewrite (decide_False (P := c ≤ now)) by done. rewrite !app_nil_r.
        rewrite (list_filter_filter_l (λ t, c ≤ t)) by (simpl; lia). by apply Hs.
Qed.

(** Check times that never go back, from [from] on. *)
Fixpoint chronological (from : Z) (reqs : list (string * Z)) : Prop :=
  match reqs with
  | [] => True
  | (_, now) :: reqs' => from ≤ now ∧ chronological now reqs'
  end.

Lemma tracks_new n w : 0 ≤ n → 0 ≤ w → tracks (new_limiter n w) [] 0.
Proof.
  intros Hn Hw. assert (∀ k, dq_of (new_limiter n w) k = []) as Hd.
  { intros k. unfold dq_of. simpl. by rewrite lookup_empty. }
  split; simpl; try done; intros k; rewrite Hd; constructor || done.
Qed.

Lemma check_all_tracks reqs : ∀ l log now0,
  enabled l = true → tracks l log now0 → chronological now0 reqs →
  let '(rs, l') := check_all reqs l in
  let '(rs', log') := ref_all (per_window l) (window l) reqs log in
  rs.*1 = rs' ∧ ∃ now, now0 ≤ now ∧ tracks l' log' now ∧
    per_window l' = per_window l ∧ window l' = window l.
Proof.
  induction reqs as [|[k now] reqs IH]; intros l log now0 Hen Hl Hc; simpl.
  { split; [done|]. exists now0. done. }
  destruct Hc as [Hn Hc]. pose proof (check_tracks l log now0 k now Hen Hl Hn) as H.
  destruct (check k now l) as [[ok wait] l1].
  destruct (ref_check (per_window l) (window l) k now log) as [ok' log1].
  destruct H as (-> & Hl1 & Hp & Hw).
  assert (enabled l1 = true) as Hen1 by (unfold enabled in *; by rewrite Hp).
  specialize (IH l1 log1 now Hen1 Hl1 Hc). rewrite Hp, Hw in IH.
  destruct (check_all reqs l1) as [rs l2].
  destruct (ref_all (per_window l) (window l) reqs log1) as [rs' log2].
  destruct IH as (<- & now' & Hn' & Ht & Hp2 & Hw2). split; [done|].
  exists now'. split_and!; try done. lia.
Qed.

(** ** Properties *)

(** C39 -- The trimmed deques and the periodic sweep never change an answer: over any
    sequence of checks at non-decreasing times, the limiter answers as the reference
    that keeps every accepted hit and counts those of the client in the last window. *)
Theorem limiter_matches_reference (n w : Z) (reqs : list (string * Z)) :
  0 < n → 0 ≤ w → chronological 0 reqs →
  (check_all reqs (new_limiter n w)).1.*1 = (ref_all n w reqs []).1.
Proof.
  intros Hn Hw Hc.
  assert (enabled (new_limiter n w) = true) as Hen by (apply Z.ltb_lt; simpl; lia).
  pose proof (check_all_tracks reqs _ _ _ Hen (tracks_new n w ltac:(lia) Hw) Hc) as H.
  simpl in H. destruct (check_all reqs _) as [rs l'], (ref_all n w reqs []) as [rs' log'].
  by destruct H as [H _].
Qed.

(** The accepted hits of a client in a closed interval. *)
Definition accepted_in (reqs : list (string * Z)) (answers : list bool) (k : string) (a b : Z) :
    list ((string * Z) * bool) :=
  filter (λ x : (string * Z) * bool, x.2 = true ∧ x.1.1 = k ∧ a ≤ x.1.2 ∧ x.1.2 ≤ b)
    (zip reqs answers).

Definition in_interval (k : string) (a b : Z) (log : list (string * Z)) : list (string * Z) :=
  filter (λ h : string * Z, h.1 = k ∧ a ≤ h.2 ∧ h.2 ≤ b) log.

Lemma ref_all_accepted n w reqs : ∀ log k a b,
  let '(rs, log') := ref_all n w reqs log in
  length (in_interval k a b log') =
    (length (in_interval k a b log) + length (accepted_in reqs rs k a b))%nat.
Proof.
  induction reqs as [|[k' now] reqs IH]; intros log k a b; simpl; [by rewrite Nat.add_0_r|].
  unfold ref_check. destruct (Z.of_nat _ <? n); simpl.
  - specialize (IH (log ++ [(k', now)]) k a b). destruct (ref_all n w reqs _) as [rs log'].
    rewrite IH. unfold in_interval, accepted_in. simpl. rewrite filter_app, !filter_cons. simpl.
    rewrite length_app. destruct (decide (k' = k ∧ a ≤ now ∧ now ≤ b)).
    + rewrite decide_True by naive_solver. simpl. lia.
    + rewrite decide_False by naive_solver. simpl. lia.
  - specialize (IH log k a b). destruct (ref_all n w reqs _) as [rs log'].
    rewrite IH. unfold accepted_in. simpl. rewrite filter_cons. by rewrite decide_False by naive_solver.
Qed.

Lemma interval_within_recent log k a b c :
  c ≤ a → (length (in_interval k a b log) ≤ length (recent log k c))%nat.
Proof.
  intros Hc. unfold in_interval, recent. induction log as [|h log IH]; [done|].
  rewrite !filter_cons. do 2 case_decide; simpl; try lia. exfalso. naive_solver lia.
Qed.

Lemma ref_all_bounded n w reqs : ∀ log now0,
  0 ≤ w → chronological now0 reqs →
  (∀ k a, Z.of_nat (length (in_interval k a (a + w) log)) ≤ n) →
  ∀ k a, Z.of_nat (length (in_interval k a (a + w) (ref_all n w reqs log).2)) ≤ n.
Proof.
  induction reqs as [|[k' now] reqs IH]; intros log now0 Hw Hc Hb k a; simpl; [done|].
  destruct Hc as [Hn Hc]. unfold ref_check.
  destruct (Z.ltb_spec (Z.of_nat (length (recent log k' (now - w)))) n) as [Hlt|_].
  - specialize (IH (log ++ [(k', now)]) now Hw Hc). destruct (ref_all n w reqs _). simpl in *.
    apply IH. clear IH k a. intros k a. unfold in_interval. rewrite filter_app, filter_cons.
    simpl. rewrite length_app. case_decide as Hd; [|simpl; rewrite Nat.add_0_r; apply Hb].
    destruct Hd as (-> & Ha & Hb'). fold (in_interval k a (a + w) log).
    pose proof (interval_within_recent log k a (a + w) (now - w)). simpl. lia.
  - specialize (IH log now Hw Hc Hb). destruct (ref_all n w reqs _). apply IH.
Qed.

(** No burst beats the limit: whatever the sequence of checks, a client is allowed
    at most [per_window] requests in any closed interval of the window's length. *)
Theorem limiter_bound (n w : Z) (reqs : list (string * Z)) (k : string) (a : Z) :
  0 < n → 0 ≤ w → chronological 0 reqs →
  Z.of_nat (length (accepted_in reqs (check_all reqs (new_limiter n w)).1.*1 k a (a + w))) ≤ n.
Proof.
  intros Hn Hw Hc.
  assert (enabled (new_limiter n w) = true) as Hen by (apply Z.ltb_lt; simpl; lia).
  pose proof (check_all_tracks reqs _ _ _ Hen (tracks_new n w ltac:(lia) Hw) Hc) as H.
  pose proof (ref_all_bounded n w reqs [] 0 Hw Hc ltac:(simpl; lia) k a) as Hb.
  pose proof (ref_all_accepted n w reqs [] k a (a + w)) as Hacc. simpl in H.
  destruct (check_all reqs _) as [rs l'], (ref_all n w reqs []) as [rs' log'].
  destruct H as [<- _]. cbn [fst snd] in *. simpl in Hacc. lia.
Qed.

Lemma at_least_head c dq t :
  head (at_least c dq) = Some t → c ≤ t.
Proof.
  intros H. assert (t ∈ at_least c dq) as [Ht _]%list_elem_of_filter; [|done].
  destruct (at_least c dq); [done|]. injection H as ->. by left.
Qed.

(** After the oldest hit has aged out, fewer than the deque's length remain. *)
Lemma at_least_after c dq t dq' :
  dq = t :: dq' → t < c → (length (at_least c dq) ≤ length dq')%nat.
Proof.
  intros -> Ht. unfold at_least. rewrite filter_cons, decide_False by lia. apply length_filter.
Qed.

(** A refusal is justified and its hint honest: a client refused at [now] already
    has [per_window] accepted hits in the window, the suggested wait lies between zero
    and the window, and any check of that client strictly later than [now] plus the
    wait, with none of it in between, is allowed. *)
Theorem limiter_refusal (l : limiter) (log : list (string * Z)) (now0 now : Z) (k : string)
    (wait : Z) (l' : limiter) :
  enabled l = true → tracks l log now0 → now0 ≤ now → check k now l = ((false, wait), l') →
  Z.of_nat (length (recent log k (now - window l))) = per_window l ∧
  0 ≤ wait ≤ window l ∧
  ∀ later, now + wait < later → (check k later l').1.1 = true.
Proof.
  intros Hen Hl Hn Hck. pose proof (check_tracks l log now0 k now Hen Hl Hn) as H.
  rewrite Hck in H. unfold ref_check in H.
  destruct (Z.ltb_spec (Z.of_nat (length (recent log k (now - window l)))) (per_window l)) as [Hlt|Hge];
    [by destruct H|]. destruct H as (_ & Hl' & Hp & Hw).
  assert (Z.of_nat (length (recent log k (now - window l))) = per_window l) as Hfull.
  { rewrite recent_length, <- (tr_log _ _ _ Hl k) by lia. apply Z.le_antisymm.
    - pose proof (tr_len _ _ _ Hl k).
      pose proof (at_least_length (now - window l) (dq_of l k)). lia.
    - rewrite (tr_log _ _ _ Hl k), <- recent_length by lia. lia. }
  assert (enabled l' = true) as Hen' by (unfold enabled in *; by rewrite Hp).
  apply Z.ltb_lt in Hen. split; [done|].
  unfold check in Hck.
  assert (∃ t dq', dq_of l' k = t :: dq' ∧ now - window l ≤ t ≤ now ∧
                   wait = Z.max 0 (window l - (now - t))) as (t & dq' & Hdq & Ht & Hwait).
  { unfold enabled in Hck. rewrite (proj2 (Z.ltb_lt _ _) Hen) in Hck. simpl in Hck.
    pose proof (sweep_tracks _ _ _ _ Hl Hn) as Hs.
    destruct (sweep_fixed (now - window l) now l) as [Hp1 Hw1].
    set (l1 := _sweep (now - window l) now l) in *. fold (dq_of l1 k) in Hck.
    rewrite trim_at_least in Hck by apply Hs. rewrite Hp1, Hw1 in Hck.
    destruct (Z.leb_spec (per_window l) (Z.of_nat (length (at_least (now - window l) (dq_of l1 k)))));
      [|done]. injection Hck as <- <-.
    destruct (at_least (now - window l) (dq_of l1 k)) as [|t dq'] eqn:Edq; [simpl in *; lia|].
    exists t, dq'. split_and!; [by rewrite dq_of_store, decide_True| | |done].
    - apply (at_least_head _ (dq_of l1 k)). by rewrite Edq.
    - pose proof (at_least_Forall _ (now - window l) _ (tr_past _ _ _ Hs k)) as HF.
      rewrite Edq in HF. by inversion_clear HF. }
  split; [lia|]. intros later Hlater.
  assert (now ≤ later) as Hnl by lia.
  pose proof (check_tracks l' log now k later Hen' Hl' Hnl) as H.
  destruct (check k later l') as [[ok wait'] l2]. unfold ref_check in H.
  rewrite recent_length, <- (tr_log _ _ _ Hl' k), Hp, Hw in H by lia.
  rewrite (proj2 (Z.ltb_lt _ _)) in H; [by destruct H|].
  pose proof (at_least_after (later - window l) _ _ _ Hdq ltac:(lia)).
  pose proof (tr_len _ _ _ Hl' k) as Hlen. rewrite Hdq, Hp in Hlen. simpl in Hlen. lia.
Qed.

(** ** Memory *)

Record lean (l : limiter) (now : Z) : Prop := {
  ln_sweep : last_sweep l ≤ now ∧ now - last_sweep l < window l;
  ln_hits k dq : hits l !! k = Some dq → dq ≠ [] ∧ Forall (λ t, last_sweep l - window l ≤ t) dq;
}.

Lemma sweep_lean l log now0 now :
  tracks l log now0 → lean l now0 → now0 ≤ now → 0 < window l →
  lean (_sweep (now - window l) now l) now.
Proof.
  intros Ht Hl Hn Hw. pose proof (ln_sweep _ _ Hl). unfold _sweep.
  destruct (Z.ltb_spec (now - last_sweep l) (window l)).
  - split; [lia|]. apply Hl.
  - split; simpl; [lia|]. intros k dq [Hf Hne]%map_lookup_filter_Some. split; [done|].
    rewrite lookup_fmap in Hf. destruct (hits l !! k) as [dq0|] eqn:E; [|done].
    injection Hf as <-. pose proof (tr_sorted _ _ _ Ht k) as Hs. unfold dq_of in Hs.
    rewrite E in Hs. simpl in Hs. rewrite trim_at_least by done. apply Forall_forall.
    by intros t [Hct _]%list_elem_of_filter.
Qed.

Lemma check_lean l log now0 k now :
  enabled l = true → tracks l log now0 → lean l now0 → now0 ≤ now → 0 < window l →
  lean (check k now l).2 now.
Proof.
  intros Hen Ht Hl Hn Hw. unfold check. rewrite Hen. simpl.
  pose proof (sweep_lean _ _ _ _ Ht Hl Hn Hw) as Hs.
  destruct (sweep_fixed (now - window l) now l) as [Hp Hw1].
  pose proof (sweep_tracks _ _ _ _ Ht Hn) as Hst.
  set (l1 := _sweep (now - window l) now l) in *. pose proof (ln_sweep _ _ Hs) as Hsw.
  fold (dq_of l1 k). rewrite trim_at_least by apply Hst.
  assert (Forall (λ t, last_sweep l1 - window l1 ≤ t) (at_least (now - window l) (dq_of l1 k))) as HF.
  { apply Forall_forall. intros t [Ht' _]%list_elem_of_filter. rewrite Hw1. lia. }
  destruct (Z.leb_spec (per_window l1) (Z.of_nat (length (at_least (now - window l) (dq_of l1 k)))));
    (split; simpl; [done|]); intros k' dq' [[<- <-]|[_ Hk]]%lookup_insert_Some;
    (by apply (ln_hits _ _ Hs k')) || idtac.
  - split; [|done]. intros E. rewrite E in *. apply Z.ltb_lt in Hen. simpl in *. lia.
  - split; [by destruct (at_least _ _)|]. apply Forall_app. split; [done|]. constructor; [lia|constructor].
Qed.

Lemma check_all_lean reqs : ∀ l log now0 k now,
  enabled l = true → tracks l log now0 → lean l now0 → 0 < window l →
  chronological now0 (reqs ++ [(k, now)]) →
  let l' := (check_all (reqs ++ [(k, now)]) l).2 in
  lean l' now ∧ (∃ log', tracks l' log' now) ∧ per_window l' = per_window l ∧ window l' = window l.
Proof.
  induction reqs as [|[k1 now1] reqs IH]; intros l log now0 k now Hen Ht Hl Hw Hc;
    simpl in Hc; destruct Hc as [Hn Hc]; simpl.
  - pose proof (check_lean _ _ _ k _ Hen Ht Hl Hn Hw) as Hlean.
    pose proof (check_tracks _ _ _ k _ Hen Ht Hn) as H.
    destruct (check k now l) as [[ok wait] l1], (ref_check _ _ k now log) as [? log1].
    destruct H as (_ & ? & ? & ?). simpl in *. eauto.
  - pose proof (check_lean _ _ _ k1 _ Hen Ht Hl Hn Hw) as Hlean.
    pose proof (check_tracks _ _ _ k1 _ Hen Ht Hn) as H.
    destruct (check k1 now1 l) as [[ok wait] l1], (ref_check _ _ k1 now1 log) as [? log1].
    destruct H as (_ & Ht1 & Hp & Hw1). simpl in *.
    specialize (IH l1 log1 now1 k now). unfold enabled in *. rewrite Hp, Hw1 in IH.
    specialize (IH Hen Ht1 Hlean Hw Hc).
    destruct (check_all (reqs ++ [(k, now)]) l1) as [rs l2]. done.
Qed.

(** Memory stays bounded by the active clients: right after any check at [now],
    every client the limiter still remembers has an accepted hit less than two windows
    old, and no more than [per_window] of them are kept. *)
Theorem limiter_memory (n w : Z) (reqs : list (string * Z)) (k0 : string) (now : Z)
    (k : string) (dq : list Z) :
  0 < n → 0 < w → chronological 0 (reqs ++ [(k0, now)]) →
  hits (check_all (reqs ++ [(k0, now)]) (new_limiter n w)).2 !! k = Some dq →
  Z.of_nat (length dq) ≤ n ∧ ∃ t, t ∈ dq ∧ now - 2 * w < t ∧ t ≤ now.
Proof.
  intros Hn Hw Hc Hk.
  assert (enabled (new_limiter n w) = true) as Hen by (apply Z.ltb_lt; simpl; lia).
  assert (lean (new_limiter n w) 0) as Hl by (split; simpl; [lia|done]).
  destruct (check_all_lean reqs _ _ _ k0 now Hen (tracks_new n w ltac:(lia) ltac:(lia)) Hl Hw Hc)
    as (Hlean & [log' Ht] & Hp & Hw').
  set (l' := (check_all (reqs ++ [(k0, now)]) (new_limiter n w)).2) in *. simpl in Hp, Hw'.
  destruct (ln_hits _ _ Hlean _ _ Hk) as [Hne HF]. pose proof (ln_sweep _ _ Hlean).
  assert (dq_of l' k = dq) as Hdq by (unfold dq_of; by rewrite Hk).
  split; [rewrite <- Hdq, <- Hp; apply Ht|].
  pose proof (tr_past _ _ _ Ht k) as Hpast. rewrite Hdq in Hpast.
  destruct dq as [|t dq]; [done|]. exists t. inversion_clear HF. inversion_clear Hpast.
  split; [by left|]. lia.
Qed.

(** ** Witnesses *)

Definition sample_reqs : list (string * Z) := [("a", 0); ("a", 5); ("b", 6); ("a", 7); ("a", 11)].

Lemma sample_chronological : chronological 0 sample_reqs.
Proof. simpl. lia. Qed.

Lemma limiter_matches_reference_witness :
  (check_all sample_reqs (new_limiter 2 10)).1.*1 = [true; true; true; false; true] ∧
  (ref_all 2 10 sample_reqs []).1 = [true; true; true; false; true].
Proof.
  split; [reflexivity|].
  rewrite <- (limiter_matches_reference 2 10 sample_reqs) by (lia || apply sample_chronological).
  reflexivity.
Defined.

Lemma limiter_bound_witness :
  Z.of_nat (length (accepted_in sample_reqs (check_all sample_reqs (new_limiter 2 10)).1.*1 "a" 1 11)) ≤ 2
  ∧ (length (accepted_in sample_reqs (check_all sample_reqs (new_limiter 2 10)).1.*1 "a" 1 11) = 2)%nat.
Proof.
  split; [|reflexivity].
  apply (limiter_bound 2 10 sample_reqs "a" 1); [lia|lia|apply sample_chronological].
Defined.

Lemma limiter_refusal_witness :
  let l := (check "a" 0 (new_limiter 1 10)).2 in
  (check "a" 4 l).1 = (false, 6) ∧ (check "a" 11 (check "a" 4 l).2).1.1 = true.
Proof.
  intros l. assert ((check "a" 4 l).1 = (false, 6)) as E by reflexivity. split; [exact E|].
  pose proof (check_tracks (new_limiter 1 10) [] 0 "a" 0 eq_refl (tracks_new 1 10 ltac:(lia) ltac:(lia))
    ltac:(lia)) as (_ & Ht & _).
  destruct (limiter_refusal l _ 0 4 "a" 6 (check "a" 4 l).2 eq_refl Ht ltac:(lia) eq_refl) as (_ & _ & H).
  apply (H 11). lia.
Defined.

Lemma limiter_memory_witness :
  hits (check_all sample_reqs (new_limiter 2 10)).2 !! "a" = Some [5; 11] ∧
  ∃ t, t ∈ [5; 11] ∧ 11 - 2 * 10 < t ∧ t ≤ 11.
Proof.
  assert (hits (check_all sample_reqs (new_limiter 2 10)).2 !! "a" = Some [5; 11]) as E by reflexivity.
  split; [exact E|].
  apply (limiter_memory 2 10 [("a", 0); ("a", 5); ("b", 6); ("a", 7)] "a" 11 "a" [5; 11]);
    [lia|lia|apply sample_chronological|exact E].
Defined.
