(* ===== verification/BusPublish.v ===== *)
(** [buspublish.py]: the best-effort projection of decisions onto the event bus.

    The HTTP POST is a parameter that may raise anything; publishing is a function of
    the configuration, the event and that parameter, with what reached the network and
    whether a warning was logged as its result. *)

From S2P Require Import Prelude PyJson PyJsonLoads PyStr Policy.

Definition SOURCE_PRODUCT : string := "toolconnect".

Definition _PRINCIPAL_TIER_TO_BUS_TIER : gmap string string :=
  {["local" := "public"; "trusted-cloud" := "repo_sensitive"; "rented" := "local_only"]}.
Definition _UNKNOWN_PRINCIPAL_TIER_BUS_TIER : string := "secret_sensitive".
Definition NO_PRINCIPAL_BUS_TIER : string := "public".

(** [bus_tier_for_principal] *)
Definition bus_tier_for_principal (principal_tier : option string) : string :=
  default _UNKNOWN_PRINCIPAL_TIER_BUS_TIER
    (_PRINCIPAL_TIER_TO_BUS_TIER !! default "" principal_tier).

Definition _EXECUTION_OUTCOME_TO_BUS_OUTCOME : list (string * string) :=
  [("succeeded", "succeeded"); ("success", "succeeded"); ("successful", "succeeded");
   ("executed", "succeeded"); ("ok", "succeeded"); ("complete", "succeeded");
   ("completed", "succeeded"); ("done", "succeeded"); ("failed", "failed");
   ("failure", "failed"); ("error", "failed"); ("errored", "failed");
   ("cancelled", "cancelled"); ("canceled", "cancelled"); ("denied", "denied");
   ("timed_out", "timed_out"); ("timedout", "timed_out"); ("timeout", "timed_out")].
Definition _UNKNOWN_EXECUTION_OUTCOME_BUS_OUTCOME : string := "unknown".

(** [bus_outcome_for_execution] *)
Definition bus_outcome_for_execution (outcome : option string) : string :=
  default _UNKNOWN_EXECUTION_OUTCOME_BUS_OUTCOME
    ((list_to_map _EXECUTION_OUTCOME_TO_BUS_OUTCOME : gmap string string)
       !! py_lower (py_strip (default "" outcome))).

(** ** The publisher *)

Record BusPublisher := mkBus {
  bus_url : option string;
  bus_token : option string;
}.

Definition nonempty (s : option string) : option string :=
  match s with Some EmptyString | None => None | Some _ => s end.

(** [BusPublisher.__init__], its URL and token arguments. *)
Definition make_bus (url token : option string) : BusPublisher :=
  mkBus (rstrip_slash <$> nonempty url) (nonempty token).

(** [BusPublisher.from_env(env)]; the timeout has no effect the model sees. *)
Definition from_env (env : gmap string string) : BusPublisher :=
  make_bus (env !! "TOOLCONNECT_BUS_URL") (env !! "TOOLCONNECT_BUS_TOKEN").

(** [bool(self.url and self.token)] *)
Definition bus_enabled (b : BusPublisher) : bool :=
  bool_decide (is_Some (nonempty (bus_url b)) ∧ is_Some (nonempty (bus_token b))).

Record event := mkEvent {
  ev_type : string;
  ev_outcome : option string;
  ev_actor : string;
  ev_privacy_tier : string;
  ev_payload : list (pykey * pyval);
}.

(** The body [publish] builds; [uid] is [uuid.uuid4().hex]. *)
Definition event_body (uid : string) (e : event) : pyval :=
  PDict ([str_pair "type" (PStr (ev_type e));
          str_pair "source_product" (PStr SOURCE_PRODUCT);
          str_pair "event_id" (PStr ("toolconnect_" +:+ uid));
          str_pair "actor" (PStr (ev_actor e));
          str_pair "privacy_tier" (PStr (ev_privacy_tier e));
          str_pair "payload" (PDict (ev_payload e))] ++
         match ev_outcome e with Some o => [str_pair "outcome" (PStr o)] | None => [] end).

Section publish.
Context {rt : PyFloatRuntime}.
(** [urlopen] of the request: the URL, the token and the data; it may raise. *)
Context (urlopen : string → string → string → res unit).

(** [_post]: every exception is caught and logged. *)
Definition _post (b : BusPublisher) (body : pyval) : bool :=
  match json_dumps true false true body ≫=
        urlopen (default "None" (bus_url b) +:+ "/events") (default "None" (bus_token b)) with
  | Ok _ => false
  | Raise _ => true
  end.

(** [publish]: the posted body, if any, and whether a failure was logged.  It has no
    exceptional result: nothing it does reaches the caller. *)
Definition publish (b : BusPublisher) (uid : string) (e : event) : option pyval * bool :=
  if negb (bus_enabled b) then (None, false)
  else let body := event_body uid e in (Some body, _post b body).
End publish.

(** ** Properties *)

(** The closed outcome vocabulary and the bus tiers. *)
Definition bus_outcomes : list string :=
  ["succeeded"; "failed"; "cancelled"; "denied"; "timed_out"; "unknown"].
Definition bus_tiers : list string := ["public"; "repo_sensitive"; "local_only"; "secret_sensitive"].

Definition bus_rank (tier : string) : Z :=
  default 0 (Z.of_nat ∘ fst <$> list_find (λ t, t = tier) bus_tiers).

Lemma table_range {A} (P : A → Prop) (l : list (string * A)) (k : string) (v : A) :
  Forall (λ kv, P kv.2) l → (list_to_map l : gmap string A) !! k = Some v → P v.
Proof.
  induction 1 as [|[k' v'] l Hv _ IH]; simpl; [done|].
  intros [[_ <-]|[_ H]]%lookup_insert_Some; auto.
Qed.

(** Caller text never reaches the bus's closed fields: whatever outcome string is
    reported, the published outcome is a member of the closed vocabulary, and a member
    is reported as itself ("unknown" only standing for what is not recognised). *)
Theorem bus_outcome_closed (o : option string) :
  bus_outcome_for_execution o ∈ bus_outcomes ∧
  (∀ v, v ∈ bus_outcomes → bus_outcome_for_execution (Some v) = v).
Proof.
  split.
  - unfold bus_outcome_for_execution.
    destruct (_ !! _) as [v|] eqn:E; [|by apply (bool_decide_unpack _)].
    apply (table_range (λ v, v ∈ bus_outcomes)) in E; [done|].
    repeat constructor; by apply (bool_decide_unpack _).
  - intros v. unfold bus_outcomes. rewrite !elem_of_cons, elem_of_nil.
    intros [->|[->|[->|[->|[->|[->|[]]]]]]]; by vm_compute.
Qed.

Lemma bus_tier_member t : bus_tier_for_principal (Some t) ∈ bus_tiers.
Proof.
  unfold bus_tier_for_principal. simpl.
  destruct (_PRINCIPAL_TIER_TO_BUS_TIER !! t) as [v|] eqn:E; [|by apply (bool_decide_unpack _)].
  unfold _PRINCIPAL_TIER_TO_BUS_TIER in E.
  repeat (apply lookup_insert_Some in E as [[_ <-]|[_ E]]; [by apply (bool_decide_unpack _)|]).
  first [by rewrite lookup_empty in E
        |apply lookup_singleton_Some in E as [_ <-]; by apply (bool_decide_unpack _)].
Qed.

Lemma bus_rank_tier t : bus_rank (bus_tier_for_principal (Some t)) = Z.min 3 (tier_order t).
Proof.
  unfold tier_order. do 3 (case_decide; [by subst|]).
  assert (bus_tier_for_principal (Some t) = _UNKNOWN_PRINCIPAL_TIER_BUS_TIER) as ->; [|done].
  unfold bus_tier_for_principal, _PRINCIPAL_TIER_TO_BUS_TIER. simpl.
  by rewrite !lookup_insert_ne, lookup_singleton_ne by done.
Qed.

(** The tier of a published event never loosens down a delegation chain: it is
    at least as tight as the tier of every member's own privacy tier, and an unknown
    tier publishes at the tightest. *)
Theorem bus_tier_monotone (p q : Principal) :
  q ∈ chain p →
  bus_tier_for_principal (Some (effective_tier p)) ∈ bus_tiers ∧
  bus_rank (bus_tier_for_principal (Some (privacy_tier q))) ≤
  bus_rank (bus_tier_for_principal (Some (effective_tier p))).
Proof.
  intros Hq. pose proof (proj2 (effective_tier_spec p) q Hq) as Hle.
  rewrite !bus_rank_tier. split; [apply bus_tier_member|lia].
Qed.

(** The bus can never fail a decision: a publisher without a URL or a token posts
    nothing, and an enabled one posts exactly the event's body, whatever the transport
    does; the outcome field is present if and only if the event has one. *)
Lemma publish_total {rt : PyFloatRuntime} (urlopen : string → string → string → res unit)
    (b : BusPublisher) (uid : string) (e : event) :
  publish urlopen b uid e =
    (if bus_enabled b then (Some (event_body uid e), _post urlopen b (event_body uid e))
     else (None, false)) ∧
  (∀ d, event_body uid e = PDict d → dhas "outcome" d = bool_decide (is_Some (ev_outcome e))) ∧
  (bus_enabled b = false ↔ nonempty (bus_url b) = None ∨ nonempty (bus_token b) = None).
Proof.
  split_and!.
  - unfold publish. by destruct (bus_enabled b).
  - intros d [= <-]. unfold dhas. by destruct (ev_outcome e).
  - unfold bus_enabled. rewrite bool_decide_eq_false, !eq_None_not_Some. split.
    + intros H. destruct (decide (is_Some (nonempty (bus_url b)))); [right|by left]. tauto.
    + intros [H|H] [H1 H2]; done.
Qed.

(** ** Witnesses *)

Definition sample_principal : Principal :=
  mkPrincipal "sub" "local" "agent" (Some (mkPrincipal "root" "rented" "user" None)).

Lemma bus_tier_monotone_witness :
  sample_principal ∈ chain sample_principal ∧
  bus_tier_for_principal (Some (effective_tier sample_principal)) = "local_only" ∧
  bus_rank (bus_tier_for_principal (Some "local")) ≤ bus_rank "local_only".
Proof.
  assert (sample_principal ∈ chain sample_principal) as H by by left.
  split; [exact H|]. split; [reflexivity|].
  apply (bus_tier_monotone sample_principal sample_principal H).
Defined.
