(* ===== verification/PyColl.v ===== *)
(** Python collection conversions the program applies to unvalidated JSON values:
    iteration, [dict(x)], [set(x)] and [sorted(xs)]. *)

From Stdlib Require Import Floats.SpecFloat.
From S2P Require Import Prelude PyJson PyJsonLoads.

Definition key_value (k : pykey) : pyval := match k with KStr s => PStr s | KOther r => POther r end.

Fixpoint chars (s : string) : list pyval :=
  match s with
  | EmptyString => []
  | String c s' => PStr (String c EmptyString) :: chars s'
  end.

(** [iter(v)] *)
Definition py_iter (v : pyval) : res (list pyval) :=
  match v with
  | PList l => Ok l
  | PStr s => Ok (chars s)
  | PDict d => Ok (key_value <$> d.*1)
  | _ => Raise (TypeError ("'" +:+ type_name v +:+ "' object is not iterable"))
  end.

Definition hashable (v : pyval) : bool :=
  match v with PList _ | PDict _ => false | _ => true end.

(** Exact numbers as [m * 2^e]; [bool] is a subtype of [int]. *)
Definition py_num (v : pyval) : option (Z * Z) :=
  match v with
  | PBool b => Some (if b then 1 else 0, 0)
  | PInt z => Some (z, 0)
  | PFloat (S754_zero _) => Some (0, 0)
  | PFloat (S754_finite s m e) => Some (if s then - Zpos m else Zpos m, e)
  | _ => None
  end.

Definition num_compare (x y : Z * Z) : comparison :=
  let e := Z.min x.2 y.2 in
  (x.1 * 2 ^ (x.2 - e)) ?= (y.1 * 2 ^ (y.2 - e)).

(** [a == b] of hashable values: numbers by value, whatever their type. *)
Definition py_eq_scalar (a b : pyval) : bool :=
  match py_num a, py_num b with
  | Some x, Some y => match num_compare x y with Eq => true | _ => false end
  | None, None => bool_decide (a = b)
  | _, _ => false
  end.

(** [frozenset(xs)]: the first of equal elements stays. *)
Fixpoint dedupe (l : list pyval) : list pyval :=
  match l with
  | [] => []
  | x :: l' => x :: filter (λ y, py_eq_scalar x y = false) (dedupe l')
  end.

Definition py_set (l : list pyval) : res (list pyval) :=
  if forallb hashable l then Ok (dedupe l) else Raise (TypeError "unhashable type").

(** [a <= b] as sorting uses it, on values of one kind. *)
Definition str_le (a b : pyval) : Prop :=
  match a, b with PStr x, PStr y => String.le x y | _, _ => True end.
#[global] Instance str_le_dec : RelDecision str_le.
Proof. intros [] []; simpl; apply _. Defined.

Definition num_le (a b : pyval) : Prop :=
  match py_num a, py_num b with
  | Some x, Some y => match num_compare x y with Gt => False | _ => True end
  | _, _ => True
  end.
#[global] Instance num_le_dec : RelDecision num_le.
Proof. intros a b. unfold num_le. repeat case_match; apply _. Defined.

(** [sorted(xs)]: strings by code point, finite numbers by value; one element needs no
    comparison, and elements of different kinds do not compare. *)
Definition py_sorted (l : list pyval) : res (list pyval) :=
  match l with
  | [] | [_] => Ok l
  | _ =>
      if forallb is_str l then Ok (merge_sort str_le l)
      else if forallb (λ v, negb (bool_decide (py_num v = None))) l then Ok (merge_sort num_le l)
      else Raise (TypeError "'<' not supported between instances")
  end.

(** One item of an iterable given to [dict].  A key that is no string is not modelled: the
    encoder would spell some of them out. *)
Definition dict_item (v : pyval) : res (pykey * pyval) :=
  kv ← py_iter v;
  match kv with
  | [k; x] =>
      match k with
      | PStr s => Ok (KStr s, x)
      | PList _ | PDict _ => Raise (TypeError "unhashable type")
      | _ => Raise NotModelled
      end
  | _ => Raise (ValueError "dictionary update sequence element has the wrong length; 2 is required")
  end.

Fixpoint map_res {A B} (f : A → res B) (l : list A) : res (list B) :=
  match l with
  | [] => Ok []
  | x :: l' => y ← f x; ys ← map_res f l'; Ok (y :: ys)
  end.

(** [dict(v)] *)
Definition py_dict (v : pyval) : res (list (pykey * pyval)) :=
  match v with
  | PDict d => Ok d
  | _ => items ← py_iter v; pairs ← map_res dict_item items; Ok (dict_of_pairs pairs)
  end.

(** ** Lemmas *)

Lemma map_res_ok {A B} (f : A → res B) (g : A → B) l :
  Forall (λ x, f x = Ok (g x)) l → map_res f l = Ok (g <$> l).
Proof. induction 1 as [|x l Hx _ IH]; csimpl; [done|]. by rewrite Hx, IH. Qed.

Lemma map_res_Forall {A B} (f : A → res B) (P : B → Prop) l ys :
  map_res f l = Ok ys → (∀ x y, x ∈ l → f x = Ok y → P y) → Forall P ys.
Proof.
  revert ys. induction l as [|x l IH]; intros ys; simpl; [intros [= <-] _; constructor|].
  intros (y & Hy & (ys' & Hys & [= <-])%bind_ok)%bind_ok Hall. constructor.
  - by eapply Hall; [left|].
  - apply IH; [done|]. intros x' y' Hx'. apply Hall. by right.
Qed.

Lemma map_res_app {A B} (f : A → res B) l1 l2 :
  map_res f (l1 ++ l2) = (ys1 ← map_res f l1; ys2 ← map_res f l2; Ok (ys1 ++ ys2)).
Proof.
  induction l1 as [|x l1 IH]; simpl; [by destruct (map_res f l2)|]. destruct (f x); simpl; [|done].
  rewrite IH. destruct (map_res f l1); simpl; [|done]. by destruct (map_res f l2).
Qed.

Lemma map_res_fmap {A B C} (h : C → A) (f : A → res B) l : map_res f (h <$> l) = map_res (f ∘ h) l.
Proof. induction l as [|x l IH]; csimpl; [done|]. by rewrite IH. Qed.

Lemma dedupe_strings (l : list string) : NoDup l → dedupe (PStr <$> l) = PStr <$> l.
Proof.
  induction 1 as [|x l Hx _ IH]; csimpl; [done|]. rewrite IH. f_equal.
  apply filter_all, Forall_forall. intros y Hy. apply list_elem_of_fmap in Hy as (z & -> & Hz).
  unfold py_eq_scalar. simpl. apply bool_decide_eq_false. intros [= ->]. done.
Qed.
