(* ===== verification/Db.v ===== *)
(** The SQLite database of [store.py] and the way the store runs statements on it.

    A table is a finite map from its primary key to its other columns, in the source's
    column order; [audit] is the list of its rows in [seq] order.  Text columns hold
    strings.  Every statement may fail ([OperationalError]) and every reading of the
    clock may give any instant: both are decided by an oracle indexed by the number of
    statements and readings so far, and theorems hold for every oracle.  A method
    runs whole, as under the store's lock; [Threads] takes it apart. *)

From S2P Require Import Prelude PyJson PyJsonLoads DateTime.

(** ** Rows *)

Record source_row := mkSourceRow {
  sr_tier : string; sr_transport : string; sr_declared : string;
  sr_command : option string; sr_registered_at : string;
}.

Record tool_row := mkToolRow {
  tr_version : string; tr_claimed : string; tr_asserted : option string;
  tr_input_schema : string; tr_updated_at : string;
}.

Record assertion_row := mkAssertionRow {
  ar_descriptor : string; ar_fingerprint : string; ar_asserted_at : string;
}.

Record audit_row := mkAuditRow {
  au_seq : Z; au_kind : string; au_body : string; au_created_at : string;
  au_prev_hash : string; au_record_hash : string;
}.

Record grant_row := mkGrantRow {
  gr_decision_id : string; gr_principal_id : string; gr_source_id : string; gr_name : string;
  gr_args_hash : string; gr_issued_at : string; gr_expires_at : string;
  gr_redeemed_at : option string; gr_closed_at : option string;
}.

Record redemption_row := mkRedemptionRow {
  rr_decision_record_id : string; rr_correlation_id : option string; rr_issuer_key_id : string;
  rr_provider_id : string; rr_principal_id : string; rr_source_id : string; rr_name : string;
  rr_args_hash : string; rr_verification_at : string; rr_redeemed_at : string;
}.

(** ** The database *)

Record db := mkDb {
  meta : gmap string string;
  sources_t : gmap string source_row;
  tools_t : gmap (string * string) tool_row;
  assertions_t : gmap (string * string) assertion_row;
  discoveries_t : gmap string (string * string);
  audit_t : list audit_row;
  audit_autoincrement : Z;
  grants_t : gmap string grant_row;
  redemptions_t : gmap string redemption_row;
}.

Definition empty_db : db := mkDb ∅ ∅ ∅ ∅ ∅ [] 0 ∅ ∅.

Definition set_meta_t (m : gmap string string) (d : db) : db :=
  mkDb m (sources_t d) (tools_t d) (assertions_t d) (discoveries_t d) (audit_t d)
    (audit_autoincrement d) (grants_t d) (redemptions_t d).
Definition set_sources_t (t : gmap string source_row) (d : db) : db :=
  mkDb (meta d) t (tools_t d) (assertions_t d) (discoveries_t d) (audit_t d)
    (audit_autoincrement d) (grants_t d) (redemptions_t d).
Definition set_tools_t (t : gmap (string * string) tool_row) (d : db) : db :=
  mkDb (meta d) (sources_t d) t (assertions_t d) (discoveries_t d) (audit_t d)
    (audit_autoincrement d) (grants_t d) (redemptions_t d).
Definition set_assertions_t (t : gmap (string * string) assertion_row) (d : db) : db :=
  mkDb (meta d) (sources_t d) (tools_t d) t (discoveries_t d) (audit_t d)
    (audit_autoincrement d) (grants_t d) (redemptions_t d).
Definition set_discoveries_t (t : gmap string (string * string)) (d : db) : db :=
  mkDb (meta d) (sources_t d) (tools_t d) (assertions_t d) t (audit_t d)
    (audit_autoincrement d) (grants_t d) (redemptions_t d).
Definition set_audit_t (t : list audit_row) (auto : Z) (d : db) : db :=
  mkDb (meta d) (sources_t d) (tools_t d) (assertions_t d) (discoveries_t d) t
    auto (grants_t d) (redemptions_t d).
Definition set_grants_t (t : gmap string grant_row) (d : db) : db :=
  mkDb (meta d) (sources_t d) (tools_t d) (assertions_t d) (discoveries_t d) (audit_t d)
    (audit_autoincrement d) t (redemptions_t d).
Definition set_redemptions_t (t : gmap string redemption_row) (d : db) : db :=
  mkDb (meta d) (sources_t d) (tools_t d) (assertions_t d) (discoveries_t d) (audit_t d)
    (audit_autoincrement d) (grants_t d) t.

(** ** Running statements *)

(** What the world decides: the instant each reading of the clock gives, which
    statements fail, and the identifiers [uuid4] draws. *)
Record oracle := mkOracle {
  clock : nat → Z;
  fault : nat → bool;
  fresh : nat → string;
}.

Record sim := mkSim { s_db : db; s_tick : nat }.

Definition act (A : Type) : Type := oracle → st sim A.

#[global] Instance act_ret : MRet act := λ A a o s, (Ok a, s).
#[global] Instance act_bind : MBind act := λ A B f m o s,
  match m o s with
  | (Ok a, s') => f a o s'
  | (Raise e, s') => (Raise e, s')
  end.

Definition lift {A} (r : res A) : act A := λ _ s, (r, s).

(** One SQL statement: it fails, or reads and writes the database. *)
Definition sql {A} (f : db → res A * db) : act A := λ o s,
  if fault o (s_tick s) then (Raise OperationalError, mkSim (s_db s) (S (s_tick s)))
  else let '(r, d) := f (s_db s) in (r, mkSim d (S (s_tick s))).

Definition select {A} (f : db → A) : act A := sql (λ d, (Ok (f d), d)).
Definition update (f : db → db) : act unit := sql (λ d, (Ok tt, f d)).

(** [datetime.now(timezone.utc)] and [uuid.uuid4().hex] *)
Definition now : act Z := λ o s, (Ok (clock o (s_tick s)), mkSim (s_db s) (S (s_tick s))).
Definition uuid4_hex : act string := λ o s,
  (Ok (fresh o (s_tick s)), mkSim (s_db s) (S (s_tick s))).

(** [with self._lock, self._conn: m]: commit on return, roll back on an exception; a
    commit may itself fail, which rolls back and raises. *)
Definition transaction {A} (m : act A) : act A := λ o s,
  match m o s with
  | (Ok a, s') =>
      if fault o (s_tick s') then (Raise OperationalError, mkSim (s_db s) (S (s_tick s')))
      else (Ok a, mkSim (s_db s') (S (s_tick s')))
  | (Raise e, s') => (Raise e, mkSim (s_db s) (s_tick s'))
  end.

(** How a method that manages its own transaction ends it. *)
Inductive verdict (A : Type) := Commit (a : A) | Rollback (a : A).
Arguments Commit {A} _.
Arguments Rollback {A} _.

(** [BEGIN IMMEDIATE], a body that ends in [COMMIT] or [ROLLBACK], and the handler that
    rolls back and re-raises on any exception, a failing [COMMIT] included. *)
Definition immediate {A} (m : act (verdict A)) : act A := λ o s,
  if fault o (s_tick s) then (Raise OperationalError, mkSim (s_db s) (S (s_tick s)))
  else
    match m o (mkSim (s_db s) (S (s_tick s))) with
    | (Ok (Rollback a), s') => (Ok a, mkSim (s_db s) (S (s_tick s')))
    | (Ok (Commit a), s') =>
        if fault o (s_tick s') then (Raise OperationalError, mkSim (s_db s) (S (s_tick s')))
        else (Ok a, mkSim (s_db s') (S (s_tick s')))
    | (Raise e, s') => (Raise e, mkSim (s_db s) (s_tick s'))
    end.

(** ** Reasoning about runs *)

(** Assumptions on the world: anything goes, or no statement fails. *)
Definition any_world (o : oracle) : Prop := True.
Definition faultless (o : oracle) : Prop := ∀ n, fault o n = false.
Definition can_fail (W : oracle → Prop) : Prop := ∃ o n, W o ∧ fault o n = true.
Definition clock_shows (W : oracle → Prop) (t : Z) : Prop := ∃ o n, W o ∧ clock o n = t.

Lemma faultless_cannot_fail : ¬ can_fail faultless.
Proof. intros (o & n & Ho & Hf). by rewrite Ho in Hf. Qed.

(** Every result of [m] in such a world, in terms of the database before and after. *)
Definition outcome {A} (W : oracle → Prop) (m : act A) (d : db) (Q : res A → db → Prop) : Prop :=
  ∀ o t, W o → let '(r, s') := m o (mkSim d t) in Q r (s_db s').

Section outcome.
Context (W : oracle → Prop).

Lemma outcome_ret {A} (a : A) d (Q : res A → db → Prop) : Q (Ok a) d → outcome W (mret a) d Q.
Proof. by intros H o t Ho. Qed.

Lemma outcome_lift {A} (r : res A) d (Q : res A → db → Prop) : Q r d → outcome W (lift r) d Q.
Proof. by intros H o t Ho. Qed.

Lemma outcome_bind {A B} (m : act A) (k : A → act B) d (Q : res B → db → Prop) :
  outcome W m d (λ r d', match r with Ok a => outcome W (k a) d' Q | Raise e => Q (Raise e) d' end) →
  outcome W (m ≫= k) d Q.
Proof.
  intros H o t Ho. specialize (H o t Ho). unfold mbind, act_bind.
  destruct (m o (mkSim d t)) as [[a|e] [d' t']]; [|done]. by apply H.
Qed.

Lemma outcome_mono {A} (m : act A) d (Q Q' : res A → db → Prop) :
  outcome W m d Q → (∀ r d', Q r d' → Q' r d') → outcome W m d Q'.
Proof.
  intros H HQ o t Ho. specialize (H o t Ho). destruct (m o (mkSim d t)) as [r s']. by apply HQ.
Qed.

Lemma outcome_sql {A} (f : db → res A * db) d (Q : res A → db → Prop) :
  (can_fail W → Q (Raise OperationalError) d) → Q (f d).1 (f d).2 → outcome W (sql f) d Q.
Proof.
  intros Hf Hq o t Ho. unfold sql. simpl. destruct (fault o t) eqn:E; [apply Hf; by exists o, t|].
  by destruct (f d).
Qed.

Lemma outcome_select {A} (f : db → A) d (Q : res A → db → Prop) :
  (can_fail W → Q (Raise OperationalError) d) → Q (Ok (f d)) d → outcome W (select f) d Q.
Proof. intros Hf Hq. by apply outcome_sql. Qed.

Lemma outcome_update (f : db → db) d (Q : res unit → db → Prop) :
  (can_fail W → Q (Raise OperationalError) d) → Q (Ok tt) (f d) → outcome W (update f) d Q.
Proof. intros Hf Hq. by apply outcome_sql. Qed.

Lemma outcome_now d (Q : res Z → db → Prop) :
  (∀ t, clock_shows W t → Q (Ok t) d) → outcome W now d Q.
Proof. intros H o t Ho. apply H. by exists o, t. Qed.

Lemma outcome_uuid d (Q : res string → db → Prop) : (∀ u, Q (Ok u) d) → outcome W uuid4_hex d Q.
Proof. intros H o t Ho. apply H. Qed.

(** A transaction either commits what its body did or leaves the database alone. *)
Lemma outcome_transaction {A} (m : act A) d (Q : res A → db → Prop) :
  (can_fail W → Q (Raise OperationalError) d) →
  outcome W m d (λ r d', match r with Ok a => Q (Ok a) d' | Raise e => Q (Raise e) d end) →
  outcome W (transaction m) d Q.
Proof.
  intros He H o t Ho. specialize (H o t Ho). unfold transaction.
  destruct (m o (mkSim d t)) as [[a|e] [d' t']]; simpl; [|apply H].
  destruct (fault o t') eqn:E; simpl; [apply He; by exists o, t'|apply H].
Qed.

Lemma outcome_immediate {A} (m : act (verdict A)) d (Q : res A → db → Prop) :
  (can_fail W → Q (Raise OperationalError) d) →
  outcome W m d (λ r d', match r with
                         | Ok (Commit a) => Q (Ok a) d'
                         | Ok (Rollback a) => Q (Ok a) d
                         | Raise e => Q (Raise e) d
                         end) →
  outcome W (immediate m) d Q.
Proof.
  intros He H o t Ho. unfold immediate. simpl.
  destruct (fault o t) eqn:E; [apply He; by exists o, t|].
  specialize (H o (S t) Ho). destruct (m o (mkSim d (S t))) as [[[a|a]|e] [d' t']]; simpl in *;
    [|done|done]. destruct (fault o t') eqn:E'; [apply He; by exists o, t'|done].
Qed.
End outcome.

(** Walk through a method's statements. *)
Ltac step_outcome :=
  lazymatch goal with
  | |- outcome _ (mbind _ _) _ _ => apply outcome_bind
  | |- outcome _ (mret _) _ _ => apply outcome_ret
  | |- outcome _ (lift _) _ _ => apply outcome_lift
  | |- outcome _ (select _) _ _ => apply outcome_select
  | |- outcome _ (update _) _ _ => apply outcome_update
  | |- outcome _ (sql _) _ _ => apply outcome_sql
  | |- outcome _ now _ _ => apply outcome_now
  | |- outcome _ (transaction _) _ _ => apply outcome_transaction
  | |- outcome _ (immediate _) _ _ => apply outcome_immediate
  end.
