(* ===== verification/AuditLog.v ===== *)
(** [store.py], the audit log: an append-only hash chain with a durable high-water mark.

    A record's hash covers its kind, its JSON body, its creation time and the previous
    record's hash, separated by U+001F. *)

From S2P Require Import Prelude PyJson PyJsonLoads PyStr DateTime Sha256 Db.

Definition _GENESIS : string := "0000000000000000000000000000000000000000000000000000000000000000".
Definition _AUDIT_HEAD_SEQ : string := "audit_head_seq".
Definition _AUDIT_HEAD_HASH : string := "audit_head_hash".

(** The text a record's hash is computed on. *)
Definition record_text (kind body created prev : string) : string :=
  kind +:+ String unit_separator (body +:+ String unit_separator
    (created +:+ String unit_separator prev)).

(** [SELECT record_hash FROM audit ORDER BY seq DESC LIMIT 1], or the genesis hash. *)
Definition tip_hash (rows : list audit_row) : string :=
  match last rows with Some r => au_record_hash r | None => _GENESIS end.

(** The row id [AUTOINCREMENT] gives the next record. *)
Definition next_seq (d : db) : Z :=
  Z.max (audit_autoincrement d) (match last (audit_t d) with Some r => au_seq r | None => 0 end) + 1.

Definition insert_audit (r : audit_row) (d : db) : db :=
  set_audit_t (audit_t d ++ [r]) (au_seq r) d.

(** [INSERT INTO meta ... ON CONFLICT(key) DO UPDATE] *)
Definition upsert_meta (key value : string) (d : db) : db := set_meta_t (<[key := value]> (meta d)) d.

Section audit.
Context {rt : PyFloatRuntime} {dt : PyDatetime}.

(** [_now()] and [_canonical(obj)] *)
Definition _now : act string := t ← now; mret (isoformat t).
Definition _canonical (obj : pyval) : res string := json_dumps true true true obj.

(** [_append_audit_in_txn(kind, body)] *)
Definition _append_audit_in_txn (kind : string) (body : list (pykey * pyval)) : act Z :=
  payload ← lift (_canonical (PDict body));
  created ← _now;
  prev ← select (λ d, tip_hash (audit_t d));
  let record_hash := sha256_hex (record_text kind payload created prev) in
  seq ← sql (λ d, let r := mkAuditRow (next_seq d) kind payload created prev record_hash in
                  (Ok (au_seq r), insert_audit r d));
  _ ← update (upsert_meta _AUDIT_HEAD_SEQ (string_of_Z seq));
  _ ← update (upsert_meta _AUDIT_HEAD_HASH record_hash);
  mret seq.

(** [append_audit(kind, body)] *)
Definition append_audit (kind : string) (body : list (pykey * pyval)) : act Z :=
  transaction (_append_audit_in_txn kind body).

(** [set_meta(key, value)] and [get_meta(key)] *)
Definition set_meta (key value : string) : act unit := transaction (update (upsert_meta key value)).
Definition get_meta (key : string) : act (option string) := select (λ d, meta d !! key).

(** [read_audit(kind, limit)]: newest first, bodies parsed. *)
Definition read_audit (kind : option string) (limit : Z) : act (list (audit_row * pyval)) :=
  rows ← select (λ d,
    let rows := match kind with
                | Some k => filter (λ r, au_kind r = k) (audit_t d)
                | None => audit_t d
                end in
    if limit <? 0 then reverse rows else take (Z.to_nat limit) (reverse rows));
  lift ((fix go (rows : list audit_row) : res (list (audit_row * pyval)) :=
    match rows with
    | [] => Ok []
    | r :: rows' => b ← json_loads (au_body r); rest ← go rows'; Ok ((r, b) :: rest)
    end) rows).

(** The loop of [find_decision] over the decision records, oldest first. *)
Fixpoint find_in (rows : list audit_row) (decision_id : string) : res (option (Z * pyval)) :=
  match rows with
  | [] => Ok None
  | r :: rows' =>
      parsed ← json_loads (au_body r);
      match parsed with
      | PDict b =>
          if decide (dget "decision_id" b = PStr decision_id) then Ok (Some (au_seq r, parsed))
          else find_in rows' decision_id
      | _ => Raise (AttributeError "object has no attribute 'get'")
      end
  end.

(** [find_decision(decision_id)] *)
Definition find_decision (decision_id : string) : act (option (Z * pyval)) :=
  rows ← select (λ d, filter (λ r, au_kind r = "decision") (audit_t d));
  lift (find_in rows decision_id).
End audit.

(** ** [verify_chain] *)

Record ChainVerification := mkVerification {
  ok : bool;
  records : Z;
  broken_at : option Z;
  detail : string;
}.

(** The walk over the rows: a broken link, or the number of records, the last sequence
    number and the last hash. *)
Fixpoint walk (rows : list audit_row) (prev : string) (count : Z) (last_seq : option Z) :
    ChainVerification + (Z * option Z * string) :=
  match rows with
  | [] => inr (count, last_seq, prev)
  | r :: rows' =>
      if decide (au_prev_hash r ≠ prev) then
        inl (mkVerification false count (Some (au_seq r)) "prev_hash mismatch")
      else if decide (au_record_hash r ≠
                      sha256_hex (record_text (au_kind r) (au_body r) (au_created_at r) (au_prev_hash r)))
      then inl (mkVerification false count (Some (au_seq r)) "record_hash mismatch")
      else walk rows' (au_record_hash r) (count + 1) (Some (au_seq r))
  end.

Definition verify_chain (d : db) : res ChainVerification :=
  match walk (audit_t d) _GENESIS 0 None with
  | inl broken => Ok broken
  | inr (count, last_seq, last_hash) =>
      match meta d !! _AUDIT_HEAD_SEQ with
      | None => Ok (mkVerification true count None "")
      | Some s =>
          recorded_seq ← py_int s;
          let actual_seq := default 0 last_seq in
          let recorded_hash := meta d !! _AUDIT_HEAD_HASH in
          if decide (actual_seq ≠ recorded_seq ∨
                     (recorded_hash ≠ None ∧ recorded_hash ≠ Some last_hash)) then
            Ok (mkVerification false count (Some recorded_seq)
                  ("tail truncation: recorded head seq " +:+ string_of_Z recorded_seq
                     +:+ " but chain ends at seq " +:+ string_of_Z actual_seq))
          else Ok (mkVerification true count None "")
      end
  end.

(** ** Framing *)

Fixpoint separators (s : string) : nat :=
  match s with
  | EmptyString => 0
  | String c s' => (if plain_char c then 0 else 1) + separators s'
  end.

Lemma separators_app a b : separators (a +:+ b) = (separators a + separators b)%nat.
Proof. induction a as [|c a IH]; [done|]. rewrite sapp_cons. simpl. rewrite IH. lia. Qed.

Lemma separators_plain s : separators s = 0%nat ↔ plain s = true.
Proof.
  unfold plain. induction s as [|c s IH]; simpl; [done|].
  destruct (plain_char c); simpl; [done|]. split; [lia|done].
Qed.

(** Plain fields can be read back from a separated text. *)
Lemma separated_inj a b a' b' :
  plain a = true → plain a' = true →
  a +:+ String unit_separator b = a' +:+ String unit_separator b' → a = a' ∧ b = b'.
Proof.
  revert a'. induction a as [|c a IH]; intros [|c' a'] Ha Ha' He.
  - by injection He.
  - rewrite sapp_cons in He. injection He as <- _. done.
  - rewrite sapp_cons in He. injection He as -> _. done.
  - rewrite !sapp_cons in He. injection He as <- He. unfold plain in *. simpl in *.
    apply andb_true_iff in Ha as [_ Ha], Ha' as [_ Ha'].
    destruct (IH a' Ha Ha' He) as [-> ->]. done.
Qed.

(** The fields of a record whose fields are plain are determined by its text, whatever
    the other record is. *)
Lemma record_text_inj k b c p k' b' c' p' :
  plain k = true → plain b = true → plain c = true → plain p = true →
  record_text k b c p = record_text k' b' c' p' → k = k' ∧ b = b' ∧ c = c' ∧ p = p'.
Proof.
  intros Hk Hb Hc Hp He. unfold record_text in He.
  assert (separators k' = 0 ∧ separators b' = 0 ∧ separators c' = 0)%nat as (Hk' & Hb' & Hc').
  { apply separators_plain in Hk, Hb, Hc, Hp. apply (f_equal separators) in He.
    rewrite !separators_app in He. simpl in He. rewrite !separators_app in He. simpl in He.
    rewrite !separators_app in He. simpl in He. lia. }
  apply separators_plain in Hk', Hb', Hc'.
  apply separated_inj in He as [-> He]; [|done..].
  apply separated_inj in He as [-> He]; [|done..].
  apply separated_inj in He as [-> He]; done.
Qed.

(** ** Chains *)

Definition row_text (r : audit_row) : string :=
  record_text (au_kind r) (au_body r) (au_created_at r) (au_prev_hash r).

(** Every row links to the one before it, the first to [prev]. *)
Fixpoint chained (prev : string) (rows : list audit_row) : Prop :=
  match rows with
  | [] => True
  | r :: rows' =>
      au_prev_hash r = prev ∧ au_record_hash r = sha256_hex (row_text r) ∧
      chained (au_record_hash r) rows'
  end.

Definition tip_from (prev : string) (rows : list audit_row) : string :=
  match last rows with Some r => au_record_hash r | None => prev end.

Lemma tip_from_snoc prev rows r : tip_from prev (rows ++ [r]) = au_record_hash r.
Proof. unfold tip_from. by rewrite last_snoc. Qed.

Lemma tip_from_cons prev r rows : tip_from prev (r :: rows) = tip_from (au_record_hash r) rows.
Proof. unfold tip_from. rewrite last_cons. by destruct (last rows). Qed.

Lemma chained_snoc prev rows r :
  chained prev (rows ++ [r]) ↔
  chained prev rows ∧ au_prev_hash r = tip_from prev rows ∧ au_record_hash r = sha256_hex (row_text r).
Proof.
  revert prev. induction rows as [|r' rows IH]; intros prev; simpl; [tauto|].
  rewrite IH, tip_from_cons. tauto.
Qed.

Lemma walk_ok rows : ∀ prev count ls res,
  walk rows prev count ls = inr res ↔
  chained prev rows ∧
  res = (count + Z.of_nat (length rows),
         match last rows with Some r => Some (au_seq r) | None => ls end, tip_from prev rows).
Proof.
  induction rows as [|r rows IH]; intros prev count ls res; simpl.
  - rewrite Z.add_0_r. split; [by intros [= <-]|by intros [_ ->]].
  - fold (row_text r). case_decide as Hp; [split; [done|naive_solver]|].
    case_decide as Hh; [split; [done|naive_solver]|].
    rewrite IH, tip_from_cons, last_cons.
    replace (count + Z.of_nat (S (length rows))) with (count + 1 + Z.of_nat (length rows)) by lia.
    destruct (last rows); naive_solver.
Qed.

(** Two chains from the same origin with the same tip have the same records, or the data
    exhibit a SHA-256 collision, or a record whose digest is the genesis marker. *)
Definition row_content (r : audit_row) : string * string * string * string * string :=
  (au_kind r, au_body r, au_created_at r, au_prev_hash r, au_record_hash r).

Definition text_collision (rows rows' : list audit_row) : Prop :=
  ∃ r r', r ∈ rows ∧ r' ∈ rows' ∧ row_text r ≠ row_text r' ∧
    sha256_hex (row_text r) = sha256_hex (row_text r').

Definition genesis_preimage (rows : list audit_row) : Prop :=
  ∃ r, r ∈ rows ∧ sha256_hex (row_text r) = _GENESIS.

Definition plain_row (r : audit_row) : Prop :=
  plain (au_kind r) = true ∧ plain (au_body r) = true ∧ plain (au_created_at r) = true ∧
  plain (au_prev_hash r) = true.

Lemma chains_agree rows : ∀ rows',
  Forall plain_row rows → chained _GENESIS rows → chained _GENESIS rows' →
  tip_from _GENESIS rows = tip_from _GENESIS rows' →
  row_content <$> rows' = row_content <$> rows ∨ text_collision rows rows' ∨
  genesis_preimage (rows ++ rows').
Proof.
  induction rows as [|r rows IH] using rev_ind; intros rows' Hpl Hc Hc' Ht;
    destruct rows' as [|r' rows' _] using rev_ind; [by left|..].
  - right; right. apply chained_snoc in Hc' as (_ & _ & Hh). rewrite tip_from_snoc in Ht.
    exists r'. split; [set_solver|].
    change (tip_from _GENESIS []) with _GENESIS in Ht. congruence.
  - right; right. apply chained_snoc in Hc as (_ & _ & Hh). rewrite tip_from_snoc in Ht.
    exists r. split; [set_solver|]. change (tip_from _GENESIS []) with _GENESIS in Ht. congruence.
  - apply Forall_app in Hpl as [Hpl Hr]. apply Forall_singleton in Hr as (H1 & H2 & H3 & H4).
    rewrite !tip_from_snoc in Ht.
    apply chained_snoc in Hc as (Hc & Hp & Hh), Hc' as (Hc' & Hp' & Hh').
    destruct (decide (row_text r = row_text r')) as [He|Hne].
    + pose proof He as Hf. apply record_text_inj in Hf as (E1 & E2 & E3 & E4); [|done..].
      destruct (IH rows' Hpl Hc Hc' ltac:(congruence)) as [Heq|[(x & x' & Hx & Hx' & Hn & Hs)|(x & Hx & Hs)]].
      * left. rewrite !fmap_app, Heq. simpl. unfold row_content. by rewrite E1, E2, E3, E4, Ht.
      * right; left. exists x, x'. set_solver.
      * right; right. exists x. set_solver.
    + right; left. exists r, r'. split_and!; [set_solver..|done|congruence].
Qed.

(** ** The invariant of the log *)

Record audit_ok (d : db) : Prop := {
  ao_chained : chained _GENESIS (audit_t d);
  ao_plain : Forall plain_row (audit_t d);
  ao_sorted : StronglySorted Z.lt (au_seq <$> audit_t d);
  ao_positive : Forall (λ r, 0 < au_seq r ≤ audit_autoincrement d) (audit_t d);
  ao_auto : 0 ≤ audit_autoincrement d;
  ao_head :
    match last (audit_t d) with
    | Some r => meta d !! _AUDIT_HEAD_SEQ = Some (string_of_Z (au_seq r)) ∧
                meta d !! _AUDIT_HEAD_HASH = Some (au_record_hash r)
    | None => meta d !! _AUDIT_HEAD_SEQ = None
    end;
}.

Lemma audit_ok_empty : audit_ok empty_db.
Proof. split; simpl; try constructor; try done. Qed.

(** What the rest of the store does to the database leaves the log alone. *)
Definition same_audit (d d' : db) : Prop :=
  audit_t d' = audit_t d ∧ audit_autoincrement d' = audit_autoincrement d ∧
  meta d' !! _AUDIT_HEAD_SEQ = meta d !! _AUDIT_HEAD_SEQ ∧
  meta d' !! _AUDIT_HEAD_HASH = meta d !! _AUDIT_HEAD_HASH.

Lemma audit_ok_same d d' : same_audit d d' → audit_ok d → audit_ok d'.
Proof. intros (Ha & Hn & Hs & Hh) []. by split; rewrite ?Ha, ?Hn, ?Hs, ?Hh. Qed.

(** The database after appending [r]. *)
Definition push_row (r : audit_row) (d : db) : db :=
  upsert_meta _AUDIT_HEAD_HASH (au_record_hash r)
    (upsert_meta _AUDIT_HEAD_SEQ (string_of_Z (au_seq r)) (insert_audit r d)).

Lemma genesis_plain : plain _GENESIS = true.
Proof. reflexivity. Qed.

Lemma sha256_hex_plain s : plain (sha256_hex s) = true.
Proof.
  apply (all_chars_weaken is_hex_char); [|apply sha256_hex_chars].
  intros c. by destruct c as [[] [] [] [] [] [] [] []].
Qed.

Lemma plain_app a b : plain (a +:+ b) = plain a && plain b.
Proof. apply all_chars_app. Qed.

Lemma join_plain sep l : plain sep = true → Forall (λ s, plain s = true) l → plain (join sep l) = true.
Proof.
  intros Hs. induction 1 as [|s l Hl Hf IH]; [done|]. destruct l as [|s' l]; [done|].
  change (join sep (s :: s' :: l)) with (s +:+ sep +:+ join sep (s' :: l)).
  by rewrite !plain_app, Hl, Hs, IH.
Qed.

Lemma json_string_plain s : plain (json_string true s) = true.
Proof.
  unfold json_string. rewrite !plain_app.
  assert (plain (string_map (json_escape_char true) s) = true) as ->; [|done].
  induction s as [|c s IH]; simpl; [done|]. rewrite plain_app, IH, andb_true_r.
  by destruct c as [[] [] [] [] [] [] [] []].
Qed.

Lemma num_chars_plain s : all_chars is_num_char s = true → plain s = true.
Proof.
  apply all_chars_weaken. intros c. by destruct c as [[] [] [] [] [] [] [] []].
Qed.

(** A JSON text holds no unit separator: inside strings it is escaped. *)
Lemma json_text_plain {rt : PyFloatRuntime} b v : json_ok v → plain (json_text true b v) = true.
Proof.
  induction v as [|[]|z|f|s|l IH|d IH|t] using pyval_ind'; intros Hok; try done.
  - apply num_chars_plain, string_of_Z_chars.
  - simpl in *. destruct (float_finite f) eqn:Hf; [|by destruct f as [|[]| |]].
    assert (json_float f = float_repr f) as -> by (by destruct f).
    by apply num_chars_plain, float_repr_chars.
  - apply json_string_plain.
  - apply json_ok_list in Hok. simpl. rewrite !plain_app.
    assert (plain (join "," (map (json_text true b) l)) = true) as ->; [|done].
    apply join_plain; [done|]. induction IH; inversion_clear Hok; constructor; auto.
  - apply json_ok_dict in Hok as [_ Hok]. simpl. rewrite !plain_app.
    set (items := map _ d).
    assert (Forall (λ kv : pykey * string, plain kv.2 = true) items) as Hit.
    { subst items. induction IH; [constructor|]. inversion_clear Hok. constructor; [|auto]. naive_solver. }
    assert (Forall (λ kv : pykey * string, plain kv.2 = true)
              (if b then sort_items items else items)) as Hs.
    { destruct b; [|done]. by apply sort_items_Forall. }
    assert (plain (join "," (map (λ kv : pykey * string, json_string true (key_text kv.1)
      +:+ ":" +:+ kv.2) (if b then sort_items items else items))) = true) as ->; [|done].
    apply join_plain; [done|]. induction Hs; constructor; [|done].
    rewrite !plain_app, json_string_plain. simpl. done.
Qed.

Section log.
Context {rt : PyFloatRuntime} {dt : PyDatetime}.

(** What a successful append did. *)
Definition appended (kind : string) (body : list (pykey * pyval)) (d : db) (seq : Z) (d' : db) : Prop :=
  ∃ payload t, _canonical (PDict body) = Ok payload ∧ seq = next_seq d ∧
    d' = push_row (mkAuditRow seq kind payload (isoformat t) (tip_hash (audit_t d))
           (sha256_hex (record_text kind payload (isoformat t) (tip_hash (audit_t d))))) d.

(** The ways an append raises: a failing statement, or a body JSON cannot render. *)
Definition append_raises (W : oracle → Prop) (body : list (pykey * pyval)) (e : exn) : Prop :=
  (e = OperationalError ∧ can_fail W) ∨ _canonical (PDict body) = Raise e.

Lemma append_in_txn_outcome W kind body d :
  outcome W (_append_audit_in_txn kind body) d
    (λ r d', match r with Ok seq => appended kind body d seq d' | Raise e => append_raises W body e end).
Proof.
  unfold _append_audit_in_txn, append_raises. do 2 step_outcome.
  destruct (_canonical (PDict body)) as [payload|e] eqn:E; [|by right].
  unfold _now. do 3 step_outcome. intros t _. step_outcome.
  do 2 step_outcome; [by left|].
  do 2 step_outcome; [by left|]. cbn [fst snd].
  do 2 step_outcome; [by left|].
  do 2 step_outcome; [by left|].
  step_outcome. by exists payload, t.
Qed.

(** An append commits one record or leaves the database alone. *)
Lemma append_audit_outcome W kind body d :
  outcome W (append_audit kind body) d
    (λ r d', match r with
             | Ok seq => appended kind body d seq d'
             | Raise e => d' = d ∧ append_raises W body e
             end).
Proof.
  unfold append_audit. step_outcome; [split; [done|by left]|].
  eapply outcome_mono; [apply append_in_txn_outcome|]. by intros [].
Qed.

Lemma next_seq_bound d : audit_ok d → Forall (λ r, au_seq r < next_seq d) (audit_t d) ∧ 0 < next_seq d.
Proof.
  intros Hd. unfold next_seq. pose proof (ao_auto _ Hd). split.
  - eapply Forall_impl; [apply (ao_positive _ Hd)|]. simpl. lia.
  - destruct (last (audit_t d)) as [r|]; lia.
Qed.

Lemma StronglySorted_lt_snoc l x :
  StronglySorted Z.lt l → Forall (λ y, y < x) l → StronglySorted Z.lt (l ++ [x]).
Proof.
  induction 1 as [|y l Hs IH Hy]; intros Hx; simpl; [repeat constructor|].
  inversion_clear Hx. constructor; [auto|]. apply Forall_app. split; [done|]. by repeat constructor.
Qed.

Lemma tip_plain d : audit_ok d → plain (tip_hash (audit_t d)) = true.
Proof.
  intros Hd. unfold tip_hash. pose proof (ao_chained _ Hd) as Hc.
  destruct (audit_t d) as [|r rows _] using rev_ind; [apply genesis_plain|].
  rewrite last_snoc. apply chained_snoc in Hc as (_ & _ & ->). apply sha256_hex_plain.
Qed.

Lemma appended_ok kind body d seq d' :
  audit_ok d → plain kind = true → json_ok (PDict body) → appended kind body d seq d' → audit_ok d'.
Proof.
  intros Hd Hk Hb (payload & t & Hp & -> & ->).
  destruct (next_seq_bound _ Hd) as [Hlt Hpos].
  assert (plain payload = true) as Hpl.
  { unfold _canonical, json_dumps in Hp. destruct (json_serializable true (PDict body)); [|done].
    injection Hp as <-. by apply (json_text_plain true (PDict body)). }
  split; simpl.
  - apply chained_snoc. split; [apply Hd|done].
  - apply Forall_app. split; [apply Hd|]. apply Forall_singleton. split_and!; simpl; try done.
    + apply isoformat_plain.
    + by apply tip_plain.
  - rewrite fmap_app. apply StronglySorted_lt_snoc; [apply Hd|]. by apply Forall_fmap.
  - apply Forall_app. split; [|apply Forall_singleton; simpl; lia].
    eapply Forall_impl; [apply (ao_positive _ Hd)|]. simpl. unfold next_seq. lia.
  - lia.
  - rewrite last_snoc. simpl. split; [|by rewrite lookup_insert_eq].
    rewrite lookup_insert_ne by done. by rewrite lookup_insert_eq.
Qed.

Lemma verify_ok_iff d v :
  verify_chain d = Ok v → ok v = true →
  chained _GENESIS (audit_t d) ∧
  (∀ s, meta d !! _AUDIT_HEAD_SEQ = Some s →
     py_int s = Ok (match last (audit_t d) with Some r => au_seq r | None => 0 end)) ∧
  (is_Some (meta d !! _AUDIT_HEAD_SEQ) →
   ∀ h, meta d !! _AUDIT_HEAD_HASH = Some h → h = tip_from _GENESIS (audit_t d)).
Proof.
  unfold verify_chain. destruct (walk (audit_t d) _GENESIS 0 None) as [b|res] eqn:E.
  - intros [= <-] Hok. exfalso. revert E Hok. clear. generalize _GENESIS, 0, (@None Z).
    induction (audit_t d) as [|r rows IH]; intros p c ls; simpl; [done|].
    case_decide; [by intros [= <-]|]. case_decide; [by intros [= <-]|]. apply IH.
  - apply walk_ok in E as [Hc ->]. destruct (meta d !! _AUDIT_HEAD_SEQ) as [s|].
    + intros (z & Hz & Hv)%bind_ok Hok. case_decide as Hn; [by injection Hv as <-|].
      split_and!; [done| |].
      * intros s' [= <-]. rewrite Hz. f_equal.
        destruct (decide (default 0 (match last (audit_t d) with
          Some r => Some (au_seq r) | None => None end) = z)) as [<-|Hne]; [|tauto].
        by destruct (last (audit_t d)).
      * intros _ h Hh. rewrite Hh in Hn. destruct (decide (h = tip_from _GENESIS (audit_t d))); [done|].
        exfalso. apply Hn. right. split; [done|congruence].
    + intros _ _. split_and!; [done|done|]. by intros [].
Qed.

Lemma verify_complete d :
  audit_ok d → verify_chain d = Ok (mkVerification true (Z.of_nat (length (audit_t d))) None "").
Proof.
  intros Hd. unfold verify_chain.
  destruct (walk (audit_t d) _GENESIS 0 None) as [b|res] eqn:E.
  { exfalso. assert (∃ res, walk (audit_t d) _GENESIS 0 None = inr res) as [res Hr].
    { eexists. by apply walk_ok; split; [apply Hd|]. } congruence. }
  apply walk_ok in E as [_ ->]. pose proof (ao_head _ Hd) as Hh. unfold tip_from.
  destruct (last (audit_t d)) as [r|]; [|by rewrite Hh].
  destruct Hh as [-> Hh]. rewrite py_int_of_Z. cbn -[py_int]. rewrite Hh.
  rewrite decide_False; [done|]. naive_solver.
Qed.
End log.

(** ** Properties *)

Section properties.
Context {rt : PyFloatRuntime} {dt : PyDatetime}.

(** Appending keeps the log verifiable and readable: under any failures and any
    clock, an append either leaves the database untouched and raises, or adds exactly one
    record at the end, numbered above all others, whose body parses back to the given
    one, and [verify_chain] accepts the longer chain. *)
Theorem append_audit_verifies (kind : string) (body : list (pykey * pyval)) (d : db) :
  audit_ok d → plain kind = true → json_ok (PDict body) →
  outcome any_world (append_audit kind body) d (λ r d',
    match r with
    | Raise _ => d' = d
    | Ok seq =>
        audit_ok d' ∧
        verify_chain d' = Ok (mkVerification true (Z.of_nat (S (length (audit_t d)))) None "") ∧
        ∃ row, audit_t d' = audit_t d ++ [row] ∧ au_seq row = seq ∧ au_kind row = kind ∧
          json_loads (au_body row) = Ok (sorted_json (PDict body)) ∧
          Forall (λ r, au_seq r < seq) (audit_t d)
    end).
Proof.
  intros Hd Hk Hb. eapply outcome_mono; [apply append_audit_outcome|].
  intros [seq|e] d' H; [|by destruct H].
  pose proof (appended_ok _ _ _ _ _ Hd Hk Hb H) as Hd'.
  destruct (next_seq_bound _ Hd) as [Hlt _].
  destruct H as (payload & t & Hp & -> & ->). split; [done|]. split.
  { rewrite verify_complete by done. simpl. rewrite length_app. simpl. do 3 f_equal. lia. }
  eexists. split_and!; [reflexivity|done..| |done]. cbn [au_body].
  unfold _canonical, json_dumps in Hp. destruct (json_serializable true (PDict body)); [|done].
  injection Hp as <-. by apply (json_loads_text (PDict body)).
Qed.

Lemma tampering_core (d d' : db) (v : ChainVerification) :
  audit_ok d → audit_t d ≠ [] →
  meta d' !! _AUDIT_HEAD_SEQ = meta d !! _AUDIT_HEAD_SEQ →
  meta d' !! _AUDIT_HEAD_HASH = meta d !! _AUDIT_HEAD_HASH →
  verify_chain d' = Ok v → ok v = true →
  row_content <$> audit_t d' = row_content <$> audit_t d ∨
  text_collision (audit_t d) (audit_t d') ∨ genesis_preimage (audit_t d ++ audit_t d').
Proof.
  intros Hd Hne Hs Hh Hv Hok. destruct (verify_ok_iff _ _ Hv Hok) as (Hc' & _ & Ht').
  apply chains_agree; [apply Hd|apply Hd|done|].
  pose proof (ao_head _ Hd) as Hhead. unfold tip_from at 1.
  destruct (last (audit_t d)) as [r|] eqn:El; [|by apply last_None in El].
  destruct Hhead as [Hhs Hhh]. rewrite Hs, Hh, Hhs, Hhh in Ht'. by apply Ht'.
Qed.

(** History cannot be rewritten under an unchanged head: if a log that the store
    wrote and any other log both carry the same recorded head and the other passes
    [verify_chain], then the two have the same records field by field, or the two logs
    themselves exhibit a SHA-256 collision or a preimage of the genesis marker.  Sequence
    numbers are outside the hash. *)
Theorem tampering_is_evident (d d' : db) (v : ChainVerification) :
  audit_ok d → audit_t d ≠ [] →
  meta d' !! _AUDIT_HEAD_SEQ = meta d !! _AUDIT_HEAD_SEQ →
  meta d' !! _AUDIT_HEAD_HASH = meta d !! _AUDIT_HEAD_HASH →
  verify_chain d' = Ok v → ok v = true →
  row_content <$> audit_t d' = row_content <$> audit_t d ∨
  text_collision (audit_t d) (audit_t d') ∨ genesis_preimage (audit_t d ++ audit_t d').
Proof. apply tampering_core. Qed.

(** Truncation is always caught: dropping any number of the newest records, all of
    them included, with the recorded head left in place makes [verify_chain] fail. *)
Theorem truncation_is_detected (d : db) (n : nat) (auto : Z) (v : ChainVerification) :
  audit_ok d → (n < length (audit_t d))%nat →
  verify_chain (set_audit_t (take n (audit_t d)) auto d) = Ok v → ok v = false.
Proof.
  intros Hd Hn Hv. apply not_true_is_false. intros Hok.
  destruct (verify_ok_iff _ _ Hv Hok) as (_ & Hseq & _). simpl in Hseq.
  pose proof (ao_head _ Hd) as Hhead.
  destruct (last (audit_t d)) as [r|] eqn:El; [|apply last_None in El; by rewrite El in Hn; inversion Hn].
  destruct Hhead as [Hhs _]. specialize (Hseq _ Hhs). rewrite py_int_of_Z in Hseq.
  assert (Forall (λ x, 0 < au_seq x ∧ au_seq x < au_seq r) (take n (audit_t d))) as Hlt.
  { apply last_Some in El as [rows Hrows]. pose proof (ao_sorted _ Hd) as Hsort.
    pose proof (ao_positive _ Hd) as Hpos. rewrite Hrows in *.
    rewrite length_app in Hn. simpl in Hn. rewrite take_app_le by lia.
    apply Forall_take. apply Forall_app in Hpos as [Hpos _].
    rewrite fmap_app in Hsort. clear -Hsort Hpos.
    induction rows as [|x rows IH]; [constructor|]. inversion_clear Hsort as [|? ? Hs Hx].
    inversion_clear Hpos. constructor; [|by apply IH].
    split; [lia|]. rewrite Forall_forall in Hx. apply Hx. apply elem_of_app. right. by left. }
  destruct (last (take n (audit_t d))) as [x|] eqn:Ex.
  - apply last_Some in Ex as [l Hl]. rewrite Hl in Hlt. apply Forall_app in Hlt as [_ Hlt].
    inversion_clear Hlt. injection Hseq as Hseq. lia.
  - pose proof (ao_positive _ Hd) as Hpos. apply last_Some in El as [rows Hrows].
    rewrite Hrows in Hpos. apply Forall_app in Hpos as [_ Hpos]. inversion_clear Hpos.
    injection Hseq as Hseq. lia.
Qed.
End properties.

(** ** Witnesses *)

(** A world without failures, its clock at one second per statement. *)
Definition calm : oracle :=
  mkOracle (λ n, Z.of_nat n * microseconds) (λ _, false) (λ n, "id" +:+ string_of_Z (Z.of_nat n)).

Definition sample_body : list (pykey * pyval) := [(KStr "tool", PStr "ws:search"); (KStr "ok", PBool true)].

Lemma sample_body_ok : json_ok (PDict sample_body).
Proof.
  apply json_ok_dict. split; [by apply (bool_decide_unpack _); vm_compute|]. by repeat constructor.
Defined.

Definition sample_log : db :=
  s_db (append_audit (rt := coded_float_runtime) (dt := decimal_datetime) "ingest" sample_body
          calm (mkSim empty_db 0%nat)).2.

Lemma sample_log_ok : audit_ok sample_log.
Proof.
  pose proof (append_audit_outcome (rt := coded_float_runtime) (dt := decimal_datetime)
    any_world "ingest" sample_body empty_db calm 0%nat I) as H.
  unfold sample_log. destruct (append_audit _ _ calm _) as [[seq|e] [d t]] eqn:E; [|by vm_compute in E].
  exact (appended_ok "ingest" sample_body empty_db seq d audit_ok_empty eq_refl sample_body_ok H).
Qed.

Lemma append_audit_verifies_witness :
  ∃ seq, (append_audit (rt := coded_float_runtime) (dt := decimal_datetime) "ingest" sample_body
            calm (mkSim empty_db 0%nat)).1 = Ok seq ∧ audit_ok sample_log.
Proof.
  pose proof (append_audit_verifies (rt := coded_float_runtime) (dt := decimal_datetime) "ingest"
    sample_body empty_db audit_ok_empty eq_refl sample_body_ok calm 0%nat I) as H.
  unfold sample_log. destruct (append_audit _ _ calm _) as [[seq|e] [d t]] eqn:E.
  - exists seq. split; [reflexivity|]. exact (proj1 H).
  - exfalso. vm_compute in E. discriminate E.
Defined.

Lemma tampering_is_evident_witness :
  audit_t sample_log ≠ [] ∧
  (row_content <$> audit_t sample_log = row_content <$> audit_t sample_log ∨
   text_collision (audit_t sample_log) (audit_t sample_log) ∨
   genesis_preimage (audit_t sample_log ++ audit_t sample_log)).
Proof.
  assert (audit_t sample_log ≠ []) as Hne by (vm_compute; discriminate).
  split; [exact Hne|].
  apply (tampering_is_evident sample_log sample_log (mkVerification true 1 None "") sample_log_ok Hne
           eq_refl eq_refl); [vm_compute; reflexivity|reflexivity].
Defined.

Lemma truncation_is_detected_witness :
  length (audit_t sample_log) = 1%nat ∧
  ok (mkVerification false 0 (Some 1)
        "tail truncation: recorded head seq 1 but chain ends at seq 0") = false.
Proof.
  assert (length (audit_t sample_log) = 1%nat) as Hl by (vm_compute; reflexivity).
  split; [exact Hl|].
  apply (truncation_is_detected sample_log 0%nat 1 _ sample_log_ok); [rewrite Hl; lia|].
  vm_compute. reflexivity.
Defined.
