(* ===== verification/Migrate.v ===== *)
(** [store.py], [SqliteStore.__init__] and [_migrate]: opening a database and bringing its
    schema forward.

    A database file is its structure and its rows.  The connection is the one of Python's
    [sqlite3]: a statement that changes rows opens a transaction when none is open, one
    that changes the structure does not, and runs in the open one if there is one.  Any
    statement can fail; the process can stop between any two, and what is then on disk is
    what a failure there leaves, since the open transaction is rolled back.  The pragmas
    and the directory of the file are not modelled. *)

From S2P Require Import Prelude PyJson PyJsonLoads PyStr Db AuditLog.

Definition BASELINE_VERSION : Z := 1.
Definition SCHEMA_VERSION : Z := 5.

(** ** Files and statements *)

Record store_file := mkFile {
  f_tables : gset string;
  f_indexes : gset string;
  f_label : bool;
  f_rows : db;
}.

Definition new_file : store_file := mkFile ∅ ∅ false empty_db.

Inductive statement :=
| CreateTable (name : string)
| CreateIndex (name table : string)
| AddLabel
| HeadSeq
| HeadHash
| InsertVersion (v : Z)
| SetVersion (v : Z).

Definition is_dml (s : statement) : bool :=
  match s with HeadSeq | HeadHash | InsertVersion _ | SetVersion _ => true | _ => false end.

Definition baseline_tables : list string := ["meta"; "sources"; "tools"; "assertions"; "discoveries"; "audit"].
Definition _SCHEMA : list statement := CreateTable <$> baseline_tables.

Definition _MIGRATIONS (target : Z) : list statement :=
  if target =? 2 then [AddLabel; CreateIndex "idx_audit_kind" "audit"]
  else if target =? 3 then [HeadSeq; HeadHash]
  else if target =? 4 then [CreateTable "grants"; CreateIndex "idx_grants_decision" "grants"]
  else if target =? 5 then [CreateTable "grant_redemptions"]
  else [].

Definition needs (table : string) (f : store_file) (g : store_file) : res store_file :=
  if decide (table ∈ f_tables f) then Ok g else Raise OperationalError.
Definition put_meta (k v : string) (f : store_file) : store_file :=
  mkFile (f_tables f) (f_indexes f) (f_label f) (upsert_meta k v (f_rows f)).

(** What a statement does to a file. *)
Definition effect (s : statement) (f : store_file) : res store_file :=
  match s with
  | CreateTable n => Ok (mkFile ({[n]} ∪ f_tables f) (f_indexes f) (f_label f) (f_rows f))
  | CreateIndex n t => needs t f (mkFile (f_tables f) ({[n]} ∪ f_indexes f) (f_label f) (f_rows f))
  | AddLabel =>
      if f_label f then Raise OperationalError
      else needs "sources" f (mkFile (f_tables f) (f_indexes f) true (f_rows f))
  | HeadSeq =>
      needs "meta" f (match last (audit_t (f_rows f)) with
                      | Some r => put_meta _AUDIT_HEAD_SEQ (string_of_Z (au_seq r)) f
                      | None => f
                      end)
  | HeadHash =>
      needs "meta" f (match last (audit_t (f_rows f)) with
                      | Some r => put_meta _AUDIT_HEAD_HASH (au_record_hash r) f
                      | None => f
                      end)
  | InsertVersion v => needs "meta" f (put_meta "schema_version" (string_of_Z v) f)
  | SetVersion v =>
      needs "meta" f (if decide (is_Some (meta (f_rows f) !! "schema_version"))
                      then put_meta "schema_version" (string_of_Z v) f else f)
  end.

(** ** The connection *)

Record connection := mkConnection {
  disk : store_file;
  txn : option store_file;
  statements : nat;
}.

Definition view (c : connection) : store_file := default (disk c) (txn c).

Definition sqlite (A : Type) : Type := (nat → bool) → st connection A.

#[global] Instance sqlite_ret : MRet sqlite := λ A a fails c, (Ok a, c).
#[global] Instance sqlite_bind : MBind sqlite := λ A B f m fails c,
  match m fails c with
  | (Ok a, c') => f a fails c'
  | (Raise e, c') => (Raise e, c')
  end.

Definition read_file {A} (f : store_file → res A) : sqlite A := λ fails c, (f (view c), c).

Definition execute (s : statement) : sqlite unit := λ fails c,
  let n := S (statements c) in
  if fails (statements c) then (Raise OperationalError, mkConnection (disk c) (txn c) n)
  else
    match effect s (view c) with
    | Raise e => (Raise e, mkConnection (disk c) (txn c) n)
    | Ok f => (Ok tt, if is_dml s || bool_decide (is_Some (txn c)) then mkConnection (disk c) (Some f) n
                      else mkConnection f None n)
    end.

Fixpoint execute_all (l : list statement) : sqlite unit :=
  match l with
  | [] => mret tt
  | s :: l' => _ ← execute s; execute_all l'
  end.

(** [with self._conn:] commits, or rolls back on an exception. *)
Definition with_conn {A} (m : sqlite A) : sqlite A := λ fails c,
  match m fails c with
  | (Ok a, c') =>
      let n := S (statements c') in
      if fails (statements c') then (Raise OperationalError, mkConnection (disk c') None n)
      else (Ok a, mkConnection (view c') None n)
  | (Raise e, c') => (Raise e, mkConnection (disk c') None (statements c'))
  end.

(** ** Opening *)

(** [_migrate(from_version)] *)
Definition migration_step (target : Z) : list statement := _MIGRATIONS target ++ [SetVersion target].
Definition _migrate (from_version : Z) : sqlite unit :=
  execute_all (concat (migration_step <$> seqZ (from_version + 1) (SCHEMA_VERSION - from_version))).

(** The stored version, or that of a fresh database. *)
Definition current_version : sqlite Z :=
  row ← read_file (λ f, if decide ("meta" ∈ f_tables f) then Ok (meta (f_rows f) !! "schema_version")
                        else Raise OperationalError);
  match row with
  | None => _ ← execute (InsertVersion BASELINE_VERSION); mret BASELINE_VERSION
  | Some v => read_file (λ _, py_int v)
  end.

Definition open_body : sqlite unit :=
  _ ← execute_all _SCHEMA;
  current ← current_version;
  if SCHEMA_VERSION <? current then read_file (λ _, Raise (SchemaTooNewError current SCHEMA_VERSION))
  else if current <? SCHEMA_VERSION then _migrate current
  else mret tt.

(** [SqliteStore(path)]: the outcome and the file afterwards. *)
Definition open_store (fails : nat → bool) (f : store_file) : res unit * store_file :=
  let '(r, c) := with_conn open_body fails (mkConnection f None 0) in (r, disk c).

(** ** Shapes *)

Definition all_tables : gset string := list_to_set (baseline_tables ++ ["grants"; "grant_redemptions"]).
Definition all_indexes : gset string := {["idx_audit_kind"; "idx_grants_decision"]}.

(** The structure a database of a version has. *)
Definition tables_at (v : Z) : gset string :=
  list_to_set baseline_tables ∪ (if 4 <=? v then {["grants"]} else ∅) ∪ (if 5 <=? v then {["grant_redemptions"]} else ∅).
Definition indexes_at (v : Z) : gset string :=
  (if 2 <=? v then {["idx_audit_kind"]} else ∅) ∪ (if 4 <=? v then {["idx_grants_decision"]} else ∅).

(** A file every table of which is of its version. *)
Definition at_version (v : Z) (f : store_file) : Prop :=
  f_tables f = tables_at v ∧ f_indexes f = indexes_at v ∧ f_label f = (2 <=? v) ∧
  meta (f_rows f) !! "schema_version" = Some (string_of_Z v).

(** The rows but for [meta]. *)
Definition same_rows (f f' : store_file) : Prop :=
  f_rows f' = set_meta_t (meta (f_rows f')) (f_rows f).

(** ** Opening without a fault *)

Definition steady : nat → bool := λ _, false.

Lemma execute_ok s c f :
  effect s (view c) = Ok f →
  ∃ c', execute s steady c = (Ok tt, c') ∧ view c' = f.
Proof.
  intros Hs. unfold execute, steady. rewrite Hs. eexists. split; [done|]. by destruct (is_dml s || _).
Qed.

(** The effect of a sequence of statements. *)
Fixpoint effects (l : list statement) (f : store_file) : res store_file :=
  match l with
  | [] => Ok f
  | s :: l' => g ← effect s f; effects l' g
  end.

Lemma execute_all_ok l : ∀ c f, effects l (view c) = Ok f → ∃ c', execute_all l steady c = (Ok tt, c') ∧ view c' = f.
Proof.
  induction l as [|s l IH]; intros c f; simpl; [intros [= <-]; by eexists|].
  intros (g & Hg & Hl)%bind_ok. destruct (execute_ok s c g Hg) as (c1 & H1 & <-).
  destruct (IH c1 f Hl) as (c2 & H2 & Hv). exists c2. split; [|done]. cbv [mbind sqlite_bind]. by rewrite H1.
Qed.

Lemma effects_app l1 l2 f : effects (l1 ++ l2) f = (g ← effects l1 f; effects l2 g).
Proof.
  revert f. induction l1 as [|s l1 IH]; intros f; simpl; [done|]. destruct (effect s f); simpl; [apply IH|done].
Qed.

(** A structure statements can be run on again: the tables of the first version are
    there, and the column is there exactly when the version says so. *)
Record openable (v : Z) (f : store_file) : Prop := {
  op_version : meta (f_rows f) !! "schema_version" = Some (string_of_Z v);
  op_range : 1 ≤ v ≤ 5;
  op_baseline : list_to_set baseline_tables ⊆ f_tables f;
  op_label : f_label f = (2 <=? v);
  op_tables : tables_at v ⊆ f_tables f;
  op_within : f_tables f ⊆ all_tables;
  op_indexes : indexes_at v ⊆ f_indexes f;
  op_index_within : f_indexes f ⊆ all_indexes;
}.

(** A file without a version: new, or left while it was being made. *)
Record unversioned (f : store_file) : Prop := {
  un_version : meta (f_rows f) !! "schema_version" = None;
  un_tables : f_tables f ⊆ list_to_set baseline_tables;
  un_indexes : f_indexes f = ∅;
  un_label : f_label f = false;
}.

(** A complete database of the current version. *)
Definition complete (f : store_file) : Prop :=
  f_tables f = all_tables ∧ f_indexes f = all_indexes ∧ f_label f = true ∧
  meta (f_rows f) !! "schema_version" = Some "5".

Lemma openable_complete f : openable 5 f → complete f.
Proof.
  intros [Hv _ _ Hl Ht Htw Hi Hiw]. unfold tables_at, indexes_at in Ht, Hi. simpl in Ht, Hi.
  unfold complete. split_and!; [| |done|done]; apply leibniz_equiv.
  - unfold all_tables in *. simpl in *. set_solver.
  - unfold all_indexes in *. set_solver.
Qed.

Lemma at_version_openable v f : 1 ≤ v ≤ 5 → at_version v f → openable v f.
Proof.
  intros Hv (Ht & Hi & Hl & Hm). split; [done|done| |done|by rewrite Ht| |by rewrite Hi|]; rewrite ?Ht, ?Hi.
  - unfold tables_at. set_solver.
  - unfold tables_at, all_tables. simpl. repeat case_match; set_solver.
  - unfold indexes_at, all_indexes. repeat case_match; set_solver.
Qed.

Lemma schema_effects f :
  effects _SCHEMA f = Ok (mkFile (list_to_set baseline_tables ∪ f_tables f) (f_indexes f) (f_label f) (f_rows f)).
Proof. unfold _SCHEMA. simpl. do 2 f_equal. apply leibniz_equiv. set_solver. Qed.

Lemma openable_schema v f : openable v f →
  effects _SCHEMA f = Ok f.
Proof.
  intros H. rewrite schema_effects. destruct f as [t i l r]. f_equal. simpl. f_equal.
  apply leibniz_equiv. pose proof (op_baseline _ _ H). simpl in *. set_solver.
Qed.

Lemma same_rows_refl f : same_rows f f.
Proof. unfold same_rows. by destruct (f_rows f). Qed.
Lemma same_rows_trans f g h : same_rows f g → same_rows g h → same_rows f h.
Proof. unfold same_rows. intros -> ->. done. Qed.
Lemma same_rows_meta k v f : same_rows f (put_meta k v f).
Proof. reflexivity. Qed.

(** Growing a structure inside the current one. *)
Lemma grow_within (n : string) (X A : gset string) : n ∈ A → X ⊆ A → {[n]} ∪ X ⊆ A.
Proof. set_solver. Qed.
Lemma grow_keeps (n : string) (X B : gset string) : B ⊆ X → B ⊆ {[n]} ∪ X.
Proof. set_solver. Qed.
Lemma grow_adds (n : string) (X B : gset string) : B ⊆ X → B ∪ {[n]} ⊆ {[n]} ∪ X.
Proof. set_solver. Qed.

Ltac in_set := apply (bool_decide_unpack _); vm_compute; exact I.

Lemma needs_ok t f g : t ∈ f_tables f → needs t f g = Ok g.
Proof. intros H. unfold needs. by rewrite decide_True. Qed.

Lemma set_version_ok v w f :
  "meta" ∈ f_tables f → meta (f_rows f) !! "schema_version" = Some w →
  effect (SetVersion v) f = Ok (put_meta "schema_version" (string_of_Z v) f).
Proof. intros Hm Hw. simpl. rewrite needs_ok by done. by rewrite decide_True by (rewrite Hw; eauto). Qed.

Lemma create_index_ok n tb f : tb ∈ f_tables f →
  effect (CreateIndex n tb) f = Ok (mkFile (f_tables f) ({[n]} ∪ f_indexes f) (f_label f) (f_rows f)).
Proof. apply needs_ok. Qed.

Lemma add_label_ok f : f_label f = false → "sources" ∈ f_tables f →
  effect AddLabel f = Ok (mkFile (f_tables f) (f_indexes f) true (f_rows f)).
Proof. intros Hl Hs. simpl. rewrite Hl. by apply needs_ok. Qed.

Lemma effects_cons s l f g : effect s f = Ok g → effects (s :: l) f = effects l g.
Proof. intros H. simpl. by rewrite H. Qed.

(** The high-water mark: rows of [meta] only, and not the version. *)
Definition mark_of (f g : store_file) : Prop :=
  f_tables g = f_tables f ∧ f_indexes g = f_indexes f ∧ f_label g = f_label f ∧ same_rows f g ∧
  meta (f_rows g) !! "schema_version" = meta (f_rows f) !! "schema_version".

Lemma head_ok s f : s = HeadSeq ∨ s = HeadHash → "meta" ∈ f_tables f → ∃ g, effect s f = Ok g ∧ mark_of f g.
Proof.
  intros [-> | ->] Hm; simpl; rewrite needs_ok by done; destruct (last _) as [r|]; eexists; (split; [done|]);
    split_and!; try done; try apply same_rows_refl; apply lookup_insert_ne; done.
Qed.

Lemma openable_meta v f : openable v f → "meta" ∈ f_tables f ∧ "sources" ∈ f_tables f ∧ "audit" ∈ f_tables f.
Proof. intros H. pose proof (op_baseline _ _ H) as Hb. split_and!; apply Hb; in_set. Qed.

(** One version's step on a file of the version before. *)
Lemma step_2_ok f : openable 1 f → ∃ g, effects (migration_step 2) f = Ok g ∧ openable 2 g ∧ same_rows f g.
Proof.
  intros H. destruct (openable_meta 1 f H) as (Hm & Hs & Ha). destruct H as [Hv _ Hb Hl Htab Htw Hi Hiw].
  eexists. split.
  - change (migration_step 2) with [AddLabel; CreateIndex "idx_audit_kind" "audit"; SetVersion 2]. 
    erewrite effects_cons by (by apply add_label_ok). erewrite effects_cons by (by apply create_index_ok).
    by erewrite effects_cons by (by eapply set_version_ok).
  - split; [|reflexivity]. split; cbn; try done; [by rewrite lookup_insert_eq| |].
    + change (indexes_at 2) with ((∅ ∪ ∅ : gset string) ∪ {["idx_audit_kind"]} ∪ ∅). set_solver.
    + apply grow_within; [in_set|done].
Qed.

Lemma step_3_ok f : openable 2 f → ∃ g, effects (migration_step 3) f = Ok g ∧ openable 3 g ∧ same_rows f g.
Proof.
  intros H. destruct (openable_meta 2 f H) as (Hm & _ & _). destruct H as [Hv _ Hb Hl Htab Htw Hi Hiw].
  destruct (head_ok HeadSeq f (or_introl eq_refl) Hm) as (f1 & E1 & T1 & I1 & L1 & S1 & V1).
  destruct (head_ok HeadHash f1 (or_intror eq_refl) ltac:(by rewrite T1)) as (f2 & E2 & T2 & I2 & L2 & S2 & V2).
  eexists. split.
  - change (migration_step 3) with [HeadSeq; HeadHash; SetVersion 3]. 
    erewrite effects_cons by exact E1. erewrite effects_cons by exact E2.
    by erewrite effects_cons by (eapply set_version_ok; [by rewrite T2, T1|by rewrite V2, V1]).
  - split; [|eapply same_rows_trans; [exact S1|]; eapply same_rows_trans; [exact S2|reflexivity]].
    split; cbn; rewrite ?T2, ?I2, ?L2, ?T1, ?I1, ?L1; try done. by rewrite lookup_insert_eq.
Qed.

Lemma step_4_ok f : openable 3 f → ∃ g, effects (migration_step 4) f = Ok g ∧ openable 4 g ∧ same_rows f g.
Proof.
  intros H. destruct (openable_meta 3 f H) as (Hm & _ & _). destruct H as [Hv _ Hb Hl Htab Htw Hi Hiw].
  eexists. split.
  - change (migration_step 4) with [CreateTable "grants"; CreateIndex "idx_grants_decision" "grants"; SetVersion 4].
    erewrite effects_cons by reflexivity. erewrite effects_cons by (apply create_index_ok; cbn; set_solver).
    by erewrite effects_cons by (eapply set_version_ok; [cbn; set_solver|exact Hv]).
  - split; [|reflexivity]. split; cbn; try done; [by rewrite lookup_insert_eq|by apply grow_keeps| | | |].
    + change (tables_at 4) with (tables_at 3 ∪ {["grants"]} ∪ ∅). set_solver.
    + apply grow_within; [in_set|done].
    + change (indexes_at 4) with (({["idx_audit_kind"]} : gset string) ∪ {["idx_grants_decision"]}).
      change (indexes_at 3) with (({["idx_audit_kind"]} : gset string) ∪ ∅) in Hi. set_solver.
    + apply grow_within; [in_set|done].
Qed.

Lemma step_5_ok f : openable 4 f → ∃ g, effects (migration_step 5) f = Ok g ∧ openable 5 g ∧ same_rows f g.
Proof.
  intros H. destruct (openable_meta 4 f H) as (Hm & _ & _). destruct H as [Hv _ Hb Hl Htab Htw Hi Hiw].
  eexists. split.
  - change (migration_step 5) with [CreateTable "grant_redemptions"; SetVersion 5].
    erewrite effects_cons by reflexivity.
    by erewrite effects_cons by (eapply set_version_ok; [cbn; set_solver|exact Hv]).
  - split; [|reflexivity]. split; cbn; try done; [by rewrite lookup_insert_eq|by apply grow_keeps| | ].
    + change (tables_at 5) with ((list_to_set baseline_tables : gset string) ∪ {["grants"]} ∪ {["grant_redemptions"]}).
      change (tables_at 4) with ((list_to_set baseline_tables : gset string) ∪ {["grants"]} ∪ ∅) in Htab. set_solver.
    + apply grow_within; [in_set|done].
Qed.

(** All the steps from a version to the current one. *)
Definition migration (v : Z) : list statement := concat (migration_step <$> seqZ (v + 1) (SCHEMA_VERSION - v)).

Lemma migration_ok v f :
  openable v f → ∃ g, effects (migration v) f = Ok g ∧ openable 5 g ∧ same_rows f g.
Proof.
  intros H. assert (∀ v k f, v = 5 - Z.of_nat k → (k ≤ 4)%nat → openable v f →
    ∃ g, effects (concat (migration_step <$> seqZ (v + 1) (Z.of_nat k))) f = Ok g ∧ openable 5 g ∧ same_rows f g) as Hk.
  { clear. intros v k. revert v. induction k as [|k IH]; intros v f Hv Hk H.
    { assert (v = 5) as -> by lia. exists f. auto using same_rows_refl. }
    rewrite seqZ_cons by lia. csimpl. rewrite effects_app.
    assert (∃ g, effects (migration_step (v + 1)) f = Ok g ∧ openable (v + 1) g ∧ same_rows f g) as (g & -> & Hg & Hs).
    { assert (v = 1 ∨ v = 2 ∨ v = 3 ∨ v = 4) as [->|[->|[->| ->]]] by lia;
        [by apply step_2_ok|by apply step_3_ok|by apply step_4_ok|by apply step_5_ok]. }
    simpl. replace (Z.pred (Z.of_nat (S k))) with (Z.of_nat k) by lia.
    destruct (IH (v + 1) g) as (h & Hh & Ho & Hs'); [lia|lia|done|]. exists h. split; [|split; [done|by eapply same_rows_trans]].
    replace (Z.succ (v + 1)) with (v + 1 + 1) in * by lia. done. }
  pose proof (op_range _ _ H) as Hr. unfold migration, SCHEMA_VERSION.
  replace (5 - v) with (Z.of_nat (Z.to_nat (5 - v))) by lia. apply Hk; [lia|lia|done].
Qed.

(** What opening executes once the version is known. *)
Definition pending (v : Z) : list statement := if v <? SCHEMA_VERSION then migration v else [].

Lemma version_row v f c :
  view c = f → openable v f → ∀ fails, current_version fails c = (Ok v, c).
Proof.
  intros <- H fails. destruct (openable_meta v _ H) as (Hm & _).
  cbv [current_version mbind sqlite_bind read_file]. rewrite decide_True by done. rewrite (op_version _ _ H).
  by rewrite py_int_of_Z.
Qed.

(** Files that opening brings to the current version. *)
Definition upgradable (f : store_file) : Prop := (∃ v, openable v f) ∨ unversioned f.

(** ** Opening under faults *)

Lemma execute_run s fails c :
  let '(r, c') := execute s fails c in
  match r with
  | Ok _ => effect s (view c) = Ok (view c') ∧
      (disk c' = disk c ∧ is_Some (txn c') ∨ txn c = None ∧ is_dml s = false ∧ txn c' = None)
  | Raise _ => disk c' = disk c ∧ txn c' = txn c
  end.
Proof.
  unfold execute. destruct (fails (statements c)); [done|]. destruct (effect s (view c)) as [f|e] eqn:He; [|done].
  case_bool_decide as Ht; [rewrite orb_true_r|rewrite orb_false_r; destruct (is_dml s)]; cbn.
  - split; [done|]. left. eauto.
  - split; [done|]. left. eauto.
  - split; [done|]. right. split; [by destruct (txn c) as [x|]; [destruct Ht; eauto|]|done].
Qed.

Lemma execute_all_view l fails : ∀ c c', execute_all l fails c = (Ok tt, c') → effects l (view c) = Ok (view c').
Proof.
  induction l as [|s l IH]; intros c c'; simpl; [by intros [= <-]|]. cbv [mbind sqlite_bind].
  pose proof (execute_run s fails c) as H. destruct (execute s fails c) as [[[]|e] c1]; [|done].
  destruct H as [-> _]. apply IH.
Qed.

(** *** Opening any file changes no row outside [meta] *)

Lemma effect_rows s f g : effect s f = Ok g → same_rows f g.
Proof.
  assert (∀ t f1 g1 g2, needs t f1 g1 = Ok g2 → g1 = g2) as Hn.
  { intros t f1 g1 g2. unfold needs. case_decide; [by intros [= <-]|done]. }
  pose proof (same_rows_refl f) as Hf.
  destruct s; simpl; [intros [= <-]; exact Hf|..]; try (destruct (f_label f); [done|]);
    intros <-%Hn; repeat case_match; (exact Hf || apply same_rows_meta).
Qed.

(** What is on disk and what the connection sees, against the file at the start. *)
Definition rows_of (f : store_file) (c : connection) : Prop := same_rows f (disk c) ∧ same_rows f (view c).
Definition rows_safe {A} (m : sqlite A) : Prop := ∀ f fails c, rows_of f c → rows_of f (m fails c).2.

Lemma rows_bind {A B} (m : sqlite A) (k : A → sqlite B) :
  rows_safe m → (∀ a, rows_safe (k a)) → rows_safe (m ≫= k).
Proof.
  intros Hm Hk f fails c Hc. cbv [mbind sqlite_bind]. specialize (Hm f fails c Hc).
  destruct (m fails c) as [[a|e] c1]; [by apply Hk|done].
Qed.
Lemma rows_ret {A} (a : A) : rows_safe (mret a).
Proof. by intros f fails c. Qed.
Lemma rows_read {A} (g : store_file → res A) : rows_safe (read_file g).
Proof. by intros f fails c. Qed.
Lemma rows_execute s : rows_safe (execute s).
Proof.
  intros f fails c [Hd Hv]. unfold execute. destruct (fails (statements c)); [done|].
  destruct (effect s (view c)) as [g|e] eqn:He; [|done]. apply effect_rows in He.
  assert (same_rows f g) as Hg by (by eapply same_rows_trans). by destruct (_ || _).
Qed.
Lemma rows_execute_all l : rows_safe (execute_all l).
Proof. induction l as [|s l IH]; [apply rows_ret|]. apply rows_bind; [apply rows_execute|by intros _]. Qed.

Lemma rows_open_body : rows_safe open_body.
Proof.
  apply rows_bind; [apply rows_execute_all|intros _]. apply rows_bind.
  - apply rows_bind; [apply rows_read|intros [v|]]; [apply rows_read|].
    apply rows_bind; [apply rows_execute|intros _; apply rows_ret].
  - intros v. destruct (_ <? v); [apply rows_read|]. destruct (v <? _); [apply rows_execute_all|apply rows_ret].
Qed.

Lemma open_rows fails f : same_rows f (open_store fails f).2.
Proof.
  unfold open_store, with_conn. destruct (rows_open_body f fails (mkConnection f None 0)) as [Hd Hv].
  { split; apply same_rows_refl. }
  destruct (open_body fails _) as [[[]|e] c]; [|done]. by destruct (fails (statements c)).
Qed.

(** A property of the file on disk that every statement run outside a transaction keeps. *)
Definition kept_by (P : store_file → Prop) (s : statement) : Prop :=
  is_dml s = false → ∀ f g, P f → effect s f = Ok g → P g.

Lemma execute_all_disk (P : store_file → Prop) l fails : Forall (kept_by P) l → ∀ c,
  P (disk c) → P (disk (execute_all l fails c).2).
Proof.
  induction 1 as [|s l Hs _ IH]; intros c Hc; simpl; [done|]. cbv [mbind sqlite_bind].
  pose proof (execute_run s fails c) as H. destruct (execute s fails c) as [[[]|e] c1]; [|destruct H as [Hd _]; cbn; congruence].
  destruct H as [He [[Hd _]|(Ht & Hdml & Ht1)]]; apply IH; [by rewrite Hd|].
  assert (view c1 = disk c1) as Hv1 by (unfold view; by rewrite Ht1).
  assert (view c = disk c) as Hv by (unfold view; by rewrite Ht). rewrite Hv, Hv1 in He. by eapply Hs.
Qed.

Lemma execute_all_txn l fails : ∀ c, is_Some (txn c) → disk (execute_all l fails c).2 = disk c.
Proof.
  induction l as [|s l IH]; intros c Hc; simpl; [done|]. cbv [mbind sqlite_bind].
  pose proof (execute_run s fails c) as H. destruct (execute s fails c) as [[[]|e] c1]; [|by destruct H].
  destruct H as [_ [[Hd Ht]|(Ht & _)]]; [by rewrite IH|]. rewrite Ht in Hc. by destruct Hc.
Qed.

Lemma execute_all_no_txn l fails : Forall (λ s, is_dml s = false) l → ∀ c c',
  txn c = None → execute_all l fails c = (Ok tt, c') → txn c' = None.
Proof.
  induction 1 as [|s l Hs _ IH]; intros c c' Hc; simpl; [by intros [= <-]|]. cbv [mbind sqlite_bind].
  unfold execute. rewrite Hc, Hs. destruct (fails (statements c)); [done|]. destruct (effect s (view c)); [|done]. by apply IH.
Qed.

(** The statements that keep a versioned file openable: all but the new column. *)
Definition safe (s : statement) : Prop :=
  match s with
  | CreateTable n => n ∈ all_tables
  | CreateIndex n _ => n ∈ all_indexes
  | AddLabel => False
  | _ => True
  end.

Lemma safe_keeps v s : safe s → kept_by (openable v) s.
Proof.
  intros Hs Hd f g [Hv Hr Hb Hl Ht Htw Hi Hiw]. destruct s as [n|n tb| | | | |]; try done; simpl.
  - intros [= <-]. split; simpl; try done; [by apply grow_keeps|by apply grow_keeps|by apply grow_within].
  - unfold needs. case_decide; [|done]. intros [= <-]. split; simpl; try done; [by apply grow_keeps|by apply grow_within].
Qed.

Lemma rows_kept d s : kept_by (λ f, f_rows f = d) s.
Proof.
  intros Hd f g <-. destruct s; try done; simpl; [by intros [= <-]|unfold needs; case_decide; [by intros [= <-]|done]|].
  destruct (f_label f); [done|]. unfold needs. case_decide; [by intros [= <-]|done].
Qed.

Lemma schema_safe : Forall safe _SCHEMA.
Proof. unfold _SCHEMA. repeat (constructor; [in_set|]). constructor. Qed.
Lemma schema_no_dml : Forall (λ s, is_dml s = false) _SCHEMA.
Proof. repeat constructor. Qed.

Lemma pending_safe v : 2 ≤ v ≤ 5 → Forall safe (pending v).
Proof.
  intros Hv. assert (v = 2 ∨ v = 3 ∨ v = 4 ∨ v = 5) as [->|[->|[->| ->]]] by lia; cbn;
    repeat (constructor; [first [exact I|in_set]|]); constructor.
Qed.

Lemma unversioned_keeps n : n ∈ baseline_tables → kept_by unversioned (CreateTable n).
Proof.
  intros Hn _ f g [Hv Ht Hi Hl] [= <-]. split; cbn [f_tables f_rows f_indexes f_label]; try done.
  apply grow_within; [|done]. by apply (elem_of_list_to_set (C := gset string) n baseline_tables).
Qed.

(** ** Opening *)

(** The body, once the schema statements have run, on a file with a version. *)
Lemma open_body_versioned v fails c :
  openable v (view c) → txn c = None →
  open_body fails c = (_ ← execute_all _SCHEMA; execute_all (pending v)) fails c.
Proof.
  intros H Ht. unfold open_body. cbv [mbind sqlite_bind].
  destruct (execute_all _SCHEMA fails c) as [[[]|e] c1] eqn:Hs; [|done].
  apply execute_all_view in Hs. rewrite (openable_schema v) in Hs by done. injection Hs as Hs.
  pose proof (version_row v (view c1) c1 eq_refl ltac:(by rewrite <- Hs) fails) as Hv.
  rewrite Hv. pose proof (op_range _ _ H) as Hr. unfold pending.
  rewrite (proj2 (Z.ltb_ge SCHEMA_VERSION v)) by (unfold SCHEMA_VERSION; lia). by destruct (v <? SCHEMA_VERSION).
Qed.

Lemma missing_row fails c :
  "meta" ∈ f_tables (view c) → meta (f_rows (view c)) !! "schema_version" = None →
  current_version fails c = (_ ← execute (InsertVersion BASELINE_VERSION); mret BASELINE_VERSION) fails c.
Proof. intros Hm Hv. cbv [current_version mbind sqlite_bind read_file]. rewrite decide_True by done. by rewrite Hv. Qed.

(** And on one without. *)
Lemma open_body_unversioned fails c :
  unversioned (view c) → txn c = None →
  open_body fails c = (_ ← execute_all _SCHEMA; execute_all (InsertVersion 1 :: migration 1)) fails c.
Proof.
  intros H Ht. unfold open_body. cbv [mbind sqlite_bind].
  destruct (execute_all _SCHEMA fails c) as [[[]|e] c1] eqn:Hs; [|done].
  apply execute_all_view in Hs. rewrite schema_effects in Hs. assert (∀ A (x y : A), Ok x = Ok y → x = y) as Hinj by (by intros A x y [= ->]). apply Hinj in Hs.
  rewrite missing_row; [|rewrite <- Hs; apply elem_of_union_l; in_set|rewrite <- Hs; apply (un_version _ H)].
  cbn [execute_all]. cbv [mbind sqlite_bind].
  change BASELINE_VERSION with 1. destruct (execute (InsertVersion 1) fails c1) as [[[]|e] c2]; reflexivity.
Qed.

(** The whole opening of an upgradable file as a sequence of statements. *)
Definition script (v : option Z) : list statement :=
  _SCHEMA ++ match v with Some v => pending v | None => InsertVersion 1 :: migration 1 end.

Lemma execute_all_app l1 l2 fails c :
  execute_all (l1 ++ l2) fails c = (_ ← execute_all l1; execute_all l2) fails c.
Proof.
  revert c. induction l1 as [|s l1 IH]; intros c; simpl; [done|]. cbv [mbind sqlite_bind] in *.
  destruct (execute s fails c) as [[[]|e] c1]; [apply IH|done].
Qed.

Lemma open_body_script v f fails n :
  match v with Some v => openable v f | None => unversioned f end →
  open_body fails (mkConnection f None n) = execute_all (script v) fails (mkConnection f None n).
Proof.
  intros H. unfold script. rewrite execute_all_app.
  destruct v; [by apply open_body_versioned|by apply open_body_unversioned].
Qed.

(** Its effect when nothing fails. *)
Lemma script_effects v f :
  match v with Some v => openable v f | None => unversioned f end →
  ∃ g, effects (script v) f = Ok g ∧ openable 5 g ∧ same_rows f g.
Proof.
  intros H. unfold script. rewrite effects_app. destruct v as [v|].
  - rewrite (openable_schema v) by done. simpl. unfold pending. destruct (v <? SCHEMA_VERSION) eqn:E; [by apply migration_ok|].
    exists f. pose proof (op_range _ _ H). unfold SCHEMA_VERSION in E. assert (v = 5) as <- by lia. auto using same_rows_refl.
  - rewrite schema_effects. cbn [mbind res_bind]. destruct H as [Hv Ht Hi Hl].
    set (f1 := mkFile _ _ _ _). set (f2 := put_meta "schema_version" "1" f1).
    assert (list_to_set baseline_tables ∪ f_tables f = list_to_set baseline_tables) as Htab by (rewrite (union_comm_L _ (f_tables f)); by apply subseteq_union_1_L).
    assert (effect (InsertVersion 1) f1 = Ok f2) as Hins by (apply needs_ok; cbn; apply elem_of_union_l; in_set).
    rewrite (effects_cons _ _ _ _ Hins). destruct (migration_ok 1 f2) as (g & Hg & Ho & Hs).
    { apply at_version_openable; [lia|]. unfold at_version. cbn [f2 f1 put_meta f_tables f_indexes f_label f_rows upsert_meta].
      rewrite Htab, Hi, Hl. split_and!; try done. cbn. by rewrite lookup_insert_eq. }
    exists g. split; [done|]. split; [done|]. eapply same_rows_trans; [|exact Hs]. reflexivity.
Qed.

Lemma upgradable_case f : upgradable f → ∃ v, match v with Some v => openable v f | None => unversioned f end.
Proof. intros [[v H]|H]; [by exists (Some v)|by exists None]. Qed.

Lemma script_disk_rows v fails f n : f_rows (disk (execute_all (script v) fails (mkConnection f None n)).2) = f_rows f.
Proof.
  apply (execute_all_disk (λ g, f_rows g = f_rows f)); [|done]. apply Forall_forall. intros s _. apply rows_kept.
Qed.

(** What a failed opening leaves can be opened again, from any version but the first. *)
Lemma script_disk_upgradable v fails f n :
  match v with Some v => openable v f ∧ v ≠ 1 | None => unversioned f end →
  upgradable (disk (execute_all (script v) fails (mkConnection f None n)).2).
Proof.
  intros H. unfold script. destruct v as [v|].
  - destruct H as [H Hv]. left. exists v. apply (execute_all_disk (openable v)); [|done].
    pose proof (op_range _ _ H). apply Forall_app.
    split; eapply Forall_impl; [apply schema_safe|apply safe_keeps|apply pending_safe; lia|apply safe_keeps].
  - rewrite execute_all_app. cbv [mbind sqlite_bind]. right. set (c := mkConnection f None n).
    assert (Forall (kept_by unversioned) _SCHEMA) as Hk.
    { unfold _SCHEMA. apply Forall_fmap, Forall_forall. intros m Hm. by apply unversioned_keeps. }
    pose proof (execute_all_disk unversioned _SCHEMA fails Hk c H) as Hd.
    destruct (execute_all _SCHEMA fails c) as [[[]|e] c1]; [|done]. cbn [snd] in Hd. cbn [execute_all].
    cbv [mbind sqlite_bind]. pose proof (execute_run (InsertVersion 1) fails c1) as He.
    destruct (execute (InsertVersion 1) fails c1) as [[[]|e] c2]; [|destruct He as [Hd' _]; cbn [snd]; by rewrite Hd'].
    destruct He as [_ [[Hd2 Ht]|(_ & [=] & _)]]. by rewrite execute_all_txn, Hd2.
Qed.

(** C27 -- Opening upgrades all or nothing that matters: opening a new file, one left while
    it was being made, or a database of any version up to the current one succeeds when no
    statement fails; whatever fails, a successful opening leaves a complete database of
    the current version with every row outside [meta] as it was, and a failed one leaves
    every row as it was and, unless the database was of version 1, a file that opens. *)
Theorem upgrade_is_atomic (f : store_file) :
  upgradable f →
  (open_store steady f).1 = Ok tt ∧
  ∀ fails, let '(r, f') := open_store fails f in
    match r with
    | Ok _ => complete f' ∧ same_rows f f'
    | Raise _ => f_rows f' = f_rows f ∧ (¬ openable 1 f → upgradable f')
    end.
Proof.
  intros Hup. destruct (upgradable_case f Hup) as [v H]. destruct (script_effects v f H) as (g & Hg & Ho & Hs).
  unfold open_store, with_conn. split.
  - rewrite (open_body_script v) by done. destruct (execute_all_ok (script v) (mkConnection f None 0) g Hg) as (c & Hc & _).
    by rewrite Hc.
  - intros fails. rewrite (open_body_script v) by done. pose proof (script_disk_rows v fails f 0) as Hrows.
    pose proof (script_disk_upgradable v fails f 0) as Hu.
    destruct (execute_all (script v) fails (mkConnection f None 0)) as [[[]|e] c] eqn:Hc; cbn [snd] in *.
    + apply execute_all_view in Hc. change (view (mkConnection f None 0)) with f in Hc. rewrite Hg in Hc. injection Hc as ->.
      destruct (fails (statements c)); cbn.
      * split; [done|]. intros Hn. apply Hu. destruct v as [v|]; [split; [done|by intros ->]|done].
      * split; [by apply openable_complete|done].
    + cbn. split; [done|]. intros Hn. apply Hu. destruct v as [v|]; [split; [done|by intros ->]|done].
Qed.

(** A database of a later version is refused, and its rows are left alone. *)
Lemma newer_is_refused (v : Z) (f : store_file) :
  SCHEMA_VERSION < v → list_to_set baseline_tables ⊆ f_tables f →
  meta (f_rows f) !! "schema_version" = Some (string_of_Z v) →
  (open_store steady f).1 = Raise (SchemaTooNewError v SCHEMA_VERSION) ∧
  ∀ fails, is_ok (open_store fails f).1 = false ∧ f_rows (open_store fails f).2 = f_rows f.
Proof.
  intros Hv Hb Hm. set (c := mkConnection f None 0).
  assert (effects _SCHEMA f = Ok f) as Hs.
  { rewrite schema_effects. destruct f as [t i l r]. f_equal. cbn in *. f_equal. by apply subseteq_union_1_L. }
  assert (∀ fails c1, execute_all _SCHEMA fails c = (Ok tt, c1) →
    open_body fails c = (Raise (SchemaTooNewError v SCHEMA_VERSION), c1)) as Hbody.
  { intros fails c1 H1. unfold open_body. cbv [mbind sqlite_bind]. rewrite H1. apply execute_all_view in H1.
    change (view c) with f in H1. rewrite Hs in H1. assert (view c1 = f) as Hc1 by congruence.
    cbv [current_version mbind sqlite_bind read_file]. rewrite Hc1, decide_True by (apply Hb; in_set).
    rewrite Hm, py_int_of_Z. by rewrite (proj2 (Z.ltb_lt _ _)). }
  assert (∀ fails, f_rows (disk (execute_all _SCHEMA fails c).2) = f_rows f) as Hrows.
  { intros fails. apply (execute_all_disk (λ g, f_rows g = f_rows f)); [|done]. apply Forall_forall. intros s _. apply rows_kept. }
  unfold open_store, with_conn. fold c. split.
  - destruct (execute_all_ok _SCHEMA c f Hs) as (c1 & H1 & _). by rewrite (Hbody _ _ H1).
  - intros fails. specialize (Hrows fails). destruct (execute_all _SCHEMA fails c) as [[[]|e] c1] eqn:H1.
    + by rewrite (Hbody _ _ H1).
    + assert (open_body fails c = (Raise e, c1)) as -> by (unfold open_body; cbv [mbind sqlite_bind]; by rewrite H1). done.
Qed.

(** ** The first upgrade *)

(** A version 1 database that has the new column already. *)
Definition bricked (f : store_file) : Prop :=
  meta (f_rows f) !! "schema_version" = Some "1" ∧ f_label f = true ∧ list_to_set baseline_tables ⊆ f_tables f.

Definition sample_v1 : store_file :=
  mkFile (tables_at 1) ∅ false (set_meta_t {["schema_version" := "1"]} empty_db).

(** The eighth statement fails: the index, after the column. *)
Definition index_fails : nat → bool := λ n, bool_decide (n = 7%nat).

(** An interrupted upgrade of a version 1 database can leave one that never opens:
    the new column is on disk before the version is, and adding it again fails. *)
Theorem first_upgrade_can_brick :
  at_version 1 sample_v1 ∧ bricked (open_store index_fails sample_v1).2 ∧
  (open_store steady (open_store index_fails sample_v1).2).1 = Raise OperationalError.
Proof.
  split_and!; [by repeat split|..].
  - split_and!; [vm_compute; reflexivity|vm_compute; reflexivity|]. apply (bool_decide_unpack _). vm_compute. exact I.
  - vm_compute. reflexivity.
Qed.

Definition sample_v4 : store_file :=
  mkFile (tables_at 4) (indexes_at 4) true (set_meta_t {["schema_version" := "4"]} empty_db).

Lemma sample_v4_openable : openable 4 sample_v4.
Proof. apply at_version_openable; [lia|]. unfold at_version. split_and!; reflexivity. Qed.
Lemma sample_v4_not_first : ¬ openable 1 sample_v4.
Proof. intros H. pose proof (op_version _ _ H) as Hv. vm_compute in Hv. discriminate Hv. Qed.
(** The new table fails, after the six of the script. *)
Definition table_fails : nat → bool := λ n, bool_decide (n = 6%nat).
Lemma sample_v4_fails : (open_store table_fails sample_v4).1 = Raise OperationalError.
Proof. vm_compute. reflexivity. Qed.

Lemma upgrade_is_atomic_witness :
  (open_store steady sample_v4).1 = Ok tt ∧
  (open_store table_fails sample_v4).1 = Raise OperationalError ∧
  upgradable (open_store table_fails sample_v4).2.
Proof.
  destruct (upgrade_is_atomic sample_v4 (or_introl (ex_intro _ 4 sample_v4_openable))) as [Hok Hf].
  split; [exact Hok|]. pose proof sample_v4_fails as He. split; [exact He|].
  specialize (Hf table_fails). revert Hf He. generalize (open_store table_fails sample_v4). intros [[[]|e] f'] Hf He.
  - discriminate He.
  - exact (proj2 Hf sample_v4_not_first).
Defined.
