(* ===== verification/Grants.v ===== *)
(** [store.py], grants: argument-bound one-use grants and governance redemptions, each
    mutation paired with its audit record in one transaction. *)

From S2P Require Import Prelude PyJson PyJsonLoads PyStr DateTime Sha256 Db Policy AuditLog.

Definition opt_str (o : option string) : pyval := match o with Some s => PStr s | None => PNone end.

(** [UPDATE grants SET redeemed_at / closed_at] on a row. *)
Definition set_redeemed (at_ : string) (g : grant_row) : grant_row :=
  mkGrantRow (gr_decision_id g) (gr_principal_id g) (gr_source_id g) (gr_name g) (gr_args_hash g)
    (gr_issued_at g) (gr_expires_at g) (Some at_) (gr_closed_at g).
Definition set_closed (at_ : string) (g : grant_row) : grant_row :=
  mkGrantRow (gr_decision_id g) (gr_principal_id g) (gr_source_id g) (gr_name g) (gr_args_hash g)
    (gr_issued_at g) (gr_expires_at g) (gr_redeemed_at g) (Some at_).

Definition put_grant (grant_id : string) (g : grant_row) (d : db) : db :=
  set_grants_t (<[grant_id := g]> (grants_t d)) d.
Definition put_redemption (grant_id : string) (r : redemption_row) (d : db) : db :=
  set_redemptions_t (<[grant_id := r]> (redemptions_t d)) d.

(** [UPDATE grants ... WHERE grant_id=? AND <cond>]: the row count, and the table. *)
Definition update_grant (grant_id : string) (cond : grant_row → bool) (f : grant_row → grant_row) :
    act Z :=
  sql (λ d, match grants_t d !! grant_id with
            | Some g => if cond g then (Ok 1, put_grant grant_id (f g) d) else (Ok 0, d)
            | None => (Ok 0, d)
            end).

Definition is_none {A} (o : option A) : bool := match o with None => true | Some _ => false end.

(** What [redeem_grant] returns. *)
Record redeem_result := mkRedeem {
  redeemed : bool;
  redeem_reason : string;
  rd_decision_id : option string;
  rd_source_id : option string;
  rd_name : option string;
}.

Definition denied (why : string) (g : option grant_row) : redeem_result :=
  mkRedeem false why (gr_decision_id <$> g) (gr_source_id <$> g) (gr_name <$> g).

Section grants.
Context {rt : PyFloatRuntime} {dt : PyDatetime}.

(** [_grant_status(expires_at, redeemed_at, closed_at, now)] *)
Definition _grant_status (expires_at : string) (redeemed_at closed_at : option string) (now : Z) :
    res string :=
  match closed_at, redeemed_at with
  | Some _, _ => Ok "closed"
  | None, Some _ => Ok "redeemed"
  | None, None =>
      expires ← parse_datetime expires_at;
      past ← datetime_le expires (Aware now);
      Ok (if past : bool then "expired" else "issued")
  end.

Definition issue_body (grant_id : string) (g : grant_row) (ttl_seconds : option Z) :
    list (pykey * pyval) :=
  [str_pair "grant_id" (PStr grant_id); str_pair "decision_id" (PStr (gr_decision_id g));
   str_pair "principal_id" (PStr (gr_principal_id g)); str_pair "source_id" (PStr (gr_source_id g));
   str_pair "name" (PStr (gr_name g)); str_pair "args_hash" (PStr (gr_args_hash g));
   str_pair "issued_at" (PStr (gr_issued_at g)); str_pair "expires_at" (PStr (gr_expires_at g));
   str_pair "ttl_seconds" (match ttl_seconds with Some z => PInt z | None => PNone end)].

(** [issue_grant(...)] *)
Definition issue_grant (grant_id decision_id principal_id source_id name args_hash issued_at
    expires_at : string) (ttl_seconds : option Z) : act Z :=
  let g := mkGrantRow decision_id principal_id source_id name args_hash issued_at expires_at None None in
  transaction (
    _ ← sql (λ d, if decide (grants_t d !! grant_id = None)
                  then (Ok tt, put_grant grant_id g d) else (Raise IntegrityError, d));
    _append_audit_in_txn "grant_issue" (issue_body grant_id g ttl_seconds)).

(** [_grant_row_to_dict(row)] and [get_grant(grant_id)] *)
Definition _grant_row_to_dict (grant_id : string) (g : grant_row) : act (list (pykey * pyval)) :=
  t ← now;
  status ← lift (_grant_status (gr_expires_at g) (gr_redeemed_at g) (gr_closed_at g) t);
  mret [str_pair "grant_id" (PStr grant_id); str_pair "decision_id" (PStr (gr_decision_id g));
        str_pair "principal_id" (PStr (gr_principal_id g)); str_pair "source_id" (PStr (gr_source_id g));
        str_pair "name" (PStr (gr_name g)); str_pair "args_hash" (PStr (gr_args_hash g));
        str_pair "issued_at" (PStr (gr_issued_at g)); str_pair "expires_at" (PStr (gr_expires_at g));
        str_pair "redeemed_at" (opt_str (gr_redeemed_at g)); str_pair "closed_at" (opt_str (gr_closed_at g));
        str_pair "status" (PStr status)].

Definition get_grant (grant_id : string) : act (option (list (pykey * pyval))) :=
  row ← select (λ d, grants_t d !! grant_id);
  match row with
  | None => mret None
  | Some g => r ← _grant_row_to_dict grant_id g; mret (Some r)
  end.

Definition close_body (grant_id : string) (g : grant_row) (reason : string) (already : bool) :
    list (pykey * pyval) :=
  [str_pair "grant_id" (PStr grant_id); str_pair "decision_id" (PStr (gr_decision_id g));
   str_pair "reason" (PStr reason); str_pair "already_closed" (PBool already)].

Definition redeem_body (grant_id : string) (g : grant_row) (principal_id : string) :
    list (pykey * pyval) :=
  [str_pair "grant_id" (PStr grant_id); str_pair "decision_id" (PStr (gr_decision_id g));
   str_pair "principal_id" (PStr principal_id); str_pair "source_id" (PStr (gr_source_id g));
   str_pair "name" (PStr (gr_name g))].

(** The [not_invocable] branch of [redeem_grant]: kill the grant, audit, commit. *)
Definition kill_grant (grant_id : string) (g : grant_row) : act (verdict redeem_result) :=
  at_ ← _now;
  _ ← update_grant grant_id (λ g, is_none (gr_closed_at g)) (set_closed at_);
  _ ← _append_audit_in_txn "grant_close" (close_body grant_id g "not_invocable" false);
  mret (Commit (denied "not_invocable" (Some g))).

(** Its last branch: consume the grant, audit, commit. *)
Definition consume_grant (grant_id : string) (g : grant_row) (principal_id : string) :
    act (verdict redeem_result) :=
  at_ ← _now;
  n ← update_grant grant_id
        (λ g, is_none (gr_redeemed_at g) && is_none (gr_closed_at g)) (set_redeemed at_);
  if decide (n ≠ 1) then mret (Rollback (denied "already_redeemed" (Some g)))
  else
    _ ← _append_audit_in_txn "grant_redeem" (redeem_body grant_id g principal_id);
    mret (Commit (mkRedeem true "ok" (Some (gr_decision_id g))
                    (Some (gr_source_id g)) (Some (gr_name g)))).

(** [redeem_grant(grant_id, args_hash, principal_id, invocable_check)] *)
Definition redeem_grant (grant_id args_hash principal_id : string)
    (invocable_check : option (string → string → res bool)) : act redeem_result :=
  immediate (
    now ← now;
    row ← select (λ d, grants_t d !! grant_id);
    match row with
    | None => mret (Rollback (denied "not_found" None))
    | Some g =>
        let deny why := mret (Rollback (denied why (Some g))) in
        if negb (is_none (gr_redeemed_at g)) then deny "already_redeemed"
        else if negb (is_none (gr_closed_at g)) then deny "closed"
        else
          expires ← lift (parse_datetime (gr_expires_at g));
          past ← lift (datetime_le expires (Aware now));
          if (past : bool) then deny "expired"
          else if decide (principal_id ≠ gr_principal_id g) then deny "principal_mismatch"
          else if decide (args_hash ≠ gr_args_hash g) then deny "args_mismatch"
          else
            invocable ← lift (match invocable_check with
                              | Some check => check (gr_source_id g) (gr_name g)
                              | None => Ok true
                              end);
            if negb invocable then kill_grant grant_id g
            else consume_grant grant_id g principal_id
    end).

(** [record_govgrant_redemption(...)]: the reason and the time of the redemption. *)
Definition record_govgrant_redemption (grant_id decision_record_id : string)
    (correlation_id : option string) (issuer_key_id provider_id principal_id source_id name
    args_hash verification_at : string) (audit_body : list (pykey * pyval)) :
    act (bool * string * option string) :=
  immediate (
    redeemed_at ← _now;
    claimed ← sql (λ d,
      if decide (redemptions_t d !! grant_id = None) then
        (Ok true, put_redemption grant_id
           (mkRedemptionRow decision_record_id correlation_id issuer_key_id provider_id principal_id
              source_id name args_hash verification_at redeemed_at) d)
      else (Ok false, d));
    if negb claimed then mret (Rollback (false, "already_redeemed", None))
    else
      _ ← _append_audit_in_txn "provider_enforcement"
            (dict_set (KStr "redeemed_at") (PStr redeemed_at) audit_body);
      mret (Commit (true, "ok", Some redeemed_at))).

(** [get_govgrant_redemption(grant_id)] *)
Definition get_govgrant_redemption (grant_id : string) : act (option redemption_row) :=
  select (λ d, redemptions_t d !! grant_id).

(** [close_grant(grant_id, reason)]: the decision id and whether it was closed already. *)
Definition close_grant (grant_id reason : string) : act (option (string * bool)) :=
  transaction (
    row ← select (λ d, grants_t d !! grant_id);
    match row with
    | None => mret None
    | Some g =>
        let already_closed := negb (is_none (gr_closed_at g)) in
        _ ← (if negb already_closed then
               at_ ← _now;
               _ ← update_grant grant_id (λ g, is_none (gr_closed_at g)) (set_closed at_);
               mret tt
             else mret tt);
        _ ← _append_audit_in_txn "grant_close" (close_body grant_id g reason already_closed);
        mret (Some (gr_decision_id g, already_closed))
    end).

(** The loop of [list_grants] over the rows, newest first. *)
Fixpoint list_rows (rows : list (string * grant_row)) (state : option string) (limit : Z)
    (out : list (list (pykey * pyval))) : act (list (list (pykey * pyval))) :=
  match rows with
  | [] => mret out
  | (gid, g) :: rows' =>
      d ← _grant_row_to_dict gid g;
      let out := if decide (state = None ∨ (opt_str state = dget "status" d)) then out ++ [d] else out in
      if limit <=? Z.of_nat (length out) then mret out else list_rows rows' state limit out
  end.

Definition issued_desc (x y : string * grant_row) : Prop :=
  String.le (gr_issued_at y.2) (gr_issued_at x.2).
#[global] Instance issued_desc_dec : RelDecision issued_desc.
Proof. intros x y. unfold issued_desc. apply _. Defined.

(** [list_grants(state, limit)]; SQL leaves the order of rows issued at once open. *)
Definition list_grants (state : option string) (limit : Z) : act (list (list (pykey * pyval))) :=
  rows ← select (λ d, merge_sort issued_desc (map_to_list (grants_t d)));
  list_rows rows state limit [].
End grants.

(** ** What a redemption decides *)

(** The reasons in the order the code checks them; [now] is the instant of the check. *)
Definition redeem_verdict {dt : PyDatetime} (row : option grant_row) (args_hash principal_id : string)
    (invocable_check : option (string → string → res bool)) (now : Z) : res string :=
  match row with
  | None => Ok "not_found"
  | Some g =>
      if negb (is_none (gr_redeemed_at g)) then Ok "already_redeemed"
      else if negb (is_none (gr_closed_at g)) then Ok "closed"
      else
        expires ← parse_datetime (gr_expires_at g);
        past ← datetime_le expires (Aware now);
        if (past : bool) then Ok "expired"
        else if decide (principal_id ≠ gr_principal_id g) then Ok "principal_mismatch"
        else if decide (args_hash ≠ gr_args_hash g) then Ok "args_mismatch"
        else
          invocable ← match invocable_check with
                      | Some check => check (gr_source_id g) (gr_name g)
                      | None => Ok true
                      end;
          Ok (if invocable : bool then "ok" else "not_invocable")
  end.

Section facts.
Context {rt : PyFloatRuntime} {dt : PyDatetime}.

(** What a decided redemption returns and does: consume the grant, kill it, or nothing;
    a mutation comes with its audit record. *)
Definition redeem_effect (grant_id principal_id why : string) (d : db) (res : redeem_result) (d' : db) :
    Prop :=
  match grants_t d !! grant_id with
  | None => res = denied why None ∧ d' = d
  | Some g =>
      if decide (why = "ok") then
        res = mkRedeem true "ok" (Some (gr_decision_id g)) (Some (gr_source_id g)) (Some (gr_name g)) ∧
        ∃ at_ seq, appended "grant_redeem" (redeem_body grant_id g principal_id)
                     (put_grant grant_id (set_redeemed (isoformat at_) g) d) seq d'
      else
        res = denied why (Some g) ∧
        if decide (why = "not_invocable") then
          ∃ at_ seq, appended "grant_close" (close_body grant_id g "not_invocable" false)
                       (put_grant grant_id (set_closed (isoformat at_) g) d) seq d'
        else d' = d
  end.

Definition redeem_raises (W : oracle → Prop) row args_hash principal_id check e : Prop :=
  (e = OperationalError ∧ can_fail W) ∨
  ∃ t, clock_shows W t ∧ redeem_verdict row args_hash principal_id check t = Raise e.

(** Appending a body of JSON values raises only when a statement fails. *)
Lemma append_renders W kind body d :
  json_serializable true (PDict body) = true →
  outcome W (_append_audit_in_txn kind body) d
    (λ r d', match r with
             | Ok seq => appended kind body d seq d'
             | Raise e => e = OperationalError ∧ can_fail W
             end).
Proof.
  intros Hs. eapply outcome_mono; [apply append_in_txn_outcome|].
  intros [seq|e] d' H; [done|]. destruct H as [H|H]; [done|].
  unfold _canonical, json_dumps in H. by rewrite Hs in H.
Qed.

Lemma outcome_update_grant W gid cond f d g (Q : res Z → db → Prop) :
  grants_t d !! gid = Some g → cond g = true →
  (can_fail W → Q (Raise OperationalError) d) → Q (Ok 1) (put_grant gid (f g) d) →
  outcome W (update_grant gid cond f) d Q.
Proof.
  intros Hg Hc Hf Hq. unfold update_grant. apply outcome_sql; [done|]. by rewrite Hg, Hc.
Qed.

(** A verdict that denies without a mutation. *)
Lemma effect_deny gid p why d g :
  grants_t d !! gid = Some g → why ≠ "ok" → why ≠ "not_invocable" →
  redeem_effect gid p why d (denied why (Some g)) d.
Proof. intros Hg H1 H2. unfold redeem_effect. by rewrite Hg, !decide_False by done. Qed.

Lemma consume_grant_outcome W gid g p d :
  grants_t d !! gid = Some g → gr_redeemed_at g = None → gr_closed_at g = None →
  outcome W (consume_grant gid g p) d (λ r d',
    match r with
    | Ok v => ∃ res, v = Commit res ∧ redeem_effect gid p "ok" d res d'
    | Raise e => e = OperationalError ∧ can_fail W
    end).
Proof.
  intros Hg Hr Hc. unfold consume_grant, _now, redeem_effect. rewrite Hg.
  do 3 step_outcome. intros at_ _. do 2 step_outcome.
  apply (outcome_update_grant _ _ _ _ _ g); [done|by rewrite Hr, Hc|done|].
  rewrite decide_False by (intros H; by apply H). step_outcome.
  eapply outcome_mono; [by apply append_renders|]. intros [seq|e] d' H; [|done].
  step_outcome. eexists. split; [done|]. rewrite decide_True by done.
  split; [done|]. by exists at_, seq.
Qed.

Lemma kill_grant_outcome W gid g p d :
  grants_t d !! gid = Some g → gr_closed_at g = None →
  outcome W (kill_grant gid g) d (λ r d',
    match r with
    | Ok v => ∃ res, v = Commit res ∧ redeem_effect gid p "not_invocable" d res d'
    | Raise e => e = OperationalError ∧ can_fail W
    end).
Proof.
  intros Hg Hc. unfold kill_grant, _now, redeem_effect. rewrite Hg.
  do 3 step_outcome. intros at_ _. do 2 step_outcome.
  apply (outcome_update_grant _ _ _ _ _ g); [done|by rewrite Hc|done|].
  step_outcome. eapply outcome_mono; [by apply append_renders|]. intros [seq|e] d' H; [|done].
  step_outcome. eexists. split; [done|]. rewrite decide_False, decide_True by done.
  split; [done|]. by exists at_, seq.
Qed.

(** The redemption refines its specification: the verdict at the instant of the check
    and that verdict's effect, or nothing at all. *)
Lemma redeem_grant_outcome W gid h p chk d :
  outcome W (redeem_grant gid h p chk) d (λ r d',
    match r with
    | Ok res => ∃ t why, clock_shows W t ∧
        redeem_verdict (grants_t d !! gid) h p chk t = Ok why ∧ redeem_effect gid p why d res d'
    | Raise e => d' = d ∧ redeem_raises W (grants_t d !! gid) h p chk e
    end).
Proof.
  unfold redeem_grant, redeem_raises.
  step_outcome; [split; [done|by left]|]. do 2 step_outcome. intros t Ht.
  do 2 step_outcome; [split; [done|by left]|].
  destruct (grants_t d !! gid) as [g|] eqn:Hg.
  2: { step_outcome. exists t, "not_found". split_and!; [done..|]. unfold redeem_effect. by rewrite Hg. }
  assert (∀ why d' res, redeem_verdict (Some g) h p chk t = Ok why → redeem_effect gid p why d res d' →
    ∃ t0 why0, clock_shows W t0 ∧ redeem_verdict (Some g) h p chk t0 = Ok why0 ∧
      redeem_effect gid p why0 d res d') as Hok by eauto.
  assert (∀ e, redeem_verdict (Some g) h p chk t = Raise e →
    (e = OperationalError ∧ can_fail W) ∨
    ∃ t0, clock_shows W t0 ∧ redeem_verdict (Some g) h p chk t0 = Raise e) as Hraise by eauto.
  remember (redeem_verdict (Some g) h p chk t) as v eqn:Hv. unfold redeem_verdict in Hv.
  destruct (gr_redeemed_at g) eqn:Hr; cbn [negb is_none] in *;
    [step_outcome; by eapply Hok, effect_deny|].
  destruct (gr_closed_at g) eqn:Hcl; cbn [negb is_none] in *;
    [step_outcome; by eapply Hok, effect_deny|].
  do 2 step_outcome. destruct (parse_datetime (gr_expires_at g)) as [ex|e];
    [|split; [done|by apply Hraise]].
  do 2 step_outcome. cbn [mbind res_bind] in Hv. destruct (datetime_le ex (Aware t)) as [[]|e];
    [step_outcome; by eapply Hok, effect_deny| |split; [done|by apply Hraise]].
  cbn [mbind res_bind] in Hv. case_decide as Hp; [step_outcome; by eapply Hok, effect_deny|].
  case_decide as Hh; [step_outcome; by eapply Hok, effect_deny|].
  do 2 step_outcome. destruct (match chk with Some c => _ | None => _ end) as [[]|e];
    [| |split; [done|by apply Hraise]]; cbn [mbind res_bind negb] in *.
  - eapply outcome_mono; [by apply consume_grant_outcome|].
    intros [v'|e] d' H; [|by auto]. destruct H as (res & -> & H). eauto.
  - eapply outcome_mono; [by apply (kill_grant_outcome _ _ _ p)|].
    intros [v'|e] d' H; [|by auto]. destruct H as (res & -> & H). eauto.
Qed.

Lemma issue_grant_outcome W gid did pid sid n h iss exp ttl d :
  let g := mkGrantRow did pid sid n h iss exp None None in
  outcome W (issue_grant gid did pid sid n h iss exp ttl) d (λ r d',
    match r with
    | Ok seq => grants_t d !! gid = None ∧
                appended "grant_issue" (issue_body gid g ttl) (put_grant gid g d) seq d'
    | Raise e => d' = d ∧ (e = OperationalError ∧ can_fail W ∨
                           e = IntegrityError ∧ is_Some (grants_t d !! gid))
    end).
Proof.
  intros g. unfold issue_grant. step_outcome; [by auto|]. do 2 step_outcome; [by auto|].
  destruct (grants_t d !! gid) as [g0|] eqn:Hg.
  - rewrite decide_False by done. simpl. eauto.
  - rewrite decide_True by done. simpl. eapply outcome_mono; [apply append_renders; by destruct ttl|].
    intros [seq|e] d' H; [done|]. by auto.
Qed.

Lemma close_grant_outcome W gid why d :
  outcome W (close_grant gid why) d (λ r d',
    match r with
    | Ok None => grants_t d !! gid = None ∧ d' = d
    | Ok (Some (did, already)) => ∃ g at_ seq, grants_t d !! gid = Some g ∧ did = gr_decision_id g ∧
        already = negb (is_none (gr_closed_at g)) ∧
        appended "grant_close" (close_body gid g why already)
          (if already then d else put_grant gid (set_closed (isoformat at_) g) d) seq d'
    | Raise e => d' = d ∧ e = OperationalError ∧ can_fail W
    end).
Proof.
  unfold close_grant, _now. step_outcome; [done|]. do 2 step_outcome; [done|].
  destruct (grants_t d !! gid) as [g|] eqn:Hg; [|by step_outcome].
  step_outcome. destruct (gr_closed_at g) eqn:Hc; cbn [negb is_none].
  - do 2 step_outcome. eapply outcome_mono; [by apply append_renders|].
    intros [seq|e] d' H; [|done]. step_outcome. exists g, 0, seq. rewrite Hc. done.
  - do 3 step_outcome. intros at_ _. do 2 step_outcome.
    apply (outcome_update_grant _ _ _ _ _ g); [done|by rewrite Hc|done|].
    do 2 step_outcome. eapply outcome_mono; [by apply append_renders|].
    intros [seq|e] d' H; [|done]. step_outcome. exists g, at_, seq. rewrite Hc. done.
Qed.

Lemma govgrant_outcome W gid drid cid ikid prid pid sid n h va body d :
  outcome W (record_govgrant_redemption gid drid cid ikid prid pid sid n h va body) d (λ r d',
    match r with
    | Ok (true, why, at_) => why = "ok" ∧ redemptions_t d !! gid = None ∧
        ∃ t seq, at_ = Some (isoformat t) ∧
          appended "provider_enforcement" (dict_set (KStr "redeemed_at") (PStr (isoformat t)) body)
            (put_redemption gid (mkRedemptionRow drid cid ikid prid pid sid n h va (isoformat t)) d) seq d'
    | Ok (false, why, at_) => why = "already_redeemed" ∧ at_ = None ∧
        is_Some (redemptions_t d !! gid) ∧ d' = d
    | Raise e => d' = d ∧ ∃ t,
        append_raises W (dict_set (KStr "redeemed_at") (PStr (isoformat t)) body) e
    end).
Proof.
  assert (can_fail W → ∃ t, append_raises W
    (dict_set (KStr "redeemed_at") (PStr (isoformat t)) body) OperationalError) as Hf.
  { intros Hf. exists 0. by left. }
  unfold record_govgrant_redemption, _now. step_outcome; [by auto|].
  do 3 step_outcome. intros t _. step_outcome. do 2 step_outcome; [by auto|].
  destruct (redemptions_t d !! gid) as [r|] eqn:Hr; simpl.
  - step_outcome. eauto.
  - step_outcome. eapply outcome_mono; [apply append_in_txn_outcome|].
    intros [seq|e] d' H; [|by eauto]. step_outcome. eauto 10.
Qed.

(** The two verdicts with an effect, in terms of the conditions. *)
Lemma verdict_reasons g h p chk t why :
  redeem_verdict (Some g) h p chk t = Ok why →
  let holds (answer : bool) := ∃ g0 expires, (Some g = Some g0 ∧ gr_redeemed_at g0 = None ∧
    gr_closed_at g0 = None ∧ fromisoformat (gr_expires_at g0) = Some (Aware expires) ∧ t < expires ∧
    p = gr_principal_id g0 ∧ h = gr_args_hash g0) ∧
    match chk with Some c => c (gr_source_id g0) (gr_name g0) | None => Ok true end = Ok answer in
  (why = "ok" ↔ holds true) ∧ (why = "not_invocable" ↔ holds false).
Proof.
  intros Hv holds. unfold holds. clear holds.
  assert (∀ answer, (why = (if answer : bool then "ok" else "not_invocable")) ↔
    (gr_redeemed_at g = None ∧ gr_closed_at g = None ∧
     (∃ expires, fromisoformat (gr_expires_at g) = Some (Aware expires) ∧ t < expires) ∧
     p = gr_principal_id g ∧ h = gr_args_hash g ∧
     match chk with Some c => c (gr_source_id g) (gr_name g) | None => Ok true end = Ok answer)) as H.
  { intros answer. revert Hv. unfold redeem_verdict, parse_datetime.
    destruct (gr_redeemed_at g); [intros [= <-]; destruct answer; naive_solver|].
    destruct (gr_closed_at g); [intros [= <-]; destruct answer; naive_solver|].
    destruct (fromisoformat _) as [[x|x]|]; [|done..]. simpl.
    destruct (Z.leb_spec x t); [intros [= <-]; destruct answer; naive_solver lia|].
    case_decide; [intros [= <-]; destruct answer; naive_solver|].
    case_decide; [intros [= <-]; destruct answer; naive_solver|].
    destruct (match chk with Some c => _ | None => _ end) as [b|e]; [|done]. intros [= <-].
    destruct answer, b; naive_solver. }
  split; [rewrite (H true)|rewrite (H false)]; naive_solver.
Qed.

(** ** Properties *)

(** C30 -- A grant is redeemed exactly when everything holds at the instant of the check,
    whatever instants the clock can show in the world considered:
    it exists, is neither redeemed nor closed, has not expired (the expiry instant itself
    is too late), the principal and the argument hash are the ones it was issued for and
    the tool is still invocable.  Then its latch is set and the redemption audited; a
    tool no longer invocable kills the grant, audited too; every other denial, and every
    failure, changes nothing. *)
Theorem redeem_exact (W : oracle → Prop) (gid h p : string)
    (chk : option (string → string → res bool)) (d : db) :
  outcome W (redeem_grant gid h p chk) d (λ r d',
    match r with
    | Raise e => d' = d ∧ redeem_raises W (grants_t d !! gid) h p chk e
    | Ok res =>
        ∃ t, clock_shows W t ∧
             let conditions g expires :=
               grants_t d !! gid = Some g ∧ gr_redeemed_at g = None ∧ gr_closed_at g = None ∧
               fromisoformat (gr_expires_at g) = Some (Aware expires) ∧ t < expires ∧
               p = gr_principal_id g ∧ h = gr_args_hash g in
             let invocable g := match chk with
                                | Some c => c (gr_source_id g) (gr_name g) | None => Ok true end in
        (redeemed res = true ↔ ∃ g expires, conditions g expires ∧ invocable g = Ok true) ∧
        (redeem_reason res = "not_invocable" ↔
           ∃ g expires, conditions g expires ∧ invocable g = Ok false) ∧
        (redeemed res = true → ∃ g at_ seq, grants_t d !! gid = Some g ∧
           appended "grant_redeem" (redeem_body gid g p)
             (put_grant gid (set_redeemed (isoformat at_) g) d) seq d') ∧
        (redeem_reason res = "not_invocable" → ∃ g at_ seq, grants_t d !! gid = Some g ∧
           appended "grant_close" (close_body gid g "not_invocable" false)
             (put_grant gid (set_closed (isoformat at_) g) d) seq d') ∧
        (redeemed res = false → redeem_reason res ≠ "not_invocable" → d' = d)
    end).
Proof.
  eapply outcome_mono; [apply redeem_grant_outcome|]. intros [res|e] d'; [|done].
  intros (t & why & Ht & Hv & He). exists t. split; [done|]. intros conditions invocable.
  unfold redeem_effect in He. unfold conditions, invocable. clear conditions invocable.
  destruct (grants_t d !! gid) as [g|] eqn:Hg.
  2: { injection Hv as <-. destruct He as [-> ->]. simpl. split_and!; naive_solver. }
  assert ((why = "ok" ↔ ∃ g0 expires, (Some g = Some g0 ∧ gr_redeemed_at g0 = None ∧
    gr_closed_at g0 = None ∧ fromisoformat (gr_expires_at g0) = Some (Aware expires) ∧ t < expires ∧
    p = gr_principal_id g0 ∧ h = gr_args_hash g0) ∧
    match chk with Some c => c (gr_source_id g0) (gr_name g0) | None => Ok true end = Ok true) ∧
   (why = "not_invocable" ↔ ∃ g0 expires, (Some g = Some g0 ∧ gr_redeemed_at g0 = None ∧
    gr_closed_at g0 = None ∧ fromisoformat (gr_expires_at g0) = Some (Aware expires) ∧ t < expires ∧
    p = gr_principal_id g0 ∧ h = gr_args_hash g0) ∧
    match chk with Some c => c (gr_source_id g0) (gr_name g0) | None => Ok true end = Ok false)) as [H1 H2].
  { by apply verdict_reasons. }
  rewrite <- H1, <- H2. destruct (decide (why = "ok")) as [->|Hok].
  - destruct He as (-> & at_ & seq & Ha). simpl. split_and!; naive_solver.
  - destruct He as (-> & He). simpl. destruct (decide (why = "not_invocable")) as [->|Hn].
    + destruct He as (at_ & seq & Ha). split_and!; naive_solver.
    + subst d'. split_and!; naive_solver.
Qed.
End facts.
