(* ===== verification/Hydrate.v ===== *)
(** [store.py], the catalog tables: serialisation of claims and descriptors, the upserts,
    and [load_catalog], which rebuilds the catalog and re-derives every assertion from
    its evidence. *)

From S2P Require Import Prelude PyJson PyJsonLoads PyStr PyColl DateTime Sha256 Descriptor.
From S2P Require Import Catalog Db Policy AuditLog.

(** ** Serialisation *)

Section codec.
Context {rt : PyFloatRuntime}.

(** [claimed_to_json], [claimed_from_json] *)
Definition claimed_to_json (c : ClaimedMetadata) : res string :=
  _canonical (PDict
    [str_pair "description" (description c); str_pair "read_only_hint" (read_only_hint c);
     str_pair "destructive_hint" (destructive_hint c); str_pair "idempotent_hint" (idempotent_hint c);
     str_pair "open_world_hint" (open_world_hint c)]).

Definition claimed_from_json (raw : string) : res ClaimedMetadata :=
  v ← json_loads raw;
  match v with
  | PDict d =>
      Ok (mkClaimed (dget_or "description" (PStr "") d) (dget "read_only_hint" d)
            (dget "destructive_hint" d) (dget "idempotent_hint" d) (dget "open_world_hint" d))
  | _ => Raise (AttributeError "object has no attribute 'get'")
  end.

(** [sorted(c.value for c in cs)] *)
Definition class_values (cs : gset DataClass.t) : list string :=
  merge_sort String.le (DataClass.value <$> elements cs).

(** [asserted_to_json] *)
Definition asserted_to_json (a : AssertedDescriptor) : res string :=
  scopes ← py_sorted (scopes a);
  _canonical (PDict
    [str_pair "effect" (PStr (Effect.value (effect a)));
     str_pair "reads" (PList (PStr <$> class_values (reads a)));
     str_pair "writes" (PList (PStr <$> class_values (writes a)));
     str_pair "scopes" (PList scopes);
     str_pair "reversible" (reversible a); str_pair "idempotent" (idempotent a);
     str_pair "requires_approval" (requires_approval a); str_pair "declassifies" (declassifies a);
     str_pair "asserted_by" (asserted_by a)]).

(** [Effect(v)], [DataClass(v)], [TrustTier(v)] on a JSON value. *)
Definition enum_member {A} (of_value : string → option A) (what : string) (v : pyval) : res A :=
  match v with
  | PStr s => match of_value s with
              | Some x => Ok x
              | None => Raise (ValueError (repr_str s +:+ " is not a valid " +:+ what))
              end
  | _ => Raise (ValueError (py_repr v +:+ " is not a valid " +:+ what))
  end.

Definition class_set (v : pyval) : res (gset DataClass.t) :=
  items ← py_iter v;
  cs ← map_res (enum_member DataClass.of_value "DataClass") items;
  Ok (list_to_set cs).

(** [asserted_from_json], on the parsed document. *)
Definition asserted_of_json (v : pyval) : res AssertedDescriptor :=
  match v with
  | PDict d =>
      eff ← match dict_get (KStr "effect") d with
            | Some e => enum_member Effect.of_value "Effect" e
            | None => Raise (KeyError "effect")
            end;
      rs ← class_set (dget_or "reads" (PList []) d);
      ws ← class_set (dget_or "writes" (PList []) d);
      sc ← py_iter (dget_or "scopes" (PList []) d);
      sc ← py_set sc;
      Ok (mkAsserted eff rs ws sc
            (dget_or "reversible" (PBool true) d) (dget_or "idempotent" (PBool false) d)
            (dget_or "requires_approval" (PBool false) d) (dget_or "declassifies" (PBool false) d)
            (dget_or "asserted_by" (PStr "") d))
  | _ => Raise (TypeError "indices must be integers or slices, not str")
  end.

Definition asserted_from_json (raw : string) : res AssertedDescriptor :=
  v ← json_loads raw; asserted_of_json v.
End codec.

(** ** The tables *)

Section tables.
Context {rt : PyFloatRuntime} {dt : PyDatetime}.

(** [upsert_source(source, declares, command)]; [registered_at] is set once. *)
Definition upsert_source (source : TrustedSource) (declares : list string)
    (command : option (list string)) : act unit :=
  transaction (
    declared ← lift (_canonical (PList (PStr <$> merge_sort String.le declares)));
    cmd ← match command with
          | Some argv => s ← lift (_canonical (PList (PStr <$> argv))); mret (Some s)
          | None => mret None
          end;
    t ← _now;
    update (λ d,
      let at_ := match sources_t d !! src_id source with
                 | Some r => sr_registered_at r | None => t end in
      set_sources_t (<[src_id source := mkSourceRow (TrustTier.value (tier source))
        (transport source) declared cmd at_]> (sources_t d)) d)).

(** [upsert_tool(tv)] *)
Definition upsert_tool (tv : ToolVersion) : act unit :=
  transaction (
    claimed ← lift (claimed_to_json (claimed tv));
    asserted ← match asserted tv with
               | Some a => s ← lift (asserted_to_json a); mret (Some s)
               | None => mret None
               end;
    schema ← lift (py_dict (input_schema tv));
    schema ← lift (_canonical (PDict schema));
    t ← _now;
    update (λ d, set_tools_t (<[(source_id tv, ref_name (ref tv)) :=
      mkToolRow (ref_version (ref tv)) claimed asserted schema t]> (tools_t d)) d)).

(** [upsert_assertion(source_id, name, record)] *)
Definition upsert_assertion (source_id name : string) (record : AssertionRecord) : act unit :=
  transaction (
    desc ← lift (asserted_to_json (descriptor record));
    t ← _now;
    update (λ d, set_assertions_t (<[(source_id, name) :=
      mkAssertionRow desc (string_of_Z (fingerprint record)) t]> (assertions_t d)) d)).

(** [record_discovery(source_id, discovered)], [last_discovery(source_id)] *)
Definition record_discovery (source_id : string) (discovered : list string) : act unit :=
  transaction (
    names ← lift (_canonical (PList (PStr <$> merge_sort String.le discovered)));
    t ← _now;
    update (λ d, set_discoveries_t (<[source_id := (names, t)]> (discoveries_t d)) d)).

(** [set(json.loads(text))] of a stored array of names; an element that is not a string
    cannot be a name and is an error of the model. *)
Definition name_of (v : pyval) : res string :=
  match v with PStr s => Ok s | _ => Raise (TypeError "name is not a string") end.

Definition name_set (text : string) : res (gset string) :=
  v ← json_loads text;
  items ← py_iter v;
  names ← map_res name_of items;
  Ok (list_to_set names).

Definition last_discovery (source_id : string) : act (option (gset string * string)) :=
  row ← select (λ d, discoveries_t d !! source_id);
  match row with
  | None => mret None
  | Some (names, at_) => s ← lift (name_set names); mret (Some (s, at_))
  end.

(** [get_source_command(source_id)], [has_source(source_id)] *)
Definition get_source_command (source_id : string) : act (option (list pyval)) :=
  row ← select (λ d, sources_t d !! source_id);
  match row ≫= sr_command with
  | None => mret None
  | Some text => v ← lift (json_loads text); argv ← lift (py_iter v); mret (Some argv)
  end.

Definition has_source (source_id : string) : act bool :=
  select (λ d, bool_decide (is_Some (sources_t d !! source_id))).
End tables.

(** ** Hydration *)

(** A loop over the rows of a query that fills a dictionary. *)
Section fill.
Context {K R V : Type} {eqK : EqDecision K} {cK : Countable K}.
Context (parse : K → R → res V).

Fixpoint fill (rows : list (K * R)) (m : gmap K V) : res (gmap K V) :=
  match rows with
  | [] => Ok m
  | (k, r) :: rows' => v ← parse k r; fill rows' (<[k := v]> m)
  end.

Lemma fill_inv rows : ∀ m m',
  NoDup rows.*1 → fill rows m = Ok m' →
  (∀ k r, (k, r) ∈ rows → ∃ v, parse k r = Ok v ∧ m' !! k = Some v) ∧
  (∀ k, k ∉ rows.*1 → m' !! k = m !! k).
Proof.
  induction rows as [|[k r] rows IH]; intros m m' Hnd Hf; simpl in *.
  - injection Hf as <-. split; [|done]. by intros k r []%elem_of_nil.
  - apply NoDup_cons in Hnd as [Hk Hnd]. apply bind_ok in Hf as (v & Hv & Hf).
    destruct (IH _ _ Hnd Hf) as [H1 H2]. split.
    + intros k' r' [[= -> ->]|Hin]%elem_of_cons; [|by apply H1].
      exists v. split; [done|]. rewrite H2 by done. by rewrite lookup_insert_eq.
    + intros k' [Hne Hk']%not_elem_of_cons. rewrite H2 by done. by rewrite lookup_insert_ne.
Qed.

Lemma fill_total rows : ∀ m,
  (∀ k r, (k, r) ∈ rows → is_ok (parse k r) = true) → is_ok (fill rows m) = true.
Proof.
  induction rows as [|[k r] rows IH]; intros m H; simpl; [done|].
  pose proof (H k r ltac:(by left)) as Hkr. destruct (parse k r); [|done]. simpl.
  apply IH. intros k' r' Hin. apply H. by right.
Qed.

(** Filling from a whole table. *)
Definition fill_table (t : gmap K R) : res (gmap K V) := fill (map_to_list t) ∅.

Lemma fill_table_ok t m :
  fill_table t = Ok m ↔
  ∀ k, match t !! k, m !! k with
       | Some r, Some v => parse k r = Ok v
       | None, None => True
       | _, _ => False
       end.
Proof.
  assert (∀ m', fill_table t = Ok m' → ∀ k, match t !! k, m' !! k with
    | Some r, Some v => parse k r = Ok v | None, None => True | _, _ => False end) as Hinv.
  { intros m' Hf. destruct (fill_inv _ _ _ (NoDup_fst_map_to_list t) Hf) as [H1 H2]. intros k.
    destruct (t !! k) as [r|] eqn:E.
    - apply elem_of_map_to_list in E. destruct (H1 _ _ E) as (v & Hv & ->). done.
    - rewrite H2, lookup_empty; [done|]. intros ([k' r] & -> & Hin)%list_elem_of_fmap.
      apply elem_of_map_to_list in Hin. simpl in E. congruence. }
  split; [apply Hinv|]. intros H. destruct (fill_table t) as [m'|e] eqn:E.
  - f_equal. apply map_eq. intros k. specialize (Hinv m' eq_refl k). specialize (H k).
    destruct (t !! k), (m' !! k), (m !! k); congruence || done.
  - exfalso. assert (is_ok (fill_table t) = true) as Ht; [|by rewrite E in Ht].
    apply fill_total. intros k r Hin%elem_of_map_to_list. specialize (H k). rewrite Hin in H.
    destruct (m !! k); [by rewrite H|done].
Qed.
End fill.

Section hydrate.
Context {rt : PyFloatRuntime}.

Definition source_of_row (sid : string) (r : source_row) : res (TrustedSource * gset string) :=
  t ← enum_member TrustTier.of_value "TrustTier" (PStr (sr_tier r));
  ds ← name_set (sr_declared r);
  Ok (mkSource sid t (sr_transport r), ds).

(** A tool with its claim and schema but no assertion: the [asserted] column is read by
    the query and not used. *)
Definition tool_of_row (tid : ToolId) (r : tool_row) : res ToolVersion :=
  cl ← claimed_from_json (tr_claimed r);
  schema ← json_loads (tr_input_schema r);
  Ok (mkTool (mkToolRef tid.2 (tr_version r)) tid.1 cl None schema).

Definition record_of_row (tid : ToolId) (r : assertion_row) : res AssertionRecord :=
  desc ← asserted_from_json (ar_descriptor r);
  fp ← py_int (ar_fingerprint r);
  Ok (mkRecord desc fp).

(** The loop over the evidence: an assertion carries over only when its fingerprint is
    the current claim's. *)
Fixpoint carry_over (records : list (ToolId * AssertionRecord)) (tools : gmap ToolId ToolVersion) :
    res (gmap ToolId ToolVersion) :=
  match records with
  | [] => Ok tools
  | (tid, record) :: records' =>
      tools ← match tools !! tid with
              | Some tv =>
                  fp ← _fingerprint tv;
                  Ok (if fp =? fingerprint record
                      then <[tid := with_asserted (Some (descriptor record)) tv]> tools else tools)
              | None => Ok tools
              end;
      carry_over records' tools
  end.

(** [load_catalog()]: three queries, then the evidence. *)
Definition load_catalog : act Catalog :=
  srows ← select sources_t;
  srcs ← lift (fill_table source_of_row srows);
  trows ← select tools_t;
  tls ← lift (fill_table tool_of_row trows);
  arows ← select assertions_t;
  records ← lift (fill_table record_of_row arows);
  tls ← lift (carry_over (map_to_list records) tls);
  mret (mkCatalog (fst <$> srcs) tls (snd <$> srcs) records).

Record mismatch := mkMismatch {
  mm_tid : ToolId;
  mm_stored : string;
  mm_actual : option string;
}.

(** [actual] of [verify_assertions]: the fingerprint of the tool's current claim. *)
Definition actual_fingerprint (c : Catalog) (tid : ToolId) : res (option Z) :=
  match tools c !! tid with
  | Some tv => fp ← _fingerprint tv; Ok (Some fp)
  | None => Ok None
  end.

Fixpoint mismatches_of (c : Catalog) (records : list (ToolId * AssertionRecord)) :
    res (list mismatch) :=
  match records with
  | [] => Ok []
  | (tid, record) :: records' =>
      actual ← actual_fingerprint c tid;
      rest ← mismatches_of c records';
      Ok (if decide (actual = Some (fingerprint record)) then rest
          else mkMismatch tid (string_of_Z (fingerprint record)) (string_of_Z <$> actual) :: rest)
  end.

(** [verify_assertions()]: whether every assertion matches, how many there are, and the
    ones that do not. *)
Definition verify_assertions : act (bool * Z * list mismatch) :=
  c ← load_catalog;
  ms ← lift (mismatches_of c (map_to_list (assertions c)));
  mret (bool_decide (ms = []), Z.of_nat (size (assertions c)), ms).

(** ** What hydration yields *)

(** The assertion in force for a tool under some evidence. *)
Definition in_force (tv : ToolVersion) (record : option AssertionRecord) : option AssertedDescriptor :=
  match record with
  | Some r => if decide (_fingerprint tv = Ok (fingerprint r)) then Some (descriptor r) else None
  | None => None
  end.

Lemma carry_over_ok records : ∀ tls tls',
  NoDup records.*1 → carry_over records tls = Ok tls' →
  (∀ tid r, (tid, r) ∈ records → ∀ tv, tls !! tid = Some tv →
     is_ok (_fingerprint tv) = true ∧
     tls' !! tid = Some (if decide (_fingerprint tv = Ok (fingerprint r))
                         then with_asserted (Some (descriptor r)) tv else tv)) ∧
  (∀ tid, tid ∉ records.*1 ∨ tls !! tid = None → tls' !! tid = tls !! tid).
Proof.
  induction records as [|[tid r] records IH]; intros tls tls' Hnd Hc; simpl in *.
  { injection Hc as <-. split; [by intros ? ? []%elem_of_nil|done]. }
  apply NoDup_cons in Hnd as [Ht Hnd]. apply bind_ok in Hc as (tls1 & H1 & Hc).
  destruct (IH _ _ Hnd Hc) as [IH1 IH2].
  assert (∀ t, t ≠ tid → tls1 !! t = tls !! t) as Hother.
  { intros t Hne. destruct (tls !! tid) as [tv|]; [|by injection H1 as <-].
    apply bind_ok in H1 as (fp & _ & [= <-]). destruct (fp =? fingerprint r); [|done].
    by rewrite lookup_insert_ne. }
  split.
  - intros t r' [[= -> ->]|Hin]%elem_of_cons tv Htv.
    + rewrite Htv in H1. apply bind_ok in H1 as (fp & Hfp & [= <-]). split; [by rewrite Hfp|].
      rewrite IH2 by (left; done). rewrite Hfp. destruct (Z.eqb_spec fp (fingerprint r)) as [->|Hne].
      * by rewrite decide_True, lookup_insert_eq.
      * rewrite decide_False by congruence. done.
    + apply (IH1 _ _ Hin). rewrite Hother; [done|]. intros ->. apply Ht.
      by apply (list_elem_of_fmap_2 fst _ (tid, r')).
  - intros t Hor. destruct (decide (t = tid)) as [->|Hne].
    + destruct Hor as [Hn|Hn]; [exfalso; apply Hn; by left|].
      rewrite Hn in H1. injection H1 as <-. rewrite IH2 by auto. done.
    + rewrite IH2; [by apply Hother|]. rewrite Hother by done.
      destruct Hor as [Hn|Hn]; [left|by right]. intros Hin. apply Hn. by right.
Qed.

Lemma carry_over_total records : ∀ tls,
  (∀ tid tv, tls !! tid = Some tv → claim_renders (claimed tv)) →
  is_ok (carry_over records tls) = true.
Proof.
  induction records as [|[tid r] records IH]; intros tls Hcl; simpl; [done|].
  destruct (tls !! tid) as [tv|] eqn:Et; simpl; [|by apply IH].
  pose proof (Hcl _ _ Et) as Hr. rewrite fingerprint_renders by done.
  generalize (sha256_prefix64 (json_text true false (claim_list tv))). intros fp. simpl. apply IH.
  intros tid' tv'. destruct (fp =? fingerprint r); [|by apply Hcl].
  intros [[<- <-]|[_ H]]%lookup_insert_Some; [done|by apply (Hcl tid')].
Qed.

(** The catalog a database stands for. *)
Record hydrated (d : db) (c : Catalog) : Prop := {
  hy_source sid :
    match sources_t d !! sid with
    | Some r => ∃ s ds, source_of_row sid r = Ok (s, ds) ∧
        sources c !! sid = Some s ∧ declared c !! sid = Some ds
    | None => sources c !! sid = None ∧ declared c !! sid = None
    end;
  hy_record tid :
    match assertions_t d !! tid with
    | Some r => ∃ rec, record_of_row tid r = Ok rec ∧ assertions c !! tid = Some rec
    | None => assertions c !! tid = None
    end;
  hy_tool tid :
    match tools_t d !! tid with
    | Some r => ∃ tv, tool_of_row tid r = Ok tv ∧
        tools c !! tid = Some (with_asserted (in_force tv (assertions c !! tid)) tv) ∧
        (is_Some (assertions c !! tid) → is_ok (_fingerprint tv) = true)
    | None => tools c !! tid = None
    end;
}.

Lemma with_same_asserted tv : with_asserted (asserted tv) tv = tv.
Proof. by destruct tv. Qed.

Lemma tool_of_row_fresh tid r tv : tool_of_row tid r = Ok tv → with_asserted None tv = tv.
Proof.
  intros (cl & _ & (sc & _ & [= <-])%bind_ok)%bind_ok. done.
Qed.

Lemma load_catalog_outcome W d :
  outcome W load_catalog d (λ r d', d' = d ∧
    match r with Ok c => hydrated d c | Raise e => True end).
Proof.
  unfold load_catalog. do 2 step_outcome; [done|].
  do 2 step_outcome. destruct (fill_table source_of_row _) as [srcs|e] eqn:Hs; [|done].
  do 2 step_outcome; [done|].
  do 2 step_outcome. destruct (fill_table tool_of_row _) as [tls|e] eqn:Ht; [|done].
  do 2 step_outcome; [done|].
  do 2 step_outcome. destruct (fill_table record_of_row _) as [records|e] eqn:Hr; [|done].
  do 2 step_outcome. destruct (carry_over _ _) as [tls'|e] eqn:Hc; [|done]. step_outcome.
  split; [done|].
  destruct (carry_over_ok _ _ _ (NoDup_fst_map_to_list records) Hc) as [H1 H2].
  split; simpl.
  - intros sid. pose proof (proj1 (fill_table_ok _ _ _) Hs sid) as H. rewrite !lookup_fmap.
    destruct (sources_t d !! sid), (srcs !! sid) as [[src ds]|]; try done. by exists src, ds.
  - intros tid. pose proof (proj1 (fill_table_ok _ _ _) Hr tid) as H.
    destruct (assertions_t d !! tid), (records !! tid); try done. eauto.
  - intros tid. pose proof (proj1 (fill_table_ok _ _ _) Ht tid) as H.
    destruct (tools_t d !! tid) as [row|], (tls !! tid) as [tv|] eqn:E; try done.
    + exists tv. split; [done|]. destruct (records !! tid) as [rec|] eqn:Er.
      * apply elem_of_map_to_list in Er. destruct (H1 _ _ Er _ E) as [Hf ->]. split; [|done].
        unfold in_force. case_decide; [done|]. by rewrite (tool_of_row_fresh _ _ _ H).
      * split; [|by intros []]. rewrite H2.
        { rewrite E. simpl. by rewrite (tool_of_row_fresh _ _ _ H). }
        left. intros ([t rec] & -> & Hin%elem_of_map_to_list)%list_elem_of_fmap. simpl in Er. congruence.
    + rewrite H2; auto.
Qed.

(** ** Properties *)

(** C37 -- A tampered database cannot resurrect an authorization: whatever the tables
    hold, a tool of the loaded catalog is asserted exactly when the evidence table has a
    record whose fingerprint is that of the claim now stored, and with that record's
    descriptor; and it is invocable only if in addition its stored source has an
    invocable tier.  The tools' [asserted] column plays no part. *)
Theorem hydration_trusts_evidence_only (d : db) :
  outcome any_world load_catalog d (λ r d', d' = d ∧ ∀ c, r = Ok c → ∀ sid n,
    (∀ a, (∃ tv, get c sid n = Some tv ∧ asserted tv = Some a) ↔
       ∃ trow tv arow rec, tools_t d !! (sid, n) = Some trow ∧ tool_of_row (sid, n) trow = Ok tv ∧
         assertions_t d !! (sid, n) = Some arow ∧ record_of_row (sid, n) arow = Ok rec ∧
         _fingerprint tv = Ok (fingerprint rec) ∧ a = descriptor rec) ∧
    (invocable c sid n = Ok true →
       ∃ srow s ds, sources_t d !! sid = Some srow ∧ source_of_row sid srow = Ok (s, ds) ∧
         TrustTier.invocable (tier s) = true ∧ is_Some (assertions_t d !! (sid, n)))).
Proof.
  eapply outcome_mono; [apply load_catalog_outcome|]. intros r d' [-> H]. split; [done|].
  intros c -> sid n. pose proof (hy_tool _ _ H (sid, n)) as Ht. pose proof (hy_record _ _ H (sid, n)) as Hr.
  pose proof (hy_source _ _ H sid) as Hs. unfold get. split.
  - intros a. destruct (tools_t d !! (sid, n)) as [trow|] eqn:Et.
    2: { rewrite Ht. split; [by intros (? & ? & _)|by intros (? & ? & ? & ? & ? & _)]. }
    destruct Ht as (tv & Hp & Hc & _). rewrite Hc. unfold in_force.
    destruct (assertions_t d !! (sid, n)) as [arow|] eqn:Ea.
    2: { rewrite Hr. split; [intros (? & [= <-] & Ha); by simpl in Ha|by intros (? & ? & ? & ? & ? & ? & ? & _)]. }
    destruct Hr as (rec & Hrp & Hrc). rewrite Hrc. split.
    + intros (tv' & [= <-] & Ha). case_decide as Hf; [|done]. injection Ha as <-. eauto 10.
    + intros (? & tv' & ? & rec' & [= <-] & Hp' & [= <-] & Hrp' & Hf & ->). rewrite Hp in Hp'. rewrite Hrp in Hrp'. simplify_eq.
      eexists. split; [done|]. simpl. by rewrite decide_True.
  - intros (tv' & a & s & Hg & Ha & Hsrc & Htier)%invocable_true. unfold get in Hg.
    destruct (tools_t d !! (sid, n)) as [trow|]; [|congruence].
    destruct Ht as (tv & Hp & Hc & _). rewrite Hc in Hg. injection Hg as <-. simpl in *.
    assert (source_id tv = sid) as Hsid.
    { apply bind_ok in Hp as (cl & _ & (sc & _ & [= <-])%bind_ok). done. }
    rewrite Hsid in Hsrc. destruct (sources_t d !! sid) as [srow|]; [|by destruct Hs; congruence].
    destruct Hs as (s' & ds & Hrow & Hs' & _). exists srow, s, ds. split_and!; try done; [congruence|].
    destruct (assertions_t d !! (sid, n)); [done|]. by rewrite Hr in Ha.
Qed.
End hydrate.

(** ** Round trips *)

Section roundtrip.
Context {rt : PyFloatRuntime}.

(** A scalar the codec gives back as it is. *)
Definition flat (v : pyval) : Prop := json_ok v ∧ sorted_json v = v.

(** A descriptor as the service builds them: flags of any scalar kind, scopes distinct
    strings. *)
Definition desc_ok (a : AssertedDescriptor) : Prop :=
  Forall flat [reversible a; idempotent a; requires_approval a; declassifies a; asserted_by a] ∧
  ∃ l, NoDup l ∧ scopes a = PStr <$> l.

(** The same descriptor, its scopes in order. *)
Definition norm_desc (a : AssertedDescriptor) : AssertedDescriptor :=
  mkAsserted (effect a) (reads a) (writes a) (merge_sort str_le (scopes a)) (reversible a)
    (idempotent a) (requires_approval a) (declassifies a) (asserted_by a).

(** [json.loads(_canonical(v))] *)
Lemma canonical_loads v :
  json_ok v → ∃ s, _canonical v = Ok s ∧ json_loads s = Ok (sorted_json v).
Proof.
  intros Hok. exists (json_text true true v). split; [|by apply json_loads_text].
  unfold _canonical, json_dumps. by rewrite json_ok_serializable.
Qed.

Lemma strings_json_ok l : json_ok (PList (PStr <$> l)).
Proof. apply json_ok_list, Forall_fmap, Forall_forall. done. Qed.

Lemma strings_sorted_json l : sorted_json (PList (PStr <$> l)) = PList (PStr <$> l).
Proof. simpl. f_equal. induction l as [|x l IH]; csimpl; [done|]. by f_equal. Qed.

Lemma hint_flat v : hint_ok v → flat v.
Proof. by destruct v. Qed.

(** [claimed_from_json(claimed_to_json(c)) == c] *)
Lemma claimed_roundtrip c :
  claim_ok c → ∃ s, claimed_to_json c = Ok s ∧ claimed_from_json s = Ok c.
Proof.
  destruct c as [desc ro de id ow]. intros (Hd & H1 & H2 & H3 & H4). simpl in *.
  assert (flat desc) as [Dok Ds] by (by destruct desc).
  apply hint_flat in H1 as [O1 S1], H2 as [O2 S2], H3 as [O3 S3], H4 as [O4 S4].
  unfold claimed_to_json, claimed_from_json. simpl.
  match goal with |- context [_canonical ?v] => destruct (canonical_loads v) as (s & -> & Hl) end.
  { apply json_ok_dict. split; [by apply (bool_decide_unpack _)|]. by repeat constructor. }
  exists s. split; [done|]. rewrite Hl.
  cbn [sorted_json map str_pair fst snd]. rewrite Ds, S1, S2, S3, S4. reflexivity.
Qed.

Lemma class_values_spec cs :
  class_set (PList (PStr <$> class_values cs)) = Ok cs.
Proof.
  unfold class_set, class_values. simpl. rewrite map_res_fmap.
  assert (∃ l, merge_sort String.le (DataClass.value <$> elements cs) = DataClass.value <$> l ∧
            l ≡ₚ elements cs) as (l & -> & Hl).
  { pose proof (merge_sort_Permutation String.le (DataClass.value <$> elements cs)) as Hp.
    apply Permutation_map_inv in Hp as (l & Hp & Hl). by exists l. }
  rewrite map_res_fmap, (map_res_ok _ id).
  - simpl. f_equal. rewrite list_fmap_id. apply set_eq. intros x.
    by rewrite elem_of_list_to_set, Hl, elem_of_elements.
  - apply Forall_forall. intros x _. simpl. by rewrite DataClass.dataclass_of_value.
Qed.

Lemma py_sorted_strings l :
  py_sorted (PStr <$> l) = Ok (merge_sort str_le (PStr <$> l)).
Proof.
  unfold py_sorted. destruct l as [|x [|y l]]; [done..|]. csimpl.
  assert (forallb is_str (PStr <$> l) = true) as ->; [|done].
  apply forallb_forall. intros v Hv%list_elem_of_In. by apply list_elem_of_fmap in Hv as (z & -> & _).
Qed.

Lemma sorted_strings l :
  merge_sort str_le (PStr <$> l) = PStr <$> merge_sort String.le l.
Proof. by apply (merge_sort_map String.le str_le PStr). Qed.

Lemma sort_descriptor_items (v1 v2 v3 v4 v5 v6 v7 v8 v9 : pyval) :
  sort_items
    [(KStr "effect", v1); (KStr "reads", v2); (KStr "writes", v3); (KStr "scopes", v4);
     (KStr "reversible", v5); (KStr "idempotent", v6); (KStr "requires_approval", v7);
     (KStr "declassifies", v8); (KStr "asserted_by", v9)] =
  [(KStr "asserted_by", v9); (KStr "declassifies", v8); (KStr "effect", v1);
   (KStr "idempotent", v6); (KStr "reads", v2); (KStr "requires_approval", v7);
   (KStr "reversible", v5); (KStr "scopes", v4); (KStr "writes", v3)].
Proof. reflexivity. Qed.

(** Look up concrete keys among abstract values. *)
Ltac compute_lookups :=
  repeat match goal with
    | |- context [dict_get ?k ?d] =>
        let r := eval vm_compute in (dict_get k d) in change (dict_get k d) with r
    end.

Lemma asserted_of_sorted v1 v2 v3 v5 v6 v7 v8 v9 scl eff rs ws sc a :
  enum_member Effect.of_value "Effect" v1 = Ok eff → class_set v2 = Ok rs → class_set v3 = Ok ws →
  py_set scl = Ok sc → a = mkAsserted eff rs ws sc v5 v6 v7 v8 v9 →
  asserted_of_json (PDict
    [(KStr "asserted_by", v9); (KStr "declassifies", v8); (KStr "effect", v1);
     (KStr "idempotent", v6); (KStr "reads", v2); (KStr "requires_approval", v7);
     (KStr "reversible", v5); (KStr "scopes", PList scl); (KStr "writes", v3)]) = Ok a.
Proof.
  intros H1 H2 H3 H4 ->. unfold asserted_of_json, dget_or. compute_lookups. cbn [default id].
  rewrite H1. cbn [mbind res_bind]. rewrite H2. cbn [mbind res_bind]. rewrite H3.
  cbn [mbind res_bind py_iter]. by rewrite H4.
Qed.

(** [asserted_from_json(asserted_to_json(a))]: the same descriptor. *)
Lemma asserted_roundtrip a :
  desc_ok a → ∃ s, asserted_to_json a = Ok s ∧ asserted_from_json s = Ok (norm_desc a).
Proof.
  destruct a as [eff rs ws sc rv id ra de ab]. unfold desc_ok, norm_desc. simpl.
  intros [Hflat (l & Hnd & ->)]. rewrite !Forall_cons in Hflat.
  destruct Hflat as ([O1 S1] & [O2 S2] & [O3 S3] & [O4 S4] & [O5 S5] & _).
  unfold asserted_to_json. simpl. rewrite py_sorted_strings, sorted_strings. simpl.
  match goal with |- context [_canonical ?v] => destruct (canonical_loads v) as (s & -> & Hl) end.
  { apply json_ok_dict. split; [by apply (bool_decide_unpack _)|].
    repeat constructor; try done; apply strings_json_ok. }
  exists s. split; [done|]. unfold asserted_from_json. rewrite Hl.
  cbn [sorted_json map str_pair fst snd].
  pose proof (strings_sorted_json (class_values rs)) as Hr. simpl in Hr. rewrite Hr.
  pose proof (strings_sorted_json (class_values ws)) as Hw. simpl in Hw. rewrite Hw.
  pose proof (strings_sorted_json (merge_sort String.le l)) as Hs. simpl in Hs. rewrite Hs.
  rewrite S1, S2, S3, S4, S5.
  rewrite sort_descriptor_items. cbn [mbind res_bind].
  apply (asserted_of_sorted _ _ _ _ _ _ _ _ _ eff rs ws (PStr <$> merge_sort String.le l));
    [..|done].
  - simpl. by rewrite Effect.effect_of_value.
  - apply class_values_spec.
  - apply class_values_spec.
  - unfold py_set.
    assert (forallb hashable (PStr <$> merge_sort String.le l) = true) as ->.
    { apply forallb_forall. intros v Hv%list_elem_of_In.
      by apply list_elem_of_fmap in Hv as (z & -> & _). }
    rewrite dedupe_strings; [done|]. by rewrite merge_sort_Permutation.
Qed.
End roundtrip.

(** ** Restart *)

Section restart.
Context {rt : PyFloatRuntime}.

(** A catalog whose claims, schemas and descriptors are what the service accepts. *)
Record persistable (c : Catalog) : Prop := {
  pe_inv : inv c;
  pe_tool tid tv : tools c !! tid = Some tv → claim_ok (claimed tv) ∧ json_ok (input_schema tv);
  pe_record tid r : assertions c !! tid = Some r → desc_ok (descriptor r);
}.

(** The tables hold the catalog, as the upserts write it. *)
Record stored (c : Catalog) (d : db) : Prop := {
  sd_source sid :
    match sources c !! sid, sources_t d !! sid with
    | Some s, Some r =>
        src_id s = sid ∧ sr_tier r = TrustTier.value (tier s) ∧ sr_transport r = transport s ∧
        ∃ names, _canonical (PList (PStr <$> names)) = Ok (sr_declared r) ∧
                 declared c !! sid = Some (list_to_set names)
    | None, None => declared c !! sid = None
    | _, _ => False
    end;
  sd_tool tid :
    match tools c !! tid, tools_t d !! tid with
    | Some tv, Some r =>
        tr_version r = ref_version (ref tv) ∧ claimed_to_json (claimed tv) = Ok (tr_claimed r) ∧
        _canonical (input_schema tv) = Ok (tr_input_schema r)
    | None, None => True
    | _, _ => False
    end;
  sd_record tid :
    match assertions c !! tid, assertions_t d !! tid with
    | Some rec, Some r =>
        asserted_to_json (descriptor rec) = Ok (ar_descriptor r) ∧
        ar_fingerprint r = string_of_Z (fingerprint rec)
    | None, None => True
    | _, _ => False
    end;
}.

(** A tool as it comes back: keys of its schema and its scopes in order. *)
Definition norm_tool (tv : ToolVersion) : ToolVersion :=
  mkTool (ref tv) (source_id tv) (claimed tv) (norm_desc <$> asserted tv) (sorted_json (input_schema tv)).

Lemma name_set_canonical names text :
  _canonical (PList (PStr <$> names)) = Ok text → name_set text = Ok (list_to_set names).
Proof.
  intros Ht. destruct (canonical_loads _ (strings_json_ok names)) as (s & Hs & Hl).
  rewrite Hs in Ht. injection Ht as ->. unfold name_set. rewrite Hl, strings_sorted_json. simpl.
  rewrite map_res_fmap, (map_res_ok _ id) by (by apply Forall_forall).
  simpl. by rewrite list_fmap_id.
Qed.

Lemma stored_source c d sid s r :
  stored c d → sources c !! sid = Some s → sources_t d !! sid = Some r →
  ∃ ds, source_of_row sid r = Ok (s, ds) ∧ declared c !! sid = Some ds.
Proof.
  intros Hsd Hs Hr. pose proof (sd_source _ _ Hsd sid) as H. rewrite Hs, Hr in H.
  destruct H as (Hid & Ht & Htr & names & Hn & Hd). exists (list_to_set names). split; [|done].
  unfold source_of_row. simpl. rewrite Ht, TrustTier.trusttier_of_value. simpl.
  rewrite (name_set_canonical _ _ Hn). simpl. rewrite Htr, <- Hid. by destruct s.
Qed.

Lemma stored_record c d tid rec r :
  stored c d → persistable c → assertions c !! tid = Some rec → assertions_t d !! tid = Some r →
  record_of_row tid r = Ok (mkRecord (norm_desc (descriptor rec)) (fingerprint rec)).
Proof.
  intros Hsd Hp Hc Hr. pose proof (sd_record _ _ Hsd tid) as H. rewrite Hc, Hr in H.
  destruct H as [Ha Hf]. destruct (asserted_roundtrip _ (pe_record _ Hp _ _ Hc)) as (s & Hs & Hl).
  rewrite Hs in Ha. injection Ha as ->. unfold record_of_row. rewrite Hl. simpl.
  by rewrite Hf, py_int_of_Z.
Qed.

Lemma stored_tool c d tid tv r :
  stored c d → persistable c → tools c !! tid = Some tv → tools_t d !! tid = Some r →
  tool_of_row tid r =
    Ok (mkTool (ref tv) (source_id tv) (claimed tv) None (sorted_json (input_schema tv))).
Proof.
  intros Hsd Hp Hc Hr. pose proof (sd_tool _ _ Hsd tid) as H. rewrite Hc, Hr in H.
  destruct H as (Hv & Hcl & Hsch). destruct (pe_tool _ Hp _ _ Hc) as [Hok Hj].
  destruct (claimed_roundtrip _ Hok) as (s & Hs & Hl). rewrite Hs in Hcl. injection Hcl as ->.
  destruct (canonical_loads _ Hj) as (s' & Hs' & Hl'). rewrite Hs' in Hsch. injection Hsch as ->.
  unfold tool_of_row. rewrite Hl. simpl. rewrite Hl'. simpl.
  destruct (inv_tool _ (pe_inv _ Hp) _ _ Hc) as (Hsid & Hn & _). rewrite Hv, <- Hsid, <- Hn.
  by destruct (ref tv).
Qed.

(** The loaded catalog, given the tables. *)
Lemma hydrated_stored c d c' :
  persistable c → stored c d → hydrated d c' →
  sources c' = sources c ∧ declared c' = declared c ∧
  (∀ sid n, get c' sid n = norm_tool <$> get c sid n) ∧
  (∀ tid, is_Some (assertions c' !! tid) ↔ is_Some (assertions c !! tid)).
Proof.
  intros Hp Hsd Hh.
  assert (∀ tid, assertions c' !! tid =
    (λ r, mkRecord (norm_desc (descriptor r)) (fingerprint r)) <$> assertions c !! tid) as Hrec.
  { intros tid. pose proof (hy_record _ _ Hh tid) as H. pose proof (sd_record _ _ Hsd tid) as H'.
    destruct (assertions c !! tid) as [rec|] eqn:Ec, (assertions_t d !! tid) as [r|] eqn:Er; try done.
    destruct H as (rec' & Hp' & ->). rewrite (stored_record _ _ _ _ _ Hsd Hp Ec Er) in Hp'.
    by injection Hp' as <-. }
  assert (∀ sid, sources c' !! sid = sources c !! sid ∧ declared c' !! sid = declared c !! sid) as Hsrc.
  { intros sid. pose proof (hy_source _ _ Hh sid) as H. pose proof (sd_source _ _ Hsd sid) as H'.
    destruct (sources c !! sid) as [s|] eqn:Es, (sources_t d !! sid) as [r|] eqn:Er; try done.
    - destruct (stored_source _ _ _ _ _ Hsd Es Er) as (ds & Hrow & Hds).
      destruct H as (s' & ds' & Hrow' & -> & ->). rewrite Hrow in Hrow'. injection Hrow' as <- <-. done.
    - destruct H as [-> ->]. done. }
  split_and!.
  - apply map_eq. intros sid. apply Hsrc.
  - apply map_eq. intros sid. apply Hsrc.
  - intros sid n. unfold get. pose proof (hy_tool _ _ Hh (sid, n)) as H.
    pose proof (sd_tool _ _ Hsd (sid, n)) as H'.
    destruct (tools c !! (sid, n)) as [tv|] eqn:Et, (tools_t d !! (sid, n)) as [r|] eqn:Er; try done.
    destruct H as (tv' & Hrow & -> & _). rewrite (stored_tool _ _ _ _ _ Hsd Hp Et Er) in Hrow.
    injection Hrow as <-. simpl. f_equal. unfold with_asserted, norm_tool. simpl. f_equal.
    rewrite Hrec. unfold in_force. pose proof (pe_inv _ Hp) as Hinv.
    assert (∀ f, _fingerprint (mkTool (ref tv) (source_id tv) (claimed tv) None
      (sorted_json (input_schema tv))) = f ↔ _fingerprint tv = f) as Hfp by done.
    destruct (assertions c !! (sid, n)) as [rec|] eqn:Ec; simpl.
    + case_decide as Hf; rewrite Hfp in Hf.
      * by rewrite (inv_current _ Hinv _ _ _ Et Ec Hf).
      * destruct (asserted tv) as [a|] eqn:Ea; [|done].
        destruct (inv_asserted _ Hinv _ _ _ Et Ea) as (r' & Hr' & _ & Hf'). congruence.
    + destruct (asserted tv) as [a|] eqn:Ea; [|done].
      destruct (inv_asserted _ Hinv _ _ _ Et Ea) as (r' & Hr' & _). congruence.
  - intros tid. rewrite Hrec. by rewrite fmap_is_Some.
Qed.

(** Hydration raises only when a query fails, if every row reads back. *)
Lemma load_catalog_reads W d :
  (∀ sid r, sources_t d !! sid = Some r → is_ok (source_of_row sid r) = true) →
  (∀ tid r, tools_t d !! tid = Some r → ∃ tv, tool_of_row tid r = Ok tv ∧ claim_renders (claimed tv)) →
  (∀ tid r, assertions_t d !! tid = Some r → is_ok (record_of_row tid r) = true) →
  outcome W load_catalog d (λ r d',
    match r with Ok _ => True | Raise e => e = OperationalError ∧ can_fail W end).
Proof.
  intros Hrs Hrt Hra. unfold load_catalog.
  assert (∀ {K R V} `{Countable K} (parse : K → R → res V) (t : gmap K R) e,
    (∀ k r, t !! k = Some r → is_ok (parse k r) = true) → fill_table parse t = Raise e → False) as Hfill.
  { intros K R V ? ? parse t e Hp Hf. assert (is_ok (fill_table parse t) = true) as Ht; [|by rewrite Hf in Ht].
    apply fill_total. intros k r Hin%elem_of_map_to_list. by apply Hp. }
  do 2 step_outcome; [done|]. do 2 step_outcome.
  destruct (fill_table source_of_row _) as [srcs|e] eqn:Hs; [|by destruct (Hfill _ _ _ _ _ _ _ _ Hrs Hs)].
  do 2 step_outcome; [done|]. do 2 step_outcome.
  destruct (fill_table tool_of_row _) as [tls|e] eqn:Ht.
  2: { destruct (Hfill _ _ _ _ _ tool_of_row (tools_t d) e) as []; [|done].
       intros k r Hr. by destruct (Hrt _ _ Hr) as (tv & -> & _). }
  do 2 step_outcome; [done|]. do 2 step_outcome.
  destruct (fill_table record_of_row _) as [records|e] eqn:Hr; [|by destruct (Hfill _ _ _ _ _ _ _ _ Hra Hr)].
  do 2 step_outcome. destruct (carry_over _ _) as [tls'|e] eqn:Hc; [by step_outcome|].
  exfalso. assert (is_ok (carry_over (map_to_list records) tls) = true) as Hk; [|by rewrite Hc in Hk].
  apply carry_over_total. intros tid tv Htv. pose proof (proj1 (fill_table_ok _ _ _) Ht tid) as H.
  rewrite Htv in H. destruct (tools_t d !! tid) as [r|] eqn:Er; [|done].
  destruct (Hrt _ _ Er) as (tv' & Hrow & Hren). rewrite Hrow in H. by injection H as <-.
Qed.

(** Hydration of tables that hold a catalog raises only when a query fails. *)
Lemma load_catalog_total W c d :
  persistable c → stored c d →
  outcome W load_catalog d (λ r d',
    match r with Ok _ => True | Raise e => e = OperationalError ∧ can_fail W end).
Proof.
  intros Hp Hsd. apply load_catalog_reads.
  - intros sid r Hr. pose proof (sd_source _ _ Hsd sid) as H. rewrite Hr in H.
    destruct (sources c !! sid) as [s|] eqn:Es; [|done].
    by destruct (stored_source _ _ _ _ _ Hsd Es Hr) as (ds & -> & _).
  - intros tid r Hr. pose proof (sd_tool _ _ Hsd tid) as H. rewrite Hr in H.
    destruct (tools c !! tid) as [tv|] eqn:Et; [|done].
    eexists. split; [by apply (stored_tool _ _ _ _ _ Hsd Hp Et Hr)|]. by apply claim_ok_renders, (pe_tool _ Hp _ _ Et).
  - intros tid r Hr. pose proof (sd_record _ _ Hsd tid) as H. rewrite Hr in H.
    destruct (assertions c !! tid) as [rec|] eqn:Ec; [|done].
    by rewrite (stored_record _ _ _ _ _ Hsd Hp Ec Hr).
Qed.

(** ** The upserts keep the tables in step *)

Context {dt : PyDatetime}.

Lemma stored_empty : stored empty_catalog empty_db.
Proof. split; intros *; simpl; by rewrite !lookup_empty. Qed.

Lemma upsert_source_outcome W src ds cmd d :
  outcome W (upsert_source src ds cmd) d (λ r d',
    match r with
    | Ok _ => ∃ text c at_, _canonical (PList (PStr <$> merge_sort String.le ds)) = Ok text ∧
        match cmd with Some argv => ∃ s, c = Some s ∧ _canonical (PList (PStr <$> argv)) = Ok s | None => c = None end ∧
        d' = set_sources_t (<[src_id src := mkSourceRow (TrustTier.value (tier src)) (transport src)
               text c at_]> (sources_t d)) d
    | Raise e => d' = d ∧ e = OperationalError ∧ can_fail W
    end).
Proof.
  assert (∀ l, ∃ t, _canonical (PList (PStr <$> l)) = Ok t) as Hc.
  { intros l. destruct (canonical_loads _ (strings_json_ok l)) as (t & Ht & _). by exists t. }
  unfold upsert_source, _now. step_outcome; [done|]. do 2 step_outcome.
  destruct (Hc (merge_sort String.le ds)) as [text ->]. step_outcome.
  assert (∀ (Q : res (option string) → db → Prop),
    (∀ o, match cmd with Some argv => ∃ s, o = Some s ∧ _canonical (PList (PStr <$> argv)) = Ok s | None => o = None end →
      Q (Ok o) d) →
    outcome W (match cmd with
      | Some argv => s ← lift (_canonical (PList (PStr <$> argv))); mret (Some s)
      | None => mret None end) d Q) as Hcmd.
  { intros Q HQ. destruct cmd as [argv|]; [|step_outcome; by apply HQ].
    do 2 step_outcome. destruct (Hc argv) as [t Ht]. rewrite Ht. step_outcome. apply HQ. by exists t. }
  apply Hcmd. intros o Ho. do 3 step_outcome. intros t _. do 2 step_outcome; [done|]. eauto 10.
Qed.

Lemma stored_register c d src ds text cmd at_ :
  stored c d → _canonical (PList (PStr <$> merge_sort String.le ds)) = Ok text →
  stored (register_source src (Some (list_to_set ds)) c).2
    (set_sources_t (<[src_id src := mkSourceRow (TrustTier.value (tier src)) (transport src)
       text cmd at_]> (sources_t d)) d).
Proof.
  intros Hs Ht. split; simpl; try apply Hs. intros sid.
  destruct (decide (src_id src = sid)) as [<-|Hne].
  - rewrite !lookup_insert_eq. split_and!; [done..|]. exists (merge_sort String.le ds).
    split; [done|]. f_equal. apply set_eq. intros x.
    by rewrite !elem_of_list_to_set, merge_sort_Permutation.
  - rewrite !lookup_insert_ne by done. apply (sd_source _ _ Hs).
Qed.

Lemma stored_set_tool c d tid tv row :
  stored c d → tr_version row = ref_version (ref tv) →
  claimed_to_json (claimed tv) = Ok (tr_claimed row) →
  _canonical (input_schema tv) = Ok (tr_input_schema row) →
  stored (set_tool tid tv c) (set_tools_t (<[tid := row]> (tools_t d)) d).
Proof.
  intros Hs Hv Hc Hsch. split; simpl; try apply Hs. intros tid'.
  destruct (decide (tid = tid')) as [<-|Hne]; [by rewrite !lookup_insert_eq|].
  rewrite !lookup_insert_ne by done. apply (sd_tool _ _ Hs).
Qed.

Lemma stored_set_assertion c d tid rec row :
  stored c d → asserted_to_json (descriptor rec) = Ok (ar_descriptor row) →
  ar_fingerprint row = string_of_Z (fingerprint rec) →
  stored (set_assertion tid rec c) (set_assertions_t (<[tid := row]> (assertions_t d)) d).
Proof.
  intros Hs Ha Hf. split; simpl; try apply Hs. intros tid'.
  destruct (decide (tid = tid')) as [<-|Hne]; [by rewrite !lookup_insert_eq|].
  rewrite !lookup_insert_ne by done. apply (sd_record _ _ Hs).
Qed.

Lemma upsert_tool_outcome W tv d sch :
  claim_ok (claimed tv) → (∀ a, asserted tv = Some a → desc_ok a) →
  input_schema tv = PDict sch → json_ok (PDict sch) →
  outcome W (upsert_tool tv) d (λ r d',
    match r with
    | Ok _ => ∃ row, tr_version row = ref_version (ref tv) ∧
        claimed_to_json (claimed tv) = Ok (tr_claimed row) ∧
        _canonical (input_schema tv) = Ok (tr_input_schema row) ∧
        d' = set_tools_t (<[(source_id tv, ref_name (ref tv)) := row]> (tools_t d)) d
    | Raise e => d' = d ∧ e = OperationalError ∧ can_fail W
    end).
Proof.
  intros Hcl Hd Hsch Hj. unfold upsert_tool, _now. step_outcome; [done|]. do 2 step_outcome.
  destruct (claimed_roundtrip _ Hcl) as (cs & -> & _). step_outcome.
  assert (∀ (Q : res (option string) → db → Prop), (∀ o, Q (Ok o) d) →
    outcome W (match asserted tv with
      | Some a => s ← lift (asserted_to_json a); mret (Some s)
      | None => mret None end) d Q) as Ha.
  { intros Q HQ. destruct (asserted tv) as [a|]; [|by step_outcome].
    do 2 step_outcome. destruct (asserted_roundtrip _ (Hd a eq_refl)) as (s & -> & _). by step_outcome. }
  apply Ha. intros o. rewrite Hsch. do 2 step_outcome. simpl. do 2 step_outcome.
  destruct (canonical_loads _ Hj) as (ss & Hss & _). rewrite Hss.
  do 3 step_outcome. intros t _. do 2 step_outcome; [done|]. eexists. split_and!; [..|reflexivity]; done.
Qed.

(** What the upserts write, whatever the tool. *)
Lemma upsert_tool_row W tv d :
  outcome W (upsert_tool tv) d (λ r d',
    match r with
    | Ok _ => ∃ row sch, claimed_to_json (claimed tv) = Ok (tr_claimed row) ∧
        py_dict (input_schema tv) = Ok sch ∧ _canonical (PDict sch) = Ok (tr_input_schema row) ∧
        d' = set_tools_t (<[(source_id tv, ref_name (ref tv)) := row]> (tools_t d)) d
    | Raise _ => d' = d
    end).
Proof.
  unfold upsert_tool, _now. step_outcome; [done|]. do 2 step_outcome.
  destruct (claimed_to_json (claimed tv)) as [cs|e] eqn:Hcs; [|done]. step_outcome.
  assert (∀ (Q : res (option string) → db → Prop), (∀ o, Q o d) →
    outcome W (match asserted tv with
      | Some a => s ← lift (asserted_to_json a); mret (Some s)
      | None => mret None end) d Q) as Ha.
  { intros Q HQ. destruct (asserted tv) as [a|]; [|by step_outcome].
    do 2 step_outcome. destruct (asserted_to_json a); [by step_outcome|done]. }
  apply Ha. intros [o|e]; [|done]. do 2 step_outcome. destruct (py_dict (input_schema tv)) as [sch|e] eqn:Hsch; [|done].
  do 2 step_outcome. destruct (_canonical (PDict sch)) as [ss|e] eqn:Hss; [|done].
  do 3 step_outcome. intros t _. do 2 step_outcome; [done|]. eexists _, sch. split_and!; [..|reflexivity]; done.
Qed.

Lemma upsert_assertion_row W sid n rec d :
  outcome W (upsert_assertion sid n rec) d (λ r d',
    match r with
    | Ok _ => ∃ row, asserted_to_json (descriptor rec) = Ok (ar_descriptor row) ∧
        ar_fingerprint row = string_of_Z (fingerprint rec) ∧
        d' = set_assertions_t (<[(sid, n) := row]> (assertions_t d)) d
    | Raise _ => d' = d
    end).
Proof.
  unfold upsert_assertion, _now. step_outcome; [done|]. do 2 step_outcome.
  destruct (asserted_to_json _) as [s|e]; [|done].
  do 3 step_outcome. intros t _. do 2 step_outcome; [done|]. eexists. split_and!; [..|reflexivity]; done.
Qed.

Lemma record_discovery_row W sid names d :
  outcome W (record_discovery sid names) d (λ r d',
    match r with
    | Ok _ => ∃ text t, _canonical (PList (PStr <$> merge_sort String.le names)) = Ok text ∧
        d' = set_discoveries_t (<[sid := (text, t)]> (discoveries_t d)) d
    | Raise _ => d' = d
    end).
Proof.
  unfold record_discovery, _now. step_outcome; [done|]. do 2 step_outcome.
  destruct (_canonical _) as [s|e]; [|done].
  do 3 step_outcome. intros t _. do 2 step_outcome; [done|]. by eexists _, _.
Qed.

Lemma upsert_assertion_outcome W sid n rec d :
  desc_ok (descriptor rec) →
  outcome W (upsert_assertion sid n rec) d (λ r d',
    match r with
    | Ok _ => ∃ row, asserted_to_json (descriptor rec) = Ok (ar_descriptor row) ∧
        ar_fingerprint row = string_of_Z (fingerprint rec) ∧
        d' = set_assertions_t (<[(sid, n) := row]> (assertions_t d)) d
    | Raise e => d' = d ∧ e = OperationalError ∧ can_fail W
    end).
Proof.
  intros Hd. unfold upsert_assertion, _now. step_outcome; [done|]. do 2 step_outcome.
  destruct (asserted_roundtrip _ Hd) as (s & -> & _).
  do 3 step_outcome. intros t _. do 2 step_outcome; [done|]. eexists. split_and!; [..|reflexivity]; done.
Qed.

(** ** Properties *)

(** C38 -- A restart continues where the process left off: when the tables hold the
    catalog and no query fails, loading returns a catalog with the same sources,
    declarations and tools (up to the order of schema keys and scopes), and every tool
    has the same assertion status and the same answer of [invocable]. *)
Theorem restart_preserves_catalog (c : Catalog) (d : db) :
  persistable c → stored c d →
  outcome faultless load_catalog d (λ r d', d' = d ∧ ∃ c', r = Ok c' ∧
    sources c' = sources c ∧ declared c' = declared c ∧
    ∀ sid n, get c' sid n = norm_tool <$> get c sid n ∧
      invocable c' sid n = invocable c sid n ∧ assertion_status c' sid n = assertion_status c sid n).
Proof.
  intros Hp Hsd o t Ho. pose proof (load_catalog_total faultless c d Hp Hsd o t Ho) as Htot.
  pose proof (load_catalog_outcome faultless d o t Ho) as Hout.
  destruct (load_catalog o (mkSim d t)) as [[c'|e] s']; destruct Hout as [-> Hh].
  2: { by destruct Htot as [_ Hf%faultless_cannot_fail]. }
  split; [done|]. exists c'. split; [done|].
  destruct (hydrated_stored _ _ _ Hp Hsd Hh) as (Hs & Hd & Hg & Ha). split_and!; [done..|].
  intros sid n. split; [done|]. unfold invocable, assertion_status. rewrite Hs.
  pose proof (Hg sid n) as Hgn. rewrite Hgn. unfold get in *. rewrite Hgn. split.
  - destruct (tools c !! (sid, n)) as [tv|]; [|done]. simpl. unfold is_asserted. simpl.
    by destruct (asserted tv).
  - pose proof (Ha (sid, n)) as Hr.
    destruct (assertions c' !! (sid, n)), (assertions c !! (sid, n)); try done.
    + destruct (tools c !! (sid, n)) as [tv|]; [|done]. simpl. unfold is_asserted. simpl.
      by destruct (asserted tv).
    + by destruct (proj1 Hr ltac:(by eexists)).
    + by destruct (proj2 Hr ltac:(by eexists)).
Qed.

Lemma mismatches_ok c records ms :
  mismatches_of c records = Ok ms →
  (ms = [] ↔ ∀ tid rec, (tid, rec) ∈ records → actual_fingerprint c tid = Ok (Some (fingerprint rec))) ∧
  (∀ m, m ∈ ms → ∃ rec, (mm_tid m, rec) ∈ records).
Proof.
  revert ms. induction records as [|[tid rec] records IH]; intros ms Hm; simpl in *.
  { injection Hm as <-. split; [|by intros m []%elem_of_nil].
    split; [|done]. by intros _ tid rec []%elem_of_nil. }
  apply bind_ok in Hm as (actual & Ha & (rest & Hr & Hm)%bind_ok).
  destruct (IH _ Hr) as [IH1 IH2]. case_decide as He; injection Hm as <-.
  - split.
    + rewrite IH1. split; [|by intros H tid' rec' Hin; apply H; right].
      intros H tid' rec' [[= -> ->]|Hin]%elem_of_cons; [by rewrite Ha, He|by apply H].
    + intros m Hin. destruct (IH2 m Hin) as [rec' H]. exists rec'. by right.
  - split.
    + split; [done|]. intros H. exfalso. apply He.
      specialize (H tid rec ltac:(by left)). rewrite Ha in H. by injection H.
    + intros m [->|Hin]%elem_of_cons; [exists rec; by left|].
      destruct (IH2 m Hin) as [rec' H]. exists rec'. by right.
Qed.

(** The integrity probe agrees with what is enforced: [verify_assertions] reports
    success exactly when every assertion on record is in force in the catalog the same
    tables load to, whatever the tables hold, and it changes nothing. *)
Theorem verify_assertions_exact (d : db) :
  outcome any_world verify_assertions d (λ r d', d' = d ∧
    ∀ all_match checked ms, r = Ok (all_match, checked, ms) →
      ∃ c, hydrated d c ∧ checked = Z.of_nat (size (assertions c)) ∧
        (all_match = true ↔ ∀ sid n, is_Some (assertions c !! (sid, n)) →
           assertion_status c sid n = AssertionStatus.ASSERTED) ∧
        (∀ m, m ∈ ms → is_Some (assertions c !! mm_tid m))).
Proof.
  unfold verify_assertions. step_outcome. eapply outcome_mono; [apply load_catalog_outcome|].
  intros [c|e] d' [-> Hh]; [|done]. do 2 step_outcome.
  destruct (mismatches_of c _) as [ms|e] eqn:Hm; [|done]. step_outcome. split; [done|].
  intros all_match checked ms' [= <- <- <-]. exists c. split; [done|]. split; [done|].
  destruct (mismatches_ok _ _ _ Hm) as [H1 H2]. split.
  - rewrite bool_decide_eq_true, H1.
    assert (∀ tid rec, assertions c !! tid = Some rec →
      (actual_fingerprint c tid = Ok (Some (fingerprint rec)) ↔
       assertion_status c tid.1 tid.2 = AssertionStatus.ASSERTED)) as Hiff.
    { intros [sid n] rec Hr. pose proof (hy_tool _ _ Hh (sid, n)) as Ht.
      unfold actual_fingerprint, assertion_status. simpl. rewrite Hr.
      destruct (tools_t d !! (sid, n)) as [row|].
      - destruct Ht as (tv & Hrow & Hc & _). rewrite Hc, Hr. unfold is_asserted, in_force. simpl.
        rewrite fingerprint_with_asserted. split.
        + intros (fp & Hfp & [= ->])%bind_ok. by rewrite decide_True.
        + case_decide as Hf; [|done]. intros _. by rewrite Hf.
      - rewrite Ht. done. }
    split.
    + intros H sid n [rec Hr]. apply (Hiff (sid, n) rec Hr), H. by apply elem_of_map_to_list.
    + intros H [sid n] rec Hin%elem_of_map_to_list. apply Hiff; [done|]. apply H. by exists rec.
  - intros m Hin. destruct (H2 m Hin) as [rec Hrec%elem_of_map_to_list]. by exists rec.
Qed.
End restart.

(** ** Witnesses *)

Definition text_of (r : res string) : string := match r with Ok s => s | Raise _ => "" end.

Definition sample_tables : db :=
  let d1 := set_sources_t (<["ws" := mkSourceRow "verified" "stdio"
    (text_of (_canonical (rt := coded_float_runtime) (PList (PStr <$> ["search"])))) None "0"]>
    (sources_t empty_db)) empty_db in
  let d2 := set_tools_t (<[("ws", "search") := mkToolRow "1.0.0"
    (text_of (claimed_to_json (rt := coded_float_runtime) sample_claim)) None "{}" "0"]> (tools_t d1)) d1 in
  set_assertions_t (<[("ws", "search") := mkAssertionRow
    (text_of (asserted_to_json (rt := coded_float_runtime) sample_desc))
    (string_of_Z (sha256_prefix64 (json_text (rt := coded_float_runtime) true false
       (claim_list sample_tool)))) "0"]> (assertions_t d2)) d2.

Definition sample_record : AssertionRecord := mkRecord sample_desc
  (sha256_prefix64 (json_text (rt := coded_float_runtime) true false (claim_list sample_tool))).

Lemma sample_catalog_eq :
  sample_catalog = set_assertion ("ws", "search") sample_record
    (set_tool ("ws", "search") sample_tool
      (register_source sample_source (Some (list_to_set ["search"])) empty_catalog).2).
Proof. vm_compute. reflexivity. Qed.

Lemma sample_persistable : persistable (rt := coded_float_runtime) sample_catalog.
Proof.
  split; [apply sample_catalog_inv|rewrite sample_catalog_eq..]; cbn [tools assertions set_assertion
    set_tool register_source st_modify snd empty_catalog].
  - intros tid tv [[_ <-]|[_ H]]%lookup_insert_Some; [|by rewrite lookup_empty in H].
    split; [apply sample_claim_ok|]. apply json_ok_dict. split; constructor.
  - intros tid r [[_ <-]|[_ H]]%lookup_insert_Some; [|by rewrite lookup_empty in H].
    split; [by repeat constructor|]. exists []. split; [constructor|done].
Qed.

Lemma sample_stored : stored (rt := coded_float_runtime) sample_catalog sample_tables.
Proof.
  rewrite sample_catalog_eq.
  apply stored_set_assertion; [|vm_compute; reflexivity|vm_compute; reflexivity].
  apply stored_set_tool; [|vm_compute; reflexivity|vm_compute; reflexivity|vm_compute; reflexivity].
  apply (stored_register _ empty_db sample_source ["search"]); [apply stored_empty|].
  vm_compute. reflexivity.
Qed.

Lemma restart_preserves_catalog_witness :
  ∃ c', (load_catalog (rt := coded_float_runtime) calm (mkSim sample_tables 0%nat)).1 = Ok c' ∧
    invocable c' "ws" "search" = Ok true.
Proof.
  pose proof (restart_preserves_catalog (rt := coded_float_runtime) sample_catalog sample_tables
    sample_persistable sample_stored calm 0%nat (λ n, eq_refl)) as H.
  destruct (load_catalog calm (mkSim sample_tables 0%nat)) as [r s'].
  destruct H as (_ & c' & -> & _ & _ & Hall). exists c'. split; [reflexivity|].
  destruct (Hall "ws" "search") as (_ & -> & _). vm_compute. reflexivity.
Defined.
