(* ===== verification/Store.v ===== *)
(** [store.py], the store as a whole: any sequence of its methods, under any failures,
    clock and interleaving of callers, keeps the log verifiable, the latches latched, and
    every grant mutation paired with its audit record. *)

From S2P Require Import Prelude PyJson PyJsonLoads PyStr PyColl DateTime Sha256 Descriptor.
From S2P Require Import Catalog Db Policy AuditLog Grants Hydrate.

Section store.
Context {rt : PyFloatRuntime} {dt : PyDatetime}.

(** ** Methods as operations *)

(** The methods that can change the database, with their arguments. *)
Inductive store_op :=
| OAppend (kind : string) (body : list (pykey * pyval))
| OSetMeta (key value : string)
| OSource (src : TrustedSource) (declares : list string) (command : option (list string))
| OTool (tv : ToolVersion)
| OAssertion (sid n : string) (rec : AssertionRecord)
| ODiscovery (sid : string) (names : list string)
| OIssue (gid did pid sid n h issued expires : string) (ttl : option Z)
| ORedeem (gid h pid : string) (check : option (string → string → res bool))
| OClose (gid why : string)
| OGov (gid drid : string) (cid : option string) (ikid prid pid sid n h at_ : string)
    (body : list (pykey * pyval)).

(** What the caller of a method learns about grants. *)
Inductive reply :=
| RDone
| RRedeem (r : redeem_result)
| RGov (granted : bool)
| RRaised (e : exn).

Definition exec (op : store_op) : act reply :=
  match op with
  | OAppend kind body => _ ← append_audit kind body; mret RDone
  | OSetMeta key value => _ ← set_meta key value; mret RDone
  | OSource src ds cmd => _ ← upsert_source src ds cmd; mret RDone
  | OTool tv => _ ← upsert_tool tv; mret RDone
  | OAssertion sid n rec => _ ← upsert_assertion sid n rec; mret RDone
  | ODiscovery sid names => _ ← record_discovery sid names; mret RDone
  | OIssue gid did pid sid n h iss exp ttl => _ ← issue_grant gid did pid sid n h iss exp ttl; mret RDone
  | ORedeem gid h pid check => r ← redeem_grant gid h pid check; mret (RRedeem r)
  | OClose gid why => _ ← close_grant gid why; mret RDone
  | OGov gid drid cid ikid prid pid sid n h at_ body =>
      r ← record_govgrant_redemption gid drid cid ikid prid pid sid n h at_ body; mret (RGov r.1.1)
  end.

(** A history of calls: an exception reaches its caller and the store goes on. *)
Fixpoint history (ops : list store_op) (o : oracle) (s : sim) : list reply * sim :=
  match ops with
  | [] => ([], s)
  | op :: ops' =>
      let '(r, s1) := exec op o s in
      let '(rs, s2) := history ops' o s1 in
      (match r with Ok x => x | Raise e => RRaised e end :: rs, s2)
  end.

(** Arguments as the service passes them: literal kinds, JSON bodies, and no writing of
    the recorded head through [set_meta]. *)
Definition op_ok (op : store_op) : Prop :=
  match op with
  | OAppend kind body => plain kind = true ∧ json_ok (PDict body)
  | OSetMeta key _ => key ≠ _AUDIT_HEAD_SEQ ∧ key ≠ _AUDIT_HEAD_HASH
  | OGov _ _ _ _ _ _ _ _ _ _ body => json_ok (PDict body)
  | _ => True
  end.

(** ** What no method undoes *)

(** A grant row after any number of methods: what it was issued for stays, a latch once
    set stays as it is, and a closed grant is never redeemed. *)
Record latched (g g' : grant_row) : Prop := {
  la_decision : gr_decision_id g' = gr_decision_id g;
  la_principal : gr_principal_id g' = gr_principal_id g;
  la_source : gr_source_id g' = gr_source_id g;
  la_name : gr_name g' = gr_name g;
  la_hash : gr_args_hash g' = gr_args_hash g;
  la_issued : gr_issued_at g' = gr_issued_at g;
  la_expires : gr_expires_at g' = gr_expires_at g;
  la_redeemed : gr_redeemed_at g ≠ None → gr_redeemed_at g' = gr_redeemed_at g;
  la_closed : gr_closed_at g ≠ None →
    gr_closed_at g' = gr_closed_at g ∧ gr_redeemed_at g' = gr_redeemed_at g;
}.

(** An audit record of kind [kind] about grant [gid]. *)
Definition about_grant (kind gid : string) (r : audit_row) : Prop :=
  au_kind r = kind ∧ ∃ body, _canonical (PDict body) = Ok (au_body r) ∧ dget "grant_id" body = PStr gid.

(** Every grant on file has its records: issued, and redeemed or closed if it is. *)
Definition paired (d : db) : Prop := ∀ gid g, grants_t d !! gid = Some g →
  Exists (about_grant "grant_issue" gid) (audit_t d) ∧
  (gr_redeemed_at g ≠ None → Exists (about_grant "grant_redeem" gid) (audit_t d)) ∧
  (gr_closed_at g ≠ None → Exists (about_grant "grant_close" gid) (audit_t d)).

Record good_step (d d' : db) : Prop := {
  gs_log : audit_ok d → audit_ok d';
  gs_prefix : ∃ rows, audit_t d' = audit_t d ++ rows;
  gs_grants gid g : grants_t d !! gid = Some g → ∃ g', grants_t d' !! gid = Some g' ∧ latched g g';
  gs_redemptions gid r : redemptions_t d !! gid = Some r → redemptions_t d' !! gid = Some r;
  gs_paired : paired d → paired d';
}.

Lemma latched_refl g : latched g g.
Proof. by split. Qed.

Lemma latched_trans g1 g2 g3 : latched g1 g2 → latched g2 g3 → latched g1 g3.
Proof.
  intros [] []. split; try congruence.
  - intros H. rewrite la_redeemed1; [by apply la_redeemed0|]. by rewrite la_redeemed0.
  - intros H. destruct (la_closed0 H) as [E1 E2]. rewrite <- E1 in H.
    destruct (la_closed1 H) as [E3 E4]. split; congruence.
Qed.

#[global] Instance good_step_refl : Reflexive good_step.
Proof.
  intros d. split; try done; [by exists []; rewrite app_nil_r|].
  intros gid g H. exists g. split; [done|apply latched_refl].
Qed.

#[global] Instance good_step_trans : Transitive good_step.
Proof.
  intros d1 d2 d3 [] []. split; auto.
  - destruct gs_prefix0 as [l ->] in gs_prefix1 |- *. destruct gs_prefix1 as [l' ->].
    exists (l ++ l'). by rewrite app_assoc.
  - intros gid g H. destruct (gs_grants0 _ _ H) as (g2 & H2 & L2).
    destruct (gs_grants1 _ _ H2) as (g3 & H3 & L3). exists g3. split; [done|].
    by eapply latched_trans.
Qed.

(** A change of the catalog tables. *)
Definition same_ledger (d d' : db) : Prop :=
  same_audit d d' ∧ grants_t d' = grants_t d ∧ redemptions_t d' = redemptions_t d.

#[global] Instance same_ledger_refl : Reflexive same_ledger.
Proof. done. Qed.

#[global] Instance same_ledger_trans : Transitive same_ledger.
Proof.
  intros d1 d2 d3 ((? & ? & ? & ?) & ? & ?) ((? & ? & ? & ?) & ? & ?).
  split; [split_and!; congruence|split; congruence].
Qed.

Lemma same_ledger_good d d' : same_ledger d d' → good_step d d'.
Proof.
  intros (Ha & Hg & Hr). split.
  - by apply audit_ok_same.
  - exists []. rewrite app_nil_r. apply Ha.
  - intros gid g H. exists g. rewrite Hg. split; [done|apply latched_refl].
  - intros gid r H. by rewrite Hr.
  - intros Hp gid g H. rewrite Hg in H. destruct Ha as (-> & _). by apply Hp.
Qed.

(** An append on top of a change of the grants. *)
Lemma appended_good kind body d d1 seq d' :
  plain kind = true → json_ok (PDict body) → same_audit d d1 → appended kind body d1 seq d' →
  (∀ gid g, grants_t d !! gid = Some g → ∃ g', grants_t d1 !! gid = Some g' ∧ latched g g') →
  (∀ gid r, redemptions_t d !! gid = Some r → redemptions_t d1 !! gid = Some r) →
  (∀ gid g, grants_t d1 !! gid = Some g → grants_t d !! gid = Some g ∨
     dget "grant_id" body = PStr gid ∧ match grants_t d !! gid with
       | None => kind = "grant_issue" ∧ gr_redeemed_at g = None ∧ gr_closed_at g = None
       | Some g0 => kind = "grant_redeem" ∧ gr_closed_at g = gr_closed_at g0 ∨
                    kind = "grant_close" ∧ gr_redeemed_at g = gr_redeemed_at g0
       end) →
  good_step d d'.
Proof.
  intros Hk Hb Ha H Hg Hr Hnew.
  pose proof (appended_ok kind body d1 seq d') as Hok.
  destruct Ha as (Ha & Hau & Hs & Hh). destruct H as (payload & t & Hp & -> & ->).
  split; simpl.
  - intros Hd. apply Hok; try done; [|by exists payload, t].
    eapply audit_ok_same; [|exact Hd]. done.
  - eexists. by rewrite Ha.
  - done.
  - done.
  - intros Hpair gid g Hgg. simpl in Hgg |- *. rewrite !Exists_app, Ha. destruct (Hnew _ _ Hgg) as [Hold|[Hid Hch]].
    { destruct (Hpair _ _ Hold) as (H1 & H2 & H3). split_and!; auto. }
    assert (∀ k, kind = k → Exists (about_grant k gid)
      [mkAuditRow (next_seq d1) kind payload (isoformat t) (tip_hash (audit_t d))
        (sha256_hex (record_text kind payload (isoformat t) (tip_hash (audit_t d))))]) as Hthis.
    { intros k <-. constructor. split; [done|]. by exists body. }
    destruct (grants_t d !! gid) as [g0|] eqn:E.
    + destruct (Hpair _ _ E) as (H1 & H2 & H3).
      destruct Hch as [[Hkk Hc]|[Hkk Hc]]; specialize (Hthis _ Hkk); rewrite Hc; split_and!; auto.
    + destruct Hch as (Hkk & -> & ->). specialize (Hthis _ Hkk). split_and!; by auto.
Qed.

(** ** Each method *)

Ltac body_ok := apply json_ok_dict; split; [by apply (bool_decide_unpack _)|by repeat constructor].

Lemma issue_body_ok gid g ttl : json_ok (PDict (issue_body gid g ttl)).
Proof. destruct ttl; body_ok. Qed.
Lemma close_body_ok gid g why b : json_ok (PDict (close_body gid g why b)).
Proof. body_ok. Qed.
Lemma redeem_body_ok gid g p : json_ok (PDict (redeem_body gid g p)).
Proof. body_ok. Qed.

(** A statement sequence that only writes the catalog tables. *)
Lemma ledger_transaction {A} W (m : act A) d :
  outcome W m d (λ _ d', same_ledger d d') →
  outcome W (transaction m) d (λ _ d', same_ledger d d').
Proof.
  intros H. apply outcome_transaction; [done|]. eapply outcome_mono; [exact H|]. by intros [].
Qed.

Ltac ledger_steps :=
  repeat first
    [ progress unfold _now
    | step_outcome; try done
    | lazymatch goal with |- ∀ _, _ => intros end
    | case_match; try done ].

Lemma upsert_source_ledger W src ds cmd d :
  outcome W (upsert_source src ds cmd) d (λ _ d', same_ledger d d').
Proof. apply ledger_transaction. ledger_steps. Qed.

Lemma upsert_tool_ledger W tv d : outcome W (upsert_tool tv) d (λ _ d', same_ledger d d').
Proof. apply ledger_transaction. ledger_steps. Qed.

Lemma upsert_assertion_ledger W sid n rec d :
  outcome W (upsert_assertion sid n rec) d (λ _ d', same_ledger d d').
Proof. apply ledger_transaction. ledger_steps. Qed.

Lemma record_discovery_ledger W sid names d :
  outcome W (record_discovery sid names) d (λ _ d', same_ledger d d').
Proof. apply ledger_transaction. ledger_steps. Qed.

Lemma set_meta_ledger W k v d :
  k ≠ _AUDIT_HEAD_SEQ → k ≠ _AUDIT_HEAD_HASH →
  outcome W (set_meta k v) d (λ _ d', same_ledger d d').
Proof.
  intros H1 H2. apply ledger_transaction. unfold update. step_outcome; [done|]. simpl.
  split; [|done]. split_and!; simpl; [done..| |]; by rewrite lookup_insert_ne.
Qed.

(** A grant that is neither redeemed nor closed. *)
Definition live (gid : string) (d : db) : Prop :=
  ∃ g, grants_t d !! gid = Some g ∧ gr_redeemed_at g = None ∧ gr_closed_at g = None.

(** What an answer reveals: a redemption found the grant live and leaves it redeemed. *)
Definition reply_spec (op : store_op) (r : res reply) (d d' : db) : Prop :=
  match r, op with
  | Ok (RRedeem res), ORedeem gid _ _ _ =>
      redeemed res = true → live gid d ∧ ∃ g', grants_t d' !! gid = Some g' ∧ gr_redeemed_at g' ≠ None
  | Ok (RGov true), OGov gid _ _ _ _ _ _ _ _ _ _ =>
      redemptions_t d !! gid = None ∧ is_Some (redemptions_t d' !! gid)
  | Ok (RRedeem _), _ | Ok (RGov true), _ => False
  | _, _ => True
  end.

Lemma put_grant_same_audit gid g d : same_audit d (put_grant gid g d).
Proof. done. Qed.

(** Changing one row in place, with its record. *)
Lemma change_good kind body d gid g g' seq d' :
  plain kind = true → json_ok (PDict body) → dget "grant_id" body = PStr gid →
  grants_t d !! gid = Some g → latched g g' →
  (kind = "grant_redeem" ∧ gr_closed_at g' = gr_closed_at g ∨
   kind = "grant_close" ∧ gr_redeemed_at g' = gr_redeemed_at g) →
  appended kind body (put_grant gid g' d) seq d' → good_step d d'.
Proof.
  intros Hk Hb Hid Hg Hl Hch H.
  apply (appended_good kind body d (put_grant gid g' d) seq d' Hk Hb (put_grant_same_audit gid g' d) H).
  - intros gid0 g0 H0. simpl. destruct (decide (gid = gid0)) as [<-|Hne].
    + rewrite lookup_insert_eq. exists g'. split; [done|]. congruence.
    + rewrite lookup_insert_ne by done. exists g0. split; [done|apply latched_refl].
  - done.
  - intros gid0 g0 H0. simpl in H0. apply lookup_insert_Some in H0 as [[<- <-]|[_ H0]]; [right|by left].
    split; [done|]. by rewrite Hg.
Qed.

Lemma append_only_good kind body d seq d' :
  plain kind = true → json_ok (PDict body) → appended kind body d seq d' → good_step d d'.
Proof.
  intros Hk Hb H. eapply appended_good; [done|done| |exact H|..]; [done|..]; eauto using latched_refl.
Qed.

Lemma set_redeemed_latched at_ g :
  gr_redeemed_at g = None → gr_closed_at g = None → latched g (set_redeemed at_ g).
Proof. intros Hr Hc. split; simpl; try done; intros H; by destruct H. Qed.

Lemma set_closed_latched at_ g : gr_closed_at g = None → latched g (set_closed at_ g).
Proof. intros Hc. split; simpl; try done; intros H; by destruct H. Qed.

(** The redemption verdict with an effect finds a live grant. *)
Lemma verdict_live d gid h p chk t why :
  redeem_verdict (grants_t d !! gid) h p chk t = Ok why → why = "ok" ∨ why = "not_invocable" →
  live gid d.
Proof.
  intros Hv Hw. destruct (grants_t d !! gid) as [g|] eqn:Hg.
  - destruct (verdict_reasons _ _ _ _ _ _ Hv) as [H1 H2]. exists g.
    destruct Hw as [Hw|Hw]; [apply H1 in Hw|apply H2 in Hw];
      destruct Hw as (g0 & ex & ([= <-] & ? & ? & _) & _); done.
  - injection Hv as <-. by destruct Hw.
Qed.

Lemma redeem_effect_good d gid h p chk t why res d' :
  redeem_verdict (grants_t d !! gid) h p chk t = Ok why → redeem_effect gid p why d res d' →
  good_step d d' ∧
  (redeemed res = true → live gid d ∧ ∃ g', grants_t d' !! gid = Some g' ∧ gr_redeemed_at g' ≠ None).
Proof.
  intros Hv He. pose proof (verdict_live _ _ _ _ _ _ _ Hv) as Hlive. unfold redeem_effect in He.
  destruct (grants_t d !! gid) as [g|] eqn:Hg; [|by destruct He as [-> ->]; split].
  case_decide as Hok.
  - destruct He as (-> & at_ & seq & H). destruct (Hlive ltac:(by left)) as (g0 & Hg0 & Hr & Hc).
    rewrite Hg in Hg0. injection Hg0 as <-. split.
    + apply (change_good "grant_redeem" (redeem_body gid g p) d gid g (set_redeemed (isoformat at_) g) seq d' eq_refl (redeem_body_ok gid g p) eq_refl Hg
        (set_redeemed_latched _ _ Hr Hc) (or_introl (conj eq_refl eq_refl)) H).
    + intros _. split; [by exists g|]. destruct H as (payload & t' & _ & _ & ->). simpl.
      rewrite lookup_insert_eq. by eexists.
  - destruct He as (-> & He). case_decide as Hni; [|by subst d'; split].
    destruct He as (at_ & seq & H). destruct (Hlive ltac:(by right)) as (g0 & Hg0 & Hr & Hc).
    rewrite Hg in Hg0. injection Hg0 as <-. split; [|done].
    apply (change_good "grant_close" (close_body gid g "not_invocable" false) d gid g
      (set_closed (isoformat at_) g) seq d' eq_refl (close_body_ok gid g _ _) eq_refl Hg
      (set_closed_latched _ _ Hc) (or_intror (conj eq_refl eq_refl)) H).
Qed.

Lemma issue_good gid g ttl d seq d' :
  gr_redeemed_at g = None → gr_closed_at g = None → grants_t d !! gid = None →
  appended "grant_issue" (issue_body gid g ttl) (put_grant gid g d) seq d' → good_step d d'.
Proof.
  intros Hr Hc Hn H.
  apply (appended_good "grant_issue" (issue_body gid g ttl) d (put_grant gid g d) seq d' eq_refl
    (issue_body_ok gid g ttl) (put_grant_same_audit gid g d) H).
  - intros gid0 g0 H0. simpl. assert (gid ≠ gid0) as Hne by congruence.
    rewrite lookup_insert_ne by done. exists g0. split; [done|apply latched_refl].
  - done.
  - intros gid0 g0 H0. simpl in H0. apply lookup_insert_Some in H0 as [[<- <-]|[_ H0]]; [right|by left]. by rewrite Hn.
Qed.

Lemma close_good gid g why d at_ seq d' :
  grants_t d !! gid = Some g →
  appended "grant_close" (close_body gid g why (negb (is_none (gr_closed_at g))))
    (if negb (is_none (gr_closed_at g)) then d else put_grant gid (set_closed at_ g) d) seq d' →
  good_step d d'.
Proof.
  intros Hg H. destruct (gr_closed_at g) eqn:Hc; simpl in H.
  - by apply (append_only_good "grant_close" (close_body gid g why true) d seq d' eq_refl (close_body_ok _ _ _ _) H).
  - apply (change_good "grant_close" (close_body gid g why false) d gid g
      (set_closed at_ g) seq d' eq_refl (close_body_ok gid g _ _) eq_refl Hg
      (set_closed_latched _ _ Hc) (or_intror (conj eq_refl eq_refl)) H).
Qed.

Lemma gov_good gid row body d seq d' :
  json_ok (PDict body) → redemptions_t d !! gid = None →
  appended "provider_enforcement" body (put_redemption gid row d) seq d' →
  good_step d d' ∧ is_Some (redemptions_t d' !! gid).
Proof.
  intros Hb Hn H. split.
  - assert (same_audit d (put_redemption gid row d)) as Ha by done.
    apply (appended_good "provider_enforcement" body d _ seq d' eq_refl Hb Ha H);
      simpl; [by eauto using latched_refl| |by auto].
    intros gid0 r H0. simpl. rewrite lookup_insert_ne by congruence. done.
  - destruct H as (payload & t & _ & _ & ->). simpl. rewrite lookup_insert_eq. by eexists.
Qed.

Lemma exec_good W op d :
  op_ok op → outcome W (exec op) d (λ r d', good_step d d' ∧ reply_spec op r d d').
Proof.
  assert (∀ {A} (m : act A) op, outcome W m d (λ _ d', same_ledger d d') →
    outcome W (_ ← m; mret RDone) d (λ r d', good_step d d' ∧ reply_spec op r d d')) as Hledger.
  { intros A m op' Hm. step_outcome. eapply outcome_mono; [exact Hm|].
    intros [a|e] d' H%same_ledger_good; [by step_outcome|done]. }
  intros Hop. destruct op as [kind body|k v|src ds cmd|tv|sid n rec|sid names
    |gid did pid sid n h iss exp ttl|gid h pid chk|gid why|gid drid cid ikid prid pid sid n h at_ body];
    simpl exec.
  - step_outcome. eapply outcome_mono; [apply append_audit_outcome|].
    intros [seq|e] d' H; [step_outcome|by destruct H as [-> _]]. destruct Hop as [Hk Hb].
    split; [|done]. by eapply append_only_good.
  - destruct Hop. by apply Hledger, set_meta_ledger.
  - apply Hledger, upsert_source_ledger.
  - apply Hledger, upsert_tool_ledger.
  - apply Hledger, upsert_assertion_ledger.
  - apply Hledger, record_discovery_ledger.
  - step_outcome. eapply outcome_mono; [apply issue_grant_outcome|].
    intros [seq|e] d' H; [step_outcome|by destruct H as [-> _]]. destruct H as [Hn H].
    split; [|done]. by eapply issue_good; [..|exact H].
  - step_outcome. eapply outcome_mono; [apply redeem_grant_outcome|].
    intros [res|e] d' H; [step_outcome|by destruct H as [-> _]]. destruct H as (t & w & _ & Hv & He).
    by eapply redeem_effect_good.
  - step_outcome. eapply outcome_mono; [apply close_grant_outcome|].
    intros [[[did al]|]|e] d' H; [step_outcome|step_outcome; by destruct H as [_ ->]|by destruct H as [-> _]].
    destruct H as (g & at_ & seq & Hg & -> & -> & H). split; [|done]. by eapply close_good.
  - step_outcome. eapply outcome_mono; [apply govgrant_outcome|].
    intros [[[[|] w] a]|e] d' H; [step_outcome|step_outcome|by destruct H as [-> _]].
    + destruct H as (_ & Hn & t & seq & _ & H). simpl in Hop.
      destruct (gov_good _ _ _ _ _ _ (dict_set_json_ok "redeemed_at" (PStr (isoformat t)) _ Hop I) Hn H).
      done.
    + by destruct H as (_ & _ & _ & ->).
Qed.

(** ** Histories *)

Lemma history_good ops : ∀ o d t,
  Forall op_ok ops → good_step d (s_db (history ops o (mkSim d t)).2).
Proof.
  induction ops as [|op ops IH]; intros o d t Hops; simpl; [done|].
  apply Forall_cons in Hops as [Hop Hops].
  pose proof (exec_good any_world op d Hop o t I) as H.
  destruct (exec op o (mkSim d t)) as [r [d1 t1]]. destruct H as [H _].
  specialize (IH o d1 t1 Hops). destruct (history ops o (mkSim d1 t1)) as [rs s2].
  simpl in *. by transitivity d1.
Qed.

(** The log survives any history: whatever methods are called in whatever order,
    whatever fails and whatever the clock shows, a log the store wrote keeps its records
    in place as a prefix, still passes [verify_chain], and every grant on file keeps its
    issue record, and its redemption or closing record if a latch is set. *)
Theorem log_survives_any_history (ops : list store_op) (o : oracle) (d : db) (t : nat) :
  Forall op_ok ops → audit_ok d → paired d →
  let d' := s_db (history ops o (mkSim d t)).2 in
  (∃ rows, audit_t d' = audit_t d ++ rows) ∧
  verify_chain d' = Ok (mkVerification true (Z.of_nat (length (audit_t d'))) None "") ∧
  paired d'.
Proof.
  intros Hops Hd Hp d'. pose proof (history_good ops o d t Hops) as H. fold d' in H.
  split_and!; [apply H|apply verify_complete, H, Hd|by apply H].
Qed.

(** Latches only latch: through any history a grant keeps what it was issued for,
    a redeemed grant stays redeemed at the recorded time, and a closed grant stays closed
    and is never redeemed afterwards; a governance redemption is never removed. *)
Theorem latches_are_permanent (ops : list store_op) (o : oracle) (d : db) (t : nat) :
  Forall op_ok ops →
  let d' := s_db (history ops o (mkSim d t)).2 in
  (∀ gid g, grants_t d !! gid = Some g → ∃ g', grants_t d' !! gid = Some g' ∧ latched g g') ∧
  (∀ gid r, redemptions_t d !! gid = Some r → redemptions_t d' !! gid = Some r).
Proof. intros Hops d'. pose proof (history_good ops o d t Hops). split; apply H. Qed.

(** The answers of a history that redeemed a grant, or a governance grant. *)
Definition redeemed_by (gid : string) (x : store_op * reply) : bool :=
  match x with
  | (ORedeem gid' _ _ _, RRedeem r) => bool_decide (gid' = gid) && redeemed r
  | _ => false
  end.

Definition gov_redeemed_by (gid : string) (x : store_op * reply) : bool :=
  match x with
  | (OGov gid' _ _ _ _ _ _ _ _ _ _, RGov true) => bool_decide (gid' = gid)
  | _ => false
  end.

Definition redemptions_of (p : store_op * reply → bool) (ops : list store_op) (rs : list reply) : nat :=
  length (filter (λ x, p x = true) (zip ops rs)).

Lemma live_back d d' gid : good_step d d' → is_Some (grants_t d !! gid) → live gid d' → live gid d.
Proof.
  intros Hg [g H] (g' & H' & Hr & Hc). destruct (gs_grants _ _ Hg _ _ H) as (g2 & H2 & L).
  rewrite H' in H2. injection H2 as <-. exists g. split; [done|]. split.
  - destruct (gr_redeemed_at g) eqn:E; [|done]. rewrite (la_redeemed _ _ L) in Hr by congruence. congruence.
  - destruct (gr_closed_at g) eqn:E; [|done].
    destruct (la_closed _ _ L ltac:(congruence)) as [Hc' _]. congruence.
Qed.

(** A grant on file that is not live is never redeemed. *)
Lemma dead_never_redeemed ops : ∀ o d t gid,
  Forall op_ok ops → is_Some (grants_t d !! gid) → ¬ live gid d →
  redemptions_of (redeemed_by gid) ops (history ops o (mkSim d t)).1 = 0%nat.
Proof.
  induction ops as [|op ops IH]; intros o d t gid Hops Hon Hdead; simpl; [done|].
  apply Forall_cons in Hops as [Hop Hops].
  pose proof (exec_good any_world op d Hop o t I) as H.
  destruct (exec op o (mkSim d t)) as [r [d1 t1]]. destruct H as [Hg Hr]. simpl in *.
  assert (is_Some (grants_t d1 !! gid)) as Hon1.
  { destruct Hon as [g Hon]. destruct (gs_grants _ _ Hg _ _ Hon) as (g' & -> & _). by eexists. }
  assert (¬ live gid d1) as Hdead1 by (intros Hl; by apply Hdead, (live_back _ _ _ Hg Hon)).
  specialize (IH o d1 t1 gid Hops Hon1 Hdead1).
  destruct (history ops o (mkSim d1 t1)) as [rs s2]. unfold redemptions_of in *. simpl in *.
  rewrite filter_cons, decide_False; [done|]. intros Hred. unfold redeemed_by in Hred.
  destruct op, r as [[]|]; try done. apply andb_true_iff in Hred as [<-%bool_decide_eq_true Hred].
  simpl in Hr. by destruct (Hr Hred) as [Hl _].
Qed.

(** One use: over any history of calls on the store, at most one attempt to redeem
    a given grant succeeds, and none if the grant was already redeemed or closed. *)
Theorem grant_redeemed_at_most_once (ops : list store_op) (o : oracle) (d : db) (t : nat)
    (gid : string) :
  Forall op_ok ops →
  (redemptions_of (redeemed_by gid) ops (history ops o (mkSim d t)).1 ≤ 1)%nat ∧
  (is_Some (grants_t d !! gid) → ¬ live gid d →
   redemptions_of (redeemed_by gid) ops (history ops o (mkSim d t)).1 = 0%nat).
Proof.
  intros Hops. split; [|intros; by apply dead_never_redeemed].
  revert d t. induction ops as [|op ops IH]; intros d t; simpl; [unfold redemptions_of; simpl; lia|].
  apply Forall_cons in Hops as [Hop Hops].
  pose proof (exec_good any_world op d Hop o t I) as H.
  destruct (exec op o (mkSim d t)) as [r [d1 t1]]. destruct H as [Hg Hr]. simpl in *.
  pose proof (dead_never_redeemed ops o d1 t1 gid Hops) as Hdead. specialize (IH Hops d1 t1).
  destruct (history ops o (mkSim d1 t1)) as [rs s2]. unfold redemptions_of in *. simpl in *.
  rewrite filter_cons. case_decide as Hred; [|done]. simpl. rewrite Hdead; [lia|..];
    unfold redeemed_by in Hred; destruct op, r as [[]|]; try done;
    apply andb_true_iff in Hred as [<-%bool_decide_eq_true Hred];
    simpl in Hr; destruct (Hr Hred) as (_ & g' & Hg' & Hn); [by rewrite Hg'|].
  intros (g2 & H2 & Hr2 & _). congruence.
Qed.

(** A governance grant is claimed once: over any history, at most one redemption
    of a given governance grant id is granted, and none if it is already on file. *)
Theorem govgrant_redeemed_at_most_once (ops : list store_op) (o : oracle) (d : db) (t : nat)
    (gid : string) :
  Forall op_ok ops →
  (redemptions_of (gov_redeemed_by gid) ops (history ops o (mkSim d t)).1 ≤ 1)%nat ∧
  (is_Some (redemptions_t d !! gid) →
   redemptions_of (gov_redeemed_by gid) ops (history ops o (mkSim d t)).1 = 0%nat).
Proof.
  revert d t. induction ops as [|op ops IH]; intros d t Hops; simpl;
    [unfold redemptions_of; simpl; lia|].
  apply Forall_cons in Hops as [Hop Hops].
  pose proof (exec_good any_world op d Hop o t I) as H.
  destruct (exec op o (mkSim d t)) as [r [d1 t1]]. destruct H as [Hg Hr]. simpl in *.
  destruct (IH d1 t1 Hops) as [IH1 IH2].
  destruct (history ops o (mkSim d1 t1)) as [rs s2]. unfold redemptions_of in *. simpl in *.
  rewrite !filter_cons. case_decide as Hred.
  - unfold gov_redeemed_by in Hred. destruct op, r as [[| |[]|]|]; try done.
    apply bool_decide_eq_true in Hred as <-. simpl in Hr. destruct Hr as [Hn Hs].
    simpl. rewrite IH2 by done. split; [lia|]. intros [x Hx]. congruence.
  - split; [done|]. intros [x Hx]. apply IH2. rewrite (gs_redemptions _ _ Hg _ _ Hx). by eexists.
Qed.
End store.

(** ** Witnesses *)

(** Issue a grant, redeem it, redeem it again, close it; claim a governance grant twice. *)
Definition sample_calls : list store_op :=
  [OAppend "ingest" sample_body;
   OIssue "g1" "d1" "alice" "ws" "search" "h" "0" "900000000" (Some 900);
   ORedeem "g1" "h" "alice" None; ORedeem "g1" "h" "alice" None; OClose "g1" "done";
   OGov "v1" "r1" None "k1" "provider" "alice" "ws" "search" "h" "0" sample_body;
   OGov "v1" "r1" None "k1" "provider" "alice" "ws" "search" "h" "0" sample_body].

Lemma sample_calls_ok : Forall op_ok sample_calls.
Proof.
  repeat constructor; simpl; try done; try apply sample_body_ok;
    try (by apply (bool_decide_unpack _)).
Qed.

Definition sample_replies : list reply :=
  (history (rt := coded_float_runtime) (dt := decimal_datetime) sample_calls calm
     (mkSim empty_db 0%nat)).1.
Definition sample_end : db :=
  s_db (history (rt := coded_float_runtime) (dt := decimal_datetime) sample_calls calm
          (mkSim empty_db 0%nat)).2.

Example sample_replies_eq :
  (λ r, match r with RRedeem x => redeem_reason x | RGov b => if b then "granted" else "refused"
        | RDone => "done" | RRaised _ => "raised" end) <$> sample_replies =
  ["done"; "done"; "ok"; "already_redeemed"; "done"; "granted"; "refused"].
Proof. vm_compute. reflexivity. Qed.

Lemma paired_empty {rt : PyFloatRuntime} : paired empty_db.
Proof. by intros gid g H. Qed.

Lemma log_survives_any_history_witness :
  ok (match verify_chain sample_end with
      | Ok v => v | Raise _ => mkVerification false 0 None "" end) = true ∧
  length (audit_t sample_end) = 5%nat.
Proof.
  split; [|vm_compute; reflexivity].
  destruct (log_survives_any_history (rt := coded_float_runtime) (dt := decimal_datetime)
    sample_calls calm empty_db 0%nat sample_calls_ok audit_ok_empty paired_empty) as (_ & H & _).
  fold sample_end in H. rewrite H. reflexivity.
Defined.

Definition issued_db : db :=
  s_db (history (rt := coded_float_runtime) (dt := decimal_datetime)
          [OIssue "g1" "d1" "alice" "ws" "search" "h" "0" "900000000" (Some 900)] calm
          (mkSim empty_db 0%nat)).2.
Definition issued_grant : grant_row :=
  mkGrantRow "d1" "alice" "ws" "search" "h" "0" "900000000" None None.

Lemma latches_are_permanent_witness :
  grants_t issued_db !! "g1" = Some issued_grant ∧
  ∃ g', grants_t (s_db (history (rt := coded_float_runtime) (dt := decimal_datetime)
                          [ORedeem "g1" "h" "alice" None] calm (mkSim issued_db 0%nat)).2) !! "g1"
        = Some g' ∧ latched issued_grant g'.
Proof.
  assert (grants_t issued_db !! "g1" = Some issued_grant) as H by (vm_compute; reflexivity).
  split; [exact H|].
  refine (proj1 (latches_are_permanent (rt := coded_float_runtime) (dt := decimal_datetime)
    [ORedeem "g1" "h" "alice" None] calm issued_db 0%nat _) "g1" issued_grant H).
  repeat constructor.
Defined.

Lemma grant_redeemed_at_most_once_witness :
  (redemptions_of (redeemed_by "g1") sample_calls sample_replies ≤ 1)%nat ∧
  redemptions_of (redeemed_by "g1") sample_calls sample_replies = 1%nat.
Proof.
  split; [|vm_compute; reflexivity].
  exact (proj1 (grant_redeemed_at_most_once (rt := coded_float_runtime) (dt := decimal_datetime)
    sample_calls calm empty_db 0%nat "g1" sample_calls_ok)).
Defined.

Lemma govgrant_redeemed_at_most_once_witness :
  (redemptions_of (gov_redeemed_by "v1") sample_calls sample_replies ≤ 1)%nat ∧
  redemptions_of (gov_redeemed_by "v1") sample_calls sample_replies = 1%nat.
Proof.
  split; [|vm_compute; reflexivity].
  exact (proj1 (govgrant_redeemed_at_most_once (rt := coded_float_runtime) (dt := decimal_datetime)
    sample_calls calm empty_db 0%nat "v1" sample_calls_ok)).
Defined.
