(* ===== verification/Statements.v ===== *)
(** [store.py], a method as the statements it runs on its connection.

    The acts of the store are run whole elsewhere.  Here the same acts are taken apart: a
    program is a tree of statements and readings of the world, derived from the act
    instance by instance, and running the program is running the act.  What happens
    between two statements can then be told apart ([Threads], [Writers]). *)

From S2P Require Import Prelude PyJson PyJsonLoads PyStr PyColl DateTime Sha256 Descriptor.
From S2P Require Import Catalog Db Policy AuditLog Grants Hydrate Store.

(** ** Programs *)

(** [Select] is a query, [Change] an [INSERT] or [UPDATE]: the statement that opens a
    transaction on a connection of [sqlite3] when none is open. *)
Inductive prog (A : Type) : Type :=
| Done (r : res A)
| Select {B} (f : db → B) (k : B → prog A)
| Change {B} (f : db → res B * db) (k : B → prog A)
| Now (k : Z → prog A)
| Uuid (k : string → prog A).
Arguments Done {A} _.
Arguments Select {A B} _ _.
Arguments Change {A B} _ _.
Arguments Now {A} _.
Arguments Uuid {A} _.

Fixpoint prog_bind {A B} (p : prog A) (q : A → prog B) : prog B :=
  match p with
  | Done (Ok a) => q a
  | Done (Raise e) => Done (Raise e)
  | Select f k => Select f (λ b, prog_bind (k b) q)
  | Change f k => Change f (λ b, prog_bind (k b) q)
  | Now k => Now (λ t, prog_bind (k t) q)
  | Uuid k => Uuid (λ u, prog_bind (k u) q)
  end.

(** A program as an act. *)
Fixpoint run {A} (p : prog A) : act A :=
  match p with
  | Done r => lift r
  | Select f k => b ← select f; run (k b)
  | Change f k => b ← sql f; run (k b)
  | Now k => t ← now; run (k t)
  | Uuid k => u ← uuid4_hex; run (k u)
  end.

(** ** Acts up to what they do *)

Definition act_eq {A} (m m' : act A) : Prop := ∀ o s, m o s = m' o s.
Infix "≈" := act_eq (at level 70).

#[global] Instance act_eq_equivalence {A} : Equivalence (@act_eq A).
Proof. split; [done|intros m m' H o s; by rewrite H|intros m1 m2 m3 H H' o s; by rewrite H, H']. Qed.

#[global] Instance bind_proper {A B} :
  Proper (pointwise_relation A (@act_eq B) ==> @act_eq A ==> @act_eq B) (@mbind act act_bind A B).
Proof. intros k k' Hk m m' Hm o s. unfold mbind, act_bind. rewrite Hm. destruct (m' o s) as [[a|e] s']; [apply Hk|done]. Qed.

#[global] Instance transaction_proper {A} : Proper (@act_eq A ==> @act_eq A) transaction.
Proof. intros m m' Hm o s. unfold transaction. by rewrite Hm. Qed.

#[global] Instance immediate_proper {A} : Proper (@act_eq (verdict A) ==> @act_eq A) immediate.
Proof. intros m m' Hm o s. unfold immediate. by rewrite Hm. Qed.

Lemma bind_assoc {A B C} (m : act A) (k : A → act B) (q : B → act C) :
  ((m ≫= k) ≫= q) ≈ (m ≫= λ a, k a ≫= q).
Proof. intros o s. unfold mbind, act_bind. by destruct (m o s) as [[a|e] s']. Qed.

Lemma run_bind {A B} (p : prog A) (q : A → prog B) : run (prog_bind p q) ≈ (a ← run p; run (q a)).
Proof.
  induction p as [[a|e]|C f k IH|C f k IH|k IH|k IH]; cbn [prog_bind run];
    [by intros o s..| | | |]; rewrite bind_assoc; f_equiv; intros b; apply IH.
Qed.

(** ** Taking acts apart *)

Class Stepwise {A} (m : act A) := mkStepwise { steps : prog A; steps_run : run steps ≈ m }.
Arguments steps {A} m {_}.

#[global] Instance stepwise_ret {A} (a : A) : Stepwise (mret a : act A).
Proof. exists (Done (Ok a)). done. Defined.
#[global] Instance stepwise_lift {A} (r : res A) : Stepwise (lift r).
Proof. exists (Done r). done. Defined.

Lemma bind_done {A} (m : act A) : (a ← m; lift (Ok a)) ≈ m.
Proof. intros o s. unfold mbind, act_bind. by destruct (m o s) as [[a|e] s']. Qed.

#[global] Instance stepwise_select {A} (f : db → A) : Stepwise (select f).
Proof. exists (Select f (λ b, Done (Ok b))). apply bind_done. Defined.
#[global] Instance stepwise_update (f : db → db) : Stepwise (update f).
Proof. exists (Change (λ d, (Ok tt, f d)) (λ b, Done (Ok b))). apply bind_done. Defined.
#[global] Instance stepwise_sql {A} (f : db → res A * db) : Stepwise (sql f) | 10.
Proof. exists (Change f (λ b, Done (Ok b))). apply bind_done. Defined.
#[global] Instance stepwise_now : Stepwise now.
Proof. exists (Now (λ t, Done (Ok t))). apply bind_done. Defined.
#[global] Instance stepwise_uuid : Stepwise uuid4_hex.
Proof. exists (Uuid (λ u, Done (Ok u))). apply bind_done. Defined.

#[global] Instance stepwise_bind {A B} (m : act A) (k : A → act B) (Hm : Stepwise m) (Hk : ∀ a, Stepwise (k a)) :
  Stepwise (m ≫= k).
Proof. exists (prog_bind (steps m) (λ a, steps (k a))). rewrite run_bind. f_equiv; [intros a; apply steps_run|apply steps_run]. Defined.

(** Walk through an act: instances, and a case of its own for each branch. *)
Ltac stepwise :=
  cbv zeta;
  lazymatch goal with
  | |- ∀ _, _ => intros ?; stepwise
  | |- Stepwise (match ?x with _ => _ end) => destruct x; stepwise
  | |- Stepwise (mbind _ _) => apply stepwise_bind; stepwise
  | |- Stepwise (mret _) => apply stepwise_ret
  | |- Stepwise (lift _) => apply stepwise_lift
  | |- Stepwise (select _) => apply stepwise_select
  | |- Stepwise (update _) => apply stepwise_update
  | |- Stepwise (sql _) => apply stepwise_sql
  | |- Stepwise now => apply stepwise_now
  | |- Stepwise uuid4_hex => apply stepwise_uuid
  | |- Stepwise _ => apply _
  end.

(** ** Methods *)

(** A method holds the lock and runs its statements in [with self._conn], or in its own
    [BEGIN IMMEDIATE]; what its caller gets is made of the result. *)
Inductive method (A : Type) : Type :=
| Within {B} (p : prog B) (f : B → A)
| Immediately {B} (p : prog (verdict B)) (f : B → A).
Arguments Within {A B} _ _.
Arguments Immediately {A B} _ _.

Definition run_method {A} (m : method A) : act A :=
  match m with
  | Within p f => b ← transaction (run p); mret (f b)
  | Immediately p f => b ← immediate (run p); mret (f b)
  end.

Section methods.
Context {rt : PyFloatRuntime} {dt : PyDatetime}.

#[export] Instance stepwise__now : Stepwise _now.
Proof. unfold _now. stepwise. Defined.
#[export] Instance stepwise_append kind body : Stepwise (_append_audit_in_txn kind body).
Proof. unfold _append_audit_in_txn. stepwise. Defined.
#[export] Instance stepwise_update_grant gid cond f : Stepwise (update_grant gid cond f).
Proof. unfold update_grant. stepwise. Defined.
#[export] Instance stepwise_kill gid g : Stepwise (kill_grant gid g).
Proof. unfold kill_grant. stepwise. Defined.
#[export] Instance stepwise_consume gid g pid : Stepwise (consume_grant gid g pid).
Proof. unfold consume_grant. stepwise. Defined.

Lemma within_run {A B} (m : act B) (f : B → A) (H : Stepwise m) :
  run_method (Within (steps m) f) ≈ (b ← transaction m; mret (f b)).
Proof. cbn. by rewrite steps_run. Qed.
Lemma immediately_run {A B} (m : act (verdict B)) (f : B → A) (H : Stepwise m) :
  run_method (Immediately (steps m) f) ≈ (b ← immediate m; mret (f b)).
Proof. cbn. by rewrite steps_run. Qed.

(** The method behind each operation of the store. *)
Definition method_for (op : store_op) : { m : method reply | run_method m ≈ exec op }.
Proof.
  destruct op; unfold exec, append_audit, set_meta, upsert_source, upsert_tool, upsert_assertion, record_discovery,
    issue_grant, redeem_grant, close_grant, record_govgrant_redemption;
  cbv zeta;
  match goal with
  | |- { m | _ ≈ (b ← transaction ?body; mret (@?f b)) } =>
      let H := fresh in assert (H : Stepwise body) by stepwise;
      exact (exist _ (Within (steps body) f) (within_run body f H))
  | |- { m | _ ≈ (b ← immediate ?body; mret (@?f b)) } =>
      let H := fresh in assert (H : Stepwise body) by stepwise;
      exact (exist _ (Immediately (steps body) f) (immediately_run body f H))
  end.
Defined.

Definition method_of (op : store_op) : method reply := proj1_sig (method_for op).

Lemma run_method_of op : run_method (method_of op) ≈ exec op.
Proof. exact (proj2_sig (method_for op)). Qed.
End methods.
