(* ===== verification/Threads.v ===== *)
(** [store.py] under threads: what may happen between the statements of a method.

    A thread calls methods of a store one after another, each call made of the answers so
    far.  A store has a connection and a lock; a method takes the lock, runs its
    statements one by one on the connection, and releases it; any thread may move between
    any two statements.  [sqlite3] opens the transaction of [with self._conn] at the
    first [INSERT] or [UPDATE]; the database has one writer at a time, and a query outside
    a transaction reads what is committed.

    Threads of one process share a store: their calls take effect one after another, in
    the order in which they return.  Several processes have a store each on one file: see
    [Writers]. *)

From S2P Require Import Prelude PyJson PyJsonLoads PyStr PyColl DateTime Sha256 Descriptor.
From S2P Require Import Catalog Db Policy AuditLog Grants Hydrate Store Statements.

(** ** The machine *)

(** What a thread does next: nothing more, call a method, or run one query. *)
Inductive client :=
| Finished
| Call (op : store_op) (k : reply → client)
| Query {B} (f : db → B) (k : res B → client).

(** Every call a thread can come to make is one of these. *)
Fixpoint calls_all (P : store_op → Prop) (c : client) : Prop :=
  match c with
  | Finished => True
  | Call op k => P op ∧ ∀ r, calls_all P (k r)
  | Query f k => ∀ r, calls_all P (k r)
  end.
(** Arguments as the service passes them. *)
Definition calls_ok : client → Prop := calls_all op_ok.

Inductive thread :=
| Idle (c : client)
| Running (op : store_op) (m : method reply) (k : reply → client).

(** [committed] is the file, [writing] the thread whose connection has an open write
    transaction and what it sees, [holders] the thread that has each connection's lock,
    [trace] the calls that returned. *)
Record shared := mkShared {
  committed : db;
  writing : option (nat * db);
  holders : gmap nat nat;
  threads : list thread;
  trace : list (nat * store_op * reply);
}.

(** What the world decides at a step: whether the statement fails, what the clock shows
    and which identifier is drawn. *)
Record choice := mkChoice { ch_fault : bool; ch_clock : Z; ch_fresh : string }.

Section machine.
Context {rt : PyFloatRuntime} {dt : PyDatetime}.
(** The connection of each thread. *)
Context (conn : nat → nat).

(** What a thread's connection sees. *)
Definition visible (i : nat) (c : shared) : db :=
  match writing c with
  | Some (j, d) => if decide (i = j) then d else committed c
  | None => committed c
  end.

Definition failed {A} : prog A := Done (Raise OperationalError).

(** One statement of a program, or [None] while another connection writes. *)
Definition statement {B} (i : nat) (ch : choice) (c : shared) (p : prog B) : option (prog B * option (nat * db)) :=
  match p with
  | Done r => None
  | Select f k => Some (if ch_fault ch then failed else k (f (visible i c)), writing c)
  | Change f k =>
      if ch_fault ch then Some (failed, writing c)
      else
        match writing c with
        | Some (j, _) =>
            if decide (i = j) then
              let '(r, d) := f (visible i c) in
              Some (match r with Ok b => k b | Raise e => Done (Raise e) end, Some (i, d))
            else None
        | None =>
            let '(r, d) := f (visible i c) in
            Some (match r with Ok b => k b | Raise e => Done (Raise e) end, Some (i, d))
        end
  | Now k => Some (k (ch_clock ch), writing c)
  | Uuid k => Some (k (ch_fresh ch), writing c)
  end.

(** The write transaction of a thread ends, if it has one. *)
Definition ended (i : nat) (w : option (nat * db)) : option (nat * db) :=
  match w with Some (j, _) => if decide (i = j) then None else w | None => None end.

(** A method returns, leaving the file as [d]. *)
Definition finish (i : nat) (op : store_op) (r : reply) (k : reply → client) (d : db) (c : shared) : shared :=
  mkShared d (ended i (writing c)) (delete (conn i) (holders c)) (<[i := Idle (k r)]> (threads c))
    (trace c ++ [(i, op, r)]).

Definition commit {B} (i : nat) (op : store_op) (f : B → reply) (b : B) (k : reply → client) (ch : choice) (c : shared) :
    shared :=
  if ch_fault ch then finish i op (RRaised OperationalError) k (committed c) c else finish i op (f b) k (visible i c) c.

Definition continue (i : nat) (op : store_op) (m : method reply) (k : reply → client) (w : option (nat * db)) (c : shared) :
    shared :=
  mkShared (committed c) w (holders c) (<[i := Running op m k]> (threads c)) (trace c).

Definition locked (i : nat) (c : shared) : shared :=
  mkShared (committed c) (writing c) (<[conn i := i]> (holders c)) (threads c) (trace c).

(** A call begins: the lock is free, and for [BEGIN IMMEDIATE] so is the file. *)
Definition enter (i : nat) (ch : choice) (op : store_op) (k : reply → client) (c : shared) : option shared :=
  match method_of op with
  | Within p f => Some (continue i op (Within p f) k (writing c) (locked i c))
  | Immediately p f =>
      if ch_fault ch then Some (finish i op (RRaised OperationalError) k (committed c) (locked i c))
      else
        match writing c with
        | Some _ => None
        | None => Some (continue i op (Immediately p f) k (Some (i, committed c)) (locked i c))
        end
  end.

(** What a running method does next. *)
Definition advance (i : nat) (ch : choice) (op : store_op) (m : method reply) (k : reply → client) (c : shared) :
    option shared :=
  match m with
  | Within (Done (Ok b)) f => Some (commit i op f b k ch c)
  | Immediately (Done (Ok (Commit b))) f => Some (commit i op f b k ch c)
  | Immediately (Done (Ok (Rollback b))) f => Some (finish i op (f b) k (committed c) c)
  | Within (Done (Raise e)) _ | Immediately (Done (Raise e)) _ => Some (finish i op (RRaised e) k (committed c) c)
  | Within p f => '(p', w) ← statement i ch c p; Some (continue i op (Within p' f) k w c)
  | Immediately p f => '(p', w) ← statement i ch c p; Some (continue i op (Immediately p' f) k w c)
  end.

(** A step of thread [i], or [None] when it cannot move. *)
Definition step (i : nat) (ch : choice) (c : shared) : option shared :=
  match threads c !! i with
  | Some (Idle (Call op k)) => match holders c !! conn i with Some _ => None | None => enter i ch op k c end
  | Some (Idle (Query f k)) =>
      match holders c !! conn i with
      | Some _ => None
      | None =>
          let r := if ch_fault ch then Raise OperationalError else Ok (f (committed c)) in
          Some (mkShared (committed c) (writing c) (holders c) (<[i := Idle (k r)]> (threads c)) (trace c))
      end
  | Some (Running op m k) => advance i ch op m k c
  | _ => None
  end.

Fixpoint schedule (s : list (nat * choice)) (c : shared) : option shared :=
  match s with
  | [] => Some c
  | (i, ch) :: s' => c' ← step i ch c; schedule s' c'
  end.

Definition start (clients : list client) (d : db) : shared := mkShared d None ∅ (Idle <$> clients) [].

Definition calls (c : shared) : list store_op := (λ e, e.1.2) <$> trace c.
Definition answers (c : shared) : list reply := (λ e, e.2) <$> trace c.
End machine.

(** ** One store *)

Section one_store.
Context {rt : PyFloatRuntime} {dt : PyDatetime}.
Context (conn : nat → nat) (one : ∀ i j, conn i = conn j).

(** An oracle that decides as the world did. *)
Definition says (o : oracle) (t : nat) (chs : list choice) : Prop :=
  ∀ n ch, chs !! n = Some ch →
  fault o (t + n) = ch_fault ch ∧ clock o (t + n) = ch_clock ch ∧ fresh o (t + n) = ch_fresh ch.

Lemma says_app o t l1 l2 : says o t (l1 ++ l2) ↔ says o t l1 ∧ says o (t + length l1) l2.
Proof.
  split.
  - intros H. split; intros n ch Hn; [apply H; by apply lookup_app_l_Some|].
    specialize (H (length l1 + n)%nat ch). rewrite lookup_app_r in H by lia.
    replace (length l1 + n - length l1)%nat with n in H by lia. rewrite Nat.add_assoc in H. auto.
  - intros [H1 H2] n ch [Hn|[Hle Hn]]%lookup_app_Some; [auto|]. specialize (H2 _ _ Hn).
    by replace (t + n)%nat with (t + length l1 + (n - length l1))%nat by lia.
Qed.

Lemma says_one o t ch : says o t [ch] → fault o t = ch_fault ch ∧ clock o t = ch_clock ch ∧ fresh o t = ch_fresh ch.
Proof. intros H. specialize (H 0%nat ch eq_refl). by rewrite Nat.add_0_r in H. Qed.

Definition oracle_of (chs : list choice) : oracle :=
  let at_ n := default (mkChoice false 0 "") (chs !! n) in
  mkOracle (λ n, ch_clock (at_ n)) (λ n, ch_fault (at_ n)) (λ n, ch_fresh (at_ n)).

Lemma oracle_of_says chs : says (oracle_of chs) 0 chs.
Proof. intros n ch Hn. cbn. by rewrite Hn. Qed.

(** The rest of a transaction on a file that was [saved] when it began. *)
Definition closing {A} (saved : db) (m : act A) : act A := λ o s,
  match m o s with
  | (Ok a, s') =>
      if fault o (s_tick s') then (Raise OperationalError, mkSim saved (S (s_tick s')))
      else (Ok a, mkSim (s_db s') (S (s_tick s')))
  | (Raise e, s') => (Raise e, mkSim saved (s_tick s'))
  end.

Definition closing_immediate {A} (saved : db) (m : act (verdict A)) : act A := λ o s,
  match m o s with
  | (Ok (Rollback a), s') => (Ok a, mkSim saved (S (s_tick s')))
  | (Ok (Commit a), s') =>
      if fault o (s_tick s') then (Raise OperationalError, mkSim saved (S (s_tick s')))
      else (Ok a, mkSim (s_db s') (S (s_tick s')))
  | (Raise e, s') => (Raise e, mkSim saved (s_tick s'))
  end.

Definition resume {A} (saved : db) (m : method A) : act A :=
  match m with
  | Within p f => b ← closing saved (run p); mret (f b)
  | Immediately p f => b ← closing_immediate saved (run p); mret (f b)
  end.

(** A statement of the machine is one of the program. *)
Lemma statement_run {B} i ch c (p p' : prog B) w o t :
  statement i ch c p = Some (p', w) →
  fault o t = ch_fault ch → clock o t = ch_clock ch → fresh o t = ch_fresh ch →
  run p o (mkSim (visible i c) t) =
    run p' o (mkSim (visible i (mkShared (committed c) w (holders c) (threads c) (trace c))) (S t)).
Proof.
  intros Hs Hf Hc Hu. destruct p as [r|C f k|C f k|k|k]; cbn [statement] in Hs; [done|..].
  - injection Hs as <- <-. cbn. unfold mbind, act_bind, select, sql. cbn. rewrite Hf. by destruct (ch_fault ch).
  - cbn. unfold mbind, act_bind, sql. cbn. rewrite Hf. destruct (ch_fault ch); [by injection Hs as <- <-|].
    destruct (f (visible i c)) as [[b|e] d] eqn:Hfd; destruct (writing c) as [[j dj]|];
      try (case_decide as Hij; [|done]); injection Hs as <- <-; cbn; unfold visible; cbn; by rewrite decide_True.
  - injection Hs as <- <-. cbn. unfold mbind, act_bind, now. cbn. by rewrite Hc.
  - injection Hs as <- <-. cbn. unfold mbind, act_bind, uuid4_hex. cbn. by rewrite Hu.
Qed.

Lemma history_app l1 l2 o s :
  history (l1 ++ l2) o s =
    ((history l1 o s).1 ++ (history l2 o (history l1 o s).2).1, (history l2 o (history l1 o s).2).2).
Proof.
  revert s. induction l1 as [|op l1 IH]; intros s; cbn; [by destruct (history l2 o s)|].
  destruct (exec op o s) as [r s1]. rewrite IH. by destruct (history l1 o s1).
Qed.

Definition reply_of (r : res reply) : reply := match r with Ok x => x | Raise e => RRaised e end.

(** The calls that returned were made one after another, [past] being what the world
    decided for them. *)
Definition serial (d0 : db) (past : list choice) (c : shared) : Prop :=
  ∀ o, says o 0 past → history (calls c) o (mkSim d0 0) = (answers c, mkSim (committed c) (length past)).

(** [m] is what is left of [op], [chs] what the world decided for it so far. *)
Definition on_the_way (past chs : list choice) (i : nat) (op : store_op) (m : method reply) (c : shared) : Prop :=
  ∀ o, says o (length past) chs →
  exec op o (mkSim (committed c) (length past)) =
    resume (committed c) m o (mkSim (visible i c) (length past + length chs)).

Definition idle (t : thread) : Prop := match t with Idle _ => True | Running _ _ _ => False end.

Definition inside (past : list choice) (i : nat) (c : shared) : Prop :=
  ∃ op m k chs, threads c !! i = Some (Running op m k) ∧
    (∀ j t, j ≠ i → threads c !! j = Some t → idle t) ∧
    (∀ j d, writing c = Some (j, d) → j = i) ∧ on_the_way past chs i op m c.

Definition orderly (d0 : db) (c : shared) : Prop :=
  ∃ past, serial d0 past c ∧
    match holders c !! conn 0 with
    | None => writing c = None ∧ ∀ j t, threads c !! j = Some t → idle t
    | Some i => inside past i c
    end.

(** A call ends as [exec] does. *)
Lemma serial_extend d0 past chs i op r rr d c c' t :
  serial d0 past c →
  (∀ o, says o (length past) chs → exec op o (mkSim (committed c) (length past)) = (rr, mkSim d t)) →
  t = (length past + length chs)%nat → r = reply_of rr →
  trace c' = trace c ++ [(i, op, r)] → committed c' = d → serial d0 (past ++ chs) c'.
Proof.
  intros Hs He Ht Hr Htr Hd o [Ho1 Ho2]%says_app. unfold calls, answers. rewrite Htr, !fmap_app. cbn [fmap list_fmap].
  rewrite history_app. pose proof (Hs o Ho1) as Hh. unfold calls, answers in Hh. rewrite Hh. cbn [fst snd history].
  rewrite (He o Ho2). cbn. rewrite length_app, Hd, Ht, Hr. by destruct rr.
Qed.

(** Nobody but [i] is running or writing. *)
Definition alone (i : nat) (c : shared) : Prop :=
  (i < length (threads c))%nat ∧ (∀ j t, j ≠ i → threads c !! j = Some t → idle t) ∧
  (∀ j d, writing c = Some (j, d) → j = i).

Lemma inserted_idle i t c j t' :
  alone i c → idle t → <[i := t]> (threads c) !! j = Some t' → idle t'.
Proof.
  intros (_ & Hidle & _) Ht [(-> & <- & _)|[Hne Hj]]%list_lookup_insert_Some; [done|]. by eapply Hidle.
Qed.

Lemma inside_alone past i c : inside past i c → alone i c.
Proof. intros (op & m & k & chs & Hi & Hidle & Hw & _). split_and!; [by eapply lookup_lt_Some|done..]. Qed.

Lemma finish_orderly d0 past chs i op r rr k d c t :
  serial d0 past c → alone i c →
  (∀ o, says o (length past) chs → exec op o (mkSim (committed c) (length past)) = (rr, mkSim d t)) →
  t = (length past + length chs)%nat → r = reply_of rr → orderly d0 (finish conn i op r k d c).
Proof.
  intros Hs Ha He Ht Hr. exists (past ++ chs). split; [by eapply serial_extend|].
  cbn. rewrite (one i 0), lookup_delete_eq. split.
  - destruct Ha as (_ & _ & Hw). unfold ended. destruct (writing c) as [[j dj]|]; [|done].
    rewrite decide_True; [done|]. symmetry. by eapply Hw.
  - intros j t' Hj. by eapply inserted_idle in Hj.
Qed.

(** A method goes on. *)
Lemma continue_orderly d0 past chs i op m k w c :
  serial d0 past c → alone i c → holders c !! conn 0 = Some i → (∀ j d, w = Some (j, d) → j = i) →
  on_the_way past chs i op m (continue i op m k w c) → orderly d0 (continue i op m k w c).
Proof.
  intros Hs (Hlt & Hidle & _) Hh Hw Hway. exists past. split; [exact Hs|]. cbn. rewrite Hh.
  exists op, m, k, chs. cbn. split_and!; [by rewrite list_lookup_insert_eq| |done|done].
  intros j t Hne Hj. rewrite list_lookup_insert_ne in Hj by done. by eapply Hidle.
Qed.

Lemma statement_writing {B} i ch c (p p' : prog B) w :
  alone i c → statement i ch c p = Some (p', w) → ∀ j d, w = Some (j, d) → j = i.
Proof.
  intros (_ & _ & Hw) Hs j d ->. destruct p as [r|C f k|C f k|k|k]; cbn in Hs; [done|..];
    repeat (case_match; simplify_eq/=); simplify_eq/=; by eauto.
Qed.

(** What is left of a method shrinks by the statement that ran. *)
Lemma on_the_way_step past chs i op m m' k w ch c :
  on_the_way past chs i op m c →
  (∀ o t, fault o t = ch_fault ch → clock o t = ch_clock ch → fresh o t = ch_fresh ch →
    resume (committed c) m o (mkSim (visible i c) t) =
    resume (committed c) m' o (mkSim (visible i (continue i op m' k w c)) (S t))) →
  on_the_way past (chs ++ [ch]) i op m' (continue i op m' k w c).
Proof.
  intros Hway Hm o [Ho1 Ho2]%says_app. apply says_one in Ho2 as (Hf & Hc & Hu). cbn [committed continue].
  rewrite (Hway o Ho1), (Hm o _ Hf Hc Hu), length_app. do 2 f_equal. cbn. lia.
Qed.

(** Either way of closing a transaction lets its statements run first. *)
Lemma within_resume {B} (f : B → reply) (q q' : prog B) saved o s s' :
  run q o s = run q' o s' → resume saved (Within q f) o s = resume saved (Within q' f) o s'.
Proof. intros Hq. cbn. unfold mbind, act_bind, closing. by rewrite Hq. Qed.
Lemma immediately_resume {B} (f : B → reply) (q q' : prog (verdict B)) saved o s s' :
  run q o s = run q' o s' → resume saved (Immediately q f) o s = resume saved (Immediately q' f) o s'.
Proof. intros Hq. cbn. unfold mbind, act_bind, closing_immediate. by rewrite Hq. Qed.

Lemma statement_way {B} past chs i op k ch c (p p' : prog B) (mk : prog B → method reply) w :
  (∀ q q' saved o s s', run q o s = run q' o s' → resume saved (mk q) o s = resume saved (mk q') o s') →
  on_the_way past chs i op (mk p) c → statement i ch c p = Some (p', w) →
  on_the_way past (chs ++ [ch]) i op (mk p') (continue i op (mk p') k w c).
Proof.
  intros Hmk Hway Hst. apply (on_the_way_step _ _ _ _ (mk p)); [done|]. intros o t Hf Hc Hu. apply Hmk.
  by rewrite (statement_run _ _ _ _ _ _ _ _ Hst Hf Hc Hu).
Qed.

(** [BEGIN IMMEDIATE]. *)
Lemma begin_way {B} past i ch op k (p : prog (verdict B)) f c :
  method_of op = Immediately p f → ch_fault ch = false →
  on_the_way past [ch] i op (Immediately p f) (continue i op (Immediately p f) k (Some (i, committed c)) c).
Proof.
  intros Hm Hch o (Hf & _ & _)%says_one. pose proof (run_method_of op) as Hrun. rewrite Hm in Hrun.
  rewrite <- Hrun. unfold visible. cbn. rewrite decide_True by done.
  unfold mbind, act_bind, immediate. cbn. rewrite Hf, Hch. by rewrite Nat.add_1_r.
Qed.

Lemma enter_orderly d0 past i ch op k c c' :
  serial d0 past c → alone i c → writing c = None → enter conn i ch op k c = Some c' → orderly d0 c'.
Proof.
  intros Hs Ha Hw He. pose proof (run_method_of op) as Hrun. unfold enter in He.
  assert (∀ h, holders (locked conn i h) !! conn 0 = Some i) as Hlock.
  { intros h. cbn. by rewrite (one i 0), lookup_insert_eq. }
  destruct (method_of op) as [B p f|B p f] eqn:Hm.
  - injection He as <-. eapply (continue_orderly _ past []); [done|done|apply Hlock|by rewrite Hw|].
    intros o _. unfold visible. cbn. rewrite Hw, Nat.add_0_r, <- Hrun. done.
  - destruct (ch_fault ch) eqn:Hch; [|rewrite Hw in He]; injection He as <-.
    + eapply (finish_orderly _ past [ch] i op _ (Raise OperationalError)); [done|done| |done|done].
      intros o (Hf & _ & _)%says_one. rewrite <- Hrun. cbn. unfold mbind, act_bind, immediate. cbn.
      rewrite Hf, Hch. cbn. do 2 f_equal. lia.
    + eapply (continue_orderly _ past [ch]); [done|done|apply Hlock|by intros j d [= <- <-]|].
      by apply (begin_way past i ch op k p f (locked conn i c)).
Qed.

(** The end of a transaction: committed, failed to commit, or rolled back. *)
Lemma closing_end {B} (f : B → reply) (r : res B) d v o t :
  resume d (Within (Done r) f) o (mkSim v t) =
    match r with
    | Ok b => if fault o t then (Raise OperationalError, mkSim d (S t)) else (Ok (f b), mkSim v (S t))
    | Raise e => (Raise e, mkSim d t)
    end.
Proof. cbn. unfold mbind, act_bind, closing. cbn. destruct r; cbn; [by destruct (fault o t)|done]. Qed.

Lemma closing_immediate_end {B} (f : B → reply) (r : res (verdict B)) d v o t :
  resume d (Immediately (Done r) f) o (mkSim v t) =
    match r with
    | Ok (Commit b) => if fault o t then (Raise OperationalError, mkSim d (S t)) else (Ok (f b), mkSim v (S t))
    | Ok (Rollback b) => (Ok (f b), mkSim d (S t))
    | Raise e => (Raise e, mkSim d t)
    end.
Proof. cbn. unfold mbind, act_bind, closing_immediate. cbn. destruct r as [[b|b]|e]; cbn; [by destruct (fault o t)|done..]. Qed.

Section advance.
Context (d0 : db) (past chs : list choice) (i : nat) (op : store_op) (k : reply → client) (c : shared).
Context (Hs : serial d0 past c) (Ha : alone i c) (Hh : holders c !! conn 0 = Some i).

Lemma statement_orderly {B} (p p' : prog B) (mk : prog B → method reply) w ch :
  (∀ q q' saved o s s', run q o s = run q' o s' → resume saved (mk q) o s = resume saved (mk q') o s') →
  on_the_way past chs i op (mk p) c → statement i ch c p = Some (p', w) → orderly d0 (continue i op (mk p') k w c).
Proof.
  intros Hmk Hway Hst. eapply (continue_orderly _ past (chs ++ [ch])); [done..|by eapply statement_writing|].
  by eapply statement_way.
Qed.

Lemma raised_orderly m e :
  on_the_way past chs i op m c →
  (∀ o t, resume (committed c) m o (mkSim (visible i c) t) = (Raise e, mkSim (committed c) t)) →
  orderly d0 (finish conn i op (RRaised e) k (committed c) c).
Proof.
  intros Hway Hm. eapply (finish_orderly _ past chs i op _ (Raise e)); [done|done| |done|done].
  intros o Ho. by rewrite (Hway o Ho), Hm.
Qed.

Lemma ended_orderly m ch r rr d :
  on_the_way past chs i op m c →
  (∀ o t, fault o t = ch_fault ch → resume (committed c) m o (mkSim (visible i c) t) = (rr, mkSim d (S t))) →
  r = reply_of rr → orderly d0 (finish conn i op r k d c).
Proof.
  intros Hway Hm Hr. eapply (finish_orderly _ past (chs ++ [ch]) i op _ rr); [done|done| |done|done].
  intros o [Ho (Hf & _ & _)%says_one]%says_app. rewrite (Hway o Ho), (Hm o _ Hf), length_app. do 2 f_equal. cbn. lia.
Qed.

Lemma advance_orderly ch m c' :
  on_the_way past chs i op m c → advance conn i ch op m k c = Some c' → orderly d0 c'.
Proof.
  intros Hway Hadv. destruct m as [B p f|B p f]; cbn in Hadv.
  - assert ((∃ r, p = Done r) ∨ ∃ p' w, statement i ch c p = Some (p', w) ∧ c' = continue i op (Within p' f) k w c)
      as [[r ->]|(p' & w & Hst & ->)].
    { destruct p as [r|C g q|C g q|q|q]; [by left; eexists|right..];
        apply bind_Some in Hadv as ([p' w] & Hst & [= <-]); by exists p', w. }
    + destruct r as [b|e]; injection Hadv as <-.
      * unfold commit. destruct (ch_fault ch) eqn:Hf; eapply (ended_orderly _ ch _ _ _ Hway);
          try (intros o t Ho; rewrite closing_end, Ho, Hf; done); done.
      * apply (raised_orderly _ _ Hway). intros o t. by rewrite closing_end.
    + apply (statement_orderly p p' (λ p, Within p f) w ch); [|done|done].
      apply within_resume.
  - assert ((∃ r, p = Done r) ∨ ∃ p' w, statement i ch c p = Some (p', w) ∧ c' = continue i op (Immediately p' f) k w c)
      as [[r ->]|(p' & w & Hst & ->)].
    { destruct p as [r|C g q|C g q|q|q]; [by left; eexists|right..];
        apply bind_Some in Hadv as ([p' w] & Hst & [= <-]); by exists p', w. }
    + destruct r as [[b|b]|e]; injection Hadv as <-.
      * unfold commit. destruct (ch_fault ch) eqn:Hf; eapply (ended_orderly _ ch _ _ _ Hway);
          try (intros o t Ho; rewrite closing_immediate_end, Ho, Hf; done); done.
      * eapply (ended_orderly _ ch _ (Ok (f b)) _ Hway); [|done]. intros o t Ho. by rewrite closing_immediate_end.
      * apply (raised_orderly _ _ Hway). intros o t. by rewrite closing_immediate_end.
    + apply (statement_orderly p p' (λ p, Immediately p f) w ch); [|done|done].
      apply immediately_resume.
Qed.
End advance.

Lemma step_orderly d0 i ch c c' : orderly d0 c → step conn i ch c = Some c' → orderly d0 c'.
Proof.
  intros (past & Hs & Hh) Hstep. unfold step in Hstep. destruct (threads c !! i) as [t|] eqn:Hi; [|done].
  assert (i < length (threads c))%nat as Hlt by (by eapply lookup_lt_Some).
  destruct t as [[|op k|B f k]|op m k]; [done|..]; rewrite ?(one i 0) in Hstep.
  - destruct (holders c !! conn 0); [done|]. destruct Hh as [Hw Hidle].
    eapply (enter_orderly _ past); [done| |done|exact Hstep]. split_and!; [done|by eauto|by rewrite Hw].
  - destruct (holders c !! conn 0) eqn:Hn; [done|]. destruct Hh as [Hw Hidle]. injection Hstep as <-.
    exists past. split; [exact Hs|]. cbn. rewrite Hn. split; [done|].
    intros j t' [(-> & <- & _)|[_ Hj]]%list_lookup_insert_Some; [done|by eapply Hidle].
  - destruct (holders c !! conn 0) as [h|] eqn:Hn; [|by destruct Hh as [_ Hidle]; specialize (Hidle _ _ Hi)].
    pose proof (inside_alone _ _ _ Hh) as Ha. destruct Hh as (op' & m' & k' & chs & Hr & Hidle & _ & Hway).
    destruct (decide (i = h)) as [-> |Hne]; [|by specialize (Hidle _ _ Hne Hi)].
    rewrite Hi in Hr. injection Hr as <- <- <-. by eapply advance_orderly.
Qed.

Lemma schedule_orderly d0 s : ∀ c c', orderly d0 c → schedule conn s c = Some c' → orderly d0 c'.
Proof.
  induction s as [|[i ch] s IH]; intros c c' Hc Hs; cbn in Hs; [by injection Hs as <-|].
  apply bind_Some in Hs as (c1 & H1 & Hs). eapply IH; [|exact Hs]. by eapply step_orderly.
Qed.

Lemma start_orderly clients d : orderly d (start clients d).
Proof.
  exists []. split; [by intros o _|]. cbn. split; [done|]. intros j t Hj.
  apply list_lookup_fmap_Some in Hj as (cl & -> & _). done.
Qed.

Lemma advance_moves past i ch c : inside past i c → is_Some (step conn i ch c).
Proof.
  intros (op & m & k & chs & Hi & _ & Hw & _). unfold step. rewrite Hi.
  assert (∀ {B} (p : prog B), (∃ r, p = Done r) ∨ is_Some (statement i ch c p)) as Hst.
  { intros B p. destruct p as [r|C f q|C f q|q|q]; [by left; eexists|right; cbn..]; try by eexists.
    destruct (ch_fault ch); [by eexists|].
    destruct (writing c) as [[j dj]|] eqn:E; [rewrite decide_True by (by symmetry; eapply Hw)|];
      destruct (f (visible i c)); by eexists. }
  destruct m as [B p f|B p f]; destruct (Hst _ p) as [[r ->]|[[p' w] Hp]]; cbn.
  - destruct r; by eexists.
  - rewrite Hp. destruct p; cbn in Hp; [done|by eexists..].
  - destruct r as [[]|]; by eexists.
  - rewrite Hp. destruct p; cbn in Hp; [done|by eexists..].
Qed.

(** C13 -- Threads of a process sharing a store: however their statements are interleaved and
    whatever fails, the calls that returned have the answers and the database the same calls
    have one after another, in the order in which they returned. *)
Theorem calls_take_effect_one_by_one clients d s c :
  schedule conn s (start clients d) = Some c →
  ∃ o t, history (calls c) o (mkSim d 0) = (answers c, mkSim (committed c) t).
Proof.
  intros (past & Hs & _)%(schedule_orderly d); [|apply start_orderly].
  exists (oracle_of past), (length past). apply Hs, oracle_of_says.
Qed.

(** No deadlock: as long as a thread has something to do there is a thread that moves
    whatever the world decides. *)
Theorem threads_never_deadlock clients d s c :
  schedule conn s (start clients d) = Some c →
  Exists (λ t, match t with Idle Finished => False | _ => True end) (threads c) →
  ∃ i, ∀ ch, is_Some (step conn i ch c).
Proof.
  intros (past & Hs & Hh)%(schedule_orderly d); [|apply start_orderly].
  intros (t & Hin & Ht)%Exists_exists. destruct (holders c !! conn 0) as [i|] eqn:Hn.
  { exists i. intros ch. by eapply advance_moves. }
  destruct Hh as [Hw Hidle]. apply list_elem_of_lookup in Hin as [j Hj]. exists j. intros ch.
  specialize (Hidle _ _ Hj). unfold step. rewrite Hj. destruct t as [[|op k|B f k]|]; try done; rewrite (one j 0), Hn; [|by eexists].
  unfold enter. destruct (method_of op); [by eexists|]. rewrite Hw. destruct (ch_fault ch); by eexists.
Qed.
End one_store.
