(* ===== verification/Writers.v ===== *)
(** [store.py] with several writers: a store per process, all on one database file.

    The program is meant to be the only writer; [redeem_grant] is written so that a
    second one does no harm.  Shown here, over every interleaving of statements of any
    number of processes: a grant is redeemed once, latches and records last, and calls that
    write before they read take effect one by one.  [append_audit] reads the end of the
    log before its transaction is open, so two processes can fork the chain. *)

From S2P Require Import Prelude PyJson PyJsonLoads PyStr PyColl DateTime Sha256 Descriptor.
From S2P Require Import Catalog Db Policy AuditLog Grants Hydrate Store Statements Threads.

(** ** What lasts *)

Section lasting.
Context {rt : PyFloatRuntime} {dt : PyDatetime}.

(** Records stay in place, grants keep their latches, redemptions stay on file. *)
Record lasting (d d' : db) : Prop := {
  ls_log : ∃ rows, audit_t d' = audit_t d ++ rows;
  ls_grants gid g : grants_t d !! gid = Some g → ∃ g', grants_t d' !! gid = Some g' ∧ latched g g';
  ls_redemptions gid r : redemptions_t d !! gid = Some r → redemptions_t d' !! gid = Some r;
}.

#[export] Instance lasting_refl : Reflexive lasting.
Proof.
  intros d. split; try done; [by exists []; rewrite app_nil_r|].
  intros gid g H. exists g. split; [done|apply latched_refl].
Qed.

#[export] Instance lasting_trans : Transitive lasting.
Proof.
  intros d1 d2 d3 [[l1 L1] G1 R1] [[l2 L2] G2 R2]. split; auto.
  - exists (l1 ++ l2). by rewrite L2, L1, app_assoc.
  - intros gid g H. destruct (G1 _ _ H) as (g2 & H2 & La). destruct (G2 _ _ H2) as (g3 & H3 & Lb).
    exists g3. split; [done|]. by eapply latched_trans.
Qed.

Lemma good_lasting d d' : good_step d d' → lasting d d'.
Proof. intros []. by split. Qed.

(** Every statement of a program, whatever was read before it. *)
Fixpoint changes (R : db → db → Prop) {A} (p : prog A) : Prop :=
  match p with
  | Done _ => True
  | Select f k => ∀ b, changes R (k b)
  | Change f k => (∀ d, R d (f d).2) ∧ ∀ b, changes R (k b)
  | Now k => ∀ t, changes R (k t)
  | Uuid k => ∀ u, changes R (k u)
  end.

Lemma changes_bind R {A B} (p : prog A) (q : A → prog B) :
  changes R p → (∀ a, changes R (q a)) → changes R (prog_bind p q).
Proof.
  intros Hp Hq. induction p as [[a|e]|C f k IH|C f k IH|k IH|k IH]; cbn in *; try done; [by intros b; apply IH| | |].
  - destruct Hp as [Hf Hp]. split; [done|]. intros b. by apply IH.
  - intros t. by apply IH.
  - intros u. by apply IH.
Qed.

Definition method_changes (R : db → db → Prop) {A} (m : method A) : Prop :=
  match m with Within p _ => changes R p | Immediately p _ => changes R p end.

Lemma lasting_meta k v d : lasting d (upsert_meta k v d).
Proof. split; cbn; [by exists []; rewrite app_nil_r|intros gid g H; exists g; by split; [|apply latched_refl]|done]. Qed.

Lemma lasting_append r d : lasting d (insert_audit r d).
Proof. split; cbn; [by eexists|intros gid g H; exists g; by split; [|apply latched_refl]|done]. Qed.

Lemma lasting_grant gid g d :
  (∀ g0, grants_t d !! gid = Some g0 → latched g0 g) → lasting d (put_grant gid g d).
Proof.
  intros Hg. split; cbn; [by exists []; rewrite app_nil_r| |done]. intros gid0 g0 H.
  destruct (decide (gid = gid0)) as [<-|Hne]; [exists g; rewrite lookup_insert_eq; auto|].
  exists g0. rewrite lookup_insert_ne by done. split; [done|apply latched_refl].
Qed.

(** Walk through the statements of a method. *)
Ltac walk :=
  cbn;
  lazymatch goal with
  | |- ∀ _, _ => intros ?; walk
  | |- changes _ (prog_bind _ _) => apply changes_bind; walk
  | |- changes _ (steps (match ?x with _ => _ end)) => destruct x; walk
  | |- changes _ (match ?x with _ => _ end) => destruct x; walk
  | |- _ ∧ _ => split; walk
  | |- True => exact I
  | |- _ => idtac
  end.

Lemma update_grant_lasting gid (cond : grant_row → bool) f d :
  (∀ g, cond g = true → latched g (f g)) →
  lasting d (match grants_t d !! gid with
             | Some g => if cond g then (Ok 1, put_grant gid (f g) d) else (Ok 0, d)
             | None => (Ok 0, d)
             end).2.
Proof.
  intros Hf. destruct (grants_t d !! gid) as [g|] eqn:Hg; [|done].
  destruct (cond g) eqn:Hc; [|done]. apply lasting_grant. intros g0 H0. rewrite Hg in H0.
  injection H0 as <-. by apply Hf.
Qed.

Lemma close_latched at_ g : is_none (gr_closed_at g) = true → latched g (set_closed at_ g).
Proof. intros H. apply set_closed_latched. by destruct (gr_closed_at g). Qed.

Lemma insert_grant_lasting gid g d :
  lasting d (if decide (grants_t d !! gid = None) then (Ok tt, put_grant gid g d) else (Raise IntegrityError : res unit, d)).2.
Proof. case_decide as H; [|done]. apply lasting_grant. intros g0 H0. congruence. Qed.

Lemma same_tables_lasting d d' :
  audit_t d' = audit_t d → grants_t d' = grants_t d → redemptions_t d' = redemptions_t d → lasting d d'.
Proof.
  intros Ha Hg Hr. split; [exists []; by rewrite app_nil_r| |by rewrite Hr].
  intros gid g H. exists g. rewrite Hg. split; [done|apply latched_refl].
Qed.

Lemma within_lasts op : match method_of op with Within p _ => changes lasting p | Immediately _ _ => True end.
Proof.
  destruct op; walk; try apply lasting_append; try apply lasting_meta; try apply insert_grant_lasting;
    try (apply update_grant_lasting; apply close_latched); by apply same_tables_lasting.
Qed.

(** ** One use *)

(** The two things that are used once: a grant, or with [gov] a governance grant. *)
Definition claimed (gov : bool) (gid : string) (x : store_op * reply) : bool :=
  if gov then gov_redeemed_by gid x else redeemed_by gid x.
Definition unspent (gov : bool) (gid : string) (d : db) : Prop :=
  if gov then redemptions_t d !! gid = None else live gid d.
Definition spent (gov : bool) (gid : string) (d : db) : Prop :=
  if gov then is_Some (redemptions_t d !! gid) else is_Some (grants_t d !! gid) ∧ ¬ live gid d.

Lemma spent_lasts gov gid d d' : lasting d d' → spent gov gid d → spent gov gid d'.
Proof.
  intros [_ Hg Hr]. destruct gov; cbn; [intros [r H]; rewrite (Hr _ _ H); by eexists|].
  intros [[g H] Hdead]. destruct (Hg _ _ H) as (g' & H' & L). split; [by eexists|].
  intros (g2 & H2 & Hr2 & Hc2). rewrite H' in H2. injection H2 as <-. apply Hdead. exists g. split_and!; [done|..].
  - destruct (gr_redeemed_at g) eqn:E; [|done]. rewrite (la_redeemed _ _ L) in Hr2 by congruence. congruence.
  - destruct (gr_closed_at g) eqn:E; [|done]. destruct (la_closed _ _ L ltac:(congruence)) as [Hc' _]. congruence.
Qed.

Lemma spent_not_unspent gov gid d : spent gov gid d → ¬ unspent gov gid d.
Proof. destruct gov; cbn; [intros [r ->]; done|tauto]. Qed.

(** A call run whole that claims something found it unspent and spends it. *)
Lemma exec_claims op o d t r s' gov gid :
  op_ok op → exec op o (mkSim d t) = (r, s') →
  lasting d (s_db s') ∧
  (claimed gov gid (op, reply_of r) = true → unspent gov gid d ∧ spent gov gid (s_db s')).
Proof.
  intros Hop He. pose proof (exec_good any_world op d Hop o t I) as H. rewrite He in H.
  destruct s' as [d' t']. destruct H as [Hg Hr]. split; [by apply good_lasting|]. cbn. intros Hc.
  destruct r as [r|e]; [|by destruct gov, op]. unfold claimed in Hc. destruct gov; cbn in Hc.
  - destruct op, r as [| |[]|]; try done. apply bool_decide_eq_true in Hc as <-. exact Hr.
  - destruct op, r as [|r| |]; try done. apply andb_true_iff in Hc as [<-%bool_decide_eq_true Hc].
    destruct (Hr Hc) as (Hl & g' & Hg' & Hn). split; [done|]. split; [by exists g'|].
    intros (g2 & H2 & Hr2 & _). simpl in *. simplify_eq/=.
Qed.

Definition claims (op : store_op) : bool :=
  match op with ORedeem _ _ _ _ | OGov _ _ _ _ _ _ _ _ _ _ _ => true | _ => false end.

Lemma claimed_claims gov gid op r : claims op = false → claimed gov gid (op, r) = false.
Proof. by destruct gov, op. Qed.
Lemma claimed_raised gov gid op e : claimed gov gid (op, RRaised e) = false.
Proof. by destruct gov, op. Qed.

Lemma within_no_claim op B (p : prog B) f : method_of op = Within p f → claims op = false.
Proof. by destruct op. Qed.

Definition claim_count (gov : bool) (gid : string) (c : shared) : nat :=
  length (filter (λ e, claimed gov gid (e.1.2, e.2) = true) (trace c)).

(** ** Any number of stores *)

Section writers.
Context (conn : nat → nat).

Definition thread_ok (c : shared) (i : nat) (t : thread) : Prop :=
  match t with
  | Idle cl => calls_ok cl
  | Running op m k =>
      op_ok op ∧ (∀ r, calls_ok (k r)) ∧
      match m with
      | Within p f => claims op = false ∧ changes lasting p ∧ ∀ w, writing c = Some (i, w) → lasting (committed c) w
      | Immediately p f => (∃ w, writing c = Some (i, w)) ∧ ∃ chs, on_the_way [] chs i op m c
      end
  end.

Record secured (d0 : db) (c : shared) : Prop := mkSecured {
  se_lasting : lasting d0 (committed c);
  se_once gov gid : (claim_count gov gid c ≤ 1)%nat ∧
    (claim_count gov gid c ≠ 0%nat → spent gov gid (committed c) ∧ ¬ spent gov gid d0);
  se_threads i t : threads c !! i = Some t → thread_ok c i t;
  se_writing i w : writing c = Some (i, w) → ∃ op m k, threads c !! i = Some (Running op m k);
}.

(** A thread is not affected by what another connection does, short of a commit while it writes. *)
Lemma thread_ok_frame c c' i t :
  (∀ w, writing c' = Some (i, w) ↔ writing c = Some (i, w)) →
  ((∃ w, writing c = Some (i, w)) → committed c' = committed c) →
  thread_ok c i t → thread_ok c' i t.
Proof.
  intros Hw Hc. destruct t as [cl|op m k]; [done|]. intros (Hop & Hk & Hm). split_and!; [done..|].
  destruct m as [B p f|B p f].
  - destruct Hm as (Hcl & Hch & Hl). split_and!; [done..|]. intros w Hw'%Hw. rewrite Hc by eauto. by apply Hl.
  - destruct Hm as [[w Hi] (chs & Hway)]. split; [exists w; by apply Hw|]. exists chs. intros o Ho.
    specialize (Hway o Ho). rewrite Hc by eauto. rewrite Hway. do 2 f_equal. unfold visible.
    rewrite Hi, (proj2 (Hw w) Hi). by rewrite !decide_True.
Qed.

(** The write transaction of another thread is left alone, and so is the file while it lasts. *)
Definition quiet (i : nat) (c c' : shared) : Prop :=
  ∀ j, j ≠ i → (∀ w, writing c' = Some (j, w) ↔ writing c = Some (j, w)) ∧
    ((∃ w, writing c = Some (j, w)) → committed c' = committed c).

Lemma move_secured d0 i t c c' :
  secured d0 c → quiet i c c' → threads c' = <[i := t]> (threads c) → (i < length (threads c))%nat →
  lasting (committed c) (committed c') → thread_ok c' i t →
  (∀ w, writing c' = Some (i, w) → ∃ op m k, t = Running op m k) →
  (∀ gov gid, claim_count gov gid c' = claim_count gov gid c ∨
     claim_count gov gid c' = S (claim_count gov gid c) ∧ unspent gov gid (committed c) ∧ spent gov gid (committed c')) →
  secured d0 c'.
Proof.
  intros [Hl Ho Ht Hw] Hq Hth Hlt Hl' Hti Hwi Hcount. split.
  - by transitivity (committed c).
  - intros gov gid. destruct (Ho gov gid) as [Hle Hsp]. destruct (Hcount gov gid) as [->|(-> & Hu & Hs)].
    + split; [done|]. intros Hn. destruct (Hsp Hn) as [Hs Hd]. split; [by eapply spent_lasts|done].
    + assert (claim_count gov gid c = 0)%nat as ->.
      { destruct (claim_count gov gid c) eqn:E; [done|]. destruct Hsp as [Hs' _]; [done|]. by apply spent_not_unspent in Hs'. }
      split; [done|]. intros _. split; [done|]. intros Hs0. apply (spent_lasts _ _ _ (committed c)) in Hs0; [|done].
      by apply spent_not_unspent in Hs0.
  - intros j tj Hj. rewrite Hth in Hj. apply list_lookup_insert_Some in Hj as [(<- & <- & _)|[Hne Hj]]; [done|].
    destruct (Hq j ltac:(congruence)). eapply thread_ok_frame; [done..|by apply Ht].
  - intros j w Hj. rewrite Hth. destruct (decide (j = i)) as [-> |Hne].
    + destruct (Hwi _ Hj) as (op & m & k & ->). exists op, m, k. by rewrite list_lookup_insert_eq.
    + rewrite list_lookup_insert_ne by done. eapply Hw. by apply (Hq j Hne).
Qed.

Lemma count_same gov gid c c' i op r :
  trace c' = trace c ++ [(i, op, r)] → claimed gov gid (op, r) = false → claim_count gov gid c' = claim_count gov gid c.
Proof.
  intros Ht Hc. unfold claim_count. rewrite Ht, filter_app, filter_cons, decide_False by (cbn; congruence).
  rewrite filter_nil. by rewrite app_nil_r.
Qed.

Lemma count_more gov gid c c' i op r :
  trace c' = trace c ++ [(i, op, r)] → claimed gov gid (op, r) = true →
  claim_count gov gid c' = S (claim_count gov gid c).
Proof.
  intros Ht Hc. unfold claim_count. rewrite Ht, filter_app, filter_cons, decide_True by done.
  rewrite filter_nil, length_app. cbn. lia.
Qed.

Lemma ended_other i j w d : j ≠ i → ended i w = Some (j, d) ↔ w = Some (j, d).
Proof. intros Hne. unfold ended. destruct w as [[x dx]|]; [|done]. case_decide as Hx; [|done]. split; [done|]. intros [= <- _]. congruence. Qed.

Lemma ended_self i w d : ended i w ≠ Some (i, d).
Proof. unfold ended. destruct w as [[x dx]|]; [|done]. case_decide; [done|]. intros [= ? _]. congruence. Qed.

Lemma finish_quiet i op r k d c : d = committed c ∨ d = visible i c → quiet i c (finish conn i op r k d c).
Proof.
  intros Hd j Hne. cbn. split; [intros w; by apply ended_other|]. intros [w Hw]. destruct Hd as [-> | ->]; [done|].
  unfold visible. rewrite Hw. by rewrite decide_False by congruence.
Qed.

(** A method returns: what it leaves on file is what its connection saw, or nothing new. *)
Lemma finish_secured d0 i op m r k d c :
  secured d0 c → (i < length (threads c))%nat → (∀ r, calls_ok (k r)) →
  d = committed c ∨ d = visible i c → lasting (committed c) d →
  (∀ gov gid, claimed gov gid (op, r) = true → unspent gov gid (committed c) ∧ spent gov gid d) →
  m = finish conn i op r k d c → secured d0 m.
Proof.
  intros Hsec Hlt Hk Hd Hl Hcl ->. eapply (move_secured d0 i (Idle (k r)) c); [done|..]; try done.
  - by apply finish_quiet.
  - by apply Hk.
  - intros w Hw. by apply ended_self in Hw.
  - intros gov gid. destruct (claimed gov gid (op, r)) eqn:E.
    + right. split; [by eapply count_more|by apply Hcl].
    + left. by eapply count_same.
Qed.

Lemma quiet_lock i c w :
  (∀ j d, j ≠ i → w = Some (j, d) ↔ writing c = Some (j, d)) →
  ∀ op m k, quiet i c (continue i op m k w (locked conn i c)) ∧ quiet i c (continue i op m k w c).
Proof. intros Hw op m k. split; intros j Hne; (split; [intros d; by apply Hw|done]). Qed.

Lemma locked_secured d0 i c : secured d0 c → secured d0 (locked conn i c).
Proof. intros []. by split. Qed.

Lemma enter_secured d0 i ch op k c c' :
  secured d0 c → threads c !! i = Some (Idle (Call op k)) → enter conn i ch op k c = Some c' → secured d0 c'.
Proof.
  intros Hsec Hi He. pose proof (se_threads _ _ Hsec _ _ Hi) as [Hop Hk].
  assert (i < length (threads c))%nat as Hlt by (by eapply lookup_lt_Some).
  assert (∀ w, writing c ≠ Some (i, w)) as Hnw.
  { intros w (op' & m & k' & Hr)%(se_writing _ _ Hsec). congruence. }
  unfold enter in He. pose proof (within_lasts op) as Hl. destruct (method_of op) as [B p f|B p f] eqn:Hm.
  - injection He as <-. eapply (move_secured d0 i (Running op (Within p f) k) c);
      [done|by apply quiet_lock|done|done|done| | |by left]; [|by intros w Hw; apply Hnw in Hw].
    split_and!; [done..|by eapply within_no_claim|done|]. by intros w Hw; apply Hnw in Hw.
  - destruct (ch_fault ch) eqn:Hf; [|destruct (writing c) eqn:Hw; [done|]]; injection He as <-.
    + eapply (finish_secured d0 i op); [by apply locked_secured|done|done|by left|done| |done].
      intros gid gov. by rewrite claimed_raised.
    + eapply (move_secured d0 i (Running op (Immediately p f) k) c); [done| |done|done|done| | |by left].
      * apply quiet_lock. intros j d Hne. rewrite Hw. split; [intros [= <- _]; done|done].
      * split_and!; [done..|by eexists|]. exists [ch]. by apply (begin_way [] i ch op k p f (locked conn i c)).
      * by intros w Hw'; do 3 eexists.
Qed.

Lemma statement_quiet {B} i ch c (p p' : prog B) w :
  statement i ch c p = Some (p', w) → ∀ j d, j ≠ i → w = Some (j, d) ↔ writing c = Some (j, d).
Proof.
  intros Hs j d Hne. destruct p as [r|C f k|C f k|k|k]; cbn in Hs; [done|..]; [by injection Hs as _ <-| |by injection Hs as _ <-..].
  destruct (ch_fault ch); [by injection Hs as _ <-|].
  destruct (writing c) as [[x dx]|]; [case_decide as Hx; [subst x|done]|]; destruct (f (visible i c)) as [r d'];
    injection Hs as _ <-; (split; [intros [= <- _]; done|intros H; by simplify_eq]).
Qed.

Lemma statement_keeps {B} i ch c (p p' : prog B) w d :
  statement i ch c p = Some (p', w) → writing c = Some (i, d) → ∃ d', w = Some (i, d').
Proof.
  intros Hs Hw. destruct p as [r|C f k|C f k|k|k]; cbn in Hs; [done|..]; [injection Hs as _ <-; by eexists| |injection Hs as _ <-; by eexists..].
  destruct (ch_fault ch); [injection Hs as _ <-; by eexists|]. rewrite Hw, decide_True in Hs by done.
  destruct (f (visible i c)) as [r d']. injection Hs as _ <-. by eexists.
Qed.

Lemma statement_changes {B} R `{!Transitive R, !Reflexive R} i ch c (p p' : prog B) w :
  changes R p → (∀ d, writing c = Some (i, d) → R (committed c) d) → statement i ch c p = Some (p', w) →
  changes R p' ∧ ∀ d, w = Some (i, d) → R (committed c) d.
Proof.
  intros Hp Hw Hs. assert (R (committed c) (visible i c)) as Hv.
  { unfold visible. destruct (writing c) as [[x dx]|]; [|done]. case_decide; [|done]. subst x. by apply Hw. }
  destruct p as [r|C f k|C f k|k|k]; cbn in Hs, Hp; [done|..].
  - injection Hs as <- <-. split; [|done]. by destruct (ch_fault ch).
  - destruct Hp as [Hf Hk]. destruct (ch_fault ch); [by injection Hs as <- <-|]. specialize (Hf (visible i c)).
    destruct (writing c) as [[x dx]|]; [case_decide as Hx; [subst x|done]|]; destruct (f (visible i c)) as [r d'];
      injection Hs as <- <-; (split; [by destruct r|]); intros d [= <-]; by transitivity (visible i c).
  - by injection Hs as <- <-.
  - by injection Hs as <- <-.
Qed.

Section advance.
Context (d0 : db) (i : nat) (op : store_op) (k : reply → client) (c : shared).
Context (Hsec : secured d0 c) (Hlt : (i < length (threads c))%nat) (Hop : op_ok op) (Hk : ∀ r, calls_ok (k r)).

Lemma raised_secured e : secured d0 (finish conn i op (RRaised e) k (committed c) c).
Proof. eapply (finish_secured d0 i op); [done..|by left|done| |done]. intros gov gid. by rewrite claimed_raised. Qed.

Lemma continue_secured {B} (p p' : prog B) m ch w :
  statement i ch c p = Some (p', w) → thread_ok (continue i op m k w c) i (Running op m k) →
  secured d0 (continue i op m k w c).
Proof.
  intros Hst Hok. eapply (move_secured d0 i (Running op m k) c); [done| |done|done|done|done| |by left].
  - apply quiet_lock. by eapply statement_quiet.
  - intros d _. by exists op, m, k.
Qed.

Lemma within_secured {B} (p : prog B) f ch c' :
  thread_ok c i (Running op (Within p f) k) → advance conn i ch op (Within p f) k c = Some c' → secured d0 c'.
Proof.
  intros (_ & _ & Hcl & Hch & Hl) Hadv.
  assert (lasting (committed c) (visible i c)) as Hv.
  { unfold visible. destruct (writing c) as [[x dx]|]; [|done]. case_decide; [|done]. subst x. by apply Hl. }
  cbn in Hadv. destruct p as [[b|e]|C g q|C g q|q|q].
  1: { injection Hadv as <-. unfold commit. destruct (ch_fault ch); [apply raised_secured|].
    eapply (finish_secured d0 i op); [done..|by right|done| |done]. intros gov gid. by rewrite claimed_claims. }
  1: { injection Hadv as <-. apply raised_secured. }
  all: apply bind_Some in Hadv as ([p' w] & Hst & [= <-]); eapply continue_secured; [exact Hst|];
    destruct (statement_changes lasting _ _ _ _ _ _ Hch Hl Hst); done.
Qed.

Lemma immediately_secured {B} (p : prog (verdict B)) f ch c' :
  thread_ok c i (Running op (Immediately p f) k) → advance conn i ch op (Immediately p f) k c = Some c' → secured d0 c'.
Proof.
  intros (_ & _ & [w Hw] & chs & Hway) Hadv.
  assert (∀ r d, resume (committed c) (Immediately p f) (oracle_of (chs ++ [ch])) (mkSim (visible i c) (length chs)) =
      (Ok r, mkSim d (S (length chs))) →
    lasting (committed c) d ∧ ∀ gov gid, claimed gov gid (op, r) = true → unspent gov gid (committed c) ∧ spent gov gid d) as Hend.
  { intros r d Hr. pose proof (oracle_of_says (chs ++ [ch])) as [Ho _]%says_app.
    pose proof (Hway _ Ho) as He. cbn [length Nat.add] in He. rewrite Hr in He.
    split; [exact (proj1 (exec_claims _ _ _ _ _ _ false "" Hop He))|].
    intros gov gid. exact (proj2 (exec_claims _ _ _ _ _ _ gov gid Hop He)). }
  assert (fault (oracle_of (chs ++ [ch])) (length chs) = ch_fault ch) as Hfault.
  { pose proof (oracle_of_says (chs ++ [ch])) as [_ (Hf & _)%says_one]%says_app. exact Hf. }
  cbn [advance] in Hadv. destruct p as [[[b|b]|e]|C g q|C g q|q|q].
  1: { injection Hadv as <-. unfold commit. destruct (ch_fault ch) eqn:Hf; [apply raised_secured|].
    destruct (Hend (f b) (visible i c)) as [Hl Hc]; [by rewrite closing_immediate_end, Hfault|].
    eapply (finish_secured d0 i op); [done..|by right|done|exact Hc|done]. }
  1: { injection Hadv as <-. destruct (Hend (f b) (committed c)) as [Hl Hc]; [by rewrite closing_immediate_end|].
    eapply (finish_secured d0 i op); [done..|by left|done|exact Hc|done]. }
  1: { injection Hadv as <-. apply raised_secured. }
  all: apply bind_Some in Hadv as ([p' w'] & Hst & [= <-]); eapply continue_secured; [exact Hst|];
    (split_and!; [done..|by eapply statement_keeps|exists (chs ++ [ch])]);
    (eapply (statement_way _ _ _ _ _ _ _ _ _ (λ p, Immediately p f)); [apply immediately_resume|done|done]).
Qed.
End advance.

Lemma step_secured d0 i ch c c' : secured d0 c → step conn i ch c = Some c' → secured d0 c'.
Proof.
  intros Hsec Hstep. unfold step in Hstep. destruct (threads c !! i) as [t|] eqn:Hi; [|done].
  assert (i < length (threads c))%nat as Hlt by (by eapply lookup_lt_Some).
  pose proof (se_threads _ _ Hsec _ _ Hi) as Hok. destruct t as [[|op k|B f k]|op m k]; [done|..].
  - destruct (holders c !! conn i); [done|]. by eapply enter_secured.
  - destruct (holders c !! conn i); [done|]. injection Hstep as <-.
    eapply (move_secured d0 i (Idle (k _)) c); [done| |done|done|done| | |by left].
    + by intros j Hne.
    + apply Hok.
    + intros w Hw. apply (se_writing _ _ Hsec) in Hw as (op & m & k' & Hr). congruence.
  - pose proof Hok as (Hop & Hk & _). destruct m; [by eapply within_secured|by eapply immediately_secured].
Qed.

Lemma schedule_secured d0 s : ∀ c c', secured d0 c → schedule conn s c = Some c' → secured d0 c'.
Proof.
  induction s as [|[i ch] s IH]; intros c c' Hc Hs; cbn in Hs; [by injection Hs as <-|].
  apply bind_Some in Hs as (c1 & H1 & Hs). eapply IH; [|exact Hs]. by eapply step_secured.
Qed.

Lemma start_secured clients d : Forall calls_ok clients → secured d (start clients d).
Proof.
  intros Hok. split; [done| | |done].
  - intros gov gid. by split; [cbn; lia|].
  - intros i t Hi. apply list_lookup_fmap_Some in Hi as (cl & -> & Hcl). rewrite Forall_lookup in Hok. by apply (Hok i).
Qed.

(** C12 -- Any number of processes on one database, their statements interleaved in any way:
    a grant is answered redeemed once, a governance grant claimed once, neither if that
    was so at the start; every record of the log stays where it is and no latch or
    redemption on file is undone. *)
Theorem used_once_by_any_writers clients d s c :
  Forall calls_ok clients → schedule conn s (start clients d) = Some c →
  lasting d (committed c) ∧
  ∀ gov gid, (claim_count gov gid c ≤ 1)%nat ∧ (spent gov gid d → claim_count gov gid c = 0%nat).
Proof.
  intros Hok Hs. pose proof (schedule_secured d s _ _ (start_secured clients d Hok) Hs) as Hsec.
  split; [apply Hsec|]. intros gov gid. destruct (se_once _ _ Hsec gov gid) as [Hle Hsp]. split; [done|].
  intros Hd. destruct (claim_count gov gid c); [done|]. by destruct Hsp.
Qed.

(** ** Calls that write before they read *)

Fixpoint writes_first {A} (p : prog A) : Prop :=
  match p with
  | Done _ | Change _ _ => True
  | Select _ _ => False
  | Now k => ∀ t, writes_first (k t)
  | Uuid k => ∀ u, writes_first (k u)
  end.
Definition begins_writing {A} (m : method A) : Prop :=
  match m with Within p _ => writes_first p | Immediately _ _ => False end.

(** [append_audit] and [close_grant] read first; everything else writes first or takes the
    write lock at once. *)
Definition reads_first (op : store_op) : bool :=
  match op with OAppend _ _ | OClose _ _ => true | _ => false end.

Lemma writes_first_bind {A B} (p : prog A) (q : A → prog B) :
  writes_first p → (∀ a, writes_first (q a)) → writes_first (prog_bind p q).
Proof. intros Hp Hq. induction p as [[a|e]|C f k IH|C f k IH|k IH|k IH]; cbn in *; try done; intros x; by apply IH. Qed.

Ltac walk_first :=
  cbn;
  lazymatch goal with
  | |- ∀ _, _ => intros ?; walk_first
  | |- writes_first (prog_bind _ _) => apply writes_first_bind; walk_first
  | |- writes_first (steps (match ?x with _ => _ end)) => destruct x; walk_first
  | |- writes_first (match ?x with _ => _ end) => destruct x; walk_first
  | |- _ => done
  end.

Lemma begins op :
  reads_first op = false → match method_of op with Within p _ => writes_first p | Immediately _ _ => True end.
Proof. destruct op; (intros [=] || intros _); walk_first. Qed.

(** Nothing the method did so far depends on the database. *)
Definition unstarted (chs : list choice) (i : nat) (op : store_op) (m : method reply) : Prop :=
  ∀ past c, visible i c = committed c → on_the_way past chs i op m c.

Definition patient : client → Prop := calls_all (λ op, reads_first op = false).

Definition turn_ok (c : shared) (i : nat) (t : thread) : Prop :=
  match t with
  | Idle cl => patient cl
  | Running op m k =>
      (∀ r, patient (k r)) ∧
      ∃ chs, (∀ past, on_the_way past chs i op m c) ∧
        ((∀ w, writing c ≠ Some (i, w)) → unstarted chs i op m ∧ begins_writing m)
  end.

Record turns (d0 : db) (c : shared) : Prop := mkTurns {
  tu_serial : ∃ past, serial d0 past c;
  tu_threads i t : threads c !! i = Some t → turn_ok c i t;
  tu_writing i w : writing c = Some (i, w) → ∃ op m k, threads c !! i = Some (Running op m k);
}.

Lemma not_writing_visible i c : (∀ w, writing c ≠ Some (i, w)) → visible i c = committed c.
Proof. intros H. unfold visible. destruct (writing c) as [[x dx]|]; [|done]. case_decide; [|done]. subst x. by specialize (H dx). Qed.

Lemma on_the_way_same past chs i op m c c' :
  committed c' = committed c → visible i c' = visible i c → on_the_way past chs i op m c → on_the_way past chs i op m c'.
Proof. intros Hc Hv H o Ho. rewrite Hc, Hv. by apply H. Qed.

Lemma turn_ok_frame i c c' j t : quiet i c c' → j ≠ i → turn_ok c j t → turn_ok c' j t.
Proof.
  intros Hq Hne. destruct (Hq j Hne) as [Hw Hc]. destruct t as [cl|op m k]; [done|].
  intros (Hk & chs & Hway & Hun). split; [done|]. exists chs. split.
  - intros past. destruct (decide (is_Some (writing c))) as [[[x w] Hx]|Hn].
    + destruct (decide (x = j)) as [-> |Hx']; [|assert (∀ w, writing c ≠ Some (j, w)) as Hno by congruence;
        apply Hun; [done|apply not_writing_visible; intros w'; by rewrite Hw]].
      eapply on_the_way_same; [| |apply Hway]; [apply Hc; by eexists|]. unfold visible. by rewrite Hx, (proj2 (Hw w) Hx), !decide_True.
    + assert (∀ w, writing c ≠ Some (j, w)) as Hno by (intros w Hx; apply Hn; by eexists).
      apply Hun; [done|apply not_writing_visible; intros w'; by rewrite Hw].
  - intros Hno. apply Hun. intros w Hx. by apply (Hno w), Hw.
Qed.

Lemma move_turns d0 i t c c' :
  turns d0 c → quiet i c c' → threads c' = <[i := t]> (threads c) → (i < length (threads c))%nat →
  (∃ past, serial d0 past c') → turn_ok c' i t → (∀ w, writing c' = Some (i, w) → ∃ op m k, t = Running op m k) →
  turns d0 c'.
Proof.
  intros [_ Ht Hw] Hq Hth Hlt Hs Hti Hwi. split; [done|..].
  - intros j tj Hj. rewrite Hth in Hj. apply list_lookup_insert_Some in Hj as [(<- & <- & _)|[Hne Hj]]; [done|].
    eapply turn_ok_frame; [done|congruence|by apply Ht].
  - intros j w Hj. rewrite Hth. destruct (decide (j = i)) as [-> |Hne].
    + destruct (Hwi _ Hj) as (op & m & k & ->). exists op, m, k. by rewrite list_lookup_insert_eq.
    + rewrite list_lookup_insert_ne by done. eapply Hw. by apply (Hq j Hne).
Qed.

Lemma finish_turns d0 i op m r rr k d c chs :
  turns d0 c → (i < length (threads c))%nat → (∀ r, patient (k r)) → d = committed c ∨ d = visible i c →
  (∀ (past : list choice) o, says o (length past) chs →
     exec op o (mkSim (committed c) (length past)) = (rr, mkSim d (length past + length chs))) →
  r = reply_of rr → m = finish conn i op r k d c → turns d0 m.
Proof.
  intros Ht Hlt Hk Hd He Hr ->. eapply (move_turns d0 i (Idle (k r)) c); [done|by apply finish_quiet|done|done| |apply Hk|].
  - destruct (tu_serial _ _ Ht) as [past Hs]. exists (past ++ chs). eapply serial_extend; [exact Hs|apply He|done..].
  - intros w Hw. by apply ended_self in Hw.
Qed.

Lemma locked_turns d0 i c : turns d0 c → turns d0 (locked conn i c).
Proof. intros []. by split. Qed.

Lemma enter_turns d0 i ch op k c c' :
  turns d0 c → threads c !! i = Some (Idle (Call op k)) → enter conn i ch op k c = Some c' → turns d0 c'.
Proof.
  intros Hst Hi He. pose proof (tu_threads _ _ Hst _ _ Hi) as [Hop Hk].
  assert (i < length (threads c))%nat as Hlt by (by eapply lookup_lt_Some).
  assert (∀ w, writing c ≠ Some (i, w)) as Hnw.
  { intros w (op' & m & k' & Hr)%(tu_writing _ _ Hst). congruence. }
  unfold enter in He. pose proof (begins op Hop) as Hb. pose proof (run_method_of op) as Hrun.
  destruct (method_of op) as [B p f|B p f] eqn:Hm.
  - injection He as <-. eapply (move_turns d0 i (Running op (Within p f) k) c);
      [done|by apply quiet_lock|done|done|exact (tu_serial _ _ Hst)| |by intros w Hw; apply Hnw in Hw].
    assert (unstarted [] i op (Within p f)) as Hun.
    { intros past c0 Hv o _. rewrite Hv, Nat.add_0_r, <- Hrun. done. }
    split; [exact Hk|]. exists []. split; [intros past; apply Hun; by apply not_writing_visible|done].
  - destruct (ch_fault ch) eqn:Hf; [|destruct (writing c) eqn:Hw; [done|]]; injection He as <-.
    + eapply (finish_turns d0 i op _ _ (Raise OperationalError) k _ (locked conn i c) [ch]);
        [by apply locked_turns|done|done|by left| |done|done].
      intros past o (Ho & _ & _)%says_one. rewrite <- Hrun. cbn. unfold mbind, act_bind, immediate. cbn.
      rewrite Ho, Hf. cbn. do 2 f_equal. lia.
    + eapply (move_turns d0 i (Running op (Immediately p f) k) c); [done| |done|done|exact (tu_serial _ _ Hst)| |].
      * apply quiet_lock. intros j d Hne. rewrite Hw. split; [intros [= <- _]; done|done].
      * split; [exact Hk|]. exists [ch]. split; [intros past; by apply (begin_way past i ch op k p f (locked conn i c))|].
        intros Hno. by specialize (Hno (committed c)).
      * by intros w Hw'; do 3 eexists.
Qed.

(** A statement that does not write does not look at the database either. *)
Lemma statement_unstarted {B} i op (k : reply → client) ch c (p p' : prog B) f w chs :
  unstarted chs i op (Within p f) → writes_first p → statement i ch c p = Some (p', w) →
  (∀ d, w ≠ Some (i, d)) → unstarted (chs ++ [ch]) i op (Within p' f) ∧ writes_first p'.
Proof.
  intros Hun Hp Hst Hno.
  assert (writes_first p' ∧ ∀ c0, statement i ch c0 p = Some (p', writing c0)) as [Hp' Hsame].
  { destruct p as [r|C g q|C g q|q|q]; cbn in Hst, Hp; [done|done|..].
    - destruct (ch_fault ch) eqn:Hf; [injection Hst as <- <-; cbn; by rewrite Hf|]. exfalso.
      destruct (writing c) as [[x dx]|]; [case_decide; [|done]|]; destruct (g (visible i c)) as [r d];
        injection Hst as _ <-; by specialize (Hno d).
    - by injection Hst as <- <-.
    - by injection Hst as <- <-. }
  split; [|done]. intros past c0 Hv.
  pose proof (statement_way past chs i op k ch c0 p p' (λ p, Within p f) (writing c0) (within_resume f)
    (Hun past c0 Hv) (Hsame c0)) as H. exact H.
Qed.

Section advance_turns.
Context (d0 : db) (i : nat) (op : store_op) (k : reply → client) (c : shared).
Context (Hst : turns d0 c) (Hlt : (i < length (threads c))%nat) (Hk : ∀ r, patient (k r)).

Lemma raised_turns m e chs :
  (∀ past, on_the_way past chs i op m c) →
  (∀ o t, resume (committed c) m o (mkSim (visible i c) t) = (Raise e, mkSim (committed c) t)) →
  turns d0 (finish conn i op (RRaised e) k (committed c) c).
Proof.
  intros Hway Hm. eapply (finish_turns d0 i op _ _ (Raise e) k _ c chs); [done..|by left| |done|done].
  intros past o Ho. by rewrite (Hway past o Ho), Hm.
Qed.

Lemma ended_turns m ch r rr d chs :
  (∀ past, on_the_way past chs i op m c) → d = committed c ∨ d = visible i c →
  (∀ o t, fault o t = ch_fault ch → resume (committed c) m o (mkSim (visible i c) t) = (rr, mkSim d (S t))) →
  r = reply_of rr → turns d0 (finish conn i op r k d c).
Proof.
  intros Hway Hd Hm Hr. eapply (finish_turns d0 i op _ _ rr k _ c (chs ++ [ch])); [done..| |done|done].
  intros past o [Ho (Hf & _ & _)%says_one]%says_app. rewrite (Hway past o Ho), (Hm o _ Hf), length_app.
  do 2 f_equal. cbn. lia.
Qed.

Lemma continue_turns {B} (p p' : prog B) m ch w :
  statement i ch c p = Some (p', w) → turn_ok (continue i op m k w c) i (Running op m k) →
  turns d0 (continue i op m k w c).
Proof.
  intros Hs Hok. eapply (move_turns d0 i (Running op m k) c);
    [done| |done|done|exact (tu_serial _ _ Hst)|done|intros d _; by exists op, m, k].
  apply quiet_lock. by eapply statement_quiet.
Qed.

Lemma within_turns {B} (p : prog B) f ch c' :
  turn_ok c i (Running op (Within p f) k) → advance conn i ch op (Within p f) k c = Some c' → turns d0 c'.
Proof.
  intros (_ & chs & Hway & Hun) Hadv. cbn in Hadv. destruct p as [[b|e]|C g q|C g q|q|q].
  1: { injection Hadv as <-. unfold commit. destruct (ch_fault ch) eqn:Hf.
    - eapply (ended_turns _ ch _ (Raise OperationalError) _ _ Hway); [by left| |done].
      intros o t Ho. by rewrite closing_end, Ho, Hf.
    - eapply (ended_turns _ ch _ (Ok (f b)) _ _ Hway); [by right| |done]. intros o t Ho. by rewrite closing_end, Ho, Hf. }
  1: { injection Hadv as <-. eapply raised_turns; [exact Hway|]. intros o t. by rewrite closing_end. }
  all: apply bind_Some in Hadv as ([p' w] & Hs & [= <-]); eapply continue_turns; [exact Hs|];
    (split; [done|]); exists (chs ++ [ch]);
    (split; [intros past; eapply (statement_way _ _ _ _ _ _ _ _ _ (λ p, Within p f)); [apply within_resume|done|done]|]);
    intros Hno; (destruct Hun as [Hu Hw]; [intros d Hd; destruct (statement_keeps _ _ _ _ _ _ _ Hs Hd) as [d' Hd'];
      by apply (Hno d')|]); eapply (statement_unstarted i op k ch c); [exact Hu|exact Hw|exact Hs|exact Hno].
Qed.

Lemma immediately_turns {B} (p : prog (verdict B)) f ch c' :
  turn_ok c i (Running op (Immediately p f) k) → advance conn i ch op (Immediately p f) k c = Some c' → turns d0 c'.
Proof.
  intros (_ & chs & Hway & Hun) Hadv. cbn in Hadv. destruct p as [[[b|b]|e]|C g q|C g q|q|q].
  1: { injection Hadv as <-. unfold commit. destruct (ch_fault ch) eqn:Hf.
    - eapply (ended_turns _ ch _ (Raise OperationalError) _ _ Hway); [by left| |done].
      intros o t Ho. by rewrite closing_immediate_end, Ho, Hf.
    - eapply (ended_turns _ ch _ (Ok (f b)) _ _ Hway); [by right| |done].
      intros o t Ho. by rewrite closing_immediate_end, Ho, Hf. }
  1: { injection Hadv as <-. eapply (ended_turns _ ch _ (Ok (f b)) _ _ Hway); [by left| |done].
    intros o t Ho. by rewrite closing_immediate_end. }
  1: { injection Hadv as <-. eapply raised_turns; [exact Hway|]. intros o t. by rewrite closing_immediate_end. }
  all: apply bind_Some in Hadv as ([p' w] & Hs & [= <-]); eapply continue_turns; [exact Hs|];
    (split; [done|]); exists (chs ++ [ch]);
    (split; [intros past; eapply (statement_way _ _ _ _ _ _ _ _ _ (λ p, Immediately p f)); [apply immediately_resume|done|done]|]);
    intros Hno; (destruct Hun as [_ []]; intros d Hd; destruct (statement_keeps _ _ _ _ _ _ _ Hs Hd) as [d' Hd'];
      by apply (Hno d')).
Qed.
End advance_turns.

Lemma step_turns d0 i ch c c' : turns d0 c → step conn i ch c = Some c' → turns d0 c'.
Proof.
  intros Hst Hstep. unfold step in Hstep. destruct (threads c !! i) as [t|] eqn:Hi; [|done].
  assert (i < length (threads c))%nat as Hlt by (by eapply lookup_lt_Some).
  pose proof (tu_threads _ _ Hst _ _ Hi) as Hok. destruct t as [[|op k|B f k]|op m k]; [done|..].
  - destruct (holders c !! conn i); [done|]. by eapply enter_turns.
  - destruct (holders c !! conn i); [done|]. injection Hstep as <-.
    eapply (move_turns d0 i (Idle (k _)) c); [done|by intros j Hne|done|done|exact (tu_serial _ _ Hst)|apply Hok|].
    intros w Hw. apply (tu_writing _ _ Hst) in Hw as (op & m & k' & Hr). congruence.
  - pose proof Hok as (Hk & _). destruct m; [by eapply within_turns|by eapply immediately_turns].
Qed.

Lemma schedule_turns d0 s : ∀ c c', turns d0 c → schedule conn s c = Some c' → turns d0 c'.
Proof.
  induction s as [|[i ch] s IH]; intros c c' Hc Hs; cbn in Hs; [by injection Hs as <-|].
  apply bind_Some in Hs as (c1 & H1 & Hs). eapply IH; [|exact Hs]. by eapply step_turns.
Qed.

(** Calls of any number of processes that write before they read, or take the write lock at
    once, take effect one by one: everything but [append_audit] and [close_grant]. *)
Theorem writers_take_turns clients d s c :
  Forall patient clients → schedule conn s (start clients d) = Some c →
  ∃ o t, history (calls c) o (mkSim d 0) = (answers c, mkSim (committed c) t).
Proof.
  intros Hok Hs. assert (turns d (start clients d)) as Hst.
  { split; [by exists []; intros o _| |done].
    intros i t Hi. apply list_lookup_fmap_Some in Hi as (cl & -> & Hcl). rewrite Forall_lookup in Hok. by apply (Hok i). }
  destruct (tu_serial _ _ (schedule_turns _ _ _ _ Hst Hs)) as [past Hp].
  exists (oracle_of past), (length past). apply Hp, oracle_of_says.
Qed.
End writers.
End lasting.

(** ** Two processes *)

Definition go : choice := mkChoice false 0 "".
Definition turns_of (i : nat) (n : nat) : list (nat * choice) := replicate n (i, go).
Definition race (clients : list client) (s : list (nat * choice)) (d : db) : option shared :=
  schedule (rt := coded_float_runtime) (dt := decimal_datetime) id s (start clients d).

Definition appender : client := Call (OAppend "ingest" sample_body) (λ _, Finished).

(** Both read the end of the log, then both append. *)
Definition fork_schedule : list (nat * choice) := turns_of 0 3 ++ turns_of 1 3 ++ turns_of 0 4 ++ turns_of 1 4.


(** Two processes redeem one grant; the second is held up until the first commits. *)
Definition redeemer (pid : string) : client := Call (ORedeem "g1" "h" pid None) (λ _, Finished).
Definition granted : db :=
  s_db (history (rt := coded_float_runtime) (dt := decimal_datetime)
    [OIssue "g1" "d1" "alice" "ws" "search" "h" "0" "900000000" (Some 900)] calm (mkSim empty_db 0)).2.
Definition contenders : list client := [redeemer "alice"; redeemer "alice"; appender].
Definition contention : list (nat * choice) := turns_of 2 3 ++ turns_of 0 11 ++ turns_of 1 4 ++ turns_of 2 4.

Lemma contention_outcome :
  (λ c, (claim_count false "g1" c, length (trace c))) <$> race contenders contention granted = Some (1%nat, 3%nat).
Proof. vm_compute. reflexivity. Qed.

Lemma contenders_ok : Forall calls_ok contenders.
Proof. repeat apply Forall_cons_2; [done|done| |done]. split; [exact (conj eq_refl sample_body_ok)|done]. Qed.

Lemma used_once_by_any_writers_witness :
  match race contenders contention granted with
  | Some c => lasting granted (committed c) ∧ claim_count false "g1" c = 1%nat
  | None => False
  end.
Proof.
  pose proof contention_outcome as Hc. destruct (race contenders contention granted) as [c|] eqn:E; [|done].
  destruct (used_once_by_any_writers (rt := coded_float_runtime) (dt := decimal_datetime) id contenders granted contention c)
    as [Hl _]; [exact contenders_ok|exact E|]. split; [exact Hl|]. by injection Hc.
Defined.

(** Two threads of one process: a redemption between two records of the other thread. *)
Definition twice : client := Call (OAppend "ingest" sample_body) (λ _, appender).
Definition shared_store : list (nat * choice) := turns_of 0 7 ++ turns_of 1 11 ++ turns_of 0 7.

Lemma calls_take_effect_one_by_one_witness :
  match schedule (rt := coded_float_runtime) (dt := decimal_datetime) (λ _, 0%nat) shared_store
          (start [twice; redeemer "alice"] granted) with
  | Some c => ∃ o t, history (rt := coded_float_runtime) (dt := decimal_datetime) (calls c) o (mkSim granted 0) =
                (answers c, mkSim (committed c) t)
  | None => False
  end.
Proof.
  destruct (schedule _ shared_store _) as [c|] eqn:E; [|vm_compute in E; discriminate].
  exact (calls_take_effect_one_by_one (λ _, 0%nat) (λ _ _, eq_refl) [twice; redeemer "alice"] granted shared_store c E).
Defined.
