(* ===== verification/PyEq.v ===== *)
(** Python [==], [in] and subscripting on JSON values. *)

From Stdlib Require Import Floats.SpecFloat.
From S2P Require Import Prelude PyJson PyJsonLoads PyColl.

Abbreviation pydict := (list (pykey * pyval)).

(** [a == b]: numbers by value whatever their type ([True == 1 == 1.0]), NaN equal to
    nothing, dictionaries without regard to order. *)
Fixpoint py_eq (a b : pyval) {struct a} : bool :=
  match a, b with
  | PList l, PList l' =>
      (fix go (l l' : list pyval) : bool :=
         match l, l' with
         | [], [] => true
         | x :: l, y :: l' => py_eq x y && go l l'
         | _, _ => false
         end) l l'
  | PDict d, PDict d' =>
      bool_decide (length d = length d') &&
      forallb (λ kv, match dict_get kv.1 d' with Some y => py_eq kv.2 y | None => false end) d
  | PList _, _ | _, PList _ | PDict _, _ | _, PDict _ => false
  | PFloat S754_nan, _ | _, PFloat S754_nan => false
  | _, _ => py_eq_scalar a b
  end.

(** [d[k]] *)
Definition ditem (k : string) (d : list (pykey * pyval)) : res pyval :=
  match dict_get (KStr k) d with Some v => Ok v | None => Raise (KeyError k) end.

(** [v[k]] for a text [k] *)
Definition py_item (v : pyval) (k : string) : res pyval :=
  match v with
  | PDict d => ditem k d
  | _ => Raise (TypeError ("'" +:+ type_name v +:+ "' object is not subscriptable"))
  end.

(** [x in c] for a string [x]. *)
Definition py_in (x : string) (c : pyval) : res bool :=
  match c with
  | PList l => Ok (existsb (λ v, py_eq (PStr x) v) l)
  | PDict d => Ok (dhas x d)
  | PStr s => Ok (bool_decide (String.index 0 x s ≠ None))
  | _ => Raise (TypeError ("argument of type '" +:+ type_name c +:+ "' is not iterable"))
  end.

(** [v.get(k)]: only mappings have it. *)
Definition py_get (v : pyval) (k : string) : res pyval :=
  match v with
  | PDict d => Ok (dget k d)
  | _ => Raise (AttributeError ("'" +:+ type_name v +:+ "' object has no attribute 'get'"))
  end.

(** [try: m except ...: h], keeping what [m] changed before it raised. *)
Definition try_except {S A} (catches : exn → bool) (m : st S A) (h : st S A) : st S A := λ s,
  match m s with
  | (Raise e, s') => if catches e then h s' else (Raise e, s')
  | r => r
  end.

Lemma py_eq_str x v : py_eq (PStr x) v = true ↔ v = PStr x.
Proof.
  destruct v as [| | |[]|y| | |]; try done. simpl. unfold py_eq_scalar. simpl.
  rewrite bool_decide_eq_true. naive_solver.
Qed.

Lemma py_eq_str_r x v : py_eq v (PStr x) = true ↔ v = PStr x.
Proof.
  destruct v as [| | |[]|y| | |]; try done. simpl. unfold py_eq_scalar. simpl.
  rewrite bool_decide_eq_true. naive_solver.
Qed.

Lemma py_in_strings x l : py_in x (PList (PStr <$> l)) = Ok (bool_decide (x ∈ l)).
Proof.
  simpl. f_equal. apply eq_true_iff_eq. rewrite existsb_exists, bool_decide_eq_true. split.
  - intros (v & Hv & H%py_eq_str). subst v.
    by apply list_elem_of_In, list_elem_of_fmap in Hv as (y & [= ->] & Hy).
  - intros Hx. exists (PStr x). split; [by apply list_elem_of_In, list_elem_of_fmap_2|by apply (py_eq_str x (PStr x))].
Qed.

Example eq_across_types :
  (py_eq (PInt 1) (PBool true), py_eq (PInt 1) (PFloat (S754_finite false 4503599627370496 (-52))),
   py_eq (PStr "1") (PInt 1), py_eq (PFloat S754_nan) (PFloat S754_nan)) = (true, true, false, false).
Proof. vm_compute. reflexivity. Qed.

#[global] Arguments py_eq : simpl never.
