(* ===== verification/PyIo.v ===== *)
(** Python text and number conversions at the program's edges: [readline], [int(v)],
    [str(exc)], and that every decoded JSON value can be encoded again. *)

From Stdlib Require Import Floats.SpecFloat.
From S2P Require Import Prelude PyJson PyJsonLoads PyStr PyColl PyEq.

(** [stream.readline(n)]: up to and with the first newline, at most [n] characters. *)
Fixpoint readline (n : Z) (s : string) : string * string :=
  match s with
  | EmptyString => (EmptyString, EmptyString)
  | String c s' =>
      if n <=? 0 then (EmptyString, s)
      else if decide (c = "010"%char) then (String c EmptyString, s')
      else let '(a, b) := readline (n - 1) s' in (String c a, b)
  end.

(** [s.endswith("\n")] *)
Fixpoint ends_nl (s : string) : bool :=
  match s with
  | EmptyString => false
  | String c EmptyString => bool_decide (c = "010"%char)
  | String _ s' => ends_nl s'
  end.

(** The integer part of a finite float, toward zero. *)
Definition float_trunc (s : bool) (m : positive) (e : Z) : Z :=
  let z := if 0 <=? e then Z.pos m * 2 ^ e else Z.pos m / 2 ^ (- e) in
  if s then - z else z.

(** [int(v)] *)
Definition int_of (v : pyval) : res Z :=
  match v with
  | PBool b => Ok (if b then 1 else 0)
  | PInt z => Ok z
  | PStr s => py_int s
  | PFloat (S754_zero _) => Ok 0
  | PFloat (S754_finite s m e) => Ok (float_trunc s m e)
  | PFloat (S754_infinity _) => Raise OverflowError
  | PFloat S754_nan => Raise (ValueError "cannot convert float NaN to integer")
  | _ => Raise (TypeError "int() argument must be a string, a bytes-like object or a real number")
  end.

(** The digits at the head of a text, single underscores between them: whether there is
    one, and the rest. *)
Fixpoint digit_part (seen : bool) (s : string) : bool * string :=
  match s with
  | EmptyString => (seen, EmptyString)
  | String c s' =>
      if is_digit c then digit_part true s'
      else if seen && bool_decide (c = "_"%char) then
        match s' with
        | String d _ => if is_digit d then digit_part true s' else (seen, s)
        | EmptyString => (seen, s)
        end
      else (seen, s)
  end.

Definition drop_sign (s : string) : string :=
  match s with String "+" s' => s' | String "-" s' => s' | _ => s end.

(** [float(s)] on text: whether it is a number at all, and if so whether it is a NaN. *)
Definition float_text (s : string) : option bool :=
  let s := py_lower (drop_sign (py_strip s)) in
  if decide (s = "nan") then Some true
  else if decide (s = "inf" ∨ s = "infinity") then Some false
  else
    let '(int_digits, s) := digit_part false s in
    let '(frac_digits, s) := match s with String "." s' => digit_part false s' | _ => (false, s) end in
    if int_digits || frac_digits then
      match s with
      | EmptyString => Some false
      | String "e" s' => match digit_part false (drop_sign s') with (true, EmptyString) => Some false | _ => None end
      | _ => None
      end
    else None.

(** [float(v)], as far as it raises and as its result is a NaN. *)
Definition float_is_nan (v : pyval) : res bool :=
  match v with
  | PBool _ => Ok false
  | PInt z => if Z.abs z <? 2 ^ 1024 - 2 ^ 970 then Ok false else Raise OverflowError
  | PFloat f => Ok (match f with S754_nan => true | _ => false end)
  | PStr s => match float_text s with
              | Some b => Ok b
              | None => Raise (ValueError ("could not convert string to float: " +:+ repr_str s))
              end
  | _ => Raise (TypeError "float() argument must be a string or a real number")
  end.

Example float_texts :
  (float_text <$> [" 1_0.5e-3 "; ".5"; "5."; "-Inf"; "NAN"; "."; "1__0"; "1_"; "e5"; "1e"; "0x10"; ""]) =
  [Some false; Some false; Some false; Some false; Some true; None; None; None; None; None; None; None].
Proof. vm_compute. reflexivity. Qed.

(** [stream.read(n)] for [n] at least zero: at most [n] bytes, fewer only at the end. *)
Fixpoint read (n : Z) (s : string) : string * string :=
  match s with
  | EmptyString => (EmptyString, EmptyString)
  | String c s' =>
      if n <=? 0 then (EmptyString, s)
      else let '(a, b) := read (n - 1) s' in (String c a, b)
  end.

(** [str(exc)], where the code shows it; the interpreter's own texts are elided. *)
Definition str_exn (e : exn) : string :=
  match e with
  | ServiceError _ m | ValueError m | TypeError m | AttributeError m | ArgsNotHashable m
  | SchemaValidationError m | McpDiscoveryError _ m | OpenAPISpecError _ m | DownstreamTransportError _ m
  | ToolConnectUnavailable m | ToolConnectDenied m | GrantRedeemDenied m | SystemExit m => m
  | KeyError m | AmbiguousToolName m => repr_str m
  | _ => ""
  end.

(** ** Lemmas *)

Lemma readline_split n s : s = (readline n s).1 +:+ (readline n s).2.
Proof.
  revert n. induction s as [|c s IH]; intros n; simpl; [done|].
  destruct (n <=? 0); [done|]. case_decide; [done|].
  pose proof (IH (n - 1)) as Hs. destruct (readline (n - 1) s) as [a b]. simpl in *. rewrite Hs at 1. done.
Qed.

Lemma readline_nonempty n s : 0 < n → s ≠ "" → (readline n s).1 ≠ "".
Proof.
  intros Hn Hs. destruct s as [|c s]; simpl; [done|]. rewrite (proj2 (Z.leb_gt n 0)) by lia.
  case_decide; [done|]. by destruct (readline (n - 1) s).
Qed.

(** What a read leaves is shorter, unless the stream has ended. *)
Lemma readline_shorter n s :
  0 < n → s ≠ "" → (String.length (readline n s).2 < String.length s)%nat.
Proof.
  intros Hn Hs. rewrite (readline_split n s) at 2. rewrite slength_app.
  pose proof (readline_nonempty n s Hn Hs). destruct (readline n s) as [[|] b]; simpl; [done|lia].
Qed.

Lemma readline_bound n s : 0 ≤ n → Z.of_nat (String.length (readline n s).1) ≤ n.
Proof.
  revert n. induction s as [|c s IH]; intros n Hn; simpl; [lia|].
  destruct (n <=? 0) eqn:E; [simpl; lia|]. apply Z.leb_gt in E. case_decide; [simpl; lia|].
  specialize (IH (n - 1) ltac:(lia)). destruct (readline (n - 1) s) as [a b]. simpl in *. lia.
Qed.

Lemma ends_nl_app s t : ends_nl t = true → ends_nl (s +:+ t) = true.
Proof.
  intros Ht. induction s as [|c s IH]; [done|]. rewrite sapp_cons. simpl.
  by destruct (s +:+ t).
Qed.

(** What is decoded is a JSON value, and can be encoded. *)
Section loads.
Context {rt : PyFloatRuntime}.

Lemma parse_scalar_json_ok s v r : parse_scalar s = Some (v, r) → json_ok v.
Proof.
  unfold parse_scalar, parse_number. repeat case_match; intros [= <- <-]; try done.
  apply float_of_string_valid.
Qed.

Definition member_ok (kv : pykey * pyval) : Prop := key_is_str kv.1 ∧ json_ok kv.2.

Lemma parse_json_ok n : ∀ s,
  (∀ v r, parse_value n s = Some (v, r) → json_ok v) ∧
  (∀ l r, parse_elems n s = Some (l, r) → Forall json_ok l) ∧
  (∀ l r, parse_members n s = Some (l, r) → Forall member_ok l).
Proof.
  induction n as [|n IH]; intros s; [done|].
  assert (∀ s v r, parse_value n s = Some (v, r) → json_ok v) as Hv by (intros s0; apply IH).
  assert (∀ s l r, parse_elems n s = Some (l, r) → Forall json_ok l) as He by (intros s0; apply IH).
  assert (∀ s l r, parse_members n s = Some (l, r) → Forall member_ok l) as Hm by (intros s0; apply IH).
  clear IH. split_and!.
  - intros v r. destruct s as [|c s]; [done|]. cbn [parse_value].
    destruct (_ =? 34); [destruct (scan_str s) as [[]|]; [|done]; by intros [= <- <-]|].
    destruct (_ =? 91); [|destruct (_ =? 123); [|apply parse_scalar_json_ok]].
    + assert (∀ t, match parse_elems n t with Some (l, r'') => Some (PList l, r'') | None => None end = Some (v, r) →
        json_ok v) as Hl.
      { intros t. destruct (parse_elems n t) as [[l r']|] eqn:E; [|done]. intros [= <- <-].
        apply json_ok_list. by apply (He t l r'). }
      repeat first [apply Hl|case_match]; by intros [= <- <-].
    + assert (∀ t, match parse_members n t with Some (l, r'') => Some (PDict (dict_of_pairs l), r'') | None => None end
        = Some (v, r) → json_ok v) as Hl.
      { intros t. destruct (parse_members n t) as [[l r']|] eqn:E; [|done]. intros [= <- <-].
        apply dict_of_pairs_json_ok. by apply (Hm t l r'). }
      repeat first [apply Hl|case_match]; intros [= <- <-]; apply json_ok_dict; repeat constructor.
  - intros l r. cbn [parse_elems]. destruct (parse_value n s) as [[v r1]|] eqn:E; [|done]. apply Hv in E.
    repeat case_match; try done; intros [= <- <-]; constructor; eauto.
  - intros l r. destruct s as [|c s]; [done|]. cbn [parse_members].
    destruct (_ =? 34); [|done]. destruct (scan_str s) as [[k r1]|]; [|done].
    repeat case_match; try done; intros [= <- <-]; (constructor; [split; [done|by eapply Hv]|]); [done|by eapply Hm].
Qed.

Lemma json_loads_ok s v : json_loads s = Ok v → json_ok v.
Proof.
  unfold json_loads. destruct (parse_value _ _) as [[v' r]|] eqn:E; [|done].
  destruct (skip_ws r); [|done]. intros [= <-]. by apply parse_json_ok in E.
Qed.

Lemma json_loads_serializable s v : json_loads s = Ok v → json_serializable true v = true.
Proof. intros H. by apply json_ok_serializable, (json_loads_ok s). Qed.

Lemma dumps_serializable v : json_serializable true v = true → ∃ s, json_dumps true false true v = Ok s.
Proof. intros H. unfold json_dumps. rewrite H. by eexists. Qed.

Lemma dget_serializable k d : json_serializable true (PDict d) = true → json_serializable true (dget k d) = true.
Proof.
  unfold dget. intros H. simpl in H. induction d as [|[k' v'] d IH]; simpl in *; [done|].
  apply andb_true_iff in H as [H1 H2]. case_decide as Hk; [|by apply IH]. subst k'. done.
Qed.
End loads.

Lemma read_split n s : s = (read n s).1 +:+ (read n s).2.
Proof.
  revert n. induction s as [|c s IH]; intros n; simpl; [done|]. destruct (n <=? 0); [done|].
  pose proof (IH (n - 1)) as Hs. destruct (read (n - 1) s) as [a b]. simpl in *. rewrite Hs at 1. done.
Qed.

Lemma read_length n s : 0 ≤ n →
  Z.of_nat (String.length (read n s).1) = Z.min n (Z.of_nat (String.length s)).
Proof.
  revert n. induction s as [|c s IH]; intros n Hn; simpl; [lia|]. destruct (Z.leb_spec n 0); [simpl; lia|].
  specialize (IH (n - 1) ltac:(lia)). destruct (read (n - 1) s) as [a b]. simpl in *. lia.
Qed.

(** Reading in two steps is reading once. *)
Lemma read_add m n s : 0 ≤ m → 0 ≤ n → (read n (read m s).2).2 = (read (m + n) s).2.
Proof.
  revert m. induction s as [|c s IH]; intros m Hm Hn; simpl; [done|].
  destruct (Z.leb_spec m 0), (Z.leb_spec (m + n) 0); simpl; try lia.
  - destruct (Z.leb_spec n 0); [done|lia].
  - replace (m + n) with n by lia. destruct (Z.leb_spec n 0); [lia|]. by destruct (read (n - 1) s).
  - specialize (IH (m - 1) ltac:(lia) Hn). replace (m - 1 + n) with (m + n - 1) in IH by lia.
    destruct (read (m - 1) s) as [a b], (read (m + n - 1) s) as [a' b']. done.
Qed.
