(* ===== verification/PyBytes.v ===== *)
(** [base64.urlsafe_b64decode] on text, and the encoder used to build examples.

    [binascii.a2b_base64] in its default mode skips characters outside the alphabet,
    counts data characters modulo four and stops at complete padding. *)

From S2P Require Import Prelude PyJson PyJsonLoads.

(** The value of a character of the URL-safe alphabet, the standard one included: the
    decoder translates [-] and [_] and keeps [+] and [/]. *)
Definition b64_value (c : ascii) : option Z :=
  let n := char_code c in
  if (65 <=? n) && (n <=? 90) then Some (n - 65)
  else if (97 <=? n) && (n <=? 122) then Some (n - 71)
  else if (48 <=? n) && (n <=? 57) then Some (n + 4)
  else if (n =? 43) || (n =? 45) then Some 62
  else if (n =? 47) || (n =? 95) then Some 63
  else None.

Definition bad_padding : exn := ValueError "Incorrect padding".

(** [quad]: data characters of the current group; [left]: bits kept from the last one;
    [pads]: padding characters since then. *)
Fixpoint a2b_base64 (s : string) (quad left pads : Z) : res (list Z) :=
  match s with
  | EmptyString =>
      if quad =? 0 then Ok []
      else if quad =? 1 then
        Raise (ValueError "Invalid base64-encoded string: number of data characters cannot be 1 more than a multiple of 4")
      else Raise bad_padding
  | String c s' =>
      if decide (c = "="%char) then
        let pads := if 2 <=? quad then pads + 1 else pads in
        if (2 <=? quad) && (4 <=? quad + pads) then Ok [] else a2b_base64 s' quad left pads
      else
        match b64_value c with
        | None => a2b_base64 s' quad left pads
        | Some v =>
            if quad =? 0 then a2b_base64 s' 1 v 0
            else if quad =? 1 then cons (left * 4 + v / 16) <$> a2b_base64 s' 2 (v mod 16) 0
            else if quad =? 2 then cons (left * 16 + v / 4) <$> a2b_base64 s' 3 (v mod 4) 0
            else cons (left * 64 + v) <$> a2b_base64 s' 0 0 0
        end
  end.

Definition is_ascii_text (s : string) : bool := all_chars (λ c, char_code c <? 128) s.

(** [base64.urlsafe_b64decode(s)] *)
Definition urlsafe_b64decode (s : string) : res (list Z) :=
  if is_ascii_text s then a2b_base64 s 0 0 0
  else Raise (ValueError "string argument should contain only ASCII characters").

(** ["=" * n] *)
Definition equal_signs (n : Z) : string := Nat.iter (Z.to_nat n) (String "="%char) EmptyString.

(** The encoder, without padding, for examples. *)
Definition b64_char (v : Z) : string :=
  let n := if v <? 26 then v + 65 else if v <? 52 then v + 71 else if v <? 62 then v - 4
           else if v =? 62 then 45 else 95 in
  String (ascii_of_Z n) EmptyString.

Fixpoint urlsafe_b64encode (bs : list Z) : string :=
  match bs with
  | a :: b :: c :: bs' =>
      b64_char (a / 4) +:+ b64_char (a mod 4 * 16 + b / 16) +:+ b64_char (b mod 16 * 4 + c / 64)
        +:+ b64_char (c mod 64) +:+ urlsafe_b64encode bs'
  | [a; b] => b64_char (a / 4) +:+ b64_char (a mod 4 * 16 + b / 16) +:+ b64_char (b mod 16 * 4)
  | [a] => b64_char (a / 4) +:+ b64_char (a mod 4 * 16)
  | [] => ""
  end.

Example b64_padded : urlsafe_b64decode "aGk_-w==" = Ok [104; 105; 63; 251].
Proof. vm_compute. reflexivity. Qed.

Example b64_noise : urlsafe_b64decode "aG k=" = Ok [104; 105].
Proof. vm_compute. reflexivity. Qed.
