(* ===== verification/GovGrants.v ===== *)
(** [govgrants.py]: offline verification of governance execution grants, of revocation
    lists, and the binding of a grant's scope to a request.

    Ed25519 and PEM parsing belong to the [cryptography] package: the interface
    [Cryptography].  Nothing here reads a clock or a database. *)

From S2P Require Import Prelude PyJson PyJsonLoads PyStr PyColl DateTime Sha256 PyEq PyBytes.

(** ** The cryptography package *)

Inductive public_key :=
| Ed25519PublicKey (raw : list Z)
| OtherPublicKey.

(** [load_pem_public_key(pem)] gives a key or raises; [key.verify(signature, data)]
    returns or raises [InvalidSignature]. *)
Class Cryptography := {
  load_pem_public_key : string → res public_key;
  ed25519_verify : list Z → list Z → list Z → bool;
}.

(** ** Wire format *)

Definition SUPPORTED_FORMAT_VERSIONS : list string := ["1"].
Definition REVOCATION_LIST_FORMAT_VERSIONS : list string := ["1"].
Definition SIGNATURE_SCHEME : string := "Ed25519".
Definition INVOKE_OPERATION : string := "tool.invoke".

Inductive pytype := TStr | TList | TDict | TInt | TFloat | TNone.

(** [isinstance(v, types)]; [bool] is a subtype of [int]. *)
Definition has_type (t : pytype) (v : pyval) : bool :=
  match t, v with
  | TStr, PStr _ | TList, PList _ | TDict, PDict _ | TInt, (PInt _ | PBool _)
  | TFloat, PFloat _ | TNone, PNone => true
  | _, _ => false
  end.
Definition isinstance (ts : list pytype) (v : pyval) : bool := existsb (λ t, has_type t v) ts.

Definition REQUIRED_PAYLOAD_FIELDS : list (string * list pytype) :=
  [("grant_format_version", [TStr]); ("grant_id", [TStr]); ("decision_record_id", [TStr]);
   ("work_request_id", [TStr]); ("requesting_principal_id", [TStr]); ("organization_id", [TStr]);
   ("workspace_id", [TStr]); ("provider_id", [TStr]); ("permitted_operations", [TList]);
   ("argument_constraints", [TDict]); ("data_classifications", [TList]);
   ("policy_versions", [TList]); ("kernel_version", [TStr]); ("issued_at", [TStr]);
   ("issuer_key_id", [TStr])].

Definition OPTIONAL_PAYLOAD_FIELDS : list (string * list pytype) :=
  [("work_request_revision", [TStr; TNone]); ("budget_limit_usd", [TInt; TFloat; TNone]);
   ("delegation_depth", [TInt]); ("delegation_max_depth", [TInt; TNone]);
   ("not_before", [TStr; TNone]); ("not_after", [TStr; TNone]);
   ("revocation_state", [TStr; TNone]); ("correlation_id", [TStr; TNone])].

Definition REQUIRED_REVOCATION_LIST_FIELDS : list (string * list pytype) :=
  [("revocation_list_format_version", [TStr]); ("issuer_key_id", [TStr]); ("issued_at", [TStr]);
   ("revoked_grant_ids", [TList]); ("supersedes", [TStr; TNone]); ("list_id", [TStr]);
   ("signature_scheme", [TStr]); ("signature", [TStr])].

#[global] Instance pytype_eq_dec : EqDecision pytype.
Proof. solve_decision. Defined.

Record GovVerification := mkGov {
  valid : bool;
  signature_valid : bool;
  within_validity_window : bool;
  failure_codes : list string;
  issuer_key_id : option pyval;
  payload : option pydict;
}.

(** ** Structure *)

(** A field that is present, of its type, and not empty where it must be text. *)
Definition required_ok (d : pydict) (field : string * list pytype) : bool :=
  match dict_get (KStr field.1) d with
  | None => false
  | Some v => isinstance field.2 v && negb (bool_decide (field.2 = [TStr]) && negb (py_truthy v))
  end.

Definition optional_ok (d : pydict) (field : string * list pytype) : bool :=
  match dict_get (KStr field.1) d with
  | None => true
  | Some v => isinstance field.2 v
  end.

(** [_structural_failures(grant)] *)
Definition _structural_failures (grant : pyval) : list string * option pydict :=
  match grant with
  | PDict g =>
      match dget "payload" g, dget "signature_scheme" g, dget "signature" g with
      | PDict payload, PStr scheme, PStr _ =>
          let failures := if decide (scheme ≠ SIGNATURE_SCHEME) then ["unsupported_scheme"] else [] in
          if negb match dget "grant_format_version" payload with
                  | PStr fmt => bool_decide (fmt ∈ SUPPORTED_FORMAT_VERSIONS) | _ => false end
          then (failures ++ ["unsupported_format"; "malformed_grant"], None)
          else
            let failures := failures ++
              (if forallb (required_ok payload) REQUIRED_PAYLOAD_FIELDS
                  && forallb (optional_ok payload) OPTIONAL_PAYLOAD_FIELDS
               then [] else ["malformed_grant"]) in
            if decide (failures = []) then ([], Some payload) else (failures, None)
      | _, _, _ => (["malformed_grant"], None)
      end
  | _ => (["malformed_grant"], None)
  end.

(** ** Instants, keys and signatures *)

(** [text[:-1] + "+00:00"] when the text ends in [z] or [Z]. *)
Fixpoint zulu (text : string) : string :=
  match text with
  | String c EmptyString => if decide (c = "z"%char ∨ c = "Z"%char) then "+00:00" else text
  | String c s => String c (zulu s)
  | EmptyString => EmptyString
  end.

Definition catches_verification (e : exn) : bool := is_ValueError e || bool_decide (e = InvalidSignature).

Section govgrants.
Context {rt : PyFloatRuntime} {dt : PyDatetime} {crypto : Cryptography}.

(** [_parse_rfc3339(value)]: UTC microseconds; a naive timestamp is refused. *)
Definition _parse_rfc3339 (value : pyval) : res Z :=
  match value with
  | PStr s =>
      parsed ← parse_datetime (zulu (py_strip s));
      match parsed with
      | Aware t => Ok t
      | Naive _ => Raise (ValueError ("timestamp must carry a UTC offset: " +:+ repr_str s))
      end
  | v => Raise (AttributeError ("'" +:+ type_name v +:+ "' object has no attribute 'strip'"))
  end.

(** [canonical_payload_bytes(payload)] *)
Definition canonical_payload_bytes (payload : pydict) : res (list Z) :=
  text ← json_dumps false true false (PDict payload); Ok (utf8_encode text).

(** [public_key_id(public_key_pem)] *)
Definition public_key_id (pem : string) : res string :=
  key ← load_pem_public_key pem;
  match key with
  | Ed25519PublicKey raw => Ok ("ed25519:" +:+ hex_of_bytes (sha256_bytes raw))
  | OtherPublicKey => Raise (ValueError "governance trust roots must be Ed25519 keys")
  end.

(** [_b64d(text)] *)
Definition _b64d (text : pyval) : res (list Z) :=
  match text with
  | PStr s => urlsafe_b64decode (s +:+ equal_signs (- Z.of_nat (String.length s) mod 4))
  | v => Raise (TypeError ("object of type '" +:+ type_name v +:+ "' has no len()"))
  end.

(** [failures.append(code)] *)
Definition fail (code : string) : st (list string) unit := st_modify (λ fs, fs ++ [code]).

(** The [try] block both verifiers share, on the evaluated signature and signed bytes:
    whether the signature was verified. *)
Definition check_signature (pem : string) (issuer : pyval) (signed : res (list Z * list Z)) :
    st (list string) bool :=
  try_except catches_verification
    (key ← st_lift (load_pem_public_key pem);
     match key with
     | OtherPublicKey => _ ← fail "missing_trust_root"; mret false
     | Ed25519PublicKey raw =>
         id ← st_lift (public_key_id pem);
         if negb (py_eq (PStr id) issuer) then _ ← fail "unknown_issuer"; mret false
         else
           failures ← st_get;
           if decide ("unsupported_scheme" ∈ failures) then mret false
           else
             sd ← st_lift signed;
             if ed25519_verify raw sd.1 sd.2 then mret true else st_throw InvalidSignature
     end)
    (failures ← st_get;
     _ ← (if decide ("unknown_issuer" ∈ failures ∨ "missing_trust_root" ∈ failures) then mret tt
          else fail "signature_mismatch");
     mret false).

(** ** Revocation lists *)

(** The field loop of [_revocation_list_structural]. *)
Definition list_field_ok (d : pydict) (field : string * list pytype) : bool :=
  match dict_get (KStr field.1) d with
  | None => false
  | Some v => isinstance field.2 v
      && negb (bool_decide (field.1 ∈ ["issuer_key_id"; "issued_at"; "list_id"; "signature"])
               && negb (py_truthy v))
  end.

Definition revoked_ids_ok (d : pydict) : bool :=
  match dget "revoked_grant_ids" d with
  | PList ids => forallb (λ g, is_str g && py_truthy g) ids
  | _ => false
  end.

(** [_revocation_list_structural(list_doc)] *)
Definition _revocation_list_structural (list_doc : pydict) : res (list string * option Z) :=
  let failures :=
    match dget "signature_scheme" list_doc with
    | PStr scheme => if decide (scheme ≠ SIGNATURE_SCHEME) then ["unsupported_scheme"] else []
    | _ => ["malformed_revocation_list"]
    end in
  if negb match dget "revocation_list_format_version" list_doc with
          | PStr fmt => bool_decide (fmt ∈ REVOCATION_LIST_FORMAT_VERSIONS) | _ => false end
  then Ok (failures ++ ["unsupported_format"; "malformed_revocation_list"], None)
  else
    let failures := failures ++
      (if forallb (list_field_ok list_doc) REQUIRED_REVOCATION_LIST_FIELDS && revoked_ids_ok list_doc
       then [] else ["malformed_revocation_list"]) in
    if decide (failures = []) then
      match _parse_rfc3339 (dget "issued_at" list_doc) with
      | Ok t => Ok ([], Some t)
      | Raise e => if is_ValueError e then Ok (["malformed_revocation_list"], None) else Raise e
      end
    else Ok (failures, None).

(** [_list_issued_at(list_doc)] *)
Definition _list_issued_at (list_doc : pyval) : res (option Z) :=
  match list_doc with
  | PDict d =>
      if is_str (dget "issued_at" d) then
        match _parse_rfc3339 (dget "issued_at" d) with
        | Ok t => Ok (Some t)
        | Raise e => if is_ValueError e then Ok None else Raise e
        end
      else Ok None
  | _ => Ok None
  end.

(** [_window_overlaps_list_coverage(payload, list_issued_at)] *)
Definition _window_overlaps_list_coverage (payload : pydict) (list_issued_at : Z) : res bool :=
  if decide (dget "not_after" payload = PNone) then Ok true
  else match _parse_rfc3339 (dget "not_after" payload) with
       | Ok t => Ok (list_issued_at <? t)
       | Raise e => if is_ValueError e then Ok true else Raise e
       end.

Definition without_signature (d : pydict) : pydict :=
  filter (λ kv, kv.1 ≠ KStr "signature") d.

(** The bytes a list's signature is checked on: the document without it. *)
Definition signed_list (d : pydict) : res (list Z * list Z) :=
  data ← canonical_payload_bytes (without_signature d); sig ← _b64d (dget "signature" d); Ok (sig, data).

(** [verify_revocation_list(list_doc, public_key_pem, at=at)] *)
Definition verify_revocation_list (list_doc : pyval) (pem : option string) (at_ : pyval) :
    res (list string) :=
  match list_doc with
  | PNone => Ok ["missing_revocation_list"]
  | PDict d =>
      structure ← _revocation_list_structural d;
      match structure with
      | (failures, None) => Ok failures
      | (failures, Some issued_at) =>
          failures ← match _parse_rfc3339 at_ with
                     | Ok t => Ok (if t <? issued_at then failures ++ ["not_yet_valid"] else failures)
                     | Raise e => if is_ValueError e
                                  then Ok (failures ++ ["malformed_revocation_list"]) else Raise e
                     end;
          match pem with
          | None => Ok (failures ++ ["missing_trust_root"])
          | Some pem =>
              let '(r, failures) :=
                check_signature pem (dget "issuer_key_id" d) (signed_list d) failures in
              _ ← r; Ok failures
          end
      end
  | _ => Ok ["malformed_revocation_list"]
  end.

(** ** Grants *)

(** [if bound is not None and violated(_parse_rfc3339(bound))]: record the code. *)
Definition check_bound (bound : pyval) (violated : Z → bool) (code : string) : st (list string) bool :=
  if decide (bound = PNone) then mret true
  else
    x ← st_lift (_parse_rfc3339 bound);
    if violated x then _ ← fail code; mret false else mret true.

(** The [try] block of the validity window: whether the instant lies in it. *)
Definition check_window (payload : pydict) (at_ : pyval) : st (list string) bool :=
  try_except is_ValueError
    (t ← st_lift (_parse_rfc3339 at_);
     not_before ← st_lift (ditem "not_before" payload);
     started ← check_bound not_before (λ nb, t <? nb) "not_yet_valid";
     not_after ← st_lift (ditem "not_after" payload);
     running ← check_bound not_after (λ na, na <=? t) "expired";
     mret (started && running))
    (_ ← fail "malformed_grant"; mret false).

(** [stale_revocation_list]: inside its coverage, a list older than the grant. *)
Definition check_staleness (payload : pydict) (coverage : Z) : st (list string) unit :=
  covered ← st_lift (_window_overlaps_list_coverage payload coverage);
  if (covered : bool) then
    grant_issued ← st_lift (match _parse_rfc3339 (dget "issued_at" payload) with
                            | Ok t => Ok (Some t)
                            | Raise e => if is_ValueError e then Ok None else Raise e
                            end);
    if match grant_issued with None => true | Some t => coverage <? t end
    then fail "stale_revocation_list" else mret tt
  else mret tt.

(** What a supplied revocation list adds to the failures. *)
Definition check_revocation (payload : pydict) (pem : string) (at_ revocation_list : pyval) :
    st (list string) unit :=
  list_failures ← st_lift (verify_revocation_list revocation_list (Some pem) at_);
  if decide (list_failures ≠ []) then
    coverage ← st_lift (_list_issued_at revocation_list);
    covered ← match coverage with
              | None => mret true
              | Some c => st_lift (_window_overlaps_list_coverage payload c)
              end;
    if (covered : bool) then st_modify (λ fs, fs ++ list_failures) else mret tt
  else
    let list_doc := match revocation_list with PDict d => d | _ => [] end in
    let grant_id := match dget "grant_id" payload with PStr s => s | _ => "" end in
    revoked ← st_lift (py_in grant_id (dget "revoked_grant_ids" list_doc));
    _ ← (if (revoked : bool) then fail "revoked" else mret tt);
    coverage ← st_lift (_parse_rfc3339 (dget "issued_at" list_doc));
    check_staleness payload coverage.

(** The issuer the caller pins, if any. *)
Definition check_issuer (expected_key_id : option string) (issuer : pyval) : list string :=
  match expected_key_id with
  | Some k => if py_eq (PStr k) issuer then [] else ["key_id_mismatch"]
  | None => []
  end.

(** The bytes a grant's signature is checked on. *)
Definition signed_bytes (g payload : pydict) : res (list Z * list Z) :=
  sig ← _b64d (dget "signature" g); data ← canonical_payload_bytes payload; Ok (sig, data).

(** The checks of a well-formed grant under a configured trust root, in order. *)
Definition check_grant (grant payload : pydict) (pem : string) (at_ revocation_list : pyval) :
    st (list string) (bool * bool) :=
  signature_valid ← check_signature pem (dget "issuer_key_id" payload) (signed_bytes grant payload);
  within_window ← check_window payload at_;
  _ ← (if decide (revocation_list = PNone) then mret tt
       else check_revocation payload pem at_ revocation_list);
  mret (signature_valid, within_window).

(** [verify_grant(grant, public_key_pem, at=at, expected_key_id, revocation_list)] *)
Definition verify_grant (grant : pyval) (public_key_pem : option string) (at_ : pyval)
    (expected_key_id : option string) (revocation_list : pyval) : res GovVerification :=
  match _structural_failures grant with
  | (failures, None) => Ok (mkGov false false false failures None None)
  | (failures, Some payload) =>
      let issuer := dget "issuer_key_id" payload in
      let failures := failures ++ check_issuer expected_key_id issuer in
      match public_key_pem with
      | None => Ok (mkGov false false false (failures ++ ["missing_trust_root"]) (Some issuer) (Some payload))
      | Some pem =>
          let g := match grant with PDict g => g | _ => [] end in
          let '(r, failures) := check_grant g payload pem at_ revocation_list failures in
          '(signature_valid, within_window) ← r;
          Ok (mkGov (signature_valid && within_window && bool_decide (failures = []))
                signature_valid within_window failures (Some issuer) (Some payload))
      end
  end.

(** [scope_failures(payload, ...)]; the loop over the other constraints stops at the
    first mismatch. *)
Fixpoint constraints_met (constraints args : pydict) : bool :=
  match constraints with
  | [] => true
  | (k, expected) :: rest =>
      if decide (k = KStr "tool" ∨ k = KStr "source") then constraints_met rest args
      else match dict_get k args with
           | Some v => py_eq v expected && constraints_met rest args
           | None => false
           end
  end.

Definition scope_failures (payload : pydict) (principal_id provider_id source_id name : string)
    (args : pydict) : res (list string) :=
  provider ← ditem "provider_id" payload;
  operations ← ditem "permitted_operations" payload;
  permitted ← py_in INVOKE_OPERATION operations;
  principal ← ditem "requesting_principal_id" payload;
  argument_constraints ← ditem "argument_constraints" payload;
  match argument_constraints with
  | PDict constraints =>
      Ok ((if py_eq provider (PStr provider_id) then [] else ["provider_mismatch"])
       ++ (if permitted : bool then [] else ["operation_not_permitted"])
       ++ (if py_eq principal (PStr principal_id) then [] else ["principal_mismatch"])
       ++ (if negb (py_eq (dget "tool" constraints) (PStr name))
              || dhas "source" constraints && negb (py_eq (dget "source" constraints) (PStr source_id))
           then ["scope_mismatch"]
           else if constraints_met constraints args then [] else ["args_mismatch"]))
  | v => Raise (AttributeError ("'" +:+ type_name v +:+ "' object has no attribute 'get'"))
  end.
End govgrants.

#[global] Arguments _parse_rfc3339 : simpl never.

(** ** What a valid grant is *)

Section spec.
Context {rt : PyFloatRuntime} {dt : PyDatetime} {crypto : Cryptography}.

(** The document: a payload object of the supported format with every required field,
    under the supported scheme. *)
Record well_shaped (g payload : pydict) : Prop := {
  ws_payload : dget "payload" g = PDict payload;
  ws_scheme : dget "signature_scheme" g = PStr SIGNATURE_SCHEME;
  ws_signature : is_str (dget "signature" g) = true;
  ws_format : ∃ fmt, dget "grant_format_version" payload = PStr fmt ∧ fmt ∈ SUPPORTED_FORMAT_VERSIONS;
  ws_required : Forall (λ f, required_ok payload f = true) REQUIRED_PAYLOAD_FIELDS;
  ws_optional : Forall (λ f, optional_ok payload f = true) OPTIONAL_PAYLOAD_FIELDS;
}.

(** The configured key is the named issuer's and its signature covers the bytes. *)
Definition signed_by (pem : string) (issuer : pyval) (signed : res (list Z * list Z)) : Prop :=
  ∃ raw sig data, load_pem_public_key pem = Ok (Ed25519PublicKey raw) ∧
    issuer = PStr ("ed25519:" +:+ hex_of_bytes (sha256_bytes raw)) ∧
    signed = Ok (sig, data) ∧ ed25519_verify raw sig data = true.

(** [not_before <= t < not_after], a bound that is [null] being none. *)
Definition bound_ok (bound : pyval) (violated : Z → bool) : Prop :=
  bound = PNone ∨ ∃ x, _parse_rfc3339 bound = Ok x ∧ violated x = false.

Definition in_window (payload : pydict) (t : Z) : Prop :=
  ∃ nb na, dict_get (KStr "not_before") payload = Some nb ∧
    dict_get (KStr "not_after") payload = Some na ∧
    bound_ok nb (λ x, t <? x) ∧ bound_ok na (λ x, x <=? t).

Definition named (payload : pydict) (list_doc : pydict) : Prop :=
  ∃ grant_id ids, dget "grant_id" payload = PStr grant_id ∧
    dget "revoked_grant_ids" list_doc = PList ids ∧ PStr grant_id ∈ ids.

(** Inside the coverage of a list issued at [c], the grant was issued no later. *)
Definition fresh (payload : pydict) (c : Z) : Prop :=
  ∃ covered, _window_overlaps_list_coverage payload c = Ok covered ∧
    (covered = true → ∃ issued, _parse_rfc3339 (dget "issued_at" payload) = Ok issued ∧ issued ≤ c).

(** Which lists let a grant pass: none configured; an authentic one in force that does
    not name it, and was issued no earlier than the grant if it covers it; or any other
    whose claimed coverage the grant's window does not reach. *)
Definition not_revoked (payload : pydict) (pem : string) (at_ revocation_list : pyval) : Prop :=
  revocation_list = PNone ∨
  (verify_revocation_list revocation_list (Some pem) at_ = Ok [] ∧
   ∃ d c, revocation_list = PDict d ∧ _parse_rfc3339 (dget "issued_at" d) = Ok c ∧
     ¬ named payload d ∧
     fresh payload c) ∨
  (∃ codes c, verify_revocation_list revocation_list (Some pem) at_ = Ok codes ∧ codes ≠ [] ∧
     _list_issued_at revocation_list = Ok (Some c) ∧
     _window_overlaps_list_coverage payload c = Ok false).

Lemma forallb_Forall_true {A} (p : A → bool) l : forallb p l = true ↔ Forall (λ x, p x = true) l.
Proof. rewrite forallb_forall, Forall_forall. by setoid_rewrite list_elem_of_In. Qed.

Lemma structural_some grant fs payload :
  _structural_failures grant = (fs, Some payload) ↔
  fs = [] ∧ ∃ g, grant = PDict g ∧ well_shaped g payload.
Proof.
  split.
  - destruct grant as [| | | | | |g|]; try done. unfold _structural_failures.
    destruct (dget "payload" g) as [| | | | | |p|] eqn:Hp; try done.
    destruct (dget "signature_scheme" g) as [| | | |scheme| | |] eqn:Hs; try done.
    destruct (dget "signature" g) as [| | | |sg| | |] eqn:Hsig; try done.
    destruct (dget "grant_format_version" p) as [| | | |fmt| | |] eqn:Hf; try done.
    case_bool_decide as Hfmt; [|done]. cbn [negb].
    destruct (forallb (required_ok p) _) eqn:Hr; cbn [andb];
      [destruct (forallb (optional_ok p) _) eqn:Ho|];
      (destruct (decide (scheme ≠ SIGNATURE_SCHEME)) as [|Hsch]; cbn [app]; [done|]); try done.
    rewrite decide_True by done. intros [= <- <-]. split; [done|]. exists g. split; [done|].
    apply dec_stable in Hsch. rewrite Hsch in Hs.
    split; [done|done|by rewrite Hsig|by exists fmt|..]; by apply forallb_Forall_true.
  - intros (-> & g & -> & [Hp Hs Hsig (fmt & Hf & Hfmt) Hr Ho]). unfold _structural_failures.
    rewrite Hp, Hs. destruct (dget "signature" g); try done.
    rewrite Hf, bool_decide_true by done. cbn [negb].
    rewrite (proj2 (forallb_Forall_true _ _) Hr), (proj2 (forallb_Forall_true _ _) Ho).
    rewrite (decide_False (P := SIGNATURE_SCHEME ≠ SIGNATURE_SCHEME)) by (intros H; by apply H). done.
Qed.

Ltac not_signed := intros (? & ? & ? & ? & ? & ? & ?); simplify_eq; congruence.

Lemma check_signature_spec pem issuer signed fs :
  "unsupported_scheme" ∉ fs →
  match check_signature pem issuer signed fs with
  | (Ok true, fs') => fs' = fs ∧ signed_by pem issuer signed
  | (Ok false, fs') => (∃ l, fs' = fs ++ l) ∧ ¬ signed_by pem issuer signed
  | (Raise _, _) => ¬ signed_by pem issuer signed
  end.
Proof.
  intros Hfs. unfold check_signature, try_except, public_key_id, signed_by.
  run_st. destruct (load_pem_public_key pem) as [[raw|]|e] eqn:Hk; run_st.
  - destruct (py_eq _ issuer) eqn:Hid; run_st.
    + apply py_eq_str in Hid as ->. rewrite decide_False by done.
      destruct signed as [[sig data]|e]; run_st.
      * destruct (ed25519_verify raw sig data) eqn:Hv; unfold fail; run_st; [naive_solver|].
        case_decide; unfold fail; run_st; (split; [|not_signed]); [exists []; by rewrite app_nil_r|by eexists].
      * destruct (catches_verification e); run_st; [|not_signed].
        case_decide; unfold fail; run_st; (split; [|not_signed]); [exists []; by rewrite app_nil_r|by eexists].
    + unfold fail; run_st. split; [by eexists|]. intros (raw' & sig & data & [= <-] & -> & _).
      rewrite (proj2 (py_eq_str _ _) eq_refl) in Hid; done.
  - unfold fail; run_st. split; [by eexists|not_signed].
  - destruct (catches_verification e); run_st; [|not_signed].
    case_decide; unfold fail; run_st; (split; [|not_signed]); [exists []; by rewrite app_nil_r|by eexists].
Qed.

Lemma check_bound_spec bound violated code fs :
  match check_bound bound violated code fs with
  | (Ok true, fs') => fs' = fs ∧ bound_ok bound violated
  | (Ok false, fs') => fs' = fs ++ [code] ∧ ¬ bound_ok bound violated
  | (Raise _, fs') => fs' = fs ∧ ¬ bound_ok bound violated
  end.
Proof.
  unfold check_bound, bound_ok. case_decide as Hb; run_st; [by auto|].
  destruct (_parse_rfc3339 bound) as [x|e]; [|naive_solver].
  destruct (violated x) eqn:Hv; unfold fail; run_st; [|by eauto].
  split; [done|]. intros [?|(y & [= <-] & ?)]; congruence.
Qed.

Lemma check_window_spec payload at_ fs :
  let good := ∃ t, _parse_rfc3339 at_ = Ok t ∧ in_window payload t in
  match check_window payload at_ fs with
  | (Ok true, fs') => fs' = fs ∧ good
  | (Ok false, fs') => (∃ l, fs' = fs ++ l) ∧ ¬ good
  | (Raise _, _) => ¬ good
  end.
Proof.
  intros good. assert (∀ l l' : list string, ∃ l0, (fs ++ l) ++ l' = fs ++ l0) as Happ
    by (intros; eexists; symmetry; apply app_assoc).
  assert (∀ e fs1, ¬ good → (∃ l, fs1 = fs ++ l) →
    match (if is_ValueError e then (_ ← fail "malformed_grant"; mret false) fs1
           else (Raise e : res bool, fs1)) with
    | (Ok true, fs') => fs' = fs ∧ good
    | (Ok false, fs') => (∃ l, fs' = fs ++ l) ∧ ¬ good
    | (Raise _, _) => ¬ good end) as Hexc.
  { intros e fs1 Hg [l ->]. destruct (is_ValueError e); [|exact Hg]. unfold fail. run_st. split; [apply Happ|exact Hg]. }
  unfold check_window, try_except, ditem. subst good. unfold in_window in *.
  cbv beta delta [mbind st_bind st_lift] in *. 
  destruct (_parse_rfc3339 at_) as [t|e];
    [|apply Hexc; [naive_solver|exists []; by rewrite app_nil_r]].
  destruct (dict_get (KStr "not_before") payload) as [nb|];
    [|apply Hexc; [naive_solver|exists []; by rewrite app_nil_r]].
  pose proof (check_bound_spec nb (λ nb, t <? nb) "not_yet_valid" fs) as Hb.
  destruct (check_bound nb _ _ fs) as [[started|e] fs1].
  2: { destruct Hb as [-> Hb]. apply Hexc; [naive_solver|exists []; by rewrite app_nil_r]. }
  assert (∃ l, fs1 = fs ++ l ∧ (started = true → l = [])) as (l1 & -> & Hl1).
  { destruct started, Hb as [-> _]; [exists []; by rewrite app_nil_r|by eexists]. }
  destruct (dict_get (KStr "not_after") payload) as [na|]; [|apply Hexc; [naive_solver|by eexists]].
  pose proof (check_bound_spec na (λ na, na <=? t) "expired" (fs ++ l1)) as Ha.
  destruct (check_bound na _ _ _) as [[running|e] fs2].
  2: { destruct Ha as [-> Ha]. apply Hexc; [naive_solver|by eexists]. }
  destruct started; [rewrite (Hl1 eq_refl), app_nil_r in *; destruct Hb as [_ Hb]|destruct Hb as [_ Hb]];
    destruct running, Ha as [-> Ha]; cbn [andb mret st_ret]; (split; [eauto|]); naive_solver.
Qed.

Lemma verified_list_is_dict rl pem at_ :
  verify_revocation_list rl pem at_ = Ok [] →
  ∃ d c, rl = PDict d ∧ _parse_rfc3339 (dget "issued_at" d) = Ok c ∧ revoked_ids_ok d = true.
Proof.
  destruct rl as [| | | | | |d|]; try done. unfold verify_revocation_list, _revocation_list_structural.
  destruct (negb _); [by intros [= [_ [=]]%app_nil]|].
  case_decide as Hf; [|intros E; exfalso; apply Hf; by injection E].
  destruct (forallb _ _ && _) eqn:Hr; [|by apply app_nil in Hf as [_ [=]]].
  destruct (_parse_rfc3339 (dget "issued_at" d)) as [c|e] eqn:Hc; [|by destruct (is_ValueError e)].
  intros _. exists d, c. split_and!; [done..|]. by apply andb_true_iff in Hr as [_ ?].
Qed.

Lemma revoked_ids_strings d : revoked_ids_ok d = true → ∃ ids, dget "revoked_grant_ids" d = PList (PStr <$> ids).
Proof.
  unfold revoked_ids_ok. destruct (dget _ d) as [| | | | |l| |]; try done.
  intros H%forallb_Forall_true. exists (omap (λ v, match v with PStr s => Some s | _ => None end) l).
  f_equal. induction H as [|v l Hv _ IH]; csimpl; [done|].
  destruct v; try done. csimpl. by rewrite <- IH.
Qed.

Lemma not_revoked_unverified payload pem at_ rl codes :
  rl ≠ PNone → verify_revocation_list rl (Some pem) at_ = Ok codes → codes ≠ [] →
  (not_revoked payload pem at_ rl ↔ ∃ c, _list_issued_at rl = Ok (Some c) ∧
     _window_overlaps_list_coverage payload c = Ok false).
Proof.
  intros Hrl Hv Hc. unfold not_revoked. rewrite Hv. split.
  - intros [?|[([= ->] & _)|(codes' & c & _ & _ & H)]]; [done..|by exists c].
  - intros (c & H). right. right. by exists codes, c.
Qed.

Lemma not_revoked_verified payload pem at_ d c :
  verify_revocation_list (PDict d) (Some pem) at_ = Ok [] → _parse_rfc3339 (dget "issued_at" d) = Ok c →
  (not_revoked payload pem at_ (PDict d) ↔ ¬ named payload d ∧
     fresh payload c).
Proof.
  intros Hv Hc. unfold not_revoked. rewrite Hv. split.
  - intros [?|[(_ & d' & c' & [= <-] & Hc' & H)|(codes & c' & [= <-] & ? & _)]]; [done| |done].
    rewrite Hc in Hc'. by injection Hc' as <-.
  - intros H. right. left. split; [done|]. by exists d, c.
Qed.

Lemma check_staleness_spec payload c fs :
  match check_staleness payload c fs with
  | (Ok _, fs') => ∃ l, fs' = fs ++ l ∧ (l = [] ↔ fresh payload c)
  | (Raise _, _) => ¬ fresh payload c
  end.
Proof.
  unfold check_staleness, fail, fresh. run_st.
  destruct (_window_overlaps_list_coverage payload c) as [[]|e]; run_st; [| |naive_solver].
  - destruct (_parse_rfc3339 (dget "issued_at" payload)) as [t|e]; [destruct (Z.ltb_spec c t)|
      destruct (is_ValueError e)]; run_st;
      first [exists ["stale_revocation_list"]; split; [done|]; split; [done|]
            |exists []; rewrite app_nil_r; split; [done|]; split; [by eauto|done]|idtac];
      intros (? & [= <-] & Hi); destruct (Hi eq_refl) as (? & [=] & ?); subst; lia.
  - exists []. rewrite app_nil_r. split; [done|]. split; [|done]. intros _. by exists false.
Qed.

Lemma check_revocation_spec payload pem at_ rl fs :
  rl ≠ PNone → is_str (dget "grant_id" payload) = true →
  match check_revocation payload pem at_ rl fs with
  | (Ok _, fs') => ∃ l, fs' = fs ++ l ∧ (l = [] ↔ not_revoked payload pem at_ rl)
  | (Raise _, _) => ¬ not_revoked payload pem at_ rl
  end.
Proof.
  intros Hrl Hgid. unfold check_revocation. cbv beta delta [mbind st_bind st_lift].
  destruct (verify_revocation_list rl (Some pem) at_) as [codes|e] eqn:Hv;
    [|unfold not_revoked; rewrite Hv; naive_solver].
  destruct (decide (codes ≠ [])) as [Hc|Hc%dec_stable].
  - pose proof (not_revoked_unverified payload _ _ _ _ Hrl Hv Hc) as HR. revert HR.
    generalize (not_revoked payload pem at_ rl). intros R HR.
    destruct (_list_issued_at rl) as [[c|]|e] eqn:Hl; run_st;
      [|exists codes; split; [done|split; [by intros ?%Hc|intros (? & ? & ?)%HR; congruence]]
       |intros (? & ? & ?)%HR; congruence].
    destruct (_window_overlaps_list_coverage payload c) as [[]|e] eqn:Hw; run_st;
      [exists codes; split; [done|split; [by intros ?%Hc|intros (? & ? & ?)%HR; congruence]]|
       |intros (? & ? & ?)%HR; congruence].
    exists []. rewrite app_nil_r. split; [done|split; [intros _; apply HR; by exists c|done]].
  - subst codes. destruct (verified_list_is_dict _ _ _ Hv) as (d & c & -> & Hc & Hids).
    pose proof (not_revoked_verified payload _ _ _ _ Hv Hc) as HR. revert HR.
    generalize (not_revoked payload pem at_ (PDict d)). intros R HR.
    destruct (revoked_ids_strings _ Hids) as (ids & Hd). unfold named in HR. rewrite Hd in HR |- *.
    destruct (dget "grant_id" payload) as [| | | |gid| | |]; try done. rewrite py_in_strings.
    assert ((∃ grant_id ids', PStr gid = PStr grant_id ∧ PList (PStr <$> ids) = PList ids' ∧ PStr grant_id ∈ ids') ↔ gid ∈ ids) as Hn.
    { split.
      - intros (? & ? & [= <-] & [= <-] & H). by apply list_elem_of_fmap in H as (? & [= <-] & ?).
      - intros H. eexists _, _. split_and!; [done..|]. by apply list_elem_of_fmap_2. }
    rewrite Hn in HR. clear Hn. rewrite Hc. unfold fail. run_st.
    assert (∀ l1, (l1 = [] ↔ gid ∉ ids) →
      match check_staleness payload c (fs ++ l1) with
      | (Ok _, fs') => ∃ l, fs' = fs ++ l ∧ (l = [] ↔ R)
      | (Raise _, _) => ¬ R
      end) as Htail.
    { intros l1 Hin. pose proof (check_staleness_spec payload c (fs ++ l1)) as Hs.
      destruct (check_staleness payload c (fs ++ l1)) as [[u|e] fs2]; [|naive_solver].
      destruct Hs as (l2 & -> & Hl2). exists (l1 ++ l2). split; [by rewrite app_assoc|].
      rewrite HR, <- Hl2, <- Hin. split; [by intros [-> ->]%app_nil|by intros [-> ->]]. }
    case_bool_decide as Hin; run_st.
    + specialize (Htail ["revoked"] ltac:(done)). by destruct (check_staleness payload c _) as [[] ?].
    + specialize (Htail [] ltac:(done)). rewrite app_nil_r in Htail.
      by destruct (check_staleness payload c _) as [[] ?].
Qed.

(** ** Properties *)

Lemma required_text k payload :
  required_ok payload (k, [TStr]) = true → ∃ s, dget k payload = PStr s ∧ s ≠ "".
Proof.
  unfold required_ok, dget. simpl. destruct (dict_get (KStr k) payload) as [v|]; [|done].
  destruct v; try done. simpl. case_bool_decide; [by eauto|done].
Qed.

Lemma well_shaped_text g payload k :
  well_shaped g payload → (k, [TStr]) ∈ REQUIRED_PAYLOAD_FIELDS → ∃ s, dget k payload = PStr s ∧ s ≠ "".
Proof. intros [_ _ _ _ Hr _] Hk. rewrite Forall_forall in Hr. by apply required_text, Hr. Qed.

Lemma check_grant_spec g payload root at_ rl fs :
  let good := fs = [] ∧ signed_by root (dget "issuer_key_id" payload) (signed_bytes g payload) ∧
    (∃ t, _parse_rfc3339 at_ = Ok t ∧ in_window payload t) ∧ not_revoked payload root at_ rl in
  "unsupported_scheme" ∉ fs → is_str (dget "grant_id" payload) = true →
  match check_grant g payload root at_ rl fs with
  | (Ok (s, w), fs') => s && w && bool_decide (fs' = []) = true ↔ good
  | (Raise _, _) => ¬ good
  end.
Proof.
  intros good Hus Hgid. subst good. unfold check_grant. cbv beta delta [mbind st_bind].
  pose proof (check_signature_spec root (dget "issuer_key_id" payload) (signed_bytes g payload) fs Hus) as Hs.
  destruct (check_signature root _ _ fs) as [[s|e] fs1]; [|by intros (_ & ? & _)].
  pose proof (check_window_spec payload at_ fs1) as Hw.
  destruct (check_window payload at_ fs1) as [[w|e] fs2]; [|by intros (_ & _ & ? & _)].
  set (m := if decide (rl = PNone) then mret tt else check_revocation payload root at_ rl).
  assert (match m fs2 with
          | (Ok _, fs') => ∃ l, fs' = fs2 ++ l ∧ (l = [] ↔ not_revoked payload root at_ rl)
          | (Raise _, _) => ¬ not_revoked payload root at_ rl
          end) as Hr.
  { unfold m. destruct (decide (rl = PNone)) as [->|Hrl]; [|by apply check_revocation_spec].
    exists []. rewrite app_nil_r. split; [done|]. split; [by left|done]. }
  destruct (m fs2) as [[[]|e] fs3]; [|by intros (_ & _ & _ & ?)].
  destruct Hr as (l & -> & Hl). simpl.
  assert (s = true ↔ signed_by root (dget "issuer_key_id" payload) (signed_bytes g payload)) as <-
    by (destruct s; naive_solver).
  assert (w = true ↔ ∃ t, _parse_rfc3339 at_ = Ok t ∧ in_window payload t) as <- by (destruct w; naive_solver).
  rewrite <- Hl, !andb_true_iff, bool_decide_eq_true.
  split.
  - intros [[-> ->] H]. destruct Hs as [-> _], Hw as [-> _]. by apply app_eq_nil in H as [-> ->].
  - intros (-> & -> & -> & ->). destruct Hs as [-> _], Hw as [-> _]. done.
Qed.

Lemma check_issuer_spec expected issuer :
  (check_issuer expected issuer = [] ↔ ∀ k, expected = Some k → issuer = PStr k) ∧
  "unsupported_scheme" ∉ check_issuer expected issuer.
Proof.
  unfold check_issuer. destruct expected as [k|]; [|by split; [|apply not_elem_of_nil]].
  destruct (py_eq (PStr k) issuer) eqn:Hk.
  - apply py_eq_str in Hk. split; [by split; [intros _ ? [= <-]|]|apply not_elem_of_nil].
  - split; [split; [done|]|by rewrite list_elem_of_singleton].
    intros H. rewrite (proj2 (py_eq_str k issuer) (H k eq_refl)) in Hk. done.
Qed.

Lemma verify_grant_valid (grant : pyval) (pem : option string) (at_ : pyval)
    (expected : option string) (rl : pyval) (p : pydict) :
  (∃ v, verify_grant grant pem at_ expected rl = Ok v ∧ valid v = true ∧ payload v = Some p) ↔
  ∃ g root t, grant = PDict g ∧ well_shaped g p ∧ pem = Some root ∧
    signed_by root (dget "issuer_key_id" p) (signed_bytes g p) ∧
    (∀ k, expected = Some k → dget "issuer_key_id" p = PStr k) ∧
    _parse_rfc3339 at_ = Ok t ∧ in_window p t ∧ not_revoked p root at_ rl.
Proof.
  unfold verify_grant. destruct (_structural_failures grant) as [fs op] eqn:Hst. destruct op as [p'|].
  2: { split; [naive_solver|]. intros (g & root & t & -> & Hw & _).
       assert (_structural_failures (PDict g) = ([], Some p)) by (apply structural_some; eauto). congruence. }
  apply structural_some in Hst as (-> & g & -> & Hw).
  assert (∀ g0, PDict g = PDict g0 → well_shaped g0 p → p' = p) as Hp.
  { intros g0 [= <-] Hw'. pose proof (ws_payload _ _ Hw). pose proof (ws_payload _ _ Hw'). congruence. }
  destruct pem as [root|]; [|naive_solver].
  destruct (check_issuer_spec expected (dget "issuer_key_id" p')) as [Hexp Hus].
  destruct (well_shaped_text g p' "grant_id" Hw) as (gid & Hgid & _); [set_solver|].
  pose proof (check_grant_spec g p' root at_ rl _ Hus ltac:(by rewrite Hgid)) as Hc.
  rewrite app_nil_l. destruct (check_grant g p' root at_ rl _) as [[[s w]|e] fs'].
  - split.
    + intros (v & [= <-] & Hv & [= <-]). apply Hc in Hv as (Hi & Hs & (t & Ht & Hwin) & Hr).
      exists g, root, t. rewrite Hexp in Hi. done.
    + intros (g0 & root0 & t & Hg & Hw0 & [= <-] & Hs & Hi & Ht & Hwin & Hr).
      destruct (Hp _ Hg Hw0). injection Hg as <-. eexists. split; [done|]. split; [|done].
      apply Hc. rewrite Hexp. split_and!; eauto.
  - split; [naive_solver|].
    intros (g0 & root0 & t & Hg & Hw0 & [= <-] & Hs & Hi & Ht & Hwin & Hr).
    destruct (Hp _ Hg Hw0). injection Hg as <-. destruct Hc. rewrite Hexp. split_and!; eauto.
Qed.

(** C36 -- A grant is valid exactly when everything the contract asks for holds: the
    document is complete, the configured trust root is the Ed25519 key the grant names
    (and the pinned one, if any) and its signature covers the canonical payload, the
    instant lies in [not_before, not_after), and the revocation list, if one is
    configured, clears it. *)
Theorem verify_grant_exact (grant : pyval) (pem : option string) (at_ : pyval)
    (expected : option string) (rl : pyval) (p : pydict) :
  (∃ v, verify_grant grant pem at_ expected rl = Ok v ∧ valid v = true ∧ payload v = Some p) ↔
  ∃ g root t, grant = PDict g ∧ well_shaped g p ∧ pem = Some root ∧
    signed_by root (dget "issuer_key_id" p) (signed_bytes g p) ∧
    (∀ k, expected = Some k → dget "issuer_key_id" p = PStr k) ∧
    _parse_rfc3339 at_ = Ok t ∧ in_window p t ∧ not_revoked p root at_ rl.
Proof. apply verify_grant_valid. Qed.

Lemma window_reaches payload t c :
  in_window payload t → c ≤ t → _window_overlaps_list_coverage payload c = Ok true.
Proof.
  intros (nb & na & _ & Hna & _ & Hb) Hc. unfold _window_overlaps_list_coverage, dget. rewrite Hna. simpl.
  destruct Hb as [->|(x & Hx & Hlt%Z.leb_gt)]; [by rewrite decide_True|].
  rewrite Hx. case_decide; [done|]. f_equal. apply Z.ltb_lt. lia.
Qed.

Lemma list_issued_at_parsed d c :
  _parse_rfc3339 (dget "issued_at" d) = Ok c → _list_issued_at (PDict d) = Ok (Some c).
Proof. intros H. unfold _list_issued_at. rewrite H. by destruct (dget "issued_at" d). Qed.

(** Revocation is enforced: with a list configured, a grant is only ever valid at
    an instant the list covers if the list is authentic and in force, does not name the
    grant, and was issued no earlier than the grant. *)
Theorem revocation_enforced (grant : pyval) (root : string) (at_ : pyval) (expected : option string)
    (rl : pyval) (v : GovVerification) (p : pydict) (t : Z) :
  verify_grant grant (Some root) at_ expected rl = Ok v → valid v = true → payload v = Some p →
  rl ≠ PNone → _parse_rfc3339 at_ = Ok t →
  ∃ c, _list_issued_at rl = Ok (Some c) ∧
    (c ≤ t → verify_revocation_list rl (Some root) at_ = Ok [] ∧
       ∃ d issued, rl = PDict d ∧ ¬ named p d ∧
         _parse_rfc3339 (dget "issued_at" p) = Ok issued ∧ issued ≤ c).
Proof.
  intros Hg Hv Hp Hrl Ht.
  destruct (proj1 (verify_grant_valid grant (Some root) at_ expected rl p)) as
    (g & root' & t' & _ & _ & [= <-] & _ & _ & Ht' & Hwin & Hr); [by exists v|].
  rewrite Ht in Ht'. injection Ht' as <-.
  destruct Hr as [?|[(Hok & d & c & -> & Hc & Hn & (covered & Hcov & Hfresh))|(codes & c & Hok & Hne & Hc & Hcov)]];
    [done| |].
  - exists c. split; [by apply list_issued_at_parsed|]. intros Hct. split; [done|].
    rewrite (window_reaches _ _ _ Hwin Hct) in Hcov. injection Hcov as <-.
    destruct (Hfresh eq_refl) as (issued & Hi & Hle). by exists d, issued.
  - exists c. split; [done|]. intros Hct. by rewrite (window_reaches _ _ _ Hwin Hct) in Hcov.
Qed.

(** ** When the verifier raises *)

Lemma a2b_raises s quad left pads e : a2b_base64 s quad left pads = Raise e → is_ValueError e = true.
Proof.
  revert quad left pads. induction s as [|c s IH]; intros quad left pads; simpl.
  - repeat case_match; naive_solver.
  - repeat case_match; try done; try apply IH;
      (destruct (a2b_base64 s _ _ _) eqn:E; [done|]); intros [= <-]; by eapply IH.
Qed.

Lemma b64d_raises s e : _b64d (PStr s) = Raise e → is_ValueError e = true.
Proof.
  unfold _b64d, urlsafe_b64decode. case_match; [apply a2b_raises|by intros [= <-]].
Qed.

Lemma parse_raises s e : _parse_rfc3339 (PStr s) = Raise e → is_ValueError e = true.
Proof.
  unfold _parse_rfc3339, parse_datetime.
  destruct (fromisoformat _) as [[|]|]; simpl; naive_solver.
Qed.

Lemma canonical_raises d e :
  json_serializable true (PDict d) = true → canonical_payload_bytes d = Raise e → is_ValueError e = true.
Proof.
  intros Hs. unfold canonical_payload_bytes, json_dumps. rewrite Hs.
  destruct (json_serializable false _); simpl; naive_solver.
Qed.

Lemma signed_bytes_raises g d e :
  is_str (dget "signature" g) = true → json_serializable true (PDict d) = true →
  signed_bytes g d = Raise e → is_ValueError e = true.
Proof.
  intros Hsig Hd. unfold signed_bytes. destruct (dget "signature" g) as [| | | |s| | |]; try done.
  pose proof (b64d_raises s) as Hb. pose proof (canonical_raises d) as Hc.
  destruct (_b64d (PStr s)), (canonical_payload_bytes d); simpl; naive_solver.
Qed.

Lemma check_signature_total root issuer signed fs k :
  load_pem_public_key root = Ok k → (∀ e, signed = Raise e → is_ValueError e = true) →
  ∃ b fs', check_signature root issuer signed fs = (Ok b, fs').
Proof.
  intros Hk Hs. unfold check_signature, try_except, public_key_id, catches_verification, fail. rewrite Hk. run_st.
  destruct k as [raw|]; [|by eauto]. destruct (py_eq _ issuer); [|by eauto].
  case_decide; [by eauto|]. destruct signed as [[sig data]|e].
  - destruct (ed25519_verify raw sig data); run_st; [by eauto|]. simpl. case_decide; by eauto.
  - rewrite (Hs e eq_refl). simpl. case_decide; by eauto.
Qed.

Lemma filter_serializable d : json_serializable true (PDict d) = true →
  json_serializable true (PDict (without_signature d)) = true.
Proof.
  simpl. rewrite !forallb_Forall_true, !Forall_forall. intros H x [_ Hx]%list_elem_of_filter. by apply H.
Qed.

Lemma signed_list_raises d e :
  is_str (dget "signature" d) = true → json_serializable true (PDict d) = true →
  signed_list d = Raise e → is_ValueError e = true.
Proof.
  intros Hsig Hd%filter_serializable. unfold signed_list.
  destruct (dget "signature" d) as [| | | |s| | |]; try done.
  pose proof (b64d_raises s) as Hb. pose proof (canonical_raises (without_signature d)) as Hc.
  destruct (canonical_payload_bytes (without_signature d)), (_b64d (PStr s)); simpl; naive_solver.
Qed.

Lemma item_serializable k d : json_serializable true (PDict d) = true →
  json_serializable true (dget k d) = true.
Proof.
  unfold dget. induction d as [|[[k'|r] v] d IH]; simpl; [done| |done].
  intros [Hv Hd]%andb_true_iff. case_decide; [done|]. by apply IH.
Qed.

Lemma revocation_list_total rl root s k :
  load_pem_public_key root = Ok k → json_serializable true rl = true →
  ∃ codes, verify_revocation_list rl (Some root) (PStr s) = Ok codes.
Proof.
  intros Hk Hs. destruct rl as [| | | | | |d|]; try (by eexists).
  unfold verify_revocation_list, _revocation_list_structural.
  destruct (negb _); [by eexists|]. destruct (decide _) as [Hf|]; [|by eexists].
  destruct (forallb _ _ && _) eqn:Hr; [|by apply app_nil in Hf as [_ [=]]].
  apply andb_true_iff in Hr as [Hr _]. rewrite forallb_Forall_true, Forall_forall in Hr.
  assert (∀ k, (k, [TStr]) ∈ REQUIRED_REVOCATION_LIST_FIELDS → is_str (dget k d) = true) as Hstr.
  { intros k0 Hk0. specialize (Hr _ Hk0). unfold list_field_ok, dget in *. simpl in Hr.
    destruct (dict_get (KStr k0) d) as [[]|]; done. }
  pose proof (Hstr "issued_at" ltac:(set_solver)) as Hi.
  pose proof (Hstr "signature" ltac:(set_solver)) as Hsg.
  destruct (dget "issued_at" d) as [| | | |ia| | |]; try done.
  pose proof (parse_raises ia) as Hia. destruct (_parse_rfc3339 (PStr ia)) as [c|e]; run_st;
    [|rewrite (Hia e eq_refl); by eexists].
  assert (∀ fs, ∃ b fs', check_signature root (dget "issuer_key_id" d) (signed_list d) fs = (Ok b, fs')) as Hc.
  { intros fs. apply (check_signature_total _ _ _ _ k Hk). intros e. by apply signed_list_raises. }
  pose proof (parse_raises s) as Hps.
  destruct (_parse_rfc3339 (PStr s)) as [t|e]; [|rewrite (Hps e eq_refl)]; run_st;
    edestruct Hc as (b & fs' & ->); by eexists.
Qed.

Lemma bound_text g payload k v :
  well_shaped g payload → (k, [TStr; TNone]) ∈ OPTIONAL_PAYLOAD_FIELDS →
  dict_get (KStr k) payload = Some v → v = PNone ∨ ∃ s, v = PStr s.
Proof.
  intros [_ _ _ _ _ Ho] Hk Hv. rewrite Forall_forall in Ho. specialize (Ho _ Hk).
  unfold optional_ok in Ho. simpl in Ho. rewrite Hv in Ho. destruct v; naive_solver.
Qed.

Lemma overlaps_total g payload c :
  well_shaped g payload → ∃ b, _window_overlaps_list_coverage payload c = Ok b.
Proof.
  intros Hw. unfold _window_overlaps_list_coverage. case_decide as Hn; [by eexists|].
  unfold dget in *. destruct (dict_get (KStr "not_after") payload) as [v|] eqn:Hv; [|done].
  destruct (bound_text g payload "not_after" v Hw ltac:(set_solver) Hv) as [->|[s ->]]; [done|]. simpl.
  pose proof (parse_raises s) as Hp. destruct (_parse_rfc3339 (PStr s)) as [t|e]; [by eexists|].
  rewrite (Hp e eq_refl). by eexists.
Qed.

Lemma check_revocation_total g payload root s rl fs k :
  well_shaped g payload → load_pem_public_key root = Ok k → json_serializable true rl = true →
  ∃ fs', check_revocation payload root (PStr s) rl fs = (Ok tt, fs').
Proof.
  intros Hw Hk Hs. unfold check_revocation. cbv beta delta [mbind st_bind st_lift].
  destruct (revocation_list_total rl root s k Hk Hs) as [codes Hv]. rewrite Hv. case_decide as Hc.
  - assert (∃ o, _list_issued_at rl = Ok o) as [[c|] ->]; [| |by eexists].
    { unfold _list_issued_at. destruct rl as [| | | | | |d|]; try by eexists.
      destruct (dget "issued_at" d) as [| | | |ia| | |]; try by eexists. cbn [is_str].
      pose proof (parse_raises ia) as Hp. destruct (_parse_rfc3339 (PStr ia)); [by eexists|].
      rewrite (Hp e eq_refl). by eexists. }
    destruct (overlaps_total g payload c Hw) as [[] ->]; by eexists.
  - subst codes. destruct (verified_list_is_dict _ _ _ Hv) as (d & c & -> & Hc & Hids).
    destruct (revoked_ids_strings _ Hids) as (ids & ->). rewrite py_in_strings, Hc.
    assert (∀ fs, ∃ fs', check_staleness payload c fs = (Ok tt, fs')) as Hst.
    { intros fs0. unfold check_staleness, fail. run_st.
      destruct (overlaps_total g payload c Hw) as [[] ->]; [|by eexists].
      destruct (well_shaped_text g payload "issued_at" Hw) as (ia & -> & _); [set_solver|].
      pose proof (parse_raises ia) as Hp. destruct (_parse_rfc3339 (PStr ia)) as [t|e];
        [|rewrite (Hp e eq_refl); by eexists]. destruct (c <? t); by eexists. }
    case_bool_decide; apply Hst.
Qed.

(** The window check raises on a missing bound, and only then. *)
Definition bound_missing (payload : pydict) (e : exn) : Prop :=
  (dict_get (KStr "not_before") payload = None ∧ e = KeyError "not_before") ∨
  (∃ nb, dict_get (KStr "not_before") payload = Some nb ∧ (nb = PNone ∨ ∃ x, _parse_rfc3339 nb = Ok x) ∧
     dict_get (KStr "not_after") payload = None ∧ e = KeyError "not_after").

Lemma check_bound_raises g payload k v violated code fs e fs' :
  well_shaped g payload → (k, [TStr; TNone]) ∈ OPTIONAL_PAYLOAD_FIELDS → dict_get (KStr k) payload = Some v →
  check_bound v violated code fs = (Raise e, fs') →
  is_ValueError e = true ∧ ¬ (v = PNone ∨ ∃ x, _parse_rfc3339 v = Ok x).
Proof.
  intros Hw Hk Hv. unfold check_bound, fail. destruct (bound_text _ _ _ _ Hw Hk Hv) as [->|[s ->]].
  { by rewrite decide_True. }
  rewrite decide_False by done. run_st. pose proof (parse_raises s) as Hp.
  destruct (_parse_rfc3339 (PStr s)); [by case_match|].
  intros [= <- <-]. split; [by apply Hp|]. naive_solver.
Qed.

Lemma check_window_raises g payload s fs e :
  well_shaped g payload →
  ((∃ fs', check_window payload (PStr s) fs = (Raise e, fs')) ↔
   (∃ t, _parse_rfc3339 (PStr s) = Ok t) ∧ bound_missing payload e).
Proof.
  intros Hw. unfold check_window, try_except, ditem, bound_missing, fail.
  cbv beta delta [mbind st_bind st_lift].
  pose proof (parse_raises s) as Hp. destruct (_parse_rfc3339 (PStr s)) as [t|e'].
  2: { rewrite (Hp _ eq_refl). naive_solver. }
  destruct (dict_get (KStr "not_before") payload) as [nb|] eqn:Hnb; [|naive_solver].
  destruct (check_bound nb _ _ fs) as [[started|e1] fs1] eqn:Hb.
  2: { destruct (check_bound_raises g payload "not_before" _ _ _ _ _ _ Hw ltac:(set_solver) Hnb Hb) as [-> Hn]. naive_solver. }
  assert (nb = PNone ∨ ∃ x, _parse_rfc3339 nb = Ok x) as Hnb'.
  { revert Hb. unfold check_bound. destruct (decide (nb = PNone)); [by left|right]. revert Hb.
    run_st. destruct (_parse_rfc3339 nb); [by eexists|done]. }
  destruct (dict_get (KStr "not_after") payload) as [na|] eqn:Hna; [|naive_solver].
  destruct (check_bound na _ _ fs1) as [[running|e1] fs2] eqn:Hb2; [naive_solver|].
  destruct (check_bound_raises g payload "not_after" _ _ _ _ _ _ Hw ltac:(set_solver) Hna Hb2) as [-> Hn]. naive_solver.
Qed.

(** When the verifier raises: on JSON documents, an instant given as text and a
    loadable trust root, [verify_grant] returns a verdict except on one kind of
    well-formed grant, whose payload omits [not_before] (or [not_after]), although both
    are optional: there it raises [KeyError], whatever the signature. *)
Theorem verify_grant_raises_iff (grant : pyval) (root s : string) (expected : option string)
    (rl : pyval) (key : public_key) (e : exn) :
  load_pem_public_key root = Ok key →
  json_serializable true grant = true → json_serializable true rl = true →
  (verify_grant grant (Some root) (PStr s) expected rl = Raise e ↔
   ∃ g p t, grant = PDict g ∧ well_shaped g p ∧ _parse_rfc3339 (PStr s) = Ok t ∧ bound_missing p e).
Proof.
  intros Hk Hg Hrl. unfold verify_grant. destruct (_structural_failures grant) as [fs op] eqn:Hst.
  destruct op as [p|].
  2: { split; [done|]. intros (g & p & t & -> & Hw & _).
       assert (_structural_failures (PDict g) = ([], Some p)) by (apply structural_some; eauto). congruence. }
  apply structural_some in Hst as (-> & g & -> & Hw).
  assert (json_serializable true (PDict p) = true) as Hps.
  { rewrite <- (ws_payload _ _ Hw). by apply item_serializable. }
  destruct (check_signature_total root (dget "issuer_key_id" p) (signed_bytes g p)
    ([] ++ check_issuer expected (dget "issuer_key_id" p)) key Hk) as (b & fs1 & Hs).
  { intros e'. apply signed_bytes_raises; [apply Hw|done]. }
  unfold check_grant. cbv beta delta [mbind st_bind]. rewrite Hs.
  pose proof (check_window_raises g p s fs1 e Hw) as Hwin.
  destruct (check_window p (PStr s) fs1) as [[w|e'] fs2].
  - assert (∃ fs3, (if decide (rl = PNone) then mret tt else check_revocation p root (PStr s) rl) fs2
      = (Ok tt, fs3)) as [fs3 Hr].
    { destruct (decide (rl = PNone)); [by eexists|]. by apply (check_revocation_total g p root s rl _ key). }
    rewrite Hr. split; [done|]. intros (g' & p' & t & [= <-] & Hw' & Ht & Hm).
    assert (p' = p) as -> by (pose proof (ws_payload _ _ Hw); pose proof (ws_payload _ _ Hw'); congruence).
    destruct (proj2 Hwin) as [fs' [=]]. by split; [exists t|].
  - split.
    + intros [= ->]. destruct (proj1 Hwin) as [[t Ht] Hm]; [by eexists|]. by exists g, p, t.
    + intros (g' & p' & t & [= <-] & Hw' & Ht & Hm).
      assert (p' = p) as -> by (pose proof (ws_payload _ _ Hw); pose proof (ws_payload _ _ Hw'); congruence).
      destruct (proj2 Hwin) as [fs' [= -> ->]]; [by split; [exists t|]|done].
Qed.

Lemma ditem_dget k d v : dget k d = v → v ≠ PNone → ditem k d = Ok v.
Proof. unfold ditem, dget. destruct (dict_get (KStr k) d); simpl; congruence. Qed.

Lemma constraints_met_spec constraints args :
  constraints_met constraints args = true ↔
  ∀ k expected, (k, expected) ∈ constraints → k ≠ KStr "tool" → k ≠ KStr "source" →
    ∃ v, dict_get k args = Some v ∧ py_eq v expected = true.
Proof.
  induction constraints as [|[k e] rest IH]; simpl.
  { split; [|done]. intros _ k e H. by apply not_elem_of_nil in H. }
  case_decide as Hk.
  - rewrite IH. split; [|set_solver]. intros H k' e' [[= -> ->]|Hin]%elem_of_cons; [naive_solver|by apply H].
  - split.
    + destruct (dict_get k args) as [v|] eqn:Hv; [|done]. intros [He Hr]%andb_true_iff k' e'.
      intros [[= -> ->]|Hin]%elem_of_cons; [by eauto|]. by apply IH.
    + intros H. destruct (H k e) as (v & -> & ->); [by left|naive_solver..|]. simpl. apply IH.
      intros k' e' Hin. apply H. by right.
Qed.

Lemma code_nil (b : bool) (code : string) rest : (if b then [] else [code]) ++ rest = [] ↔ b = true ∧ rest = [].
Proof. by destruct b; naive_solver. Qed.

Lemma scope_code_nil constraints args name source :
  (if negb (py_eq (dget "tool" constraints) (PStr name))
      || dhas "source" constraints && negb (py_eq (dget "source" constraints) (PStr source))
   then ["scope_mismatch"]
   else if constraints_met constraints args then [] else ["args_mismatch"]) = [] ↔
  dict_get (KStr "tool") constraints = Some (PStr name) ∧
  (∀ v, dict_get (KStr "source") constraints = Some v → v = PStr source) ∧
  constraints_met constraints args = true.
Proof.
  unfold dhas, dget.
  assert (py_eq (default PNone (dict_get (KStr "tool") constraints)) (PStr name) = true ↔
    dict_get (KStr "tool") constraints = Some (PStr name)) as <-.
  { rewrite py_eq_str_r. destruct (dict_get (KStr "tool") constraints); simpl; naive_solver. }
  assert (bool_decide (is_Some (dict_get (KStr "source") constraints)) &&
    negb (py_eq (default PNone (dict_get (KStr "source") constraints)) (PStr source)) = false ↔
    ∀ v, dict_get (KStr "source") constraints = Some v → v = PStr source) as <-.
  { destruct (dict_get (KStr "source") constraints) as [v|]; [|naive_solver].
    simpl. rewrite negb_false_iff, py_eq_str_r. naive_solver. }
  destruct (py_eq _ (PStr name)); simpl; [|naive_solver].
  destruct (bool_decide _ && _); simpl; [naive_solver|]. destruct (constraints_met _ _); naive_solver.
Qed.

Lemma scope_failures_spec (g p : pydict) (principal provider source name : string) (args : pydict) :
  well_shaped g p →
  ∃ l operations constraints,
    scope_failures p principal provider source name args = Ok l ∧
    dget "permitted_operations" p = PList operations ∧ dget "argument_constraints" p = PDict constraints ∧
    (l = [] ↔
     dget "provider_id" p = PStr provider ∧ PStr INVOKE_OPERATION ∈ operations ∧
     dget "requesting_principal_id" p = PStr principal ∧
     dict_get (KStr "tool") constraints = Some (PStr name) ∧
     (∀ v, dict_get (KStr "source") constraints = Some v → v = PStr source) ∧
     (∀ k expected, (k, expected) ∈ constraints → k ≠ KStr "tool" → k ≠ KStr "source" →
        ∃ v, dict_get k args = Some v ∧ py_eq v expected = true)).
Proof.
  intros Hw. unfold scope_failures.
  assert (∀ k t, (k, [t]) ∈ REQUIRED_PAYLOAD_FIELDS → has_type t (dget k p) = true) as Hty.
  { intros k t Hk. pose proof (ws_required _ _ Hw) as Hr. rewrite Forall_forall in Hr. specialize (Hr _ Hk).
    unfold required_ok in Hr. simpl in Hr. unfold dget. destruct (dict_get (KStr k) p); [|done]. simpl in *.
    by apply andb_true_iff in Hr as [[Ht|?]%orb_true_iff _]. }
  pose proof (Hty "permitted_operations" TList ltac:(set_solver)) as Ho.
  pose proof (Hty "argument_constraints" TDict ltac:(set_solver)) as Hc.
  destruct (dget "permitted_operations" p) as [| | | | |operations| |] eqn:Eo; try done.
  destruct (dget "argument_constraints" p) as [| | | | | |constraints|] eqn:Ec; try done.
  destruct (well_shaped_text g p "provider_id" Hw) as (pr & Epr & _); [set_solver|].
  destruct (well_shaped_text g p "requesting_principal_id" Hw) as (rp & Erp & _); [set_solver|].
  rewrite (ditem_dget _ _ _ Eo), (ditem_dget _ _ _ Ec), (ditem_dget _ _ _ Epr), (ditem_dget _ _ _ Erp) by done.
  eexists _, operations, constraints. cbn [mbind res_bind py_in]. split_and!; [done..|].
  rewrite Epr, Erp, !code_nil, !py_eq_str, existsb_exists.
  assert ((∃ x, In x operations ∧ py_eq (PStr INVOKE_OPERATION) x = true) ↔ PStr INVOKE_OPERATION ∈ operations) as ->.
  { split; [intros (x & Hx & ->%py_eq_str); by apply list_elem_of_In|].
    intros Hx. exists (PStr INVOKE_OPERATION). split; [by apply list_elem_of_In|by apply py_eq_str]. }
  rewrite <- constraints_met_spec.
  rewrite scope_code_nil. naive_solver.
Qed.

(** The scope binding: a well-formed grant's scope passes exactly when it is for
    this provider and principal, permits [tool.invoke], is bound to this tool and, if it
    names one, this source, and every other constraint equals the argument of that name
    in the sense of Python's [==]. *)
Theorem scope_failures_exact (g p : pydict) (principal provider source name : string) (args : pydict) :
  well_shaped g p →
  ∃ l operations constraints,
    scope_failures p principal provider source name args = Ok l ∧
    dget "permitted_operations" p = PList operations ∧ dget "argument_constraints" p = PDict constraints ∧
    (l = [] ↔
     dget "provider_id" p = PStr provider ∧ PStr INVOKE_OPERATION ∈ operations ∧
     dget "requesting_principal_id" p = PStr principal ∧
     dict_get (KStr "tool") constraints = Some (PStr name) ∧
     (∀ v, dict_get (KStr "source") constraints = Some v → v = PStr source) ∧
     (∀ k expected, (k, expected) ∈ constraints → k ≠ KStr "tool" → k ≠ KStr "source" →
        ∃ v, dict_get k args = Some v ∧ py_eq v expected = true)).
Proof. apply scope_failures_spec. Qed.
End spec.

(** ** Witnesses *)

(** A stand-in for the package: one key, "signing" with a keyed hash. *)
Definition toy_raw : list Z := seqZ 1 32.
Definition toy_crypto : Cryptography := {|
  load_pem_public_key pem := if decide (pem = "ROOT") then Ok (Ed25519PublicKey toy_raw)
                             else Raise (ValueError "Could not deserialize key data");
  ed25519_verify raw sig data := bool_decide (sig = sha256_bytes (raw ++ data));
|}.

Definition toy_sign (d : pydict) : pyval :=
  match canonical_payload_bytes (rt := coded_float_runtime) d with
  | Ok data => PStr (urlsafe_b64encode (sha256_bytes (toy_raw ++ data)))
  | Raise _ => PNone
  end.

Definition toy_key_id : string := "ed25519:" +:+ hex_of_bytes (sha256_bytes toy_raw).

Definition text_field (kv : string * string) : pykey * pyval := (KStr kv.1, PStr kv.2).

Definition sample_payload (bounds : list (string * string)) : pydict :=
  (text_field <$> [("grant_format_version", "1"); ("grant_id", "g-1"); ("decision_record_id", "dr-1");
     ("work_request_id", "wr-1"); ("requesting_principal_id", "alice"); ("organization_id", "org");
     ("workspace_id", "ws"); ("provider_id", "toolconnect"); ("kernel_version", "1"); ("issued_at", "90");
     ("issuer_key_id", toy_key_id)]) ++
  [(KStr "permitted_operations", PList [PStr "tool.invoke"]);
   (KStr "argument_constraints", PDict [text_field ("tool", "search"); (KStr "limit", PInt 1)]);
   (KStr "data_classifications", PList []); (KStr "policy_versions", PList [])] ++
  (text_field <$> bounds).

Definition sample_grant (bounds : list (string * string)) : pydict :=
  [(KStr "payload", PDict (sample_payload bounds)); (KStr "signature_scheme", PStr "Ed25519");
   (KStr "signature", toy_sign (sample_payload bounds))].

Definition sample_list : pydict :=
  let body := (text_field <$> [("revocation_list_format_version", "1"); ("issuer_key_id", toy_key_id);
                ("issued_at", "100"); ("list_id", "rl-1"); ("signature_scheme", "Ed25519")]) ++
              [(KStr "supersedes", PNone); (KStr "revoked_grant_ids", PList [PStr "g-2"])] in
  body ++ [(KStr "signature", toy_sign body)].

Definition full_bounds : list (string * string) := [("not_before", "0"); ("not_after", "1000")].

Definition sample_verification : res GovVerification :=
  verify_grant (rt := coded_float_runtime) (dt := decimal_datetime) (crypto := toy_crypto)
    (PDict (sample_grant full_bounds)) (Some "ROOT") (PStr "150") None (PDict sample_list).

Example sample_valid :
  match sample_verification with Ok v => valid v && signature_valid v | Raise _ => false end = true.
Proof. vm_compute. reflexivity. Qed.

Lemma revocation_enforced_witness :
  ∃ c, _list_issued_at (dt := decimal_datetime) (PDict sample_list) = Ok (Some c) ∧
    (c ≤ 150 → verify_revocation_list (rt := coded_float_runtime) (dt := decimal_datetime) (crypto := toy_crypto)
                  (PDict sample_list) (Some "ROOT") (PStr "150") = Ok [] ∧
       ∃ d issued, PDict sample_list = PDict d ∧ ¬ named (sample_payload full_bounds) d ∧
         _parse_rfc3339 (dt := decimal_datetime)
           (dget "issued_at" (sample_payload full_bounds)) = Ok issued ∧ issued ≤ c).
Proof.
  apply (revocation_enforced (rt := coded_float_runtime) (dt := decimal_datetime) (crypto := toy_crypto)
    (PDict (sample_grant full_bounds)) "ROOT" (PStr "150") None (PDict sample_list)
    (match sample_verification with Ok v => v | Raise _ => mkGov false false false [] None None end)).
  - vm_compute. reflexivity.
  - vm_compute. reflexivity.
  - vm_compute. reflexivity.
  - discriminate.
  - vm_compute. reflexivity.
Defined.

(** A grant signed by the trust root, without the optional [not_before]. *)
Lemma verify_grant_raises_iff_witness :
  verify_grant (rt := coded_float_runtime) (dt := decimal_datetime) (crypto := toy_crypto)
    (PDict (sample_grant [])) (Some "ROOT") (PStr "150") None PNone = Raise (KeyError "not_before").
Proof.
  apply (verify_grant_raises_iff (rt := coded_float_runtime) (dt := decimal_datetime) (crypto := toy_crypto)
    (PDict (sample_grant [])) "ROOT" "150" None PNone (Ed25519PublicKey toy_raw)).
  - reflexivity.
  - vm_compute. reflexivity.
  - reflexivity.
  - exists (sample_grant []), (sample_payload []), 150. split; [reflexivity|]. split.
    + split; [reflexivity|reflexivity|vm_compute; reflexivity| | |].
      * exists "1". split; [reflexivity|]. apply (bool_decide_unpack _). vm_compute. exact I.
      * apply forallb_Forall_true. vm_compute. reflexivity.
      * apply forallb_Forall_true. vm_compute. reflexivity.
    + split; [vm_compute; reflexivity|]. left. split; vm_compute; reflexivity.
Defined.

Lemma scope_failures_exact_witness :
  scope_failures (sample_payload full_bounds) "alice" "toolconnect" "ws" "search" [(KStr "limit", PBool true)]
  = Ok [] ∧
  ∃ l operations constraints,
    scope_failures (sample_payload full_bounds) "alice" "toolconnect" "ws" "search" [(KStr "limit", PBool true)]
      = Ok l ∧
    dget "permitted_operations" (sample_payload full_bounds) = PList operations ∧
    dget "argument_constraints" (sample_payload full_bounds) = PDict constraints ∧
    (l = [] → PStr INVOKE_OPERATION ∈ operations).
Proof.
  split; [vm_compute; reflexivity|].
  destruct (scope_failures_exact (sample_grant full_bounds)
    (sample_payload full_bounds) "alice" "toolconnect" "ws" "search" [(KStr "limit", PBool true)])
    as (l & ops & cs & H1 & H2 & H3 & H4).
  - split; [reflexivity|reflexivity|vm_compute; reflexivity| | |].
    + exists "1". split; [reflexivity|]. apply (bool_decide_unpack _). vm_compute. exact I.
    + apply forallb_Forall_true. vm_compute. reflexivity.
    + apply forallb_Forall_true. vm_compute. reflexivity.
  - exists l, ops, cs. split; [exact H1|]. split; [exact H2|]. split; [exact H3|].
    intros Hl. apply H4 in Hl. apply Hl.
Defined.
