(* ===== verification/McpSource.v ===== *)
(** [mcp_source.py]: MCP discovery over a subprocess's standard streams.

    The server process is the environment: whether it starts, which writes to it fail,
    and the sequence of what each turn of the read loop sees before the deadline.  The
    sequence is finite, and its end is the deadline: [_read_line] never reads past it. *)

From S2P Require Import Prelude PyJson PyJsonLoads PyStr PyColl Descriptor PyEq.

Definition PROTOCOL_VERSION : string := "2025-06-18".
Definition CLIENT_INFO : pyval := PDict [(KStr "name", PStr "toolconnect"); (KStr "version", PStr "0.1.0")].

Definition FAULT_KINDS : list string :=
  ["spawn_failed"; "timeout"; "malformed_json"; "truncated_response"; "protocol_error"; "duplicate_tool"].

Record DiscoveredTool := mkDiscovered {
  dt_name : string;
  dt_claimed : ClaimedMetadata;
  dt_input_schema : list (pykey * pyval);
  dt_version : string;
}.

Record DiscoveryResult := mkDiscovery {
  server_name : string;
  server_version : string;
  protocol_version : string;
  dr_tools : list DiscoveredTool;
}.

(** ** The server process *)

(** One turn of the read loop: [select] found nothing, or [os.read] returned a chunk,
    the empty one at the end of the stream. *)
Inductive io_event :=
| Idle
| Data (chunk : string).

Record process := mkProcess {
  spawn_fails : bool;
  broken_pipe : nat → bool;
  events : list io_event;
}.

(** The transport: bytes received, whether the stream ended, what is still to come, and
    the messages sent. *)
Record transport := mkTransport {
  t_buf : string;
  t_eof : bool;
  t_events : list io_event;
  t_sent : list pyval;
}.

(** [bytes.decode("utf-8")], which [json.loads] applies to a frame. *)
Class Utf8 := {
  utf8_decode : string → option string;
  utf8_decode_ascii s : all_chars (λ c, char_code c <? 128) s = true → utf8_decode s = Some s;
}.

Definition newline : ascii := "010"%char.

(** The loop of [_read_line], over the turns left before the deadline. *)
Fixpoint read_turns (buf : string) (eof : bool) (evs : list io_event) :
    res string * (string * bool * list io_event) :=
  let '(line, found, rest) := partition newline buf in
  if found : bool then (Ok line, (rest, eof, evs))
  else
    match evs with
    | [] => (Raise (McpDiscoveryError "timeout" "server did not respond before the deadline"), (buf, eof, evs))
    | ev :: evs' =>
        if eof then
          (Raise (McpDiscoveryError "truncated_response"
             ("stream ended mid-message (" +:+ string_of_Z (Z.of_nat (String.length buf))
                +:+ " unterminated bytes)")), (buf, eof, evs))
        else
          match ev with
          | Idle => read_turns buf eof evs'
          | Data chunk =>
              if decide (chunk = "") then
                if decide (buf = "") then
                  (Raise (McpDiscoveryError "truncated_response" "server closed the stream with no response"),
                   (buf, true, evs'))
                else read_turns buf true evs'
              else read_turns (buf +:+ chunk) eof evs'
          end
    end.

(** [_read_line] *)
Definition _read_line : st transport string := λ t,
  let '(r, (buf, eof, evs)) := read_turns (t_buf t) (t_eof t) (t_events t) in
  (r, mkTransport buf eof evs (t_sent t)).

Section mcp.
Context {rt : PyFloatRuntime} {utf8 : Utf8} (broken_pipe : nat → bool).

(** [send(message)] *)
Definition send (message : pyval) : st transport unit :=
  t ← st_get;
  _ ← st_lift (json_dumps true false true message);
  if broken_pipe (length (t_sent t)) then
    st_throw (McpDiscoveryError "truncated_response" "server closed stdin pipe")
  else st_modify (λ t, mkTransport (t_buf t) (t_eof t) (t_events t) (t_sent t ++ [message])).

(** [receive()]: [except json.JSONDecodeError] does not catch a decoding error. *)
Definition receive : st transport (list (pykey * pyval)) :=
  line ← _read_line;
  match utf8_decode line with
  | None => st_throw (ValueError "'utf-8' codec can't decode frame")
  | Some text =>
      match json_loads text with
      | Raise JSONDecodeError => st_throw (McpDiscoveryError "malformed_json" "unparseable frame from server")
      | Raise e => st_throw e
      | Ok (PDict msg) =>
          if py_eq (dget "jsonrpc" msg) (PStr "2.0") then mret msg
          else st_throw (McpDiscoveryError "protocol_error" "frame is not a JSON-RPC 2.0 message")
      | Ok _ => st_throw (McpDiscoveryError "protocol_error" "frame is not a JSON-RPC 2.0 message")
      end
  end.

(** Complete frames still to come: a bound on how often [receive] can return. *)
Fixpoint newlines (s : string) : nat :=
  match s with
  | String c s' => (if decide (c = newline) then 1 else 0) + newlines s'
  | EmptyString => 0
  end.

Fixpoint event_frames (evs : list io_event) : nat :=
  match evs with
  | Data c :: evs' => newlines c + event_frames evs'
  | Idle :: evs' => event_frames evs'
  | [] => 0
  end.

Definition frames_left (t : transport) : nat := newlines (t_buf t) + event_frames (t_events t).

Definition out_of_fuel : exn := McpDiscoveryError "timeout" "no fuel left".

(** The [while True] of [request], skipping messages with another id. *)
Fixpoint await_reply (fuel : nat) (req_id : Z) (method : string) : st transport pyval :=
  match fuel with
  | O => st_throw out_of_fuel
  | S fuel =>
      msg ← receive;
      if negb (py_eq (dget "id" msg) (PInt req_id)) then await_reply fuel req_id method
      else if dhas "error" msg then
        code ← st_lift (py_get (dget "error" msg) "code");
        text ← st_lift (py_get (dget "error" msg) "message");
        st_throw (McpDiscoveryError "protocol_error"
          (method +:+ " failed: [" +:+ py_str code +:+ "] " +:+ py_str text))
      else if dhas "result" msg then mret (dget "result" msg)
      else st_throw (McpDiscoveryError "protocol_error" (method +:+ " response has neither result nor error"))
  end.

(** The message of [request]. *)
Definition rpc (id : Z) (method : string) (params : list (pykey * pyval)) : pyval :=
  PDict [(KStr "jsonrpc", PStr "2.0"); (KStr "id", PInt id); (KStr "method", PStr method);
         (KStr "params", PDict params)].

(** [request(req_id, method, params)] *)
Definition request (req_id : Z) (method : string) (params : list (pykey * pyval)) : st transport pyval :=
  _ ← send (rpc req_id method params);
  t ← st_get;
  await_reply (S (frames_left t)) req_id method.

(** [_normalize(tool, server_version)] *)
Definition _normalize (tool : pyval) (version : string) : res DiscoveredTool :=
  name ← py_get tool "name";
  match name with
  | PStr (String c s) =>
      annotations ← py_get tool "annotations";
      match py_or annotations (PDict []) with
      | PDict ann =>
          description ← py_get tool "description";
          schema ← py_get tool "inputSchema";
          let schema := match py_or schema (PDict []) with PDict d => d | _ => [] end in
          Ok (mkDiscovered (String c s)
                (mkClaimed (PStr (py_str (py_or description (PStr ""))))
                   (dget "readOnlyHint" ann) (dget "destructiveHint" ann)
                   (dget "idempotentHint" ann) (dget "openWorldHint" ann))
                schema version)
      | _ => Raise (McpDiscoveryError "protocol_error"
               ("tool " +:+ repr_str (String c s) +:+ " annotations are not an object"))
      end
  | _ => Raise (McpDiscoveryError "protocol_error" ("tool without a usable name: " +:+ py_repr tool))
  end.

(** The loop over one page, [tools] being what earlier ones gave. *)
Fixpoint take_page (raw : list pyval) (version : string) (tools : list DiscoveredTool) :
    res (list DiscoveredTool) :=
  match raw with
  | [] => Ok tools
  | t :: raw' =>
      d ← _normalize t version;
      if decide (dt_name d ∈ dt_name <$> tools) then
        Raise (McpDiscoveryError "duplicate_tool"
          ("server announced " +:+ repr_str (dt_name d) +:+ " more than once"))
      else take_page raw' version (tools ++ [d])
  end.

(** The [while True] of [discover] over the pages. *)
Fixpoint take_pages (fuel : nat) (version : string) (cursor : pyval) (req_id : Z)
    (tools : list DiscoveredTool) : st transport (list DiscoveredTool) :=
  match fuel with
  | O => st_throw out_of_fuel
  | S fuel =>
      page ← request req_id "tools/list"
               (if decide (cursor = PNone) then [] else [(KStr "cursor", cursor)]);
      raw ← st_lift (py_get page "tools");
      match raw with
      | PList raw =>
          tools ← st_lift (take_page raw version tools);
          cursor ← st_lift (py_get page "nextCursor");
          if decide (cursor = PNone) then mret tools
          else take_pages fuel version cursor (req_id + 1) tools
      | _ => st_throw (McpDiscoveryError "protocol_error" "tools/list result lacks a tools array")
      end
  end.

(** The [try] block of [discover]. *)
Definition handshake : st transport DiscoveryResult :=
  init ← request 1 "initialize"
    [(KStr "protocolVersion", PStr PROTOCOL_VERSION); (KStr "capabilities", PDict []);
     (KStr "clientInfo", CLIENT_INFO)];
  info ← st_lift (py_get init "serverInfo");
  let info := py_or info (PDict []) in
  proto ← st_lift (py_get init "protocolVersion");
  match proto with
  | PStr proto =>
      _ ← send (PDict [(KStr "jsonrpc", PStr "2.0"); (KStr "method", PStr "notifications/initialized")]);
      version ← st_lift (py_get info "version");
      let version := py_str (py_or version (PStr "0.0.0")) in
      t ← st_get;
      tools ← take_pages (S (frames_left t)) version PNone 2 [];
      name ← st_lift (py_get info "name");
      mret (mkDiscovery (py_str (py_or name (PStr "unknown"))) version proto tools)
  | _ => st_throw (McpDiscoveryError "protocol_error" "initialize result lacks protocolVersion")
  end.
End mcp.

(** [discover(command, timeout)], against a process. *)
Definition discover {rt : PyFloatRuntime} {utf8 : Utf8} (p : process) : res DiscoveryResult :=
  if spawn_fails p then Raise (McpDiscoveryError "spawn_failed" "could not start the server")
  else (handshake (broken_pipe p) (mkTransport "" false (events p) [])).1.

(** ** The fuel suffices *)

Lemma newlines_app s t : newlines (s +:+ t) = (newlines s + newlines t)%nat.
Proof. induction s as [|c s IH]; simpl; [done|]. rewrite IH. lia. Qed.

Lemma partition_newlines s : ∀ a f b,
  partition newline s = (a, f, b) → newlines s = ((if f : bool then 1 else 0) + newlines b)%nat ∧
                                    (f = false → b = "").
Proof.
  induction s as [|c s IH]; intros a f b; simpl; [by intros [= <- <- <-]|].
  case_decide; [by intros [= <- <- <-]|].
  destruct (partition newline s) as [[a' f'] b'] eqn:E. intros [= <- <- <-]. by apply (IH a' f' b').
Qed.

Lemma read_turns_frames evs : ∀ buf eof line buf' eof' evs',
  read_turns buf eof evs = (Ok line, (buf', eof', evs')) →
  (newlines buf + event_frames evs = S (newlines buf' + event_frames evs'))%nat.
Proof.
  induction evs as [|ev evs IH]; intros buf eof line buf' eof' evs'; simpl;
    destruct (partition newline buf) as [[a f] b] eqn:Hp; destruct (partition_newlines _ _ _ _ Hp) as [Hn Hb].
  { destruct f; [|done]. intros [= <- <- <- <-]. simpl. lia. }
  destruct f; [intros [= <- <- <- <-]; simpl; lia|].
  destruct eof; [done|]. destruct ev as [|chunk]; [by apply IH|].
  case_decide as Hc.
  - subst chunk. case_decide; [done|]. simpl. by apply IH.
  - intros H%IH. rewrite newlines_app in H. simpl. lia.
Qed.

Section fuel.
Context {rt : PyFloatRuntime} {utf8 : Utf8} (broken_pipe : nat → bool).

Lemma receive_frames t msg t' :
  receive t = (Ok msg, t') → frames_left t = S (frames_left t') ∧ t_sent t' = t_sent t.
Proof.
  unfold receive, _read_line, frames_left. run_st.
  destruct (read_turns (t_buf t) (t_eof t) (t_events t)) as [[line|e] [[buf eof] evs]] eqn:Hr; [|done].
  destruct (utf8_decode line) as [text|]; [|done].
  destruct (json_loads text) as [[| | | | | |d|]|[]]; try done.
  destruct (py_eq _ _); [|done]. intros [= <- <-]. simpl. split; [by eapply read_turns_frames|done].
Qed.

Lemma await_reply_frames fuel req_id method t r t' :
  await_reply fuel req_id method t = (Ok r, t') → (frames_left t' < frames_left t)%nat ∧ t_sent t' = t_sent t.
Proof.
  revert t. induction fuel as [|fuel IH]; intros t; [done|]. simpl. cbv beta delta [mbind st_bind].
  destruct (receive t) as [[msg|e] t1] eqn:Hr; [|done]. apply receive_frames in Hr as [Hf Hs].
  destruct (negb _).
  - intros [H1 H2]%IH. split; [lia|congruence].
  - destruct (dhas "error" msg).
    + unfold st_lift. destruct (py_get _ _); [|done]. by destruct (py_get _ _).
    + destruct (dhas "result" msg); [|done]. intros [= <- <-]. split; [lia|done].
Qed.

(** A result other than running out of fuel. *)
Definition fuelled {A} (r : res A) : Prop := r ≠ Raise out_of_fuel.

Lemma fuelled_raise {A B} e : fuelled (Raise e : res A) → fuelled (Raise e : res B).
Proof. intros H [= ->]. by apply H. Qed.

Lemma read_turns_fuelled evs : ∀ buf eof, fuelled (read_turns buf eof evs).1.
Proof.
  unfold fuelled, out_of_fuel. induction evs as [|ev evs IH]; intros buf eof; simpl;
    destruct (partition newline buf) as [[a f] b]; destruct f; try done.
  destruct eof; [simpl; by intros [=]|]. destruct ev; [apply IH|]. repeat case_decide; try apply IH.
  by intros [=].
Qed.

Lemma receive_fuelled t : fuelled (receive t).1.
Proof.
  unfold receive, _read_line. run_st.
  pose proof (read_turns_fuelled (t_events t) (t_buf t) (t_eof t)) as Hf.
  destruct (read_turns _ _ _) as [[line|e] [[buf eof] evs]]; [|by eapply fuelled_raise].
  destruct (utf8_decode line) as [text|]; [|done].
  pose proof (json_loads_raises text) as Hj. destruct (json_loads text) as [[| | | | | |d|]|e]; try done.
  - by destruct (py_eq _ _).
  - by rewrite (Hj e eq_refl).
Qed.

Lemma py_get_fuelled v k : fuelled (py_get v k).
Proof. by destruct v. Qed.

Lemma await_reply_fuelled fuel req_id method t :
  (frames_left t < fuel)%nat → fuelled (await_reply fuel req_id method t).1.
Proof.
  revert t. induction fuel as [|fuel IH]; intros t Hf; [lia|]. simpl. cbv beta delta [mbind st_bind].
  pose proof (receive_fuelled t) as Hr. pose proof (receive_frames t) as Hfr.
  destruct (receive t) as [[msg|e] t1]; [|by eapply fuelled_raise].
  destruct (Hfr msg t1 eq_refl) as [Hl _]. destruct (negb _); [apply IH; lia|].
  destruct (dhas "error" msg); [|by destruct (dhas "result" msg)]. unfold st_lift.
  pose proof (py_get_fuelled (dget "error" msg) "code") as H1. destruct (py_get _ "code"); [|done].
  pose proof (py_get_fuelled (dget "error" msg) "message") as H2. by destruct (py_get _ "message").
Qed.

Lemma dumps_fuelled a b c m : fuelled (json_dumps a b c m).
Proof. unfold json_dumps. by repeat case_match. Qed.

Lemma send_spec m t :
  fuelled (send broken_pipe m t).1 ∧
  (send broken_pipe m t = (Ok tt, mkTransport (t_buf t) (t_eof t) (t_events t) (t_sent t ++ [m])) ∨
   ∃ e, send broken_pipe m t = (Raise e, t)).
Proof.
  unfold send. run_st. pose proof (dumps_fuelled true false true m) as Hd.
  destruct (json_dumps true false true m) as [text|e]; [|split; [by eapply fuelled_raise|by eauto]].
  destruct (broken_pipe _); run_st; (split; [done|]); eauto.
Qed.

Lemma request_spec req_id method params t :
  fuelled (request broken_pipe req_id method params t).1 ∧
  ∀ r t', request broken_pipe req_id method params t = (Ok r, t') →
    (frames_left t' < frames_left t)%nat ∧ t_sent t' = t_sent t ++ [rpc req_id method params].
Proof.
  unfold request. cbv beta delta [mbind st_bind st_get].
  destruct (send_spec (rpc req_id method params) t) as [Hf [->|[e He]]].
  - set (t1 := mkTransport _ _ _ _). pose proof (await_reply_fuelled (S (frames_left t1)) req_id method t1) as H.
    split; [apply H; lia|]. by intros r t' Hr%await_reply_frames.
  - rewrite He in Hf |- *. split; [by eapply fuelled_raise|by intros].
Qed.

Lemma take_page_fuelled raw version tools : fuelled (take_page raw version tools).
Proof.
  revert tools. induction raw as [|t raw IH]; intros tools; simpl; [done|].
  destruct (_normalize t version) as [d|e] eqn:Hn; simpl; [by case_decide|].
  revert Hn. unfold _normalize, fuelled, out_of_fuel. destruct t; simpl; try (intros [= <-]; done).
  destruct (dget "name" _) as [| | | |[|c s]| | |]; simpl; try (intros [= <-]; done).
  destruct (py_or _ _); simpl; try (intros [= <-]; done).
Qed.

Lemma take_pages_fuelled fuel : ∀ version cursor req_id tools t,
  (frames_left t < fuel)%nat → fuelled (take_pages broken_pipe fuel version cursor req_id tools t).1.
Proof.
  induction fuel as [|fuel IH]; intros version cursor req_id tools t Hf; [lia|].
  simpl. cbv beta delta [mbind st_bind st_lift].
  set (params := if decide (cursor = PNone) then [] else _).
  destruct (request_spec req_id "tools/list" params t) as [Hq Hr].
  destruct (request broken_pipe req_id "tools/list" params t) as [[page|e] t1]; [|by eapply fuelled_raise].
  destruct (Hr page t1 eq_refl) as [Hl _]. pose proof (py_get_fuelled page "tools") as Hg.
  destruct (py_get page "tools") as [[| | | | |raw| |]|e]; try done; [|by eapply fuelled_raise].
  pose proof (take_page_fuelled raw version tools) as Hp.
  destruct (take_page raw version tools) as [tools'|e]; [|by eapply fuelled_raise].
  pose proof (py_get_fuelled page "nextCursor") as Hc. destruct (py_get page "nextCursor") as [cursor'|e]; [|by eapply fuelled_raise].
  case_decide; [done|]. apply IH. lia.
Qed.

Lemma handshake_fuelled t : fuelled (handshake broken_pipe t).1.
Proof.
  unfold handshake. cbv beta delta [mbind st_bind st_lift st_get].
  set (params := _ :: _). destruct (request_spec 1 "initialize" params t) as [Hq _].
  destruct (request broken_pipe 1 "initialize" params t) as [[init|e] t1]; [|by eapply fuelled_raise].
  pose proof (py_get_fuelled init "serverInfo") as Hg.
  destruct (py_get init "serverInfo") as [info|e]; [|by eapply fuelled_raise].
  pose proof (py_get_fuelled init "protocolVersion") as Hg2.
  destruct (py_get init "protocolVersion") as [[| | | |proto| | |]|e]; try done; [|by eapply fuelled_raise].
  set (m := PDict _). destruct (send_spec m t1) as [Hs [->|[e He]]]; [|rewrite He in *; by eapply fuelled_raise].
  pose proof (py_get_fuelled (py_or info (PDict [])) "version") as Hg3.
  destruct (py_get _ "version") as [version|e]; [|by eapply fuelled_raise].
  match goal with |- context [take_pages _ ?f ?v ?c ?i ?l ?t] =>
    pose proof (take_pages_fuelled f v c i l t ltac:(lia)) as Hp; destruct (take_pages broken_pipe f v c i l t) as [[tools|e] t2] end;
    [|by eapply fuelled_raise].
  pose proof (py_get_fuelled (py_or info (PDict [])) "name") as Hg4.
  destruct (py_get _ "name") as [name|e]; [done|by eapply fuelled_raise].
Qed.

End fuel.

(** ** What a discovery is made of *)

(** Everything the server wrote that is still unread. *)
Fixpoint event_bytes (evs : list io_event) : string :=
  match evs with
  | Data c :: evs' => c +:+ event_bytes evs'
  | Idle :: evs' => event_bytes evs'
  | [] => ""
  end.
Definition stream (t : transport) : string := t_buf t +:+ event_bytes (t_events t).
Definition nl : string := String newline EmptyString.

Lemma partition_found s : ∀ a b, partition newline s = (a, true, b) → s = a +:+ nl +:+ b.
Proof.
  induction s as [|c s IH]; intros a b; simpl; [done|]. case_decide as Hc; [by intros [= <- <-]; subst|].
  destruct (partition newline s) as [[a' f'] b'] eqn:E. intros [= <- -> <-].
  change (String c s = String c (a' +:+ nl +:+ b')). f_equal. by apply IH.
Qed.

Lemma str_app_assoc (a b c : string) : (a +:+ b) +:+ c = a +:+ b +:+ c.
Proof. induction a as [|x a IH]; [done|]. by apply (f_equal (String x)). Qed.

Lemma str_app_nil (a : string) : a +:+ "" = a.
Proof. induction a as [|x a IH]; [done|]. by apply (f_equal (String x)). Qed.

Lemma read_turns_stream evs : ∀ buf eof line buf' eof' evs',
  read_turns buf eof evs = (Ok line, (buf', eof', evs')) →
  buf +:+ event_bytes evs = line +:+ nl +:+ buf' +:+ event_bytes evs'.
Proof.
  induction evs as [|ev evs IH]; intros buf eof line buf' eof' evs'; simpl;
    destruct (partition newline buf) as [[a f] b] eqn:Hp.
  { destruct f; [|done]. intros [= <- <- <- <-]. by rewrite !str_app_nil, (partition_found _ _ _ Hp). }
  destruct f.
  { intros [= <- <- <- <-]. rewrite (partition_found _ _ _ Hp), !str_app_assoc. done. }
  destruct eof; [done|]. destruct ev as [|chunk]; [by apply IH|]. case_decide as Hc.
  - subst chunk. case_decide; [done|]. by apply IH.
  - intros H%IH. by rewrite <- H, str_app_assoc.
Qed.

Section replies.
Context {rt : PyFloatRuntime} {utf8 : Utf8}.

(** [result] is the result field of a frame of the text that answers request [id]. *)
Definition replied (bytes : string) (id : Z) (result : pyval) : Prop :=
  ∃ before line after text msg, bytes = before +:+ line +:+ nl +:+ after ∧
    utf8_decode line = Some text ∧ json_loads text = Ok (PDict msg) ∧
    py_eq (dget "id" msg) (PInt id) = true ∧ dget "result" msg = result.

Lemma replied_later before bytes id result : replied bytes id result → replied (before +:+ bytes) id result.
Proof.
  intros (b & l & a & t & m & -> & H). exists (before +:+ b), l, a, t, m. by rewrite str_app_assoc.
Qed.

Lemma receive_stream t msg t' :
  receive t = (Ok msg, t') → ∃ line text, stream t = line +:+ nl +:+ stream t' ∧
    utf8_decode line = Some text ∧ json_loads text = Ok (PDict msg).
Proof.
  unfold receive, _read_line, stream. run_st.
  destruct (read_turns (t_buf t) (t_eof t) (t_events t)) as [[line|e] [[buf eof] evs]] eqn:Hr; [|done].
  destruct (utf8_decode line) as [text|] eqn:Hu; [|done].
  destruct (json_loads text) as [[| | | | | |d|]|[]] eqn:Hj; try done.
  destruct (py_eq _ _); [|done]. intros [= <- <-]. simpl.
  exists line, text. split; [by eapply read_turns_stream|done].
Qed.

Lemma await_reply_stream fuel req_id method t r t' :
  await_reply fuel req_id method t = (Ok r, t') →
  (∃ before, stream t = before +:+ stream t') ∧ replied (stream t) req_id r.
Proof.
  revert t. induction fuel as [|fuel IH]; intros t; [done|]. simpl. cbv beta delta [mbind st_bind].
  destruct (receive t) as [[msg|e] t1] eqn:Hr; [|done].
  apply receive_stream in Hr as (line & text & Hs & Hu & Hj). destruct (py_eq _ _) eqn:Hid; cbn [negb].
  - destruct (dhas "error" msg).
    + unfold st_lift. destruct (py_get _ _); [|done]. by destruct (py_get _ _).
    + destruct (dhas "result" msg); [|done]. intros [= <- <-]. rewrite Hs. split.
      * exists (line +:+ nl). by rewrite str_app_assoc.
      * exists "", line, (stream t1), text, msg. done.
  - intros [[before Hb] Hrep]%IH. rewrite Hs. split.
    + exists (line +:+ nl +:+ before). by rewrite Hb, !str_app_assoc.
    + apply replied_later, replied_later, Hrep.
Qed.
End replies.

Section properties.
Context {rt : PyFloatRuntime} {utf8 : Utf8}.


(** The requests for the pages, each with the cursor of the one before. *)
Definition page_tools (page : pyval) : list pyval :=
  match page with PDict d => match dget "tools" d with PList l => l | _ => [] end | _ => [] end.
Definition page_cursor (page : pyval) : pyval :=
  match page with PDict d => dget "nextCursor" d | _ => PNone end.

Fixpoint page_requests (id : Z) (cursor : pyval) (pages : list pyval) : list pyval :=
  match pages with
  | [] => []
  | page :: pages' =>
      rpc id "tools/list" (if decide (cursor = PNone) then [] else [(KStr "cursor", cursor)])
        :: page_requests (id + 1) (page_cursor page) pages'
  end.

Lemma request_stream broken req_id method params t r t' :
  request broken req_id method params t = (Ok r, t') →
  (∃ before, stream t = before +:+ stream t') ∧ replied (stream t) req_id r ∧
  t_sent t' = t_sent t ++ [rpc req_id method params].
Proof.
  intros H. destruct (request_spec broken req_id method params t) as [_ Hs].
  destruct (Hs _ _ H) as [_ Hsent]. revert H. unfold request. cbv beta delta [mbind st_bind st_get].
  destruct (send_spec broken (rpc req_id method params) t) as [_ [->|[e He]]]; [|by rewrite He].
  by intros [H1 H2]%await_reply_stream.
Qed.

Lemma take_page_spec version raw : ∀ tools tools',
  take_page raw version tools = Ok tools' →
  ∃ new, map_res (λ t, _normalize t version) raw = Ok new ∧ tools' = tools ++ new ∧
    (NoDup (dt_name <$> tools) → NoDup (dt_name <$> tools')).
Proof.
  induction raw as [|t raw IH]; intros tools tools'; simpl.
  - intros [= <-]. exists []. by rewrite app_nil_r.
  - destruct (_normalize t version) as [d|]; simpl; [|done]. case_decide as Hd; [done|].
    intros (new & -> & -> & Hnd)%IH. exists (d :: new). simpl. split; [done|].
    split; [by rewrite <- app_assoc|]. intros H. apply Hnd. rewrite fmap_app.
    apply NoDup_app. split_and!; [done| |by apply NoDup_singleton].
    intros x Hx ->%list_elem_of_singleton. done.
Qed.

Definition only_last_ends (pages : list pyval) : Prop :=
  ∀ i page, pages !! i = Some page → (page_cursor page = PNone ↔ S i = length pages).

Lemma take_pages_spec broken fuel version : ∀ cursor id tools t r t',
  take_pages broken fuel version cursor id tools t = (Ok r, t') →
  ∃ pages new, pages ≠ [] ∧ t_sent t' = t_sent t ++ page_requests id cursor pages ∧
    only_last_ends pages ∧
    (∀ i page, pages !! i = Some page → replied (stream t) (id + Z.of_nat i) page) ∧
    map_res (λ t, _normalize t version) (concat (page_tools <$> pages)) = Ok new ∧ r = tools ++ new ∧
    (NoDup (dt_name <$> tools) → NoDup (dt_name <$> r)).
Proof.
  induction fuel as [|fuel IH]; intros cursor id tools t r t'; [done|].
  simpl. cbv beta delta [mbind st_bind st_lift].
  set (params := if decide (cursor = PNone) then [] else _).
  destruct (request broken id "tools/list" params t) as [[page|e] t1] eqn:Hq; [|done].
  apply request_stream in Hq as ([before Hb] & Hrep & Hsent).
  destruct page as [| | | | | |d|]; try done. simpl.
  destruct (dget "tools" d) as [| | | | |raw| |] eqn:Hraw; try done.
  destruct (take_page raw version tools) as [tools1|e] eqn:Hp; [|done].
  apply take_page_spec in Hp as (new1 & Hm & -> & Hnd1). case_decide as Hc.
  - intros [= <- <-]. exists [PDict d], new1. simpl. rewrite Hraw, app_nil_r.
    split_and!; try done.
    + intros [|i] page; simpl; [intros [= <-]|done]. done.
    + intros [|i] page; simpl; [intros [= <-]|done]. by rewrite Z.add_0_r.
  - intros (pages & new2 & Hne & Hsent2 & Hlast & Hreps & Hm2 & -> & Hnd2)%IH.
    exists (PDict d :: pages), (new1 ++ new2). csimpl. rewrite Hraw.
    split_and!; [done| | | | |by rewrite app_assoc|by auto].
    + by rewrite Hsent2, Hsent, <- app_assoc.
    + intros [|i] page; simpl; [intros [= <-]; simpl; destruct pages; naive_solver lia|].
      intros Hi. rewrite (Hlast _ _ Hi). lia.
    + intros [|i] page; simpl; [intros [= <-]; by rewrite Z.add_0_r|]. intros Hi.
      rewrite Hb. apply replied_later. replace (id + Z.of_nat (S i)) with (id + 1 + Z.of_nat i) by lia. by apply Hreps.
    + by rewrite map_res_app, Hm; simpl; rewrite Hm2.
Qed.

Definition start (p : process) : transport := mkTransport "" false (events p) [].

Definition opening : list pyval :=
  [rpc 1 "initialize" [(KStr "protocolVersion", PStr PROTOCOL_VERSION); (KStr "capabilities", PDict []);
                       (KStr "clientInfo", CLIENT_INFO)];
   PDict [(KStr "jsonrpc", PStr "2.0"); (KStr "method", PStr "notifications/initialized")]].

Lemma handshake_spec broken t r t' :
  handshake broken t = (Ok r, t') →
  ∃ pages, pages ≠ [] ∧ t_sent t' = t_sent t ++ opening ++ page_requests 2 PNone pages ∧
    only_last_ends pages ∧
    (∀ i page, pages !! i = Some page → replied (stream t) (2 + Z.of_nat i) page) ∧
    map_res (λ t, _normalize t (server_version r)) (concat (page_tools <$> pages)) = Ok (dr_tools r) ∧
    NoDup (dt_name <$> dr_tools r).
Proof.
  unfold handshake. cbv beta delta [mbind st_bind st_lift st_get].
  set (params := _ :: _). destruct (request broken 1 "initialize" params t) as [[init|e] t1] eqn:Hq; [|done].
  apply request_stream in Hq as ([before Hb] & _ & Hsent).
  destruct (py_get init "serverInfo") as [info|]; [|done].
  destruct (py_get init "protocolVersion") as [[| | | |proto| | |]|]; try done.
  set (m := PDict _). destruct (send_spec broken m t1) as [_ [->|[e He]]]; [|by rewrite He].
  destruct (py_get _ "version") as [version|]; [|done].
  destruct (take_pages _ _ _ _ _ _ _) as [[tools|e] t2] eqn:Hp; [|done].
  apply take_pages_spec in Hp as (pages & new & Hne & Hsent2 & Hlast & Hreps & Hm & -> & Hnd).
  destruct (py_get _ "name") as [name|]; [|done]. intros [= <- <-]. exists pages. simpl.
  split_and!; [done| |done| |done|apply Hnd; constructor].
  - rewrite Hsent2. simpl. by rewrite Hsent, <- !app_assoc.
  - intros i page Hi. rewrite Hb. by apply replied_later, Hreps.
Qed.

(** C28 -- Discovery is whole: a successful discovery sent the handshake and then one
    request per page, each with the cursor of the page before; every page is the
    server's answer to its request; only the last page has no further cursor; and the
    tools are those of all the pages, in order, under pairwise distinct names. *)
Theorem discovery_whole (p : process) (r : DiscoveryResult) :
  discover p = Ok r →
  ∃ pages, pages ≠ [] ∧
    t_sent (handshake (broken_pipe p) (start p)).2 = opening ++ page_requests 2 PNone pages ∧
    only_last_ends pages ∧
    (∀ i page, pages !! i = Some page → replied (event_bytes (events p)) (2 + Z.of_nat i) page) ∧
    map_res (λ t, _normalize t (server_version r)) (concat (page_tools <$> pages)) = Ok (dr_tools r) ∧
    NoDup (dt_name <$> dr_tools r).
Proof.
  unfold discover. destruct (spawn_fails p); [done|]. fold (start p).
  destruct (handshake (broken_pipe p) (start p)) as [r' t'] eqn:H. simpl. intros ->.
  by apply handshake_spec in H.
Qed.
End properties.

(** ** Witnesses *)

(** ASCII, the part of UTF-8 the examples use. *)
#[refine] Definition ascii_utf8 : Utf8 :=
  {| utf8_decode s := if all_chars (λ c, char_code c <? 128) s then Some s else None |}.
Proof. intros s H. by rewrite H. Defined.

(** A server that writes these frames as soon as it starts. *)
Definition server (frames : list string) : process :=
  mkProcess false (λ _, false) (map (λ f, Data (f +:+ nl)) frames).

Definition frame (id : Z) (body : list (pykey * pyval)) : string :=
  json_text (rt := coded_float_runtime) true false
    (PDict ([(KStr "jsonrpc", PStr "2.0"); (KStr "id", PInt id)] ++ body)).

Definition init_reply : string :=
  frame 1 [(KStr "result", PDict [(KStr "protocolVersion", PStr PROTOCOL_VERSION);
    (KStr "serverInfo", PDict [(KStr "name", PStr "ws"); (KStr "version", PStr "1")])])].

Definition tools_reply (id : Z) (names : list string) (cursor : pyval) : string :=
  frame id [(KStr "result", PDict [
    (KStr "tools", PList ((λ n, PDict [(KStr "name", PStr n); (KStr "description", PStr "d")]) <$> names));
    (KStr "nextCursor", cursor)])].

Definition sample_server : process :=
  server [init_reply; tools_reply 2 ["search"; "fetch"] (PStr "p2"); tools_reply 3 ["send"] PNone].

Definition sample_discovery : res DiscoveryResult :=
  discover (rt := coded_float_runtime) (utf8 := ascii_utf8) sample_server.

Lemma discovery_whole_witness :
  match sample_discovery with
  | Ok r => dt_name <$> dr_tools r = ["search"; "fetch"; "send"] ∧ NoDup (dt_name <$> dr_tools r)
  | Raise _ => False
  end.
Proof.
  destruct sample_discovery as [r|e] eqn:E.
  - split.
    + vm_compute in E. injection E as <-. reflexivity.
    + destruct (discovery_whole (rt := coded_float_runtime) (utf8 := ascii_utf8) sample_server r E)
        as (pages & _ & _ & _ & _ & _ & H). exact H.
  - vm_compute in E. discriminate E.
Defined.

(** Not every fault of a server is typed: a server that answers [initialize] with a
    result that is no object, answers with an error that is no object, announces a tool
    that is no object, or sends a frame that does not decode makes [discover] raise an
    exception other than [McpDiscoveryError]. *)
Theorem discovery_faults_untyped :
  let run frames := discover (rt := coded_float_runtime) (utf8 := ascii_utf8) (server frames) in
  run [frame 1 [(KStr "result", PList [])]] = Raise (AttributeError "'list' object has no attribute 'get'") ∧
  run [frame 1 [(KStr "error", PStr "no")]] = Raise (AttributeError "'str' object has no attribute 'get'") ∧
  run [init_reply; frame 2 [(KStr "result", PDict [(KStr "tools", PList [PStr "search"])])]]
    = Raise (AttributeError "'str' object has no attribute 'get'") ∧
  run [String "255" EmptyString] = Raise (ValueError "'utf-8' codec can't decode frame").
Proof. vm_compute. split_and!; reflexivity. Qed.
