(* ===== verification/Service.v ===== *)
(** [service.py]: the service that owns the store, the catalog and the broker.

    A service method runs against the in-memory catalog, the broker's audit list, the
    database and the bus; a change made before an exception stays, except inside a
    database transaction.  The HTTP front serialises calls, so a run of the service is a
    sequence of methods. *)

From S2P Require Import Prelude PyJson PyJsonLoads PyStr PyColl DateTime Sha256 Hashing Schema.
From S2P Require Import Descriptor Catalog Policy Db AuditLog Grants Hydrate BusPublish PyEq.
From S2P Require Import PyBytes GovGrants McpSource.

Definition DECISION_CONTRACT_VERSION : string := "1.1".
Definition DEFAULT_GRANT_TTL_SECONDS : Z := 60.
Definition MIN_GRANT_TTL_SECONDS : Z := 1.
Definition MAX_GRANT_TTL_SECONDS : Z := 300.

(** ** The service's state *)

Record world := mkWorld {
  w_catalog : Catalog;
  w_sim : sim;
  w_audit : list pydict;
  w_posts : list pyval;
}.

Definition w_db (w : world) : db := s_db (w_sim w).

Definition svc (A : Type) : Type := oracle → st world A.

#[global] Instance svc_ret : MRet svc := λ A a o w, (Ok a, w).
#[global] Instance svc_bind : MBind svc := λ A B f m o w,
  match m o w with
  | (Ok a, w') => f a o w'
  | (Raise e, w') => (Raise e, w')
  end.

(** A store method, a catalog method, a pure step. *)
Definition on_store {A} (m : act A) : svc A := λ o w,
  let '(r, s) := m o (w_sim w) in (r, mkWorld (w_catalog w) s (w_audit w) (w_posts w)).
Definition on_catalog {A} (m : st Catalog A) : svc A := λ o w,
  let '(r, c) := m (w_catalog w) in (r, mkWorld c (w_sim w) (w_audit w) (w_posts w)).
Definition pure {A} (r : res A) : svc A := λ o w, (r, w).
Definition throw {A} (e : exn) : svc A := pure (Raise e).
Definition catalog : svc Catalog := λ o w, (Ok (w_catalog w), w).

Definition push_audit (record : pydict) : svc unit := λ o w,
  (Ok tt, mkWorld (w_catalog w) (w_sim w) (w_audit w ++ [record]) (w_posts w)).
Definition push_posts (posts : list pyval) : svc unit := λ o w,
  (Ok tt, mkWorld (w_catalog w) (w_sim w) (w_audit w) (w_posts w ++ posts)).
Fixpoint each {A} (f : A → svc unit) (l : list A) : svc unit :=
  match l with
  | [] => mret tt
  | x :: l' => _ ← f x; each f l'
  end.

(** [if cond: raise ServiceError(status, msg)] *)
Definition refuse_if (b : bool) (status : Z) (msg : string) : svc unit :=
  if b then throw (ServiceError status msg) else mret tt.

(** [try: m except ...: raise ...] *)
Definition rethrow {A} (f : exn → option exn) (m : svc A) : svc A := λ o w,
  match m o w with
  | (Raise e, w') => (Raise (default e (f e)), w')
  | r => r
  end.

(** What a service is configured with. *)
Record config := mkConfig {
  bus : BusPublisher;
  gov_trust_root_pem : option string;
  gov_revocation_list : pyval;
  gov_provider_id : string;
}.

(** The processes that discovery commands start, at each instant. *)
Class Processes := { launch : list pyval → nat → process }.

(** The bus endpoint. *)
Class BusEndpoint := { urlopen : string → string → string → res unit }.

Section service.
Context {rt : PyFloatRuntime} {dt : PyDatetime} {utf8 : Utf8} {crypto : Cryptography}
  {engine : PolicyEngine} {processes : Processes} {endpoint : BusEndpoint}.

(** ** Plumbing *)

(** [_PersistentAuditLog.append]: the stored record gets a decision id. *)
Definition audit_log_append (record : pydict) : svc unit :=
  record ← (if dhas "decision_id" record then mret record
            else id ← on_store uuid4_hex; mret (record ++ [str_pair "decision_id" (PStr id)]));
  _ ← on_store (append_audit "decision" record);
  push_audit record.

(** [Broker.authorize] with that list as its audit. *)
Definition broker_authorize (p : Principal) (source_id name : string) (context : pydict) : svc Decision :=
  c ← catalog;
  let '(r, records) := Policy.authorize c p source_id name context [] in
  _ ← each audit_log_append records;
  pure r.

(** [self.bus.publish(...)] *)
Definition publish_event (cfg : config) (e : event) : svc unit :=
  if negb (bus_enabled (bus cfg)) then mret tt
  else
    uid ← on_store uuid4_hex;
    push_posts (option_list (publish urlopen (bus cfg) uid e).1).

(** [_parse_principal(data)] *)
Fixpoint _parse_principal (data : pyval) : res Principal :=
  match data with
  | PDict d =>
      if negb (py_truthy (dget "id" d)) then Raise (ServiceError 400 "principal requires at least an 'id'")
      else
        parent ← (fix go (l : pydict) : res (option Principal) :=
                    match l with
                    | [] => Ok None
                    | (k, chain) :: l' =>
                        if decide (k = KStr "on_behalf_of") then
                          if py_truthy chain then p ← _parse_principal chain; Ok (Some p) else Ok None
                        else go l'
                    end) d;
        Ok (mkPrincipal (py_str (dget "id" d)) (py_str (dget_or "privacy_tier" (PStr "local") d))
              (py_str (dget_or "kind" (PStr "agent") d)) parent)
  | _ => Raise (ServiceError 400 "principal requires at least an 'id'")
  end.

Definition strings (l : list string) : pyval := PList (PStr <$> l).

(** [_decision_payload(d, decision_id)] *)
Definition _decision_payload (d : Decision) (decision_id : pyval) : pydict :=
  [str_pair "decision_id" decision_id; str_pair "allowed" (PBool (allowed d));
   str_pair "reason" (PStr (reason d));
   str_pair "determining_policies" (strings (determining_policies d));
   str_pair "default_deny" (PBool (is_default_deny d)); str_pair "errors" (strings (errors d));
   str_pair "contract_version" (PStr DECISION_CONTRACT_VERSION)].

Definition asserted_payload (a : AssertedDescriptor) : res pyval :=
  scopes ← py_sorted (scopes a);
  Ok (PDict [str_pair "effect" (PStr (Effect.value (effect a)));
    str_pair "reads" (strings (class_values (reads a)));
    str_pair "writes" (strings (class_values (writes a)));
    str_pair "scopes" (PList scopes); str_pair "reversible" (reversible a);
    str_pair "idempotent" (idempotent a); str_pair "requires_approval" (requires_approval a);
    str_pair "declassifies" (declassifies a); str_pair "asserted_by" (asserted_by a)]).

(** [_tool_payload(svc, source_id, name)] *)
Definition _tool_payload (c : Catalog) (source_id name : string) : res pydict :=
  match get c source_id name with
  | None => Raise AssertionError
  | Some tv =>
      let cl := claimed tv in
      a ← match asserted tv with None => Ok PNone | Some a => asserted_payload a end;
      inv ← Catalog.invocable c source_id name;
      schema ← py_dict (input_schema tv);
      Ok [str_pair "source_id" (PStr source_id); str_pair "name" (PStr name);
          str_pair "qualified_name" (PStr (qualified_name tv));
          str_pair "version" (PStr (ref_version (ref tv)));
          str_pair "claimed" (PDict [str_pair "description" (description cl);
            str_pair "read_only_hint" (read_only_hint cl);
            str_pair "destructive_hint" (destructive_hint cl);
            str_pair "idempotent_hint" (idempotent_hint cl);
            str_pair "open_world_hint" (open_world_hint cl)]);
          str_pair "asserted" a;
          str_pair "assertion_status" (PStr (AssertionStatus.value (assertion_status c source_id name)));
          str_pair "invocable" (PBool inv);
          str_pair "claim_conflicts" (strings (claim_conflicts tv));
          str_pair "input_schema" (PDict schema)]
  end.

(** ** Sources *)

Definition argv_of (command : pyval) : option (list string) :=
  match command with
  | PList l => if forallb is_str l
               then Some (omap (λ v, match v with PStr s => Some s | _ => None end) l) else None
  | _ => None
  end.

(** [declares or ()], iterated: the items, when they are names.  Hashable items that are no
    strings would enter the catalog's sets, which hold names only: not modelled. *)
Definition declared_names (declares : pyval) : res (list string) :=
  if negb (py_truthy declares) then Ok []
  else
    items ← py_iter declares;
    if forallb is_str items then Ok (omap (λ v, match v with PStr s => Some s | _ => None end) items)
    else if forallb hashable items then Raise NotModelled
    else Raise (TypeError "unhashable type").

(** [register_source(...)] *)
Definition register_source (source_id tier_ transport_ : string) (declares command : pyval) : svc pydict :=
  _ ← refuse_if (source_id ≟ "") 400 "source_id is required";
  match TrustTier.of_value tier_ with
  | None => throw (ServiceError 400 ("unknown trust tier " +:+ repr_str tier_))
  | Some trust =>
      _ ← refuse_if (negb (command ≟ PNone) && negb (bool_decide (is_Some (argv_of command))))
            400 "command must be a list of argv strings";
      let source := mkSource source_id trust transport_ in
      names ← pure (declared_names declares);
      _ ← on_catalog (Catalog.register_source source (Some (list_to_set names)));
      _ ← on_store (upsert_source source names (argv_of command));
      _ ← on_store (append_audit "source"
            [str_pair "event" (PStr "registered"); str_pair "source_id" (PStr source_id);
             str_pair "tier" (PStr (TrustTier.value trust)); str_pair "transport" (PStr transport_);
             str_pair "declares" (strings (merge_sort String.le names));
             str_pair "has_command" (PBool (negb (command ≟ PNone)))]);
      mret [str_pair "source_id" (PStr source_id); str_pair "tier" (PStr (TrustTier.value trust));
            str_pair "transport" (PStr transport_)]
  end.

(** [list_sources()], in the map's enumeration order. *)
Definition list_sources : svc (list pydict) :=
  c ← catalog;
  mret ((λ kv : string * TrustedSource,
    let '(sid, s) := kv in
    [str_pair "source_id" (PStr sid); str_pair "tier" (PStr (TrustTier.value (tier s)));
     str_pair "transport" (PStr (Descriptor.transport s));
     str_pair "declares" (strings (sorted_set (default ∅ (declared c !! sid))));
     str_pair "tools" (strings (sorted_set (mine c sid)))]) <$> map_to_list (sources c)).

(** ** Discovery and ingestion *)

(** One ingested tool: the claim, the schema beside it, the row. *)
Definition ingest_one (source_id name : string) (claim : ClaimedMetadata) (version : string)
    (schema : pyval) : svc unit :=
  _ ← on_catalog (ingest_claimed source_id name claim version);
  schema ← pure (py_dict schema);
  _ ← on_catalog (attach_schema source_id name (PDict schema));
  c ← catalog;
  match get c source_id name with
  | Some tv => on_store (upsert_tool tv)
  | None => throw AssertionError
  end.

(** [_drift_payload(drift)] *)
Definition _drift_payload (r : DriftReport) : pydict :=
  [str_pair "source_id" (PStr (drift_source r)); str_pair "clean" (PBool (clean r));
   str_pair "summary" (PStr (summary r));
   str_pair "advertised_missing" (strings (advertised_missing r));
   str_pair "undeclared_present" (strings (undeclared_present r));
   str_pair "unasserted" (strings (unasserted r));
   str_pair "claim_conflicts" (PList ((λ c, PList [PStr c.1; PStr c.2]) <$> drift_conflicts r));
   str_pair "redefined_after_assertion" (strings (redefined_after_assertion r))].

(** [except McpDiscoveryError]: the audited refusal of a failed discovery. *)
Definition discovery_failed (source_id kind msg : string) : svc pydict :=
  _ ← on_store (append_audit "ingest"
        [str_pair "source_id" (PStr source_id); str_pair "ok" (PBool false);
         str_pair "fault_kind" (PStr kind); str_pair "error" (PStr msg)]);
  throw (ServiceError 502 ("discovery failed (" +:+ kind +:+ "): " +:+ msg)).

(** The rest of [ingest], on a whole discovery. *)
Definition ingest_result (source_id : string) (r : DiscoveryResult) : svc pydict :=
  _ ← each (λ d, ingest_one source_id (dt_name d) (dt_claimed d) (dt_version d) (PDict (dt_input_schema d)))
        (dr_tools r);
  let names := dt_name <$> dr_tools r in
  let discovered : gset string := list_to_set names in
  _ ← on_store (record_discovery source_id (elements discovered));
  _ ← on_store (append_audit "ingest"
        [str_pair "source_id" (PStr source_id); str_pair "ok" (PBool true);
         str_pair "server_name" (PStr (server_name r)); str_pair "server_version" (PStr (server_version r));
         str_pair "protocol_version" (PStr (protocol_version r));
         str_pair "tools" (strings (merge_sort String.le names))]);
  c ← catalog;
  let report := drift c source_id discovered in
  _ ← on_store (append_audit "drift"
        [str_pair "source_id" (PStr source_id); str_pair "clean" (PBool (clean report));
         str_pair "summary" (PStr (summary report))]);
  mret [str_pair "source_id" (PStr source_id);
        str_pair "server" (PDict [str_pair "name" (PStr (server_name r));
                                  str_pair "version" (PStr (server_version r))]);
        str_pair "ingested" (strings (merge_sort String.le names));
        str_pair "drift" (PDict (_drift_payload report))].

(** [discover] under a deadline that is not a number: a read that has no complete line
    waits in [select], which refuses the timeout. *)
Definition discover_nan (p : process) : res DiscoveryResult :=
  match discover (mkProcess (spawn_fails p) (broken_pipe p) []) with
  | Raise (McpDiscoveryError "timeout" _) => Raise (ValueError "Invalid value NaN (not a number)")
  | r => r
  end.

(** [ingest(source_id, timeout)]: the process's events are those before the deadline. *)
Definition ingest_by (discover : process → res DiscoveryResult) (source_id : string) : svc pydict :=
  c ← catalog;
  _ ← refuse_if (bool_decide (sources c !! source_id = None)) 404 ("unknown source " +:+ repr_str source_id);
  command ← on_store (get_source_command source_id);
  match command with
  | None => throw (ServiceError 409
      ("source " +:+ repr_str source_id +:+ " has no discovery command configured"))
  | Some argv =>
      p ← (λ o w, (Ok (launch argv (s_tick (w_sim w))), w)) : svc process;
      match discover p with
      | Raise (McpDiscoveryError kind msg) => discovery_failed source_id kind msg
      | Raise e => throw e
      | Ok r => ingest_result source_id r
      end
  end.

Definition ingest : string → svc pydict := ingest_by discover.

Record pushed_tool := mkPushed {
  pt_name : string; pt_version : string; pt_claim : ClaimedMetadata; pt_schema : pyval;
}.

(** One tool of the payload: its claim, taken with [get] and [str]. *)
Definition parse_claim (raw : pyval) : res ClaimedMetadata :=
  match raw with
  | PDict d =>
      Ok (mkClaimed (PStr (py_str (dget_or "description" (PStr "") d))) (dget "read_only_hint" d)
            (dget "destructive_hint" d) (dget "idempotent_hint" d) (dget "open_world_hint" d))
  | v => Raise (AttributeError ("'" +:+ type_name v +:+ "' object has no attribute 'get'"))
  end.

(** The parsing loop of [ingest_payload]. *)
Fixpoint parse_tools (tools : list pyval) (seen : list string) : res (list pushed_tool) :=
  match tools with
  | [] => Ok []
  | PDict t :: tools' =>
      match dget "name" t with
      | PStr (String a b) =>
          let name := String a b in
          if decide (name ∈ seen) then
            Raise (ServiceError 409 ("duplicate tool name " +:+ repr_str name +:+ " in payload"))
          else
            claim ← parse_claim (py_or (dget "claimed" t) (PDict []));
            rest ← parse_tools tools' (name :: seen);
            Ok (mkPushed name (py_str (dget_or "version" (PStr "0.0.0") t)) claim
                  (py_or (dget "input_schema" t) (PDict [])) :: rest)
      | _ => Raise (ServiceError 400 ("tool without a usable name: " +:+ py_repr (PDict t)))
      end
  | v :: _ => Raise (AttributeError ("'" +:+ type_name v +:+ "' object has no attribute 'get'"))
  end.

(** [ingest_payload(source_id, tools)] *)
Definition ingest_payload (source_id : string) (tools_ : pyval) : svc pydict :=
  c ← catalog;
  _ ← refuse_if (bool_decide (sources c !! source_id = None)) 404 ("unknown source " +:+ repr_str source_id);
  match tools_ with
  | PList l =>
      parsed ← pure (parse_tools l []);
      _ ← each (λ t, ingest_one source_id (pt_name t) (pt_claim t) (pt_version t) (pt_schema t)) parsed;
      let names := pt_name <$> parsed in
      _ ← on_store (record_discovery source_id (elements (list_to_set names : gset string)));
      _ ← on_store (append_audit "ingest"
            [str_pair "source_id" (PStr source_id); str_pair "ok" (PBool true); str_pair "push" (PBool true);
             str_pair "tools" (strings (merge_sort String.le names))]);
      mret [str_pair "source_id" (PStr source_id);
            str_pair "ingested" (strings (merge_sort String.le names))]
  | _ => throw (ServiceError 400 "tools must be a list")
  end.

(** ** Catalog and assertions *)

(** [get_tool(source_id, name)], [list_catalog()] *)
Definition get_tool (source_id name : string) : svc pydict :=
  c ← catalog;
  _ ← refuse_if (bool_decide (get c source_id name = None)) 404
        ("unknown tool " +:+ source_id +:+ ":" +:+ name);
  pure (_tool_payload c source_id name).

Definition list_catalog : svc (list pydict) :=
  c ← catalog;
  pure (map_res (λ tid : ToolId, _tool_payload c tid.1 tid.2)
          (sorted_ids (list_to_set (map_to_list (tools c)).*1))).

(** [asserted_from_json(_to_json(descriptor))] under its [except] clause. *)
Definition read_descriptor (descriptor_ : pydict) : res AssertedDescriptor :=
  match (text ← json_dumps true false true (PDict descriptor_); asserted_from_json text) with
  | Raise e => if is_KeyError e || is_ValueError e || is_TypeError e
               then Raise (ServiceError 400 "invalid descriptor") else Raise e
  | r => r
  end.

(** [assert_tool(source_id, name, descriptor)] *)
Definition assert_tool (source_id name : string) (descriptor_ : pyval) : svc pydict :=
  match descriptor_ with
  | PDict d =>
      desc ← pure (read_descriptor d);
      c ← catalog;
      _ ← rethrow (λ e, match e with
            | SchemaValidationError m => Some (ServiceError 422 ("cannot assert " +:+ source_id +:+ ":"
                +:+ name +:+ ": declared input_schema is invalid (" +:+ m +:+ ")"))
            | _ => None end)
          (pure match get c source_id name with
                | Some existing => validate_input_schema (input_schema existing)
                | None => Ok tt end);
      tv ← rethrow (λ e,
            if is_ValueError e then Some (ServiceError 400 "assert_descriptor requires asserted_by; promotion is human-only")
            else if is_KeyError e then Some (ServiceError 404
              ("unknown tool " +:+ source_id +:+ ":" +:+ name +:+ " — ingest before asserting"))
            else None)
          (on_catalog (assert_descriptor source_id name desc));
      _ ← on_store (upsert_tool tv);
      c ← catalog;
      match assertions c !! (source_id, name) with
      | None => throw (KeyError name)
      | Some record =>
          _ ← on_store (upsert_assertion source_id name record);
          _ ← on_store (append_audit "assertion"
                [str_pair "source_id" (PStr source_id); str_pair "name" (PStr name);
                 str_pair "asserted_by" (asserted_by desc);
                 str_pair "effect" (PStr (Effect.value (effect desc)));
                 str_pair "fingerprint" (PStr (string_of_Z (fingerprint record)))]);
          get_tool source_id name
      end
  | _ => throw (ServiceError 400 "descriptor must be an object")
  end.

(** [get_assertion(source_id, name)] *)
Definition get_assertion (source_id name : string) : svc pydict :=
  c ← catalog;
  _ ← refuse_if (bool_decide (get c source_id name = None)) 404
        ("unknown tool " +:+ source_id +:+ ":" +:+ name);
  inv ← pure (Catalog.invocable c source_id name);
  mret [str_pair "source_id" (PStr source_id); str_pair "name" (PStr name);
        str_pair "status" (PStr (AssertionStatus.value (assertion_status c source_id name)));
        str_pair "invocable" (PBool inv);
        str_pair "record" (match assertions c !! (source_id, name) with
          | None => PNone
          | Some r => PDict [str_pair "asserted_by" (asserted_by (descriptor r));
                             str_pair "fingerprint" (PStr (string_of_Z (fingerprint r)));
                             str_pair "effect" (PStr (Effect.value (effect (descriptor r))))]
          end)].

(** [drift(source_id)]: against the last observation, never without one. *)
Definition drift_report (source_id : string) : svc pydict :=
  c ← catalog;
  _ ← refuse_if (bool_decide (sources c !! source_id = None)) 404 ("unknown source " +:+ repr_str source_id);
  obs ← on_store (last_discovery source_id);
  match obs with
  | None => throw (ServiceError 409 ("no discovery has been observed for " +:+ repr_str source_id
              +:+ "; trigger ingest first"))
  | Some (discovered, observed_at) =>
      mret (_drift_payload (drift c source_id discovered) ++ [str_pair "observed_at" (PStr observed_at)])
  end.

(** ** Authorization *)

(** [hashing.args_hash(args)], refused as a 400. *)
Definition bound_args_hash (args : pyval) : res string :=
  match args with
  | PDict _ =>
      match args_hash args with
      | Raise (ArgsNotHashable m) => Raise (ServiceError 400 ("args cannot be canonicalized: " +:+ m))
      | r => r
      end
  | _ => Raise (ServiceError 400 "args must be a JSON object")
  end.

(** The validated lifetime of a grant. *)
Definition grant_ttl (ttl_seconds : pyval) : res Z :=
  match (if decide (ttl_seconds = PNone) then PInt DEFAULT_GRANT_TTL_SECONDS else ttl_seconds) with
  | PInt ttl =>
      if (MIN_GRANT_TTL_SECONDS <=? ttl) && (ttl <=? MAX_GRANT_TTL_SECONDS) then Ok ttl
      else Raise (ServiceError 400 "ttl_seconds must be an integer in [1, 300]")
  | _ => Raise (ServiceError 400 "ttl_seconds must be an integer in [1, 300]")
  end.

(** The shape checks of [authorize]: the argument hash and lifetime of the grant asked
    for, if one is; [args] is [None] when the caller did not mention it. *)
Definition authorize_shape (context : pyval) (args : option pyval) (ttl_seconds : pyval) :
    res (option (string * Z)) :=
  _ ← raise_if (negb (context ≟ PNone) && negb (is_mapping context))
        (ServiceError 400 "context must be a JSON object");
  match args with
  | None => _ ← raise_if (negb (ttl_seconds ≟ PNone)) (ServiceError 400 "ttl_seconds requires args");
            Ok None
  | Some args => h ← bound_args_hash args; ttl ← grant_ttl ttl_seconds; Ok (Some (h, ttl))
  end.

(** [self._audit_log[-1]["decision_id"]] *)
Definition last_decision_id : svc string := λ o w,
  (match last (w_audit w) with
   | None => Raise IndexError
   | Some record => match dget "decision_id" record with PStr id => Ok id | _ => Raise (KeyError "decision_id") end
   end, w).

Definition grant_payload (grant_id args_hash expires_at : string) (ttl : Z) : pyval :=
  PDict [str_pair "grant_id" (PStr grant_id); str_pair "args_hash" (PStr args_hash);
         str_pair "expires_at" (PStr expires_at); str_pair "ttl_seconds" (PInt ttl)].

(** The grant of a permitted call: its id and payload. *)
Definition issue_for (p : Principal) (source_id name decision_id args_hash : string) (ttl : Z) :
    svc (string * pyval) :=
  issued ← on_store now;
  let expires := issued + ttl * microseconds in
  grant_id ← on_store uuid4_hex;
  _ ← on_store (issue_grant grant_id decision_id (principal_id p) source_id name args_hash
                  (isoformat issued) (isoformat expires) (Some ttl));
  mret (grant_id, grant_payload grant_id args_hash (isoformat expires) ttl).

Definition authorized_event (p : Principal) (source_id name decision_id : string) (d : Decision)
    (hash : option string) (grant_id : option string) : event :=
  mkEvent "tool.authorized" (if allowed d then None else Some "denied") (principal_id p)
    (bus_tier_for_principal (Some (effective_tier p)))
    [str_pair "principal_id" (PStr (principal_id p)); str_pair "source_id" (PStr source_id);
     str_pair "tool" (PStr name); str_pair "qualified_name" (PStr (source_id +:+ ":" +:+ name));
     str_pair "decision_id" (PStr decision_id); str_pair "grant_id" (opt_str grant_id);
     str_pair "args_hash" (opt_str hash); str_pair "reason" (PStr (reason d));
     str_pair "determining_policies" (strings (determining_policies d))].

Definition issued_event (p : Principal) (source_id name decision_id grant_id hash : string) (ttl : Z) : event :=
  mkEvent "grant.issued" None (principal_id p) (bus_tier_for_principal (Some (effective_tier p)))
    [str_pair "principal_id" (PStr (principal_id p)); str_pair "source_id" (PStr source_id);
     str_pair "tool" (PStr name); str_pair "qualified_name" (PStr (source_id +:+ ":" +:+ name));
     str_pair "decision_id" (PStr decision_id); str_pair "grant_id" (PStr grant_id);
     str_pair "args_hash" (PStr hash); str_pair "ttl_seconds" (PInt ttl)].

(** The decision and the grant of [authorize], under its lock. *)
Definition decide_and_issue (p : Principal) (source_id name : string) (context : pydict)
    (requested : option (string * Z)) : svc (Decision * string * option (string * pyval)) :=
  d ← broker_authorize p source_id name context;
  decision_id ← last_decision_id;
  match requested with
  | Some (hash, ttl) =>
      if allowed d then
        g ← issue_for p source_id name decision_id hash ttl;
        mret (d, decision_id, Some g)
      else mret (d, decision_id, None)
  | None => mret (d, decision_id, None)
  end.

(** [authorize(principal, source_id, name, context, args, ttl_seconds)] *)
Definition authorize (cfg : config) (principal : pyval) (source_id name : string) (context : pyval)
    (args : option pyval) (ttl_seconds : pyval) : svc pydict :=
  requested ← pure (authorize_shape context args ttl_seconds);
  p ← pure (_parse_principal principal);
  let context := match context with PDict d => d | _ => [] end in
  r ← decide_and_issue p source_id name context requested;
  let '(d, decision_id, grant) := r in
  _ ← publish_event cfg (authorized_event p source_id name decision_id d (fst <$> requested) (fst <$> grant));
  _ ← (match grant, requested with
       | Some (grant_id, _), Some (hash, ttl) =>
           publish_event cfg (issued_event p source_id name decision_id grant_id hash ttl)
       | _, _ => mret tt
       end);
  mret (_decision_payload d (PStr decision_id) ++
        match requested with
        | Some _ => [str_pair "grant" (default PNone (snd <$> grant))]
        | None => []
        end).

(** ** Redemption *)

Definition redeemed_event (p : Principal) (grant_id : string) (decision_id : pyval)
    (source_id name hash : string) : event :=
  mkEvent "grant.redeemed" None (principal_id p) (bus_tier_for_principal (Some (effective_tier p)))
    [str_pair "principal_id" (PStr (principal_id p)); str_pair "grant_id" (PStr grant_id);
     str_pair "decision_id" decision_id; str_pair "source_id" (PStr source_id);
     str_pair "tool" (PStr name); str_pair "qualified_name" (PStr (source_id +:+ ":" +:+ name));
     str_pair "args_hash" (PStr hash)].

Definition redemption_payload (grant_id : string) (r : redeem_result) : pydict :=
  [str_pair "grant_id" (PStr grant_id); str_pair "decision_id" (opt_str (rd_decision_id r));
   str_pair "redeemed" (PBool (redeemed r)); str_pair "reason" (PStr (redeem_reason r));
   str_pair "source_id" (opt_str (rd_source_id r)); str_pair "name" (opt_str (rd_name r));
   str_pair "contract_version" (PStr DECISION_CONTRACT_VERSION)].

(** [redeem_grant(grant_id, principal, args)] *)
Definition redeem (cfg : config) (grant_id : string) (principal args : pyval) : svc pydict :=
  _ ← refuse_if (grant_id ≟ "") 400 "grant_id is required";
  p ← pure (_parse_principal principal);
  presented_hash ← pure (bound_args_hash args);
  c ← catalog;
  result ← on_store (redeem_grant grant_id presented_hash (principal_id p) (Some (Catalog.invocable c)));
  _ ← (if redeemed result then
         publish_event cfg (redeemed_event p grant_id (opt_str (rd_decision_id result))
           (default "None" (rd_source_id result)) (default "None" (rd_name result)) presented_hash)
       else
         _ ← on_store (append_audit "grant_redeem_denied"
               [str_pair "grant_id" (PStr grant_id); str_pair "decision_id" (opt_str (rd_decision_id result));
                str_pair "principal_id" (PStr (principal_id p)); str_pair "reason" (PStr (redeem_reason result))]);
         mret tt);
  mret (redemption_payload grant_id result).

(** ** Governance redemption *)

(** The record of a provider's enforcement of a governance grant. *)
Definition enforcement_body (cfg : config) (payload : option pydict) (issuer : option pyval)
    (p : Principal) (source_id name hash : string) (verified : bool) (codes : list string)
    (outcome : string) (instant : pyval) : pydict :=
  let field k := match payload with Some d => dget k d | None => PNone end in
  [str_pair "grant_id" (field "grant_id"); str_pair "decision_record_id" (field "decision_record_id");
   str_pair "correlation_id" (field "correlation_id"); str_pair "issuer_key_id" (default PNone issuer);
   str_pair "provider_id" (PStr (gov_provider_id cfg)); str_pair "principal_id" (PStr (principal_id p));
   str_pair "source_id" (PStr source_id); str_pair "name" (PStr name); str_pair "args_hash" (PStr hash);
   str_pair "verified" (PBool verified); str_pair "failure_codes" (strings codes);
   str_pair "outcome" (PStr outcome); str_pair "verification_at" instant; str_pair "redeemed_at" PNone].

(** [_deny(reason)]: the denial is recorded too. *)
Definition gov_deny (cfg : config) (v : GovVerification) (p : Principal) (source_id name hash : string)
    (instant : pyval) (why : string) : svc pydict :=
  let grant_id := match payload v with Some d => dget "grant_id" d | None => PNone end in
  _ ← on_store (append_audit "provider_enforcement"
        (enforcement_body cfg (payload v) (issuer_key_id v) p source_id name hash (valid v)
           (failure_codes v) ("denied:" +:+ why) instant));
  mret [str_pair "grant_id" grant_id; str_pair "redeemed" (PBool false); str_pair "reason" (PStr why);
        str_pair "failure_codes" (strings (failure_codes v)); str_pair "source_id" (PStr source_id);
        str_pair "name" (PStr name); str_pair "contract_version" (PStr DECISION_CONTRACT_VERSION)].

(** A field the structure check guarantees to be text. *)
Definition text_of (v : pyval) : string := match v with PStr s => s | _ => "" end.
Definition opt_text (v : pyval) : option string := match v with PStr s => Some s | _ => None end.

(** The claim of a verified, in-scope grant. *)
Definition gov_claim (cfg : config) (v : GovVerification) (d : pydict) (p : Principal)
    (source_id name hash : string) (instant : pyval) : svc pydict :=
  claimed ← on_store (record_govgrant_redemption (text_of (dget "grant_id" d))
    (text_of (dget "decision_record_id" d)) (opt_text (dget "correlation_id" d))
    (text_of (dget "issuer_key_id" d)) (gov_provider_id cfg) (principal_id p) source_id name hash
    (text_of instant)
    (enforcement_body cfg (Some d) (Some (dget "issuer_key_id" d)) p source_id name hash true []
       "redeemed" instant));
  let '(granted, why, _) := claimed in
  if negb granted then gov_deny cfg v p source_id name hash instant why
  else
    _ ← publish_event cfg (redeemed_event p (text_of (dget "grant_id" d)) (dget "decision_record_id" d)
          source_id name hash);
    mret [str_pair "grant_id" (dget "grant_id" d); str_pair "redeemed" (PBool true);
          str_pair "reason" (PStr "ok"); str_pair "failure_codes" (strings []);
          str_pair "decision_record_id" (dget "decision_record_id" d);
          str_pair "correlation_id" (dget "correlation_id" d); str_pair "source_id" (PStr source_id);
          str_pair "name" (PStr name); str_pair "contract_version" (PStr DECISION_CONTRACT_VERSION)].

(** [redeem_governance_grant(grant, principal, source_id, name, args, at=at)] *)
Definition redeem_governance_grant (cfg : config) (grant principal : pyval) (source_id name : string)
    (args at_ : pyval) : svc pydict :=
  p ← pure (_parse_principal principal);
  hash ← pure (bound_args_hash args);
  instant ← (if decide (at_ = PNone) then t ← on_store _now; mret (PStr t) else mret at_);
  v ← pure (verify_grant grant (gov_trust_root_pem cfg) instant None (gov_revocation_list cfg));
  match valid v, payload v with
  | true, Some d =>
      failures ← pure (scope_failures d (principal_id p) (gov_provider_id cfg) source_id name
                         (match args with PDict a => a | _ => [] end));
      match failures with
      | why :: _ => gov_deny cfg v p source_id name hash instant why
      | [] => gov_claim cfg v d p source_id name hash instant
      end
  | _, _ =>
      match failure_codes v with
      | why :: _ => gov_deny cfg v p source_id name hash instant why
      | [] => throw IndexError
      end
  end.

(** ** Grants, outcomes, audit *)

(** [close_grant(grant_id, reason)] *)
Definition close (grant_id reason : string) : svc pydict :=
  closed ← on_store (close_grant grant_id reason);
  match closed with
  | None => throw (ServiceError 404 ("unknown grant " +:+ repr_str grant_id))
  | Some (decision_id, already) =>
      mret [str_pair "grant_id" (PStr grant_id); str_pair "decision_id" (PStr decision_id);
            str_pair "closed" (PBool true); str_pair "already_closed" (PBool already);
            str_pair "contract_version" (PStr DECISION_CONTRACT_VERSION)]
  end.

(** [get_grant(grant_id)] *)
Definition grant_of (grant_id : string) : svc pydict :=
  found ← on_store (get_grant grant_id);
  match found with
  | None => throw (ServiceError 404 ("unknown grant " +:+ repr_str grant_id))
  | Some g => mret g
  end.

Definition _GRANT_STATES : list string := ["closed"; "expired"; "issued"; "redeemed"].

(** [list_grants(state, limit)] *)
Definition grants_list (state : option string) (limit : Z) : svc (list pydict) :=
  _ ← refuse_if (match state with Some s => negb (s ∈? _GRANT_STATES) | None => false end) 400
        ("unknown grant state " +:+ repr_str (default "" state));
  on_store (list_grants state (Z.max 1 (Z.min limit 1000))).

Definition executed_event (body : pydict) (decision_id outcome : string) (grant_id : pyval) : event :=
  mkEvent "tool.executed" (Some (bus_outcome_for_execution (Some outcome)))
    (py_str (dget_or "principal" (PStr "") body)) NO_PRINCIPAL_BUS_TIER
    [str_pair "principal_id" (dget "principal" body); str_pair "source_id" (dget "source" body);
     str_pair "tool" (dget "tool" body); str_pair "qualified_name" (dget "qualified" body);
     str_pair "decision_id" (PStr decision_id); str_pair "grant_id" grant_id].

(** How a value bound to a parameter compares with a column of text. *)
Definition sql_text (v : pyval) : res string :=
  match v with
  | PStr s => Ok s
  | PInt z => if (- 2 ^ 63 <=? z) && (z <? 2 ^ 63) then Ok (string_of_Z z) else Raise OverflowError
  | PBool b => Ok (if b then "1" else "0")
  | PFloat _ => Ok (py_repr v)
  | _ => Raise ProgrammingError
  end.

(** The grant an outcome report names: it must be the decision's, and is closed. *)
Definition settle_grant (grant_id : pyval) (decision_id : string) : svc unit :=
  key ← pure (sql_text grant_id);
  found ← on_store (get_grant key);
  g ← (match found with
       | None => throw (ServiceError 404 ("unknown grant " +:+ py_repr grant_id))
       | Some g => mret g
       end);
  _ ← refuse_if (negb (bool_decide (dget "decision_id" g = PStr decision_id))) 400
        ("grant " +:+ py_repr grant_id +:+ " does not belong to decision " +:+ repr_str decision_id);
  _ ← on_store (close_grant key "outcome_reported");
  mret tt.

(** [record_outcome(decision_id, outcome, detail, grant_id)] *)
Definition record_outcome (cfg : config) (decision_id outcome : string) (detail : pyval)
    (grant_id : pyval) : svc pydict :=
  _ ← refuse_if (decision_id ≟ "") 400 "decision_id is required";
  _ ← refuse_if (negb (detail ≟ PNone) && negb (is_mapping detail)) 400
        "detail must be a JSON object";
  found ← on_store (find_decision decision_id);
  match found with
  | None => throw (ServiceError 404 ("unknown decision " +:+ repr_str decision_id))
  | Some (decision_seq, body) =>
      let body := match body with PDict b => b | _ => [] end in
      seq ← on_store (append_audit "outcome"
              [str_pair "decision_id" (PStr decision_id); str_pair "decision_seq" (PInt decision_seq);
               str_pair "outcome" (PStr outcome); str_pair "detail" (py_or detail (PDict []))]);
      _ ← (if decide (grant_id = PNone) then mret tt else settle_grant grant_id decision_id);
      _ ← publish_event cfg (executed_event body decision_id outcome grant_id);
      mret ([str_pair "decision_id" (PStr decision_id); str_pair "audit_seq" (PInt seq)] ++
            if decide (grant_id = PNone) then [] else [str_pair "grant_closed" (PBool true)])
  end.

(** [verify_audit()] *)
Definition verify_audit : svc ChainVerification :=
  on_store (v ← select verify_chain; lift v).

(** [health()] *)
Definition health (cfg : config) : svc pydict :=
  chain ← verify_audit;
  c ← catalog;
  rl ← (if decide (gov_revocation_list cfg = PNone) then mret PNone
        else list_id ← on_store (get_meta "gov_revocation_list_id");
             issued ← on_store (get_meta "gov_revocation_list_issued_at");
             mret (PDict [str_pair "list_id" (opt_str list_id); str_pair "issued_at" (opt_str issued)]));
  keys ← (match gov_trust_root_pem cfg with
          | None => mret []
          | Some pem => k ← pure (public_key_id pem); mret [k]
          end);
  mret [str_pair "status" (PStr (if AuditLog.ok chain then "ok" else "audit_chain_broken"));
        str_pair "version" (PStr "0.1.0");
        str_pair "contract_version" (PStr DECISION_CONTRACT_VERSION);
        str_pair "sources" (PInt (Z.of_nat (size (sources c))));
        str_pair "tools" (PInt (Z.of_nat (size (tools c))));
        str_pair "audit_records" (PInt (AuditLog.records chain));
        str_pair "audit_chain_ok" (PBool (AuditLog.ok chain)); str_pair "gov_revocation_list" rl;
        str_pair "gov_trust_root" (PDict [str_pair "configured" (PBool (bool_decide (is_Some (gov_trust_root_pem cfg))));
                                          str_pair "key_ids" (strings keys)]);
        str_pair "gov_provider_id" (PStr (gov_provider_id cfg))].

(** [ToolConnectService.__init__] on a store: the catalog it starts with. *)
Definition start_service (cfg : config) : act Catalog :=
  c ← load_catalog;
  _ ← (match gov_revocation_list cfg with
       | PNone => mret tt
       | PDict d =>
           _ ← set_meta "gov_revocation_list_id" (py_str (dget_or "list_id" (PStr "") d));
           set_meta "gov_revocation_list_issued_at" (py_str (dget_or "issued_at" (PStr "") d))
       | v => lift (Raise (AttributeError ("'" +:+ type_name v +:+ "' object has no attribute 'get'")))
       end);
  mret c.
End service.
