(* ===== verification/ServiceRuns.v ===== *)
(** Runs of the service: what every method keeps, whatever fails and whatever the clock,
    the processes and the bus do, and the end-to-end guarantees that follow. *)

From S2P Require Import Prelude PyJson PyJsonLoads PyStr PyColl DateTime Sha256 Hashing Schema.
From S2P Require Import Descriptor Catalog Policy Db AuditLog Grants Hydrate Store BusPublish.
From S2P Require Import PyEq PyBytes GovGrants McpSource Service.

(** Run the service monad one step further. *)
Ltac run_svc :=
  lazy beta iota zeta delta [mbind mret svc_bind svc_ret st_bind st_ret st_get st_modify st_lift st_throw
    pure throw catalog fst snd negb andb].

(** Expose the first step of a method, evaluating it where it is pure. *)
Ltac svc_step :=
  lazymatch goal with
  | |- context [@mbind svc ?i ?A ?B ?k ?m ?o ?w] =>
      change (@mbind svc i A B k m o w) with
        (match m o w with (Ok a, w') => k a o w' | (Raise e, w') => (@Raise B e, w') end);
      try lazymatch m with
      | pure ?r => change (m o w) with (r, w)
      | throw ?e => change (m o w) with (@Raise A e, w)
      | mret ?a => change (m o w) with (@Ok A a, w)
      | catalog => change (m o w) with (@Ok A (w_catalog w), w)
      end; cbv beta iota
  end.

(** ** What no method undoes *)

(** The audit log only grows, grants stay with their latches and appear only where
    said, redemptions stay. *)
Record kept (d d' : db) : Prop := {
  k_log : ∃ rows, audit_t d' = audit_t d ++ rows;
  k_grants gid g : grants_t d !! gid = Some g → ∃ g', grants_t d' !! gid = Some g' ∧ latched g g';
  k_no_new gid : is_Some (grants_t d' !! gid) → is_Some (grants_t d !! gid);
  k_redemptions gid r : redemptions_t d !! gid = Some r → redemptions_t d' !! gid = Some r;
}.

#[export] Instance kept_refl : Reflexive kept.
Proof.
  intros d. split; try done; [by exists []; rewrite app_nil_r|].
  intros gid g H. exists g. split; [done|apply latched_refl].
Qed.

#[export] Instance kept_trans : Transitive kept.
Proof.
  intros d1 d2 d3 [[l1 L1] G1 N1 R1] [[l2 L2] G2 N2 R2]. split; auto.
  - exists (l1 ++ l2). by rewrite L2, L1, app_assoc.
  - intros gid g H. destruct (G1 _ _ H) as (g2 & H2 & La). destruct (G2 _ _ H2) as (g3 & H3 & Lb).
    exists g3. split; [done|]. by eapply latched_trans.
Qed.

Lemma same_ledger_kept d d' : same_ledger d d' → kept d d'.
Proof.
  intros ((Ha & _) & Hg & Hr). split.
  - exists []. by rewrite app_nil_r.
  - intros gid g H. exists g. rewrite Hg. split; [done|apply latched_refl].
  - intros gid. by rewrite Hg.
  - intros gid r. by rewrite Hr.
Qed.

Section kept.
Context {rt : PyFloatRuntime} {dt : PyDatetime}.

(** An append on top of a change in place. *)
Lemma appended_kept kind body d d1 seq d' :
  kept d d1 → appended kind body d1 seq d' → kept d d'.
Proof.
  intros Hk (payload & t & _ & _ & ->). transitivity d1; [done|]. split; simpl; try done; [by eexists|].
  intros gid g H. exists g. split; [done|apply latched_refl].
Qed.

Lemma put_grant_kept gid g g' d :
  grants_t d !! gid = Some g → latched g g' → kept d (put_grant gid g' d).
Proof.
  intros Hg Hl. split; simpl; try done; [by exists []; rewrite app_nil_r| |].
  - intros gid0 g0 H0. destruct (decide (gid = gid0)) as [<-|Hne].
    + rewrite lookup_insert_eq. exists g'. split; [done|]. congruence.
    + rewrite lookup_insert_ne by done. exists g0. split; [done|apply latched_refl].
  - intros gid0. rewrite lookup_insert_is_Some'. intros [<-|?]; [by eexists|done].
Qed.

Lemma redeem_effect_kept d gid h p chk t why res d' :
  redeem_verdict (grants_t d !! gid) h p chk t = Ok why → redeem_effect gid p why d res d' → kept d d'.
Proof.
  intros Hv He. pose proof (verdict_live _ _ _ _ _ _ _ Hv) as Hlive. unfold redeem_effect in He.
  destruct (grants_t d !! gid) as [g|] eqn:Hg; [|by destruct He as [_ ->]].
  assert (∀ g0, Some g = Some g0 → gr_redeemed_at g0 = None → gr_closed_at g0 = None →
    gr_redeemed_at g = None ∧ gr_closed_at g = None) as Hsame by (by intros ? [= <-]).
  case_decide as Hok.
  - destruct He as (_ & at_ & seq & H). destruct (Hlive ltac:(by left)) as (g0 & Hg0 & Hr & Hc).
    rewrite Hg in Hg0. destruct (Hsame _ Hg0 Hr Hc). eapply appended_kept; [|exact H].
    eapply put_grant_kept; [done|]. by apply set_redeemed_latched.
  - destruct He as (_ & He). case_decide as Hni; [|by subst d'].
    destruct He as (at_ & seq & H). destruct (Hlive ltac:(by right)) as (g0 & Hg0 & Hr & Hc).
    rewrite Hg in Hg0. destruct (Hsame _ Hg0 Hr Hc). eapply appended_kept; [|exact H].
    eapply put_grant_kept; [done|]. by apply set_closed_latched.
Qed.

(** ** The store methods the service calls *)

Definition act_keeps {A} (m : act A) : Prop := ∀ d, outcome any_world m d (λ _ d', kept d d').

Lemma ledger_keeps {A} (m : act A) :
  (∀ d, outcome any_world m d (λ _ d', same_ledger d d')) → act_keeps m.
Proof. intros H d. eapply outcome_mono; [apply H|]. intros r d'. apply same_ledger_kept. Qed.

Lemma select_keeps {A} (f : db → A) : act_keeps (select f).
Proof. intros d. by step_outcome. Qed.
Lemma now_keeps : act_keeps now.
Proof. intros d. by step_outcome. Qed.
Lemma uuid_keeps : act_keeps uuid4_hex.
Proof. intros d. by apply outcome_uuid. Qed.
Lemma lift_keeps {A} (r : res A) : act_keeps (lift r).
Proof. intros d. by step_outcome. Qed.
Lemma ret_keeps {A} (a : A) : act_keeps (mret a).
Proof. intros d. by step_outcome. Qed.
Lemma act_bind_keeps {A B} (m : act A) (k : A → act B) :
  act_keeps m → (∀ a, act_keeps (k a)) → act_keeps (m ≫= k).
Proof.
  intros Hm Hk d. step_outcome. eapply outcome_mono; [apply Hm|]. intros [a|e] d' H; [|done].
  eapply outcome_mono; [apply Hk|]. intros r d2. by transitivity d'.
Qed.

Lemma append_keeps kind body : act_keeps (append_audit kind body).
Proof.
  intros d. eapply outcome_mono; [apply append_audit_outcome|].
  intros [seq|e] d' H; [|by destruct H as [-> _]]. by eapply appended_kept.
Qed.

Lemma redeem_keeps gid h p chk : act_keeps (redeem_grant gid h p chk).
Proof.
  intros d. eapply outcome_mono; [apply redeem_grant_outcome|].
  intros [res|e] d' H; [|by destruct H as [-> _]]. destruct H as (t & why & _ & Hv & He).
  by eapply redeem_effect_kept.
Qed.

Lemma close_keeps gid why : act_keeps (close_grant gid why).
Proof.
  intros d. eapply outcome_mono; [apply close_grant_outcome|].
  intros [[[did already]|]|e] d' H; [|by destruct H as [_ ->]|by destruct H as [-> _]].
  destruct H as (g & at_ & seq & Hg & _ & -> & H). eapply appended_kept; [|exact H].
  destruct (gr_closed_at g) eqn:Hc; simpl; [done|]. eapply put_grant_kept; [done|]. by apply set_closed_latched.
Qed.

Lemma gov_keeps gid drid cid ikid prid pid sid n h va body :
  act_keeps (record_govgrant_redemption gid drid cid ikid prid pid sid n h va body).
Proof.
  intros d. eapply outcome_mono; [apply govgrant_outcome|].
  intros [[[[|] why] at_]|e] d' H; [|by destruct H as (_ & _ & _ & ->)|by destruct H as [-> _]].
  destruct H as (_ & Hn & t & seq & _ & H). eapply appended_kept; [|exact H].
  split; simpl; try done; [by exists []; rewrite app_nil_r| |].
  - intros gid0 g0 H0. exists g0. split; [done|apply latched_refl].
  - intros gid0 r H0. rewrite lookup_insert_ne by congruence. done.
Qed.
End kept.

Create HintDb keeps discriminated.
#[export] Hint Resolve select_keeps now_keeps uuid_keeps lift_keeps ret_keeps append_keeps redeem_keeps
  close_keeps gov_keeps : keeps.

(** ** Service methods *)

Section svc.
Context {rt : PyFloatRuntime} {dt : PyDatetime} {utf8 : Utf8} {crypto : Cryptography}
  {engine : PolicyEngine} {processes : Processes} {endpoint : BusEndpoint}.

Definition svc_keeps {A} (m : svc A) : Prop := ∀ o w, kept (w_db w) (w_db (m o w).2).

Lemma svc_bind_keeps {A B} (m : svc A) (k : A → svc B) :
  svc_keeps m → (∀ a, svc_keeps (k a)) → svc_keeps (m ≫= k).
Proof.
  intros Hm Hk o w. unfold mbind, svc_bind. specialize (Hm o w).
  destruct (m o w) as [[a|e] w1]; simpl in *; [|done]. transitivity (w_db w1); [done|]. apply Hk.
Qed.

Lemma svc_ret_keeps {A} (a : A) : svc_keeps (mret a).
Proof. by intros o w. Qed.
Lemma pure_keeps {A} (r : res A) : svc_keeps (pure r).
Proof. by intros o w. Qed.
Lemma throw_keeps {A} e : svc_keeps (throw (A := A) e).
Proof. by intros o w. Qed.
Lemma catalog_keeps : svc_keeps catalog.
Proof. by intros o w. Qed.
Lemma push_audit_keeps r : svc_keeps (push_audit r).
Proof. by intros o w. Qed.
Lemma push_posts_keeps l : svc_keeps (push_posts l).
Proof. by intros o w. Qed.
Lemma refuse_keeps b s m : svc_keeps (refuse_if b s m).
Proof. by destruct b; intros o w. Qed.
Lemma last_id_keeps : svc_keeps last_decision_id.
Proof. by intros o w. Qed.

Lemma on_catalog_keeps {A} (m : st Catalog A) : svc_keeps (on_catalog m).
Proof. intros o w. unfold on_catalog. by destruct (m (w_catalog w)). Qed.

Lemma on_store_keeps {A} (m : act A) : act_keeps m → svc_keeps (on_store m).
Proof.
  intros H o w. unfold on_store, w_db. specialize (H (s_db (w_sim w)) o (s_tick (w_sim w)) I).
  replace (mkSim (s_db (w_sim w)) (s_tick (w_sim w))) with (w_sim w) in H by (by destruct (w_sim w)).
  by destruct (m o (w_sim w)).
Qed.

Lemma rethrow_keeps {A} f (m : svc A) : svc_keeps m → svc_keeps (rethrow f m).
Proof. intros H o w. unfold rethrow. specialize (H o w). by destruct (m o w) as [[]]. Qed.

Lemma each_keeps {A} (f : A → svc unit) l : (∀ x, svc_keeps (f x)) → svc_keeps (each f l).
Proof.
  intros Hf. induction l as [|x l IH]; [apply svc_ret_keeps|]. apply svc_bind_keeps; [apply Hf|]. by intros _.
Qed.
End svc.

#[export] Hint Resolve svc_bind_keeps svc_ret_keeps pure_keeps throw_keeps catalog_keeps push_audit_keeps
  push_posts_keeps refuse_keeps last_id_keeps on_catalog_keeps on_store_keeps rethrow_keeps each_keeps
  act_bind_keeps : keeps.
#[export] Hint Extern 1 (svc_keeps (match ?x with _ => _ end)) => destruct x : keeps.
#[export] Hint Extern 1 (act_keeps (match ?x with _ => _ end)) => destruct x : keeps.

Section methods.
Context {rt : PyFloatRuntime} {dt : PyDatetime} {utf8 : Utf8} {crypto : Cryptography}
  {engine : PolicyEngine} {processes : Processes} {endpoint : BusEndpoint}.

Lemma upsert_source_keeps src ds cmd : act_keeps (upsert_source src ds cmd).
Proof. apply ledger_keeps. intros d. apply upsert_source_ledger. Qed.
Lemma upsert_tool_keeps tv : act_keeps (upsert_tool tv).
Proof. apply ledger_keeps. intros d. apply upsert_tool_ledger. Qed.
Lemma upsert_assertion_keeps sid n r : act_keeps (upsert_assertion sid n r).
Proof. apply ledger_keeps. intros d. apply upsert_assertion_ledger. Qed.
Lemma discovery_keeps sid names : act_keeps (record_discovery sid names).
Proof. apply ledger_keeps. intros d. apply record_discovery_ledger. Qed.
Lemma get_grant_keeps gid : act_keeps (get_grant gid).
Proof. unfold get_grant, _grant_row_to_dict. eauto 20 with keeps. Qed.
Lemma find_decision_keeps did : act_keeps (find_decision did).
Proof. unfold find_decision. eauto with keeps. Qed.
Lemma get_meta_keeps k : act_keeps (get_meta k).
Proof. unfold get_meta. eauto with keeps. Qed.
Lemma last_discovery_keeps sid : act_keeps (last_discovery sid).
Proof. unfold last_discovery. eauto 20 with keeps. Qed.
Lemma source_command_keeps sid : act_keeps (get_source_command sid).
Proof. unfold get_source_command. eauto 20 with keeps. Qed.
Lemma _now_keeps : act_keeps _now.
Proof. unfold _now. eauto with keeps. Qed.

Lemma list_rows_keeps rows state limit : ∀ out, act_keeps (list_rows rows state limit out).
Proof.
  induction rows as [|[gid g] rows IH]; intros out; simpl; [auto with keeps|].
  apply act_bind_keeps; [unfold _grant_row_to_dict; eauto 20 with keeps|].
  intros d. cbv zeta. case_match; auto with keeps.
Qed.

Lemma list_grants_keeps state limit : act_keeps (list_grants state limit).
Proof. unfold list_grants. apply act_bind_keeps; [auto with keeps|]. intros rows. apply list_rows_keeps. Qed.
End methods.

#[export] Hint Resolve upsert_source_keeps upsert_tool_keeps upsert_assertion_keeps discovery_keeps
  get_grant_keeps find_decision_keeps get_meta_keeps last_discovery_keeps source_command_keeps _now_keeps
  list_grants_keeps : keeps.

Section keeps.
Context {rt : PyFloatRuntime} {dt : PyDatetime} {utf8 : Utf8} {crypto : Cryptography}
  {engine : PolicyEngine} {processes : Processes} {endpoint : BusEndpoint}.

Lemma publish_keeps cfg e : svc_keeps (publish_event cfg e).
Proof. unfold publish_event. eauto with keeps. Qed.
#[local] Hint Resolve publish_keeps : keeps.

Lemma register_source_keeps sid tr tp ds cmd : svc_keeps (register_source sid tr tp ds cmd).
Proof. unfold register_source. eauto 20 with keeps. Qed.

Lemma ingest_one_keeps sid n cl v sch : svc_keeps (ingest_one sid n cl v sch).
Proof. unfold ingest_one. eauto 20 with keeps. Qed.
#[local] Hint Resolve ingest_one_keeps : keeps.

Lemma ingest_by_keeps f sid : svc_keeps (ingest_by f sid).
Proof.
  unfold ingest_by, discovery_failed, ingest_result. apply svc_bind_keeps; [auto with keeps|intros c].
  apply svc_bind_keeps; [auto with keeps|intros _]. apply svc_bind_keeps; [auto with keeps|intros [argv|]]; [|auto with keeps].
  apply svc_bind_keeps; [by intros o w|intros p]. destruct (f p) as [r|[]]; eauto 20 with keeps.
Qed.

Lemma ingest_keeps sid : svc_keeps (ingest sid).
Proof. apply ingest_by_keeps. Qed.

Lemma ingest_payload_keeps sid tl : svc_keeps (ingest_payload sid tl).
Proof. unfold ingest_payload. eauto 20 with keeps. Qed.

Lemma get_tool_keeps sid n : svc_keeps (get_tool sid n).
Proof. unfold get_tool. eauto with keeps. Qed.
#[local] Hint Resolve get_tool_keeps : keeps.

Lemma assert_tool_keeps sid n d : svc_keeps (assert_tool sid n d).
Proof. unfold assert_tool. eauto 30 with keeps. Qed.

Lemma grant_of_keeps gid : svc_keeps (grant_of gid).
Proof. unfold grant_of. eauto with keeps. Qed.
#[local] Hint Resolve grant_of_keeps : keeps.

Lemma redeem_call_keeps cfg gid p args : svc_keeps (redeem cfg gid p args).
Proof. unfold redeem. eauto 20 with keeps. Qed.

Lemma gov_deny_keeps cfg v p sid n h i why : svc_keeps (gov_deny cfg v p sid n h i why).
Proof. unfold gov_deny. eauto with keeps. Qed.
#[local] Hint Resolve gov_deny_keeps : keeps.

Lemma gov_call_keeps cfg g p sid n args at_ : svc_keeps (redeem_governance_grant cfg g p sid n args at_).
Proof.
  unfold redeem_governance_grant, gov_claim. eauto 30 with keeps.
Qed.

Lemma close_call_keeps gid why : svc_keeps (close gid why).
Proof. unfold close. eauto with keeps. Qed.

Lemma outcome_call_keeps cfg did out det gid : svc_keeps (record_outcome cfg did out det gid).
Proof. unfold record_outcome, settle_grant. eauto 30 with keeps. Qed.
End keeps.

(** ** Authorization *)

Section authorize.
Context {rt : PyFloatRuntime} {dt : PyDatetime} {utf8 : Utf8} {crypto : Cryptography}
  {engine : PolicyEngine} {processes : Processes} {endpoint : BusEndpoint}.

Lemma on_store_run_in {A} (W : oracle → Prop) (m : act A) o w (Q : res A → db → Prop) :
  W o → outcome W m (w_db w) Q →
  let '(r, w') := on_store m o w in
  Q r (w_db w') ∧ w_catalog w' = w_catalog w ∧ w_audit w' = w_audit w.
Proof.
  intros HW H. unfold on_store, w_db in *. specialize (H o (s_tick (w_sim w)) HW).
  replace (mkSim (s_db (w_sim w)) (s_tick (w_sim w))) with (w_sim w) in H by (by destruct (w_sim w)).
  by destruct (m o (w_sim w)).
Qed.

Lemma on_store_run {A} (m : act A) o w (Q : res A → db → Prop) :
  outcome any_world m (w_db w) Q →
  let '(r, w') := on_store m o w in
  Q r (w_db w') ∧ w_catalog w' = w_catalog w ∧ w_audit w' = w_audit w.
Proof. by apply on_store_run_in. Qed.

(** The audit record of a decision on a call. *)
Definition decided (pid source_id name id : string) (answer : bool) (r : audit_row) : Prop :=
  au_kind r = "decision" ∧ ∃ body, _canonical (PDict body) = Ok (au_body r) ∧
    dget "decision_id" body = PStr id ∧ dget "principal" body = PStr pid ∧
    dget "source" body = PStr source_id ∧ dget "tool" body = PStr name ∧
    dget "allowed" body = PBool answer.

(** Everything but the log is as it was. *)
Definition logged (row : audit_row) (d d' : db) : Prop :=
  audit_t d' = audit_t d ++ [row] ∧ grants_t d' = grants_t d ∧ redemptions_t d' = redemptions_t d.

Lemma appended_logged kind body d seq d' :
  appended kind body d seq d' → ∃ row, logged row d d' ∧ au_kind row = kind ∧
    _canonical (PDict body) = Ok (au_body row).
Proof. intros (payload & t & Hp & _ & ->). eexists. by split; [split; [reflexivity|]|]. Qed.

Lemma log_append_run record o w :
  dhas "decision_id" record = false →
  let '(r, w') := audit_log_append record o w in
  w_catalog w' = w_catalog w ∧
  match r with
  | Ok _ => ∃ id row, let stored := record ++ [str_pair "decision_id" (PStr id)] in
      w_audit w' = w_audit w ++ [stored] ∧ logged row (w_db w) (w_db w') ∧ au_kind row = "decision" ∧
      _canonical (PDict stored) = Ok (au_body row)
  | Raise _ => w_db w' = w_db w
  end.
Proof.
  intros Hid. unfold audit_log_append. rewrite Hid. cbv beta delta [mbind svc_bind].
  pose proof (on_store_run uuid4_hex o w (λ r d', d' = w_db w) ltac:(by apply outcome_uuid)) as Hu.
  destruct (on_store uuid4_hex o w) as [[id|e] w1]; destruct Hu as (Hd & Hc & Ha); [|by split].
  cbn [mret svc_ret]. set (stored := record ++ _).
  pose proof (on_store_run (append_audit "decision" stored) o w1 _ (append_audit_outcome any_world _ _ _)) as Hs.
  destruct (on_store (append_audit "decision" stored) o w1) as [[seq|e] w2]; destruct Hs as (Hs & Hc2 & Ha2).
  - apply appended_logged in Hs as (row & Hrow & Hk & Hp). rewrite Hd in Hrow.
    split; [simpl; congruence|]. exists id, row. simpl. rewrite Ha2, Ha. done.
  - destruct Hs as [Hs _]. split; congruence.
Qed.

Lemma broker_run p s n ctx o w :
  let '(r, w') := broker_authorize p s n ctx o w in
  match r with
  | Ok d => authorize_decision (w_catalog w) p s n ctx = Ok d ∧
      ∃ record id row, last (w_audit w') = Some record ∧ dget "decision_id" record = PStr id ∧
        logged row (w_db w) (w_db w') ∧ decided (principal_id p) s n id (allowed d) row
  | Raise _ => w_db w' = w_db w
  end.
Proof.
  unfold broker_authorize, Policy.authorize. run_svc.
  destruct (authorize_decision (w_catalog w) p s n ctx) as [d|e]; cbn [app each]; run_svc; [|done].
  pose proof (log_append_run (decision_record p s n d) o w eq_refl) as Hl.
  destruct (audit_log_append (decision_record p s n d) o w) as [[[]|e] w1];
    destruct Hl as [Hc Hl]; [|done].
  destruct Hl as (id & row & Ha & Hlog & Hk & Hp). split; [done|].
  eexists _, id, row. split; [rewrite Ha; apply last_snoc|]. split; [done|]. split; [done|].
  split; [done|]. eexists. split; [exact Hp|]. done.
Qed.

(** The row of a grant issued at [issued] for [ttl] seconds. *)
Definition issued_row (p : Principal) (s n id h : string) (issued ttl : Z) : grant_row :=
  mkGrantRow id (principal_id p) s n h (isoformat issued) (isoformat (issued + ttl * microseconds)) None None.

Lemma issue_run p s n id h ttl o w :
  let '(r, w') := issue_for p s n id h ttl o w in
  match r with
  | Ok (gid, pl) => ∃ issued seq, let g := issued_row p s n id h issued ttl in
      grants_t (w_db w) !! gid = None ∧ pl = grant_payload gid h (gr_expires_at g) ttl ∧
      appended "grant_issue" (issue_body gid g (Some ttl)) (put_grant gid g (w_db w)) seq (w_db w')
  | Raise _ => w_db w' = w_db w
  end.
Proof.
  unfold issue_for. cbv beta delta [mbind svc_bind].
  pose proof (on_store_run now o w (λ r d', d' = w_db w) ltac:(by step_outcome)) as Hn.
  destruct (on_store now o w) as [[issued|e] w1]; destruct Hn as (Hd1 & _); [|done].
  pose proof (on_store_run uuid4_hex o w1 (λ r d', d' = w_db w1) ltac:(by apply outcome_uuid)) as Hu.
  destruct (on_store uuid4_hex o w1) as [[gid|e] w2]; destruct Hu as (Hd2 & _); [|congruence].
  set (m := issue_grant _ _ _ _ _ _ _ _ _).
  pose proof (on_store_run m o w2 _ (issue_grant_outcome any_world _ _ _ _ _ _ _ _ _ _)) as Hi.
  destruct (on_store m o w2) as [[seq|e] w3]; destruct Hi as (Hi & _); cbn [mret svc_ret].
  - destruct Hi as [Hfree Hi]. rewrite Hd2, Hd1 in Hfree, Hi. by exists issued, seq.
  - destruct Hi as [Hi _]. congruence.
Qed.

(** What an authorization can do to the database: log the decision, and issue a grant
    bound to it when it permits and one was asked for. *)
Definition decide_effect (c : Catalog) (p : Principal) (s n : string) (ctx : pydict)
    (requested : option (string * Z)) (d d' : db) (dec : Decision) (id : string)
    (grant : option (string * pyval)) : Prop :=
  authorize_decision c p s n ctx = Ok dec ∧
  ∃ row d1, logged row d d1 ∧ decided (principal_id p) s n id (allowed dec) row ∧
    match requested with
    | Some (h, ttl) =>
        if allowed dec then
          ∃ gid issued seq, let g := issued_row p s n id h issued ttl in
            grants_t d !! gid = None ∧ grant = Some (gid, grant_payload gid h (gr_expires_at g) ttl) ∧
            appended "grant_issue" (issue_body gid g (Some ttl)) (put_grant gid g d1) seq d'
        else grant = None ∧ d' = d1
    | None => grant = None ∧ d' = d1
    end.

Lemma decide_run p s n ctx requested o w :
  let '(r, w') := decide_and_issue p s n ctx requested o w in
  match r with
  | Ok (dec, id, grant) =>
      decide_effect (w_catalog w) p s n ctx requested (w_db w) (w_db w') dec id grant
  | Raise _ => w_db w' = w_db w ∨
      ∃ dec id row, authorize_decision (w_catalog w) p s n ctx = Ok dec ∧ allowed dec = true ∧
        is_Some requested ∧ logged row (w_db w) (w_db w') ∧ decided (principal_id p) s n id true row
  end.
Proof.
  unfold decide_and_issue. cbv beta delta [mbind svc_bind].
  pose proof (broker_run p s n ctx o w) as Hb.
  destruct (broker_authorize p s n ctx o w) as [[dec|e] w1]; [|by left].
  destruct Hb as (Hdec & record & id & row & Hlast & Hid & Hlog & Hd).
  unfold last_decision_id. rewrite Hlast, Hid.
  destruct requested as [[h ttl]|]; [|split; [done|]; by exists row, (w_db w1)].
  destruct (allowed dec) eqn:Hal; [|split; [done|]; exists row, (w_db w1); by rewrite Hal].
  pose proof (issue_run p s n id h ttl o w1) as Hi.
  destruct (issue_for p s n id h ttl o w1) as [[[gid pl]|e] w2]; cbn [mret svc_ret].
  - split; [done|]. exists row, (w_db w1). split; [done|]. rewrite Hal. split; [done|].
    destruct Hi as (issued & seq & Hfree & -> & Hi). exists gid, issued, seq.
    destruct Hlog as (_ & Hg & _). by rewrite <- Hg.
  - right. exists dec, id, row. rewrite Hi. done.
Qed.
End authorize.

(** ** Histories of calls *)

Section history.
Context {rt : PyFloatRuntime} {dt : PyDatetime} {utf8 : Utf8} {crypto : Cryptography}
  {engine : PolicyEngine} {processes : Processes} {endpoint : BusEndpoint} (cfg : config).

(** The methods of the service that change anything. *)
Inductive call :=
| CRegister (source_id tier_ transport_ : string) (declares command : pyval)
| CIngest (source_id : string)
| CPush (source_id : string) (tools : pyval)
| CAssert (source_id name : string) (descriptor : pyval)
| CAuthorize (principal : pyval) (source_id name : string) (context : pyval) (args : option pyval) (ttl : pyval)
| CRedeem (grant_id : string) (principal args : pyval)
| CGov (grant principal : pyval) (source_id name : string) (args at_ : pyval)
| CClose (grant_id reason : string)
| COutcome (decision_id outcome : string) (detail grant_id : pyval).

Definition perform (c : call) : svc pydict :=
  match c with
  | CRegister sid tr tp ds cmd => register_source sid tr tp ds cmd
  | CIngest sid => ingest sid
  | CPush sid tl => ingest_payload sid tl
  | CAssert sid n d => assert_tool sid n d
  | CAuthorize p sid n ctx args ttl => authorize cfg p sid n ctx args ttl
  | CRedeem gid p args => redeem cfg gid p args
  | CGov g p sid n args at_ => redeem_governance_grant cfg g p sid n args at_
  | CClose gid why => close gid why
  | COutcome did out det gid => record_outcome cfg did out det gid
  end.

(** A history: what each call answered, an exception included, and the state left. *)
Fixpoint serve (calls : list call) (o : oracle) (w : world) : list (res pydict) * world :=
  match calls with
  | [] => ([], w)
  | c :: calls' =>
      let '(r, w1) := perform c o w in
      let '(rs, w2) := serve calls' o w1 in (r :: rs, w2)
  end.

(** Every grant on file was permitted: the log holds the decision it names, allowing
    that principal that tool. *)
Definition permit_of (g : grant_row) : audit_row → Prop :=
  decided (gr_principal_id g) (gr_source_id g) (gr_name g) (gr_decision_id g) true.
Definition permitted (d : db) : Prop :=
  ∀ gid g, grants_t d !! gid = Some g → Exists (permit_of g) (audit_t d).

Lemma kept_permitted d d' : kept d d' → permitted d → permitted d'.
Proof.
  intros [[rows Hl] Hg Hn _] Hp gid g' Hg'. destruct (Hn gid) as [g H]; [by eexists|].
  destruct (Hg _ _ H) as (g2 & H2 & []). rewrite Hg' in H2. injection H2 as <-.
  rewrite Hl, Exists_app. left. unfold permit_of. rewrite la_principal, la_source, la_name, la_decision.
  by apply (Hp gid).
Qed.

Lemma logged_kept row d d' : logged row d d' → kept d d'.
Proof.
  intros (Ha & Hg & Hr). split; [by eexists| | |].
  - intros gid g H. exists g. rewrite Hg. split; [done|apply latched_refl].
  - intros gid. by rewrite Hg.
  - intros gid r. by rewrite Hr.
Qed.

(** The database after an authorization: as before but for the log, or with the one
    grant it permitted on top. *)
Definition may_issue (d d' : db) : Prop :=
  kept d d' ∨
  ∃ gid g row d1 body seq, logged row d d1 ∧ permit_of g row ∧ gr_redeemed_at g = None ∧ gr_closed_at g = None ∧
    grants_t d !! gid = None ∧ appended "grant_issue" body (put_grant gid g d1) seq d'.

Lemma decide_may_issue p s n ctx requested o w :
  may_issue (w_db w) (w_db (decide_and_issue p s n ctx requested o w).2).
Proof.
  pose proof (decide_run p s n ctx requested o w) as H.
  destruct (decide_and_issue p s n ctx requested o w) as [[[[dec id] grant]|e] w']; simpl.
  2: { left. destruct H as [->|(dec & id & row & _ & _ & _ & Hlog & _)]; [done|by eapply logged_kept]. }
  destruct H as (_ & row & d1 & Hlog & Hd & H). destruct requested as [[h ttl]|];
    [destruct (allowed dec)|]; [|left; destruct H as [_ ->]; by eapply logged_kept..].
  destruct H as (gid & issued & seq & Hfree & _ & H). right.
  exists gid, (issued_row p s n id h issued ttl), row, d1,
    (issue_body gid (issued_row p s n id h issued ttl) (Some ttl)), seq. done.
Qed.

Lemma tail_keeps {A B} (m : svc A) (k : A → svc B) o w :
  (∀ a, svc_keeps (k a)) → kept (w_db (m o w).2) (w_db ((m ≫= k) o w).2).
Proof.
  intros Hk. unfold mbind, svc_bind. destruct (m o w) as [[a|e] w1]; [apply Hk|done].
Qed.

Lemma authorize_effect p s n ctx args ttl o w :
  ∃ d1, may_issue (w_db w) d1 ∧ kept d1 (w_db (authorize cfg p s n ctx args ttl o w).2).
Proof.
  unfold authorize.
  destruct (authorize_shape ctx args ttl) as [requested|e]; svc_step; [|by exists (w_db w); split; [left|]].
  destruct (_parse_principal p) as [pr|e]; svc_step; [|by exists (w_db w); split; [left|]].
  set (c := match ctx with PDict d => d | _ => [] end).
  exists (w_db (decide_and_issue pr s n c requested o w).2). split; [apply decide_may_issue|].
  apply tail_keeps. intros [[dec id] grant].
  apply svc_bind_keeps; [apply publish_keeps|intros _]. apply svc_bind_keeps; [|eauto with keeps].
  destruct grant as [[gid pl]|], requested as [[h t]|]; try apply svc_ret_keeps. apply publish_keeps.
Qed.

Lemma may_issue_permitted d d' : may_issue d d' → permitted d → permitted d'.
Proof.
  intros [Hk|(gid & g & row & d1 & body & seq & Hlog & Hrow & Hr & Hc & Hfree & H)] Hp; [by eapply kept_permitted|].
  destruct Hlog as (Ha & Hg & _). destruct H as (payload & t & _ & _ & ->).
  intros gid0 g0 H0. simpl in H0 |- *. rewrite Ha, !Exists_app.
  apply lookup_insert_Some in H0 as [[<- <-]|[_ H0]]; left.
  - right. by constructor.
  - left. rewrite Hg in H0. by apply (Hp gid0).
Qed.

Lemma perform_kept c o w :
  kept (w_db w) (w_db (perform c o w).2) ∨
  ∃ d1, may_issue (w_db w) d1 ∧ kept d1 (w_db (perform c o w).2).
Proof.
  destruct c; simpl; [left; apply register_source_keeps|left; apply ingest_keeps|left; apply ingest_payload_keeps
    |left; apply assert_tool_keeps|right; apply authorize_effect|left; apply redeem_call_keeps
    |left; apply gov_call_keeps|left; apply close_call_keeps|left; apply outcome_call_keeps].
Qed.

(** C2 -- No grant without a permit: from a database where every grant on file has the
    permit that justifies it, every history of service calls, whatever fails in it and
    whatever the clock, the discovered servers and the bus do, leads to a database where
    every grant on file has one: an audit record of a decision with the grant's decision
    id that allowed its principal its tool. *)
Theorem grants_are_permitted (calls : list call) (o : oracle) (w : world) :
  permitted (w_db w) → permitted (w_db (serve calls o w).2).
Proof.
  revert w. induction calls as [|c calls IH]; intros w Hp; simpl; [done|].
  pose proof (perform_kept c o w) as Hc. destruct (perform c o w) as [r w1]. simpl in Hc.
  specialize (IH w1). destruct (serve calls o w1) as [rs w2]. simpl in *. apply IH.
  destruct Hc as [Hk|(d1 & Hm & Hk)]; eapply kept_permitted; try done. by eapply may_issue_permitted.
Qed.

(** ** Redemption *)

Lemma verdict_ok_conditions row h p chk t :
  redeem_verdict row h p (Some chk) t = Ok "ok" →
  ∃ g expires, row = Some g ∧ gr_redeemed_at g = None ∧ gr_closed_at g = None ∧
    fromisoformat (gr_expires_at g) = Some (Aware expires) ∧ t < expires ∧
    p = gr_principal_id g ∧ h = gr_args_hash g ∧ chk (gr_source_id g) (gr_name g) = Ok true.
Proof.
  intros Hv. destruct row as [g|]; [|done].
  destruct (verdict_reasons _ _ _ _ _ _ Hv) as [[H _] _].
  destruct (H eq_refl) as (g0 & ex & ([= <-] & ? & ? & ? & ? & ? & ?) & ?). by exists g, ex.
Qed.

Lemma bound_hash_ok args h : bound_args_hash args = Ok h → args_hash args = Ok h.
Proof. unfold bound_args_hash. destruct args; try done. by destruct (args_hash _) as [?|[]]. Qed.

Lemma redeem_call_run gid principal args o w :
  let '(r, w') := redeem cfg gid principal args o w in
  ∀ pl, r = Ok pl → dget "redeemed" pl = PBool true →
  ∃ p h g expires n, _parse_principal principal = Ok p ∧ args_hash args = Ok h ∧
    grants_t (w_db w) !! gid = Some g ∧ gr_redeemed_at g = None ∧ gr_closed_at g = None ∧
    fromisoformat (gr_expires_at g) = Some (Aware expires) ∧ clock o n < expires ∧
    gr_principal_id g = principal_id p ∧ gr_args_hash g = h ∧
    Catalog.invocable (w_catalog w) (gr_source_id g) (gr_name g) = Ok true ∧
    ∃ g', grants_t (w_db w') !! gid = Some g' ∧ gr_redeemed_at g' ≠ None.
Proof.
  unfold redeem, refuse_if. destruct (bool_decide (gid = "")); svc_step; [by intros pl|].
  destruct (_parse_principal principal) as [p|e] eqn:Hp; svc_step; [|by intros pl].
  destruct (bound_args_hash args) as [h|e] eqn:Hh; svc_step; [|by intros pl].
  apply bound_hash_ok in Hh. svc_step. set (m := redeem_grant _ _ _ _). svc_step.
  pose proof (on_store_run_in (λ o', o' = o) m o w _ eq_refl (redeem_grant_outcome _ gid h (principal_id p) _ _)) as Hm.
  destruct (on_store m o w) as [[res|e] w1]; [|by intros pl].
  destruct Hm as ((t & why & (o' & n & -> & Ht) & Hv & He) & Hc & _). subst t. svc_step.
  match goal with |- context [(if redeemed res then ?a else ?b) o w1] =>
    set (tail := if redeemed res then a else b); assert (svc_keeps tail) as Hk end.
  { subst tail. destruct (redeemed res); [apply publish_keeps|eauto with keeps]. }
  specialize (Hk o w1). destruct (tail o w1) as [[[]|e] w2]; [|by intros pl]. simpl in Hk.
  intros pl [= <-] Hred. injection Hred as Hred. unfold redeem_effect in He.
  assert (why = "ok") as ->.
  { destruct (grants_t (w_db w) !! gid); [|by destruct He as [-> _]].
    destruct (decide (why = "ok")) as [|Hn]; [done|]. by destruct He as [-> _]. }
  destruct (verdict_ok_conditions _ _ _ _ _ Hv) as (g & expires & Hg & Hr & Hcl & Hex & Hlt & Hpid & Hhash & Hinv).
  rewrite Hg in He. destruct He as (_ & at_ & seq & pay & t & _ & _ & Hd1).
  destruct (k_grants _ _ Hk gid (set_redeemed (isoformat at_) g)) as (g' & Hg' & Hl).
  { rewrite Hd1. simpl. by rewrite lookup_insert_eq. }
  exists p, h, g, expires, n. split_and!; try done. exists g'. split; [done|]. by rewrite (la_redeemed _ _ Hl).
Qed.

(** C1 -- A redemption is authorized end to end: when [redeem_grant] answers
    [redeemed: true], the grant was on file and live, unexpired at a reading of the clock
    during the call, bound to the caller's principal and to the hash of exactly the
    arguments presented, its tool invocable in the catalog, and the log holds the
    decision that permitted it. *)
Theorem redemption_is_authorized (gid : string) (principal args : pyval) (o : oracle) (w w' : world) (pl : pydict) :
  permitted (w_db w) → redeem cfg gid principal args o w = (Ok pl, w') → dget "redeemed" pl = PBool true →
  ∃ p h g expires n, _parse_principal principal = Ok p ∧ args_hash args = Ok h ∧
    grants_t (w_db w) !! gid = Some g ∧ gr_redeemed_at g = None ∧ gr_closed_at g = None ∧
    fromisoformat (gr_expires_at g) = Some (Aware expires) ∧ clock o n < expires ∧
    gr_principal_id g = principal_id p ∧ gr_args_hash g = h ∧
    Catalog.invocable (w_catalog w) (gr_source_id g) (gr_name g) = Ok true ∧
    Exists (permit_of g) (audit_t (w_db w)).
Proof.
  intros Hperm H Hred. pose proof (redeem_call_run gid principal args o w) as Hr. rewrite H in Hr.
  destruct (Hr pl eq_refl Hred) as (p & h & g & ex & n & ? & ? & Hg & ? & ? & ? & ? & ? & ? & ? & _).
  exists p, h, g, ex, n. split_and!; try done. by apply (Hperm gid).
Qed.

(** Grants on file stay, with their latches, through any call. *)
Lemma perform_grants c o w gid g :
  grants_t (w_db w) !! gid = Some g →
  ∃ g', grants_t (w_db (perform c o w).2) !! gid = Some g' ∧ latched g g'.
Proof.
  intros Hg. destruct (perform_kept c o w) as [Hk|(d1 & Hm & Hk)]; [by apply (k_grants _ _ Hk)|].
  assert (∃ g', grants_t d1 !! gid = Some g' ∧ latched g g') as (g1 & Hg1 & Hl1).
  { destruct Hm as [Hm|(gid1 & g1 & row & d2 & body & seq & (_ & Hgr & _) & _ & _ & _ & Hfree & pay & t & _ & _ & ->)];
      [by apply (k_grants _ _ Hm)|].
    exists g. simpl. rewrite lookup_insert_ne by congruence. rewrite Hgr. split; [done|apply latched_refl]. }
  destruct (k_grants _ _ Hk _ _ Hg1) as (g2 & Hg2 & Hl2). exists g2. split; [done|]. by eapply latched_trans.
Qed.

(** The calls of a history that redeemed a grant. *)
Definition redeemed_call (gid : string) (x : call * res pydict) : bool :=
  match x with
  | (CRedeem gid' _ _, Ok pl) => bool_decide (gid' = gid) && bool_decide (dget "redeemed" pl = PBool true)
  | _ => false
  end.
Definition redeemed_calls (gid : string) (calls : list call) (rs : list (res pydict)) : nat :=
  length (filter (λ x, redeemed_call gid x = true) (zip calls rs)).

Lemma redeemed_call_live gid c o w :
  redeemed_call gid (c, (perform c o w).1) = true →
  (∃ g, grants_t (w_db w) !! gid = Some g ∧ gr_redeemed_at g = None ∧ gr_closed_at g = None) ∧
  ∃ g', grants_t (w_db (perform c o w).2) !! gid = Some g' ∧ gr_redeemed_at g' ≠ None.
Proof.
  destruct c; try done. simpl. pose proof (redeem_call_run grant_id principal args o w) as Hr.
  destruct (redeem cfg grant_id principal args o w) as [[pl|e] w']; [|done]. simpl.
  intros [<-%bool_decide_eq_true Hred%bool_decide_eq_true]%andb_true_iff.
  destruct (Hr pl eq_refl Hred) as (p & h & g & ex & n & _ & _ & Hg & Hre & Hcl & _ & _ & _ & _ & _ & Hg'). eauto.
Qed.

Lemma latched_never_redeemed calls gid : ∀ o w g,
  grants_t (w_db w) !! gid = Some g → gr_redeemed_at g ≠ None ∨ gr_closed_at g ≠ None →
  redeemed_calls gid calls (serve calls o w).1 = 0%nat.
Proof.
  induction calls as [|c calls IH]; intros o w g Hg Hdead; simpl; [done|].
  destruct (perform_grants c o w gid g Hg) as (g1 & Hg1 & Hl).
  pose proof (redeemed_call_live gid c o w) as Hlive.
  destruct (perform c o w) as [r w1]. simpl in *.
  assert (gr_redeemed_at g1 ≠ None ∨ gr_closed_at g1 ≠ None) as Hdead1.
  { destruct Hdead as [H|H]; [left; by rewrite (la_redeemed _ _ Hl)|right].
    by destruct (la_closed _ _ Hl H) as [-> _]. }
  specialize (IH o w1 g1 Hg1 Hdead1). destruct (serve calls o w1) as [rs w2]. unfold redeemed_calls in *. simpl in *.
  rewrite filter_cons, decide_False; [done|]. intros Hred.
  destruct (Hlive Hred) as [(g2 & Hg2 & Hr & Hc) _]. rewrite Hg in Hg2. injection Hg2 as <-. tauto.
Qed.

(** C11 -- One use, end to end: over any history of service calls at most one redemption
    of a given grant is answered [redeemed: true], and none once the grant was redeemed
    or closed. *)
Theorem redeemed_at_most_once (calls : list call) (o : oracle) (w : world) (gid : string) :
  (redeemed_calls gid calls (serve calls o w).1 ≤ 1)%nat ∧
  ∀ g, grants_t (w_db w) !! gid = Some g → gr_redeemed_at g ≠ None ∨ gr_closed_at g ≠ None →
    redeemed_calls gid calls (serve calls o w).1 = 0%nat.
Proof.
  split; [|by intros; eapply latched_never_redeemed].
  revert w. induction calls as [|c calls IH]; intros w; simpl; [unfold redeemed_calls; simpl; lia|].
  pose proof (redeemed_call_live gid c o w) as Hlive.
  destruct (perform c o w) as [r w1]. simpl in *.
  pose proof (latched_never_redeemed calls gid o w1) as Hdead. specialize (IH w1).
  destruct (serve calls o w1) as [rs w2]. unfold redeemed_calls in *. simpl in *.
  rewrite filter_cons. case_decide as Hred; [|done]. simpl.
  destruct (Hlive Hred) as [_ (g & Hg & Hr)]. rewrite (Hdead g Hg); [lia|by left].
Qed.
End history.

(** ** Witnesses *)

(** A service over the sample catalog, without bus and with an engine that allows all. *)
Definition open_engine : PolicyEngine :=
  {| decide_tool p tool ctx := Ok (mkDecision true "policy0" ["policy0"] []) |}.
Definition no_processes : Processes := {| launch argv t := mkProcess true (λ _, false) [] |}.
Definition no_endpoint : BusEndpoint := {| urlopen url token body := Ok tt |}.
Definition quiet : config := mkConfig (mkBus None None) (Some "ROOT") PNone "toolconnect".

Definition alice : pyval := PDict [(KStr "id", PStr "alice")].
Definition call_args : pyval := PDict [(KStr "q", PStr "x")].

Definition fresh_world : world := mkWorld sample_catalog (mkSim empty_db 0%nat) [] [].

Definition sample_serve (calls : list call) (w : world) : list (res pydict) * world :=
  serve (rt := coded_float_runtime) (dt := decimal_datetime) (utf8 := ascii_utf8) (crypto := toy_crypto)
    (engine := open_engine) (processes := no_processes) (endpoint := no_endpoint) quiet calls calm w.

Definition granted_world : world :=
  (sample_serve [CAuthorize alice "ws" "search" PNone (Some call_args) PNone] fresh_world).2.

Lemma permitted_empty : permitted (rt := coded_float_runtime) empty_db.
Proof. by intros gid g H. Qed.

Lemma granted_permitted : permitted (rt := coded_float_runtime) (w_db granted_world).
Proof.
  destruct (perform_kept (rt := coded_float_runtime) (dt := decimal_datetime) (utf8 := ascii_utf8)
    (crypto := toy_crypto) (engine := open_engine) (processes := no_processes) (endpoint := no_endpoint) quiet
    (CAuthorize alice "ws" "search" PNone (Some call_args) PNone) calm fresh_world) as [Hk|(d1 & Hm & Hk)];
    unfold granted_world, sample_serve; cbn [serve];
    destruct (perform quiet _ calm fresh_world) as [r w1]; cbn [snd];
    (eapply kept_permitted; [exact Hk|]); [|eapply may_issue_permitted; [exact Hm|]]; apply permitted_empty.
Qed.

(** After an authorization that issues a grant and a redemption of it, every grant on
    file has its permit, and there is one. *)
Lemma grants_are_permitted_witness :
  grants_t (w_db granted_world) !! "id8" ≠ None ∧
  permitted (rt := coded_float_runtime)
    (w_db (sample_serve [CRedeem "id8" alice call_args; CClose "id8" "done"] granted_world).2).
Proof.
  split; [vm_compute; discriminate|].
  apply (grants_are_permitted (rt := coded_float_runtime) (dt := decimal_datetime) (utf8 := ascii_utf8)
    (crypto := toy_crypto) (engine := open_engine) (processes := no_processes) (endpoint := no_endpoint) quiet
    [CRedeem "id8" alice call_args; CClose "id8" "done"] calm granted_world).
  exact granted_permitted.
Defined.

Definition sample_redemption : res pydict * world :=
  redeem (rt := coded_float_runtime) (dt := decimal_datetime) (endpoint := no_endpoint) quiet "id8" alice
    call_args calm granted_world.

Lemma redemption_is_authorized_witness :
  match sample_redemption with
  | (Ok pl, _) => dget "redeemed" pl = PBool true ∧
      ∃ g, grants_t (w_db granted_world) !! "id8" = Some g ∧ gr_principal_id g = "alice" ∧
        Exists (permit_of (rt := coded_float_runtime) g) (audit_t (w_db granted_world))
  | _ => False
  end.
Proof.
  destruct sample_redemption as [[pl|e] w'] eqn:E; [|vm_compute in E; discriminate E].
  assert (dget "redeemed" pl = PBool true) as Hr.
  { assert (match sample_redemption.1 with Ok pl => dget "redeemed" pl | Raise _ => PNone end = PBool true) as H
      by (vm_compute; reflexivity). rewrite E in H. exact H. }
  split; [exact Hr|].
  destruct (redemption_is_authorized (rt := coded_float_runtime) (dt := decimal_datetime)
    (endpoint := no_endpoint) quiet "id8" alice call_args calm granted_world w' pl granted_permitted E Hr)
    as (p & h & g & ex & n & Hp & _ & Hg & _ & _ & _ & _ & Hpid & _ & _ & Hex).
  injection Hp as <-. exists g. split; [exact Hg|]. split; [exact Hpid|exact Hex].
Defined.
