(* ===== verification/Embedders.v ===== *)
(** [service.py] under threads: several callers of one service in a process, without the
    HTTP server and its handler lock.

    The calls of the service are the ones of [Service].  Here they are taken apart: a
    program is a tree of calls of the store (each holds the store's lock), of steps on the
    catalog and of pushes, derived from the method, with the part of [authorize] that holds
    [_authz_lock] marked.  Any caller may move between any two steps of another. *)

From S2P Require Import Prelude PyJson PyJsonLoads PyStr PyColl DateTime Sha256 Hashing Schema.
From S2P Require Import Descriptor Catalog Policy Db AuditLog Grants Hydrate Store BusPublish.
From S2P Require Import PyEq PyBytes GovGrants McpSource Service ServiceRuns.

(** ** Programs *)

Inductive program (A : Type) : Type :=
| Ends (r : res A)
| Does {B} (m : svc B) (k : B → program A)
| Holding {B} (body : program B) (k : B → program A).
Arguments Ends {A} _.
Arguments Does {A B} _ _.
Arguments Holding {A B} _ _.

Fixpoint program_bind {A B} (p : program A) (q : A → program B) : program B :=
  match p with
  | Ends (Ok a) => q a
  | Ends (Raise e) => Ends (Raise e)
  | Does m k => Does m (λ b, program_bind (k b) q)
  | Holding body k => Holding body (λ b, program_bind (k b) q)
  end.

(** A program run without company. *)
Fixpoint alone {A} (p : program A) : svc A :=
  match p with
  | Ends r => pure r
  | Does m k => b ← m; alone (k b)
  | Holding body k => b ← alone body; alone (k b)
  end.

Definition svc_eq {A} (m m' : svc A) : Prop := ∀ o w, m o w = m' o w.
Infix "≈" := svc_eq (at level 70).

#[global] Instance svc_eq_equivalence {A} : Equivalence (@svc_eq A).
Proof. split; [done|intros m m' H o w; by rewrite H|intros m1 m2 m3 H H' o w; by rewrite H, H']. Qed.

#[global] Instance svc_bind_proper {A B} :
  Proper (pointwise_relation A (@svc_eq B) ==> @svc_eq A ==> @svc_eq B) (@mbind svc svc_bind A B).
Proof. intros k k' Hk m m' Hm o w. unfold mbind, svc_bind. rewrite Hm. destruct (m' o w) as [[a|e] w']; [apply Hk|done]. Qed.

Lemma svc_bind_assoc {A B C} (m : svc A) (k : A → svc B) (q : B → svc C) :
  ((m ≫= k) ≫= q) ≈ (m ≫= λ a, k a ≫= q).
Proof. intros o w. unfold mbind, svc_bind. by destruct (m o w) as [[a|e] w']. Qed.

Lemma alone_bind {A B} (p : program A) (q : A → program B) : alone (program_bind p q) ≈ (a ← alone p; alone (q a)).
Proof.
  induction p as [A [a|e]|A C m k IH|A C body _ k IH]; cbn [program_bind alone];
    [by intros o w..| |]; rewrite svc_bind_assoc; f_equiv; intros b; apply IH.
Qed.

Class Interleaved {A} (m : svc A) := mkInterleaved { parts : program A; parts_run : alone parts ≈ m }.
Arguments parts {A} m {_}.

Lemma svc_bind_ret {A} (m : svc A) : (a ← m; pure (Ok a)) ≈ m.
Proof. intros o w. unfold mbind, svc_bind, pure. by destruct (m o w) as [[a|e] w']. Qed.

#[global] Instance parts_ret {A} (a : A) : Interleaved (mret a : svc A).
Proof. exists (Ends (Ok a)). done. Defined.
#[global] Instance parts_pure {A} (r : res A) : Interleaved (pure r).
Proof. exists (Ends r). done. Defined.
#[global] Instance parts_throw {A} e : Interleaved (throw (A := A) e).
Proof. exists (Ends (Raise e)). done. Defined.
#[global] Instance parts_refuse b status msg : Interleaved (refuse_if b status msg).
Proof. exists (Ends (if b then Raise (ServiceError status msg) else Ok tt)). by destruct b. Defined.

(** One step: a call of the store, a change of the catalog, anything not taken further apart. *)
Definition one_step {A} (m : svc A) : Interleaved m.
Proof. exists (Does m (λ a, Ends (Ok a))). apply svc_bind_ret. Defined.

#[global] Instance parts_bind {A B} (m : svc A) (k : A → svc B) (Hm : Interleaved m) (Hk : ∀ a, Interleaved (k a)) :
  Interleaved (m ≫= k).
Proof. exists (program_bind (parts m) (λ a, parts (k a))). rewrite alone_bind. f_equiv; [intros a; apply parts_run|apply parts_run]. Defined.

#[global] Instance parts_each {A} (f : A → svc unit) (Hf : ∀ x, Interleaved (f x)) l : Interleaved (each f l).
Proof. induction l as [|x l IH]; [apply parts_ret|]. cbn. apply parts_bind; [apply Hf|intros _; exact IH]. Defined.

(** [with self._authz_lock: m] *)
Definition holding {A} (m : svc A) (H : Interleaved m) : Interleaved m.
Proof. exists (Holding (parts m) (λ a, Ends (Ok a))). cbn. rewrite parts_run. apply svc_bind_ret. Defined.

Ltac take_apart :=
  cbv zeta;
  lazymatch goal with
  | |- ∀ _, _ => intros ?; take_apart
  | |- Interleaved (match ?x with _ => _ end) => destruct x; take_apart
  | |- Interleaved (mbind _ _) => apply parts_bind; take_apart
  | |- Interleaved (mret _) => apply parts_ret
  | |- Interleaved (pure _) => apply parts_pure
  | |- Interleaved (throw _) => apply parts_throw
  | |- Interleaved (refuse_if _ _ _) => apply parts_refuse
  | |- Interleaved (each _ _) => apply parts_each; take_apart
  | |- Interleaved catalog => apply one_step
  | |- Interleaved (on_store _) => apply one_step
  | |- Interleaved (on_catalog _) => apply one_step
  | |- Interleaved (push_audit _) => apply one_step
  | |- Interleaved (push_posts _) => apply one_step
  | |- Interleaved last_decision_id => apply one_step
  | |- Interleaved (rethrow _ _) => apply one_step
  | |- Interleaved (λ _ _, _) => apply one_step
  | |- Interleaved _ => apply _
  end.

Section parts.
Context {rt : PyFloatRuntime} {dt : PyDatetime} {utf8 : Utf8} {crypto : Cryptography}
  {engine : PolicyEngine} {processes : Processes} {endpoint : BusEndpoint} (cfg : config).

#[export] Instance parts_append record : Interleaved (audit_log_append record).
Proof. unfold audit_log_append. take_apart. Defined.
#[export] Instance parts_broker p s n ctx : Interleaved (broker_authorize p s n ctx).
Proof. unfold broker_authorize. take_apart. Defined.
#[export] Instance parts_issue p s n id h ttl : Interleaved (issue_for p s n id h ttl).
Proof. unfold issue_for. take_apart. Defined.
#[export] Instance parts_publish e : Interleaved (publish_event cfg e).
Proof. unfold publish_event. take_apart. Defined.

(** [authorize] decides and issues under its lock. *)
#[export] Instance parts_decide p s n ctx requested : Interleaved (decide_and_issue p s n ctx requested).
Proof. apply holding. unfold decide_and_issue. take_apart. Defined.

#[export] Instance parts_authorize p s n ctx args ttl : Interleaved (authorize cfg p s n ctx args ttl).
Proof. unfold authorize. take_apart. Defined.

#[export] Instance parts_ingest_one sid n cl v sch : Interleaved (ingest_one sid n cl v sch).
Proof. unfold ingest_one. take_apart. Defined.
#[export] Instance parts_get_tool sid n : Interleaved (get_tool sid n).
Proof. unfold get_tool. take_apart. Defined.
#[export] Instance parts_gov_deny v p s n h i why : Interleaved (gov_deny cfg v p s n h i why).
Proof. unfold gov_deny. take_apart. Defined.
#[export] Instance parts_settle gid did : Interleaved (settle_grant gid did).
Proof. unfold settle_grant. take_apart. Defined.

(** The invocability check of a redemption reads the catalog while the store holds its
    lock: reading it and redeeming are one step. *)
Lemma redeem_together gid h pid :
  (c ← catalog; on_store (redeem_grant gid h pid (Some (Catalog.invocable c)))) ≈
  (λ o w, on_store (redeem_grant gid h pid (Some (Catalog.invocable (w_catalog w)))) o w).
Proof. done. Qed.

#[export] Instance parts_redeem gid principal args : Interleaved (redeem cfg gid principal args).
Proof.
  unfold redeem. apply parts_bind; [take_apart|intros _]. apply parts_bind; [take_apart|intros p].
  apply parts_bind; [take_apart|intros h].
  match goal with |- Interleaved (mbind (λ c, mbind ?K (@?M c)) catalog) =>
    assert (Interleaved (mbind K (mbind M catalog))) as [q Hq] by (apply parts_bind; [apply one_step|take_apart]) end.
  exists q. rewrite Hq. apply svc_bind_assoc.
Defined.

Definition call_parts (c : call) : Interleaved (perform cfg c).
Proof.
  destruct c; cbn [perform]; [|unfold ingest, ingest_by, discovery_failed, ingest_result| | |apply _|apply _| | |];
    [unfold register_source|..|unfold ingest_payload|unfold assert_tool|unfold redeem_governance_grant, gov_claim
    |unfold close|unfold record_outcome]; take_apart.
Defined.

(** The steps of a call; without company they are the call. *)
Definition program_of (c : call) : program pydict := @parts _ (perform cfg c) (call_parts c).
Lemma program_of_alone c : alone (program_of c) ≈ perform cfg c.
Proof. apply parts_run. Qed.

(** ** The machine *)

(** A call under way, with or without [_authz_lock]. *)
Inductive progress :=
| Outside (p : program pydict)
| Inside {B} (p : program B) (k : B → program pydict).

Record worker := mkWorker { current : option (call * progress); todo : list call }.

Record process_state := mkState {
  state : world;
  authz_lock : option nat;
  workers : list worker;
  answered : list (call * res pydict);
}.

Definition after {A B} (r : res B) (k : B → program A) : program A :=
  match r with Ok b => k b | Raise e => Ends (Raise e) end.

Definition update (i : nat) (wk : worker) (w : world) (lock : option nat) (answers : list (call * res pydict))
    (s : process_state) : process_state :=
  mkState w lock (<[i := wk]> (workers s)) (answered s ++ answers).

(** A step of worker [i], or [None] when it cannot move. *)
Definition step (o : oracle) (i : nat) (s : process_state) : option process_state :=
  match workers s !! i with
  | Some (mkWorker None (c :: rest)) =>
      Some (update i (mkWorker (Some (c, Outside (program_of c))) rest) (state s) (authz_lock s) [] s)
  | Some (mkWorker (Some (c, Outside p)) rest) =>
      match p with
      | Ends r => Some (update i (mkWorker None rest) (state s) (authz_lock s) [(c, r)] s)
      | Does m k =>
          let '(r, w) := m o (state s) in
          Some (update i (mkWorker (Some (c, Outside (after r k))) rest) w (authz_lock s) [] s)
      | Holding body k =>
          match authz_lock s with
          | Some _ => None
          | None => Some (update i (mkWorker (Some (c, Inside body k)) rest) (state s) (Some i) [] s)
          end
      end
  | Some (mkWorker (Some (c, Inside p k)) rest) =>
      match p with
      | Ends r => Some (update i (mkWorker (Some (c, Outside (after r k))) rest) (state s) None [] s)
      | Does m q =>
          let '(r, w) := m o (state s) in
          Some (update i (mkWorker (Some (c, Inside (after r q) k)) rest) w (authz_lock s) [] s)
      | Holding _ _ => None
      end
  | _ => None
  end.

Fixpoint run (o : oracle) (schedule : list nat) (s : process_state) : option process_state :=
  match schedule with
  | [] => Some s
  | i :: schedule' => s' ← step o i s; run o schedule' s'
  end.

Definition begin (jobs : list (list call)) (w : world) : process_state :=
  mkState w None (mkWorker None <$> jobs) [].

(** ** What others may do meanwhile *)

(** Records stay where they are. *)
Definition later (w w' : world) : Prop := ∃ rows, audit_t (w_db w') = audit_t (w_db w) ++ rows.
(** What may happen to a thread that holds the lock: no grant appears and the broker's list is as it was. *)
Definition meanwhile (w w' : world) : Prop := kept (w_db w) (w_db w') ∧ w_audit w' = w_audit w.

#[export] Instance later_preorder : PreOrder later.
Proof.
  split; [intros w; by exists []; rewrite app_nil_r|].
  intros w1 w2 w3 [l1 H1] [l2 H2]. exists (l1 ++ l2). by rewrite H2, H1, app_assoc.
Qed.
#[export] Instance meanwhile_preorder : PreOrder meanwhile.
Proof. split; [done|]. intros w1 w2 w3 [H1 E1] [H2 E2]. split; [by transitivity (w_db w2)|congruence]. Qed.

Lemma meanwhile_later w w' : meanwhile w w' → later w w'.
Proof. intros [[Hl _ _ _] _]. exact Hl. Qed.

(** A program that holds the lock: whatever happens meanwhile, each step keeps grants
    permitted and records in place, and the result satisfies [Q]. *)
Fixpoint holder {A} (p : program A) (w : world) (Q : res A → world → Prop) : Prop :=
  match p with
  | Ends r => ∀ w', meanwhile w w' → Q r w'
  | Does m k => ∀ o w', meanwhile w w' →
      let '(r, w1) := m o w' in
      (permitted (w_db w') → permitted (w_db w1)) ∧ later w' w1 ∧
      match r with Ok b => holder (k b) w1 Q | Raise e => ∀ w2, meanwhile w1 w2 → Q (Raise e) w2 end
  | Holding _ _ => False
  end.

(** A program that does not hold it: its steps are what may happen to a holder. *)
Fixpoint visitor {A} (p : program A) (w : world) (Q : res A → world → Prop) : Prop :=
  match p with
  | Ends r => ∀ w', later w w' → Q r w'
  | Does m k => ∀ o w', later w w' →
      let '(r, w1) := m o w' in
      meanwhile w' w1 ∧
      match r with Ok b => visitor (k b) w1 Q | Raise e => ∀ w2, later w1 w2 → Q (Raise e) w2 end
  | Holding body k => ∀ w', later w w' →
      holder body w' (λ r w1, match r with Ok b => visitor (k b) w1 Q | Raise e => ∀ w2, later w1 w2 → Q (Raise e) w2 end)
  end.

Lemma holder_meanwhile {A} (p : program A) w w' Q : meanwhile w w' → holder p w Q → holder p w' Q.
Proof. destruct p; cbn; [..|done]; intros Hm H; [intros w2 H2|intros o w2 H2]; apply H; by transitivity w'. Qed.

Lemma visitor_later {A} (p : program A) w w' Q : later w w' → visitor p w Q → visitor p w' Q.
Proof. destruct p; cbn; intros Hm H; [intros w2 H2|intros o w2 H2|intros w2 H2]; apply H; by transitivity w'. Qed.

Lemma holder_bind {A B} (p : program A) (q : A → program B) w Q :
  holder p w (λ r w1, match r with Ok a => holder (q a) w1 Q | Raise e => ∀ w2, meanwhile w1 w2 → Q (Raise e) w2 end) →
  holder (program_bind p q) w Q.
Proof.
  revert w. induction p as [A [a|e]|A C m k IH|A C body _ k IH]; intros w; cbn; [| | |done].
  - intros H. by apply H.
  - intros H w' Hw. by apply (H w' Hw).
  - intros H o w' Hw. specialize (H o w' Hw). destruct (m o w') as [[b|e] w1]; destruct H as (Hp & Hl & H).
    + split_and!; [done|done|]. by apply IH.
    + split_and!; [done|done|]. intros w2 H2. by apply (H w2 H2).
Qed.

Lemma holder_mono {A} (p : program A) w (Q Q' : res A → world → Prop) :
  (∀ r w, Q r w → Q' r w) → holder p w Q → holder p w Q'.
Proof.
  intros HQ. revert w. induction p as [A r|A C m k IH|A C body _ k IH]; intros w; cbn; [by eauto| |done].
  intros H o w' Hw. specialize (H o w' Hw). destruct (m o w') as [[b|e] w1]; destruct H as (Hp & Hl & H);
    split_and!; eauto.
Qed.

Lemma visitor_mono {A} (p : program A) w (Q Q' : res A → world → Prop) :
  (∀ r w, Q r w → Q' r w) → visitor p w Q → visitor p w Q'.
Proof.
  intros HQ. revert w. induction p as [A r|A C m k IH|A C body _ k IH]; intros w; cbn; [by eauto|..].
  - intros H o w' Hw. specialize (H o w' Hw). destruct (m o w') as [[b|e] w1]; destruct H as [Hm H]; eauto.
  - intros H w' Hw. eapply holder_mono; [|exact (H w' Hw)]. intros [b|e] w1; eauto.
Qed.

Lemma visitor_bind {A B} (p : program A) (q : A → program B) w Q :
  visitor p w (λ r w1, match r with Ok a => visitor (q a) w1 Q | Raise e => ∀ w2, later w1 w2 → Q (Raise e) w2 end) →
  visitor (program_bind p q) w Q.
Proof.
  revert w. induction p as [A [a|e]|A C m k IH|A C body _ k IH]; intros w; cbn.
  - intros H. by apply H.
  - intros H w' Hw. by apply (H w' Hw).
  - intros H o w' Hw. specialize (H o w' Hw). destruct (m o w') as [[b|e] w1]; destruct H as [Hp H].
    + split; [done|]. by apply IH.
    + split; [done|]. intros w2 H2. by apply (H w2 H2).
  - intros H w' Hw. eapply holder_mono; [|exact (H w' Hw)]. cbn. intros [b|e] w1 H1; [by apply IH|].
    intros w2 H2. by apply (H1 w2 H2).
Qed.

(** ** Every interleaving *)

Section interleavings.
Context (Post : call → res pydict → world → Prop).
Context (calls_ok : ∀ c w, visitor (program_of c) w (Post c)).

Definition released {B} (c : call) (k : B → program pydict) (r : res B) (w : world) : Prop :=
  match r with Ok b => visitor (k b) w (Post c) | Raise e => ∀ w2, later w w2 → Post c (Raise e) w2 end.

Definition worker_ok (lock : option nat) (w : world) (i : nat) (wk : worker) : Prop :=
  match current wk with
  | None => True
  | Some (c, Outside p) => visitor p w (Post c)
  | Some (c, Inside p k) => lock = Some i ∧ holder p w (released c k)
  end.

Record safe (s : process_state) : Prop := mkSafe {
  sf_permitted : permitted (w_db (state s));
  sf_workers i wk : workers s !! i = Some wk → worker_ok (authz_lock s) (state s) i wk;
  sf_answered c r w : (c, r) ∈ answered s → later (state s) w → Post c r w;
}.

Lemma after_visitor {A B} (r : res B) (k : B → program A) w Q :
  match r with Ok b => visitor (k b) w Q | Raise e => ∀ w2, later w w2 → Q (Raise e) w2 end → visitor (after r k) w Q.
Proof. by destruct r. Qed.

Lemma after_holder {A B} (r : res B) (k : B → program A) w Q :
  match r with Ok b => holder (k b) w Q | Raise e => ∀ w2, meanwhile w w2 → Q (Raise e) w2 end → holder (after r k) w Q.
Proof. by destruct r. Qed.

(** Others stay as they are: after a visitor's step, or after a holder's, who is the only one. *)
Lemma worker_frame lock lock' w w1 i j wk :
  worker_ok lock w j wk → j ≠ i → later w w1 →
  (meanwhile w w1 ∧ lock' = lock) ∨ lock = Some i ∨ (lock = None ∧ w1 = w) → worker_ok lock' w1 j wk.
Proof.
  unfold worker_ok. destruct (current wk) as [[c [p|B p k]]|]; [|..|done].
  - intros H _ Hl _. by eapply visitor_later.
  - intros [Hlock H] Hne Hl [[Hm ->]|[He|[He _]]]; [|congruence..]. split; [done|by eapply holder_meanwhile].
Qed.

Lemma update_safe i wk w lock answers s :
  safe s → worker_ok lock w i wk → later (state s) w → (permitted (w_db (state s)) → permitted (w_db w)) →
  (meanwhile (state s) w ∧ lock = authz_lock s) ∨ authz_lock s = Some i ∨ (authz_lock s = None ∧ w = state s) →
  (∀ c r w', (c, r) ∈ answers → later w w' → Post c r w') → safe (update i wk w lock answers s).
Proof.
  intros [Hp Hw Ha] Hok Hl Hperm Hframe Hans. split; cbn.
  - by apply Hperm.
  - intros j wk' [(<- & <- & _)|[Hne Hj]]%list_lookup_insert_Some; [done|].
    eapply (worker_frame _ _ _ _ i); [by apply Hw|congruence|done|exact Hframe].
  - intros c r w' [Hin|Hin]%elem_of_app Hl'; [|by eapply Hans]. eapply Ha; [done|]. by transitivity w.
Qed.

Lemma step_safe o i s s' : safe s → step o i s = Some s' → safe s'.
Proof.
  intros Hs Hstep. unfold step in Hstep. destruct (workers s !! i) as [[cur rest]|] eqn:Hi; [|done].
  pose proof (sf_workers _ Hs _ _ Hi) as Hok. unfold worker_ok in Hok. cbn in Hok.
  assert (∀ c (r : res pydict) w, (c, r) ∈ ([] : list (call * res pydict)) → later (state s) w → Post c r w) as Hnil
    by (intros c r w Hin; by apply elem_of_nil in Hin).
  destruct cur as [[c [p|B p k]]|].
  - destruct p as [r|B m k|B body k].
    + injection Hstep as <-. apply update_safe; [done|done|done|done|by left|].
      intros c' r' w' [= -> ->]%list_elem_of_singleton Hl. by apply Hok.
    + specialize (Hok o (state s) (reflexivity _)). destruct (m o (state s)) as [r w]. destruct Hok as [Hm Hk].
      injection Hstep as <-. apply update_safe; [done|by apply after_visitor|by apply meanwhile_later| |by left|].
      * apply kept_permitted, Hm.
      * intros c' r' w' Hin. by apply elem_of_nil in Hin.
    + destruct (authz_lock s) eqn:Hlock; [done|]. injection Hstep as <-.
      apply update_safe; [done| |done|done|by right; right|done].
      split; [done|]. apply (Hok (state s)). reflexivity.
  - destruct Hok as [Hlock Hok]. destruct p as [r|C m q|C body q]; [..|done].
    + injection Hstep as <-. apply update_safe; [done| |done|done|by right; left|done].
      apply after_visitor. by apply (Hok (state s)).
    + specialize (Hok o (state s) (reflexivity _)). destruct (m o (state s)) as [r w]. destruct Hok as (Hp & Hl & Hk).
      injection Hstep as <-. apply update_safe; [done| |done|done|by right; left|].
      * split; [done|]. apply after_holder. destruct r; done.
      * intros c' r' w' Hin. by apply elem_of_nil in Hin.
  - destruct rest as [|c rest]; [done|]. injection Hstep as <-.
    apply update_safe; [done| |done|done|by left|done]. apply calls_ok.
Qed.

Lemma run_safe o schedule : ∀ s s', safe s → run o schedule s = Some s' → safe s'.
Proof.
  induction schedule as [|i schedule IH]; intros s s' Hs Hrun; cbn in Hrun; [by injection Hrun as <-|].
  apply bind_Some in Hrun as (s1 & H1 & Hrun). eapply IH; [|exact Hrun]. by eapply step_safe.
Qed.

Lemma begin_safe jobs w : permitted (w_db w) → safe (begin jobs w).
Proof.
  intros Hp. split; [done| |intros c r w' Hin; by apply elem_of_nil in Hin].
  intros i wk Hi. apply list_lookup_fmap_Some in Hi as (l & -> & _). done.
Qed.
End interleavings.

(** ** Calls that issue nothing *)

Definition still {A} (m : svc A) : Prop := ∀ o w, meanwhile w (m o w).2.

Fixpoint quiet {A} (p : program A) : Prop :=
  match p with
  | Ends _ => True
  | Does m k => still m ∧ ∀ b, quiet (k b)
  | Holding _ _ => False
  end.

Lemma quiet_then {A B} (p : program A) (q : A → program B) : quiet p → (∀ a, quiet (q a)) → quiet (program_bind p q).
Proof.
  intros Hp Hq. induction p as [A [a|e]|A C m k IH|A C body _ k IH]; cbn in *; try done.
  destruct Hp as [Hm Hk]. split; [done|]. intros b. by apply IH.
Qed.

Lemma quiet_visitor {A} (p : program A) w Q : quiet p → (∀ r w', later w w' → Q r w') → visitor p w Q.
Proof.
  intros Hp. revert w. induction p as [A r|A C m k IH|A C body _ k IH]; intros w HQ; cbn in *; [by eauto| |done].
  destruct Hp as [Hm Hk]. intros o w' Hw. specialize (Hm o w').
  assert (∀ w2, later (m o w').2 w2 → later w w2) as Hl.
  { intros w2 H2. transitivity w'; [done|]. transitivity (m o w').2; [by apply meanwhile_later|done]. }
  destruct (m o w') as [[b|e] w1]; (split; [done|]); [|by eauto]. apply IH; [by apply Hk|]. by eauto.
Qed.

Lemma still_store {A} (m : act A) : act_keeps m → still (on_store m).
Proof.
  intros Hm o w. pose proof (on_store_keeps m Hm o w) as Hk. split; [exact Hk|].
  unfold on_store. by destruct (m o (w_sim w)).
Qed.
Lemma still_catalog {A} (m : st Catalog A) : still (on_catalog m).
Proof. intros o w. unfold on_catalog. destruct (m (w_catalog w)). by split. Qed.
Lemma still_read : still catalog.
Proof. by intros o w. Qed.
Lemma still_posts l : still (push_posts l).
Proof. by intros o w. Qed.
Lemma still_rethrow {A} f (m : svc A) : still m → still (rethrow f m).
Proof. intros H o w. unfold rethrow. specialize (H o w). by destruct (m o w) as [[]]. Qed.
Lemma still_pure {A} (r : res A) : still (pure r).
Proof. by intros o w. Qed.
Lemma still_launch (argv : list pyval) : still (λ o w, (Ok (launch argv (s_tick (w_sim w))), w)).
Proof. by intros o w. Qed.
Lemma still_redeem gid h pid : still (c ← catalog; on_store (redeem_grant gid h pid (Some (Catalog.invocable c)))).
Proof.
  intros o w. change ((c ← catalog; on_store (redeem_grant gid h pid (Some (Catalog.invocable c)))) o w)
    with (on_store (redeem_grant gid h pid (Some (Catalog.invocable (w_catalog w)))) o w).
  apply still_store, redeem_keeps.
Qed.

Lemma each_quiet {A} (f : A → svc unit) Hf l :
  (∀ x, quiet (@parts _ (f x) (Hf x))) → quiet (@parts _ (each f l) (parts_each f Hf l)).
Proof. intros H. induction l as [|x l IH]; cbn; [done|]. apply quiet_then; [apply H|intros _; exact IH]. Qed.

Ltac still_step :=
  first
    [ apply still_read | apply still_catalog | apply still_posts | apply still_launch
    | apply still_rethrow; first [apply still_pure | apply still_catalog] | apply still_redeem
    | apply still_store; eauto 10 with keeps ].

Ltac walk_quiet :=
  cbn -[on_store on_catalog push_posts catalog rethrow json_loads discover drift];
  lazymatch goal with
  | |- ∀ _, _ => intros ?; walk_quiet
  | |- quiet (program_bind _ _) => apply quiet_then; walk_quiet
  | |- quiet (@parts _ (each _ _) (parts_each _ _ _)) => apply each_quiet; walk_quiet
  | |- quiet (@parts _ _ (match ?x with _ => _ end)) => destruct x; walk_quiet
  | |- quiet (match ?x with _ => _ end) => destruct x; walk_quiet
  | |- quiet (@parts ?A ?m ?i) => 
      let i' := eval hnf in i in
      lazymatch type of i' with Interleaved ?m' => change (quiet (@parts A m' i')); walk_quiet end
  | |- _ ∧ _ => split; walk_quiet
  | |- still _ => try still_step
  | |- True => exact I
  | |- _ => idtac
  end.

Lemma publish_quiet e : quiet (parts (publish_event cfg e)).
Proof. walk_quiet. Qed.

Definition issues (c : call) : bool := match c with CAuthorize _ _ _ _ _ _ => true | _ => false end.

Lemma call_quiet c : issues c = false → quiet (program_of c).
Proof. destruct c; try done; intros _; unfold program_of, call_parts; walk_quiet. Qed.

(** ** [authorize] *)

(** A decision of this call is on record. *)
Definition on_record (p : Principal) (s n id : string) (answer : bool) (w : world) : Prop :=
  Exists (decided (principal_id p) s n id answer) (audit_t (w_db w)).

Lemma on_record_later p s n id answer w w' : later w w' → on_record p s n id answer w → on_record p s n id answer w'.
Proof. intros [rows Hl] H. unfold on_record. rewrite Hl, Exists_app. by left. Qed.

(** A step of a holder that issues nothing. *)
Lemma holder_still {A B} (m : svc B) (k : B → program A) w Q :
  still m →
  (∀ r w1, meanwhile w w1 → match r with Ok b => holder (k b) w1 Q | Raise e => ∀ w2, meanwhile w1 w2 → Q (Raise e) w2 end) →
  holder (Does m k) w Q.
Proof.
  intros Hm Hk o w' Hw. specialize (Hm o w'). destruct (m o w') as [r w1]. cbn in Hm. split_and!.
  - apply kept_permitted, Hm.
  - by apply meanwhile_later.
  - apply (Hk r). by transitivity w'.
Qed.

(** The record of a decision, as the broker's list has it, stands in the log. *)
Definition recorded (record : pydict) (id : string) (w : world) : Prop :=
  last (w_audit w) = Some (record ++ [str_pair "decision_id" (PStr id)]) ∧
  Exists (λ row, au_kind row = "decision" ∧
    _canonical (PDict (record ++ [str_pair "decision_id" (PStr id)])) = Ok (au_body row)) (audit_t (w_db w)).

Lemma recorded_meanwhile record id w w' : meanwhile w w' → recorded record id w → recorded record id w'.
Proof.
  intros [[[rows Hl] _ _ _] Ha] [Hlast Hrow]. split; [by rewrite Ha|]. rewrite Hl, Exists_app. by left.
Qed.

Lemma append_holder record w :
  dhas "decision_id" record = false →
  holder (parts (audit_log_append record)) w
    (λ r w', match r with Ok _ => ∃ id, recorded record id w' | Raise _ => True end).
Proof.
  intros Hid. cbn -[on_store append_audit push_audit]. rewrite Hid. cbn -[on_store append_audit push_audit holder].
  apply holder_still; [apply still_store, uuid_keeps|]. intros [id|e] w1 _; [|done].
  set (stored := record ++ _). intros o w2 _. cbn -[on_store append_audit push_audit].
  pose proof (still_store _ (append_keeps "decision" stored) o w2) as Hstill.
  pose proof (on_store_run (append_audit "decision" stored) o w2 _ (append_audit_outcome any_world _ _ _)) as Hs.
  destruct (on_store (append_audit "decision" stored) o w2) as [[seq|e] w3]; cbn in Hstill;
    (split_and!; [apply kept_permitted, Hstill|by apply meanwhile_later|]); [|done].
  destruct Hs as [(row & (Hlog & _) & Hrow)%appended_logged _].
  intros o' w4 Hw4. cbn. split_and!; [done|by exists []; rewrite app_nil_r|]. intros w5 [[[rows5 Hk5] _ _ _] Ha5]. exists id. split.
  - rewrite Ha5. apply last_snoc.
  - destruct Hw4 as [[[rows4 Hk4] _ _ _] _]. unfold w_db in *. cbn in Hk5. rewrite Hk5, Hk4, Hlog, !Exists_app. left. left. right.
    by constructor.
Qed.

Lemma broker_holder p s n ctx w :
  holder (parts (broker_authorize p s n ctx)) w
    (λ r w', match r with
             | Ok d => ∃ id, recorded (decision_record p s n d) id w'
             | Raise _ => True
             end).
Proof.
  cbn -[on_store append_audit push_audit parts_append catalog holder Policy.authorize].
  apply holder_still; [apply still_read|]. intros [c|e] w1 _; [|done].
  destruct (Policy.authorize c p s n ctx []) as [r records] eqn:E. unfold Policy.authorize in E. cbn in E.
  destruct (authorize_decision c p s n ctx) as [d|e]; injection E as <- <-; cbn -[parts_append holder]; [|done].
  apply holder_bind. apply holder_bind. eapply holder_mono; [|by apply append_holder].
  intros [[]|e] w2 H; cbn; [|done]. destruct H as [id H]. intros w3 H3 w4 H4. exists id.
  eapply recorded_meanwhile; [exact H4|]. by eapply recorded_meanwhile.
Qed.

(** A grant whose permit is on record. *)
Lemma issued_permitted gid g body d seq d' :
  permitted d → grants_t d !! gid = None → Exists (permit_of g) (audit_t d) →
  appended "grant_issue" body (put_grant gid g d) seq d' → permitted d'.
Proof.
  intros Hp Hfree Hex (payload & t & _ & _ & ->) gid0 g0 H0. cbn in H0 |- *. rewrite Exists_app. left.
  apply lookup_insert_Some in H0 as [[<- <-]|[_ H0]]; [done|by apply (Hp gid0)].
Qed.

Lemma issue_holder p s n id h ttl w :
  on_record p s n id true w → holder (parts (issue_for p s n id h ttl)) w (λ _, on_record p s n id true).
Proof.
  intros Hrec. assert (∀ w', later w w' → on_record p s n id true w') as Hstay by (intros; by eapply on_record_later).
  cbn -[on_store issue_grant holder].
  apply holder_still; [apply still_store, now_keeps|]. intros [issued|e] w1 Hw1%meanwhile_later; cbn -[on_store issue_grant holder];
    [|intros w2 Hw2%meanwhile_later; apply Hstay; by transitivity w1].
  apply holder_still; [apply still_store, uuid_keeps|]. intros [gid|e] w2 Hw2%meanwhile_later; cbn -[on_store issue_grant];
    [|intros w3 Hw3%meanwhile_later; apply Hstay; transitivity w1; [done|by transitivity w2]].
  intros o w3 Hw3%meanwhile_later. assert (later w w3) as Hl by (transitivity w1; [done|by transitivity w2]).
  set (m := issue_grant _ _ _ _ _ _ _ _ _).
  pose proof (on_store_run m o w3 _ (issue_grant_outcome any_world _ _ _ _ _ _ _ _ _ _)) as Hi.
  destruct (on_store m o w3) as [[seq|e] w4]; destruct Hi as [Hi _].
  - destruct Hi as [Hfree Hi].
    assert (later w3 w4) as Hl4 by (unfold later; destruct Hi as (payload & t & _ & _ & ->); by eexists).
    split_and!; [|done|intros w5 H5%meanwhile_later; apply Hstay; transitivity w3; [done|by transitivity w4]].
    intros Hp. refine (issued_permitted _ _ _ _ _ _ Hp Hfree _ Hi). exact (Hstay w3 Hl).
  - destruct Hi as [Hi _].
    assert (later w3 w4) as Hl4 by (unfold later, w_db in *; rewrite Hi; exists []; by rewrite app_nil_r).
    split_and!; [unfold w_db in *; by rewrite Hi|done|].
    intros w5 H5%meanwhile_later; apply Hstay; transitivity w3; [done|by transitivity w4].
Qed.

Lemma recorded_decision p s n d id w :
  recorded (decision_record p s n d) id w → on_record p s n id (allowed d) w.
Proof. intros [_ H]. eapply Exists_impl; [exact H|]. cbn. intros row [Hk Hrow]. split; [done|]. eexists. by split; [exact Hrow|]. Qed.

(** The answer of [decide_and_issue] names a decision on record. *)
Definition own_decision (p : Principal) (s n : string) (r : res (Decision * string * option (string * pyval))) (w : world) : Prop :=
  match r with Ok (d, id, _) => on_record p s n id (allowed d) w | Raise _ => True end.

Lemma decide_visitor p s n ctx requested w :
  visitor (parts (decide_and_issue p s n ctx requested)) w (own_decision p s n).
Proof.
  cbn -[parts_broker parts_issue last_decision_id]. intros w0 _. apply holder_bind.
  eapply holder_mono; [|apply broker_holder]. intros [d|e] w1 H; cbn -[last_decision_id]; [|done].
  destruct H as [id H].
  intros o w2 Hw2. apply (recorded_meanwhile _ _ _ _ Hw2) in H.
  assert (last_decision_id o w2 = (Ok id, w2)) as -> by (unfold last_decision_id; rewrite (proj1 H); reflexivity).
  apply recorded_decision in H. split_and!; [done|reflexivity|].
  assert (∀ w', meanwhile w2 w' → on_record p s n id (allowed d) w') as Hstay.
  { intros w' Hw'. eapply on_record_later; [by apply meanwhile_later|done]. }
  destruct requested as [[h ttl]|]; [|intros w3 H3 w4 H4; eapply on_record_later; [exact H4|by apply Hstay]].
  destruct (allowed d) eqn:Hd; [|intros w3 H3 w4 H4; cbn; rewrite Hd; eapply on_record_later; [exact H4|by apply Hstay]].
  cbn -[parts_issue]. apply holder_bind. eapply holder_mono; [|by apply issue_holder].
  intros [g|e] w3 H3; cbn; [|done]. intros w4 H4%meanwhile_later w5 H5. rewrite Hd.
  eapply on_record_later; [|exact H3]. by transitivity w4.
Qed.

(** What holds of an answer: one to [authorize] names a decision on record, of its own
    principal and tool, with the answer it gives. *)
Definition answer_ok (c : call) (r : res pydict) (w : world) : Prop :=
  match c, r with
  | CAuthorize principal s n _ _ _, Ok pl =>
      ∃ p id answer, _parse_principal principal = Ok p ∧ dget "decision_id" pl = PStr id ∧
        dget "allowed" pl = PBool answer ∧ on_record p s n id answer w
  | _, _ => True
  end.

Lemma authorize_visitor principal s n ctx args ttl w :
  visitor (parts (authorize cfg principal s n ctx args ttl)) w (answer_ok (CAuthorize principal s n ctx args ttl)).
Proof.
  cbn -[parts_decide parts_publish authorize_shape _parse_principal answer_ok].
  destruct (authorize_shape ctx args ttl) as [requested|e]; [|done].
  destruct (_parse_principal principal) as [p|e] eqn:Hp; [|done].
  apply visitor_bind. eapply visitor_mono; [|apply decide_visitor].
  intros [[[d id] grant]|e] w1 H; [|done]. cbn in H. cbn -[parts_publish answer_ok].
  assert (∀ w2, later w1 w2 → on_record p s n id (allowed d) w2) as Hstay by (intros; by eapply on_record_later).
  assert (∀ e w2 (Q : res unit → world → Prop), (∀ r w3, later w2 w3 → Q r w3) → visitor (parts (publish_event cfg e)) w2 Q) as Hpub.
  { intros e w2 Q HQ. apply quiet_visitor; [apply publish_quiet|exact HQ]. }
  apply visitor_bind, Hpub. intros [[]|e] w2 Hw2; [|done]. apply visitor_bind.
  assert (∀ w3, later w2 w3 → answer_ok (CAuthorize principal s n ctx args ttl)
    (Ok (_decision_payload d (PStr id) ++ match requested with Some _ => [str_pair "grant" (default PNone (snd <$> grant))] | None => [] end)) w3) as Hend.
  { intros w3 Hw3. exists p, id, (allowed d). split_and!; [done|reflexivity|reflexivity|]. apply Hstay. by transitivity w2. }
  assert (∀ (r : res unit) w0, later w2 w0 → match r with
    | Ok _ => visitor (Ends (Ok (_decision_payload d (PStr id) ++ match requested with Some _ =>
        [str_pair "grant" (default PNone (snd <$> grant))] | None => [] end))) w0 (answer_ok (CAuthorize principal s n ctx args ttl))
    | Raise e => ∀ w3, later w0 w3 → answer_ok (CAuthorize principal s n ctx args ttl) (Raise e) w3
    end) as Htail.
  { intros [[]|e] w0 Hw0; [|done]. intros w3 Hw3. apply Hend. by transitivity w0. }
  destruct grant as [[gid pl]|], requested as [[h t]|];
    first [by apply Hpub | intros w0 Hw0; exact (Htail (Ok tt) w0 Hw0)].
Qed.

Lemma calls_safe c w : visitor (program_of c) w (answer_ok c).
Proof.
  destruct (issues c) eqn:E; [|by apply quiet_visitor; [apply call_quiet|by destruct c]].
  destruct c; try done. apply authorize_visitor.
Qed.

(** C3 -- However the calls of any number of callers of one service are interleaved, every
    grant on file has an audited decision that allowed its principal its tool, and every
    answer of [authorize] names a decision on record of its own principal and tool with
    the answer it gives. *)
Theorem embedders_bind_their_own_decisions o jobs schedule w s :
  permitted (w_db w) → run o schedule (begin jobs w) = Some s →
  permitted (w_db (state s)) ∧ Forall (λ a, answer_ok a.1 a.2 (state s)) (answered s).
Proof.
  intros Hp Hrun. pose proof (run_safe answer_ok calls_safe _ _ _ _ (begin_safe answer_ok _ _ Hp) Hrun) as [Hperm _ Ha].
  split; [done|]. apply Forall_forall. intros [c r] Hin. by apply Ha.
Qed.
End parts.

(** Two callers at once: one closes a grant that does not exist while the other holds the
    lock, then waits for it. *)
Definition asking (who : string) : call :=
  CAuthorize (PDict [(KStr "id", PStr who)]) "ws" "search" PNone (Some call_args) PNone.
Definition embedded (schedule : list nat) : option process_state :=
  run (rt := coded_float_runtime) (dt := decimal_datetime) (utf8 := ascii_utf8) (crypto := toy_crypto)
    (engine := open_engine) (processes := no_processes) (endpoint := no_endpoint) ServiceRuns.quiet calm schedule
    (begin [[asking "alice"]; [CClose "g" "why"; asking "bob"]] fresh_world).
Definition two_callers : list nat := [0; 1; 0; 0; 0; 1; 0; 1; 0; 0; 1; 0; 0; 0; 0; 1; 0; 1; 1; 1; 1; 1; 1; 1; 1; 1; 1]%nat.

Lemma embedders_bind_their_own_decisions_witness :
  match embedded two_callers with
  | Some s => length (answered s) = 3%nat ∧ permitted (rt := coded_float_runtime) (w_db (state s))
  | None => False
  end.
Proof.
  assert (length ∘ answered <$> embedded two_callers = Some 3%nat) as Hlen by (vm_compute; reflexivity).
  destruct (embedded two_callers) as [s|] eqn:E; [|discriminate Hlen].
  split; [injection Hlen as Hlen; exact Hlen|].
  exact (proj1 (embedders_bind_their_own_decisions (rt := coded_float_runtime) (dt := decimal_datetime)
    (utf8 := ascii_utf8) (crypto := toy_crypto) (engine := open_engine) (processes := no_processes)
    (endpoint := no_endpoint) ServiceRuns.quiet calm [[asking "alice"]; [CClose "g" "why"; asking "bob"]] two_callers
    fresh_world s permitted_empty E)).
Defined.
