(* ===== verification/Vouching.v ===== *)
(** Who can vouch: over any history of service calls the stored evidence changes only by
    an operator's assertion, and an ingest writes exactly the claims it was given.

    The first part is generic: a relation between databases that every statement of a
    method keeps is kept by the method. *)

From S2P Require Import Prelude PyJson PyJsonLoads PyStr PyColl DateTime Sha256 Hashing Schema.
From S2P Require Import Descriptor Catalog Policy Db AuditLog Grants Hydrate Store BusPublish.
From S2P Require Import PyEq PyBytes GovGrants McpSource Service ServiceRuns.

(** ** Relations kept by methods *)

Section preserve.
Context (R : relation db) `{!PreOrder R}.

Definition act_preserves {A} (m : act A) : Prop := ∀ d, outcome any_world m d (λ _ d', R d d').
Definition svc_preserves {A} (m : svc A) : Prop := ∀ o w, R (w_db w) (w_db (m o w).2).

Lemma ap_select {A} (f : db → A) : act_preserves (select f).
Proof. intros d. by step_outcome. Qed.
Lemma ap_update (f : db → db) : (∀ d, R d (f d)) → act_preserves (update f).
Proof. intros H d. by step_outcome. Qed.
Lemma ap_sql {A} (f : db → res A * db) : (∀ d, R d (f d).2) → act_preserves (sql f).
Proof. intros H d. by step_outcome. Qed.
Lemma ap_now : act_preserves now.
Proof. intros d. by step_outcome. Qed.
Lemma ap_uuid : act_preserves uuid4_hex.
Proof. intros d. by apply outcome_uuid. Qed.
Lemma ap_lift {A} (r : res A) : act_preserves (lift r).
Proof. intros d. by step_outcome. Qed.
Lemma ap_ret {A} (a : A) : act_preserves (mret a).
Proof. intros d. by step_outcome. Qed.
Lemma ap_bind {A B} (m : act A) (k : A → act B) :
  act_preserves m → (∀ a, act_preserves (k a)) → act_preserves (m ≫= k).
Proof.
  intros Hm Hk d. step_outcome. eapply outcome_mono; [apply Hm|]. intros [a|e] d' H; [|done].
  eapply outcome_mono; [apply Hk|]. intros r d2. by transitivity d'.
Qed.
Lemma ap_transaction {A} (m : act A) : act_preserves m → act_preserves (transaction m).
Proof. intros H d. step_outcome; [done|]. eapply outcome_mono; [apply H|]. by intros []. Qed.
Lemma ap_immediate {A} (m : act (verdict A)) : act_preserves m → act_preserves (immediate m).
Proof. intros H d. step_outcome; [done|]. eapply outcome_mono; [apply H|]. by intros [[]|]. Qed.

Lemma sp_bind {A B} (m : svc A) (k : A → svc B) :
  svc_preserves m → (∀ a, svc_preserves (k a)) → svc_preserves (m ≫= k).
Proof.
  intros Hm Hk o w. unfold mbind, svc_bind. specialize (Hm o w).
  destruct (m o w) as [[a|e] w1]; simpl in *; [|done]. transitivity (w_db w1); [done|]. apply Hk.
Qed.
Lemma sp_still {A} (m : svc A) : (∀ o w, w_db (m o w).2 = w_db w) → svc_preserves m.
Proof. intros H o w. by rewrite H. Qed.
Lemma sp_ret {A} (a : A) : svc_preserves (mret a).
Proof. by apply sp_still. Qed.
Lemma sp_pure {A} (r : res A) : svc_preserves (pure r).
Proof. by apply sp_still. Qed.
Lemma sp_throw {A} e : svc_preserves (throw (A := A) e).
Proof. by apply sp_still. Qed.
Lemma sp_catalog : svc_preserves catalog.
Proof. by apply sp_still. Qed.
Lemma sp_audit r : svc_preserves (push_audit r).
Proof. by apply sp_still. Qed.
Lemma sp_posts l : svc_preserves (push_posts l).
Proof. by apply sp_still. Qed.
Lemma sp_refuse b s m : svc_preserves (refuse_if b s m).
Proof. by destruct b; apply sp_still. Qed.
Lemma sp_last_id : svc_preserves last_decision_id.
Proof. by apply sp_still. Qed.
Lemma sp_on_catalog {A} (m : st Catalog A) : svc_preserves (on_catalog m).
Proof. apply sp_still. intros o w. unfold on_catalog. by destruct (m (w_catalog w)). Qed.
Lemma sp_on_store {A} (m : act A) : act_preserves m → svc_preserves (on_store m).
Proof.
  intros H o w. unfold on_store, w_db. specialize (H (s_db (w_sim w)) o (s_tick (w_sim w)) I).
  replace (mkSim (s_db (w_sim w)) (s_tick (w_sim w))) with (w_sim w) in H by (by destruct (w_sim w)).
  by destruct (m o (w_sim w)).
Qed.
Lemma sp_rethrow {A} f (m : svc A) : svc_preserves m → svc_preserves (rethrow f m).
Proof. intros H o w. unfold rethrow. specialize (H o w). by destruct (m o w) as [[]]. Qed.
Lemma sp_each {A} (f : A → svc unit) l : (∀ x, svc_preserves (f x)) → svc_preserves (each f l).
Proof. intros Hf. induction l as [|x l IH]; [apply sp_ret|]. apply sp_bind; [apply Hf|]. by intros []. Qed.
End preserve.

Create HintDb preserve discriminated.

(** Take a method apart, down to the steps the database [preserve] knows. *)
Ltac preserve_step :=
  lazymatch goal with
  | |- ∀ _, _ => intros ?
  | |- act_preserves _ (mbind _ _) => apply ap_bind; [apply _| |]
  | |- act_preserves _ (mret _) => apply ap_ret, _
  | |- act_preserves _ (lift _) => apply ap_lift, _
  | |- act_preserves _ (select _) => apply ap_select, _
  | |- act_preserves _ now => apply ap_now, _
  | |- act_preserves _ _now => unfold _now
  | |- act_preserves _ uuid4_hex => apply ap_uuid, _
  | |- act_preserves _ (transaction _) => apply ap_transaction; [apply _|]
  | |- act_preserves _ (immediate _) => apply ap_immediate; [apply _|]
  | |- act_preserves _ (update _) => apply ap_update; [apply _|intros ?; by repeat split]
  | |- act_preserves _ (sql _) => apply ap_sql; [apply _|intros ?; repeat case_match; by repeat split]
  | |- act_preserves _ (match ?x with _ => _ end) => destruct x
  | |- svc_preserves _ (mbind _ _) => apply sp_bind; [apply _| |]
  | |- svc_preserves _ (mret _) => apply sp_ret, _
  | |- svc_preserves _ (pure _) => apply sp_pure, _
  | |- svc_preserves _ (throw _) => apply sp_throw, _
  | |- svc_preserves _ catalog => apply sp_catalog, _
  | |- svc_preserves _ (push_audit _) => apply sp_audit, _
  | |- svc_preserves _ (push_posts _) => apply sp_posts, _
  | |- svc_preserves _ (refuse_if _ _ _) => apply sp_refuse, _
  | |- svc_preserves _ last_decision_id => apply sp_last_id, _
  | |- svc_preserves _ (on_catalog _) => apply sp_on_catalog, _
  | |- svc_preserves _ (on_store _) => apply sp_on_store
  | |- svc_preserves _ (rethrow _ _) => apply sp_rethrow
  | |- svc_preserves _ (each _ _) => apply sp_each; [apply _|]
  | |- svc_preserves _ (match ?x with _ => _ end) => destruct x
  end.
Ltac preserve := repeat first [solve [auto 1 with preserve nocore] | preserve_step].

(** ** The evidence *)

Definition same_evidence (d d' : db) : Prop := assertions_t d' = assertions_t d.
#[export] Instance same_evidence_preorder : PreOrder same_evidence.
Proof. split; [done|]. intros d1 d2 d3 H1 H2. by unfold same_evidence in *; rewrite H2. Qed.

Section evidence.
Context {rt : PyFloatRuntime} {dt : PyDatetime} {utf8 : Utf8} {crypto : Cryptography}
  {engine : PolicyEngine} {processes : Processes} {endpoint : BusEndpoint} (cfg : config).

Abbreviation unmoved m := (act_preserves same_evidence m).
Abbreviation unmoving m := (svc_preserves same_evidence m).

Lemma append_in_txn_unmoved kind body : unmoved (_append_audit_in_txn kind body).
Proof. unfold _append_audit_in_txn. preserve. Qed.
#[local] Hint Resolve append_in_txn_unmoved : preserve.
Lemma append_unmoved kind body : unmoved (append_audit kind body).
Proof. unfold append_audit. preserve. Qed.
Lemma upsert_source_unmoved src ds cmd : unmoved (upsert_source src ds cmd).
Proof. unfold upsert_source. preserve. Qed.
Lemma upsert_tool_unmoved tv : unmoved (upsert_tool tv).
Proof. unfold upsert_tool. preserve. Qed.
Lemma discovery_unmoved sid names : unmoved (record_discovery sid names).
Proof. unfold record_discovery. preserve. Qed.
Lemma redeem_grant_unmoved gid h p chk : unmoved (redeem_grant gid h p chk).
Proof. unfold redeem_grant, kill_grant, consume_grant, update_grant. cbv zeta. preserve. Qed.
Lemma close_grant_unmoved gid why : unmoved (close_grant gid why).
Proof. unfold close_grant, update_grant. cbv zeta. preserve. Qed.
Lemma issue_grant_unmoved gid did pid sid n h at_ ex ttl : unmoved (issue_grant gid did pid sid n h at_ ex ttl).
Proof. unfold issue_grant. cbv zeta. preserve. Qed.
Lemma gov_unmoved gid drid cid ikid prid pid sid n h va body :
  unmoved (record_govgrant_redemption gid drid cid ikid prid pid sid n h va body).
Proof. unfold record_govgrant_redemption. preserve. Qed.
Lemma get_grant_unmoved gid : unmoved (get_grant gid).
Proof. unfold get_grant, _grant_row_to_dict. preserve. Qed.
Lemma find_decision_unmoved did : unmoved (find_decision did).
Proof. unfold find_decision. preserve. Qed.
Lemma source_command_unmoved sid : unmoved (get_source_command sid).
Proof. unfold get_source_command. preserve. Qed.
#[local] Hint Resolve append_unmoved upsert_source_unmoved upsert_tool_unmoved discovery_unmoved redeem_grant_unmoved
  close_grant_unmoved issue_grant_unmoved gov_unmoved get_grant_unmoved find_decision_unmoved source_command_unmoved : preserve.

Lemma publish_unmoving e : unmoving (publish_event cfg e).
Proof. unfold publish_event. preserve. Qed.
#[local] Hint Resolve publish_unmoving : preserve.

Lemma register_unmoving sid tr tp ds cmd : unmoving (register_source sid tr tp ds cmd).
Proof. unfold register_source. cbv zeta. preserve. Qed.
Lemma ingest_one_unmoving sid n cl v sch : unmoving (ingest_one sid n cl v sch).
Proof. unfold ingest_one. preserve. Qed.
#[local] Hint Resolve ingest_one_unmoving : preserve.
Lemma ingest_unmoving sid : unmoving (ingest sid).
Proof.
  unfold ingest, ingest_by, discovery_failed, ingest_result. cbv zeta.
  preserve. apply sp_still; [apply _|done].
Qed.
Lemma push_unmoving sid tl : unmoving (ingest_payload sid tl).
Proof. unfold ingest_payload. cbv zeta. preserve. Qed.
Lemma authorize_unmoving p sid n ctx args ttl : unmoving (authorize cfg p sid n ctx args ttl).
Proof. unfold authorize, decide_and_issue, broker_authorize, issue_for, audit_log_append. cbv zeta. preserve. Qed.
Lemma redeem_unmoving gid p args : unmoving (redeem cfg gid p args).
Proof. unfold redeem. preserve. Qed.
Lemma gov_call_unmoving g p sid n args at_ : unmoving (redeem_governance_grant cfg g p sid n args at_).
Proof. unfold redeem_governance_grant, gov_claim, gov_deny. cbv zeta. preserve. Qed.
Lemma close_unmoving gid why : unmoving (close gid why).
Proof. unfold close. preserve. Qed.
Lemma outcome_unmoving did out det gid : unmoving (record_outcome cfg did out det gid).
Proof. unfold record_outcome, settle_grant, grant_of. cbv zeta. preserve. Qed.

(** ** An operator's assertion *)

(** A row that records what an operator said. *)
Definition vouched_by (d : pydict) (row : assertion_row) : Prop :=
  ∃ desc, read_descriptor d = Ok desc ∧ py_truthy (asserted_by desc) = true ∧
    asserted_to_json desc = Ok (ar_descriptor row).

Lemma assert_descriptor_run sid n desc c :
  let '(r, c') := assert_descriptor sid n desc c in
  match r with
  | Ok _ => py_truthy (asserted_by desc) = true ∧ ∃ fp, assertions c' !! (sid, n) = Some (mkRecord desc fp)
  | Raise _ => True
  end.
Proof.
  unfold assert_descriptor. destruct (py_truthy (asserted_by desc)); [|done]. run_st.
  destruct (tools c !! (sid, n)); [|done]. destruct (_fingerprint _) as [fp|e]; [|done].
  split; [done|]. exists fp. apply lookup_insert_eq.
Qed.

Lemma upsert_assertion_run sid n rec d :
  outcome any_world (upsert_assertion sid n rec) d (λ r d', match r with
    | Ok _ => ∃ row, asserted_to_json (descriptor rec) = Ok (ar_descriptor row) ∧ assertions_t d' = <[(sid, n) := row]> (assertions_t d)
    | Raise _ => same_evidence d d'
    end).
Proof.
  apply outcome_transaction; [done|]. step_outcome. step_outcome.
  destruct (asserted_to_json (descriptor rec)) as [text|e]; [|done]. unfold _now.
  do 3 step_outcome. intros t _. do 2 step_outcome; [done|]. by eexists (mkAssertionRow _ _ _).
Qed.

Lemma assert_tool_run sid n v o w (Q : db → Prop) :
  (∀ d', same_evidence (w_db w) d' → Q d') →
  (∀ d row d', v = PDict d → vouched_by d row → assertions_t d' = <[(sid, n) := row]> (assertions_t (w_db w)) → Q d') →
  Q (w_db (assert_tool sid n v o w).2).
Proof.
  intros Hq Hv. unfold assert_tool. destruct v as [| | | | | |d|]; try by apply Hq.
  destruct (read_descriptor d) as [desc|e] eqn:Hd; svc_step; [|by apply Hq]. svc_step. svc_step.
  match goal with |- context [rethrow ?f (pure ?r) o w] => set (schema_ok := rethrow f (pure r)) end.
  assert ((schema_ok o w).2 = w) as Hw by (unfold schema_ok, rethrow, pure; repeat case_match; by simplify_eq).
  destruct (schema_ok o w) as [[[]|e] w0]; cbn in Hw; subst w0; [|by apply Hq]. svc_step.
  match goal with |- context [rethrow ?f (on_catalog ?x) o w] => set (wrap := f) end.
  unfold rethrow at 1, on_catalog at 1. pose proof (assert_descriptor_run sid n desc (w_catalog w)) as Hrun.
  destruct (assert_descriptor sid n desc (w_catalog w)) as [[tv|e] c']; [|by destruct (wrap e); apply Hq].
  destruct Hrun as (Hby & fp & Hrec). set (w1 := mkWorld c' (w_sim w) (w_audit w) (w_posts w)). svc_step.
  assert (same_evidence (w_db w) (w_db (on_store (upsert_tool tv) o w1).2)) as H1.
  { change (w_db w) with (w_db w1). apply (sp_on_store same_evidence), upsert_tool_unmoved. }
  assert (w_catalog (on_store (upsert_tool tv) o w1).2 = c') as Hc by (unfold on_store; by destruct (upsert_tool tv o _)).
  destruct (on_store (upsert_tool tv) o w1) as [[[]|e] w2]; cbn in H1, Hc; [|by apply Hq]. svc_step. rewrite Hc, Hrec. svc_step.
  pose proof (on_store_run (upsert_assertion sid n (mkRecord desc fp)) o w2 _ (upsert_assertion_run sid n _ (w_db w2))) as H2.
  destruct (on_store (upsert_assertion sid n _) o w2) as [[[]|e] w3]; destruct H2 as (H2 & _).
  - destruct H2 as (row & Hrow & Ht). svc_step.
    assert (∀ w4, same_evidence (w_db w3) (w_db w4) → Q (w_db w4)) as Hdone.
    { intros w4 H4. apply (Hv d row); [done|by exists desc|]. rewrite H4, Ht. by rewrite H1. }
    match goal with |- context [on_store ?x o w3] => set (log := x) end.
    assert (same_evidence (w_db w3) (w_db (on_store log o w3).2)) as H3
      by (apply (sp_on_store same_evidence), append_unmoved).
    destruct (on_store log o w3) as [[seq|e] w4]; cbn in H3; [|by apply Hdone].
    apply Hdone. transitivity (w_db w4); [done|]. apply (sp_still same_evidence). intros o' w'.
    unfold get_tool, refuse_if. svc_step. by case_match.
  - apply Hq. by transitivity (w_db w2).
Qed.

Lemma perform_unmoving c : (∀ sid n v, c ≠ CAssert sid n v) → unmoving (perform cfg c).
Proof.
  intros Hc. destruct c as [| | |sid n v| | | | |]; cbn [perform];
    [apply register_unmoving|apply ingest_unmoving|apply push_unmoving|by destruct (Hc sid n v)|apply authorize_unmoving
    |apply redeem_unmoving|apply gov_call_unmoving|apply close_unmoving|apply outcome_unmoving].
Qed.

(** The evidence after one call: what it was, or the row of the assertion made. *)
Lemma perform_evidence c o w tid row :
  assertions_t (w_db (perform cfg c o w).2) !! tid = Some row →
  assertions_t (w_db w) !! tid = Some row ∨ ∃ d, c = CAssert tid.1 tid.2 (PDict d) ∧ vouched_by d row.
Proof.
  assert ((∃ sid n v, c = CAssert sid n v) ∨ (∀ sid n v, c ≠ CAssert sid n v)) as [(sid & n & v & ->)|Hc].
  { destruct c; try (by right); left; by eexists _, _, _. }
  - cbn [perform]. apply (assert_tool_run sid n v o w (λ d', assertions_t d' !! tid = Some row → _)).
    + intros d' ->. by left.
    + intros d row' d' -> Hv ->. intros [[<- <-]|[_ H]]%lookup_insert_Some; [right; by exists d|by left].
  - rewrite (perform_unmoving c Hc o w). by left.
Qed.

Lemma perform_evidence_stays c o w tid :
  is_Some (assertions_t (w_db w) !! tid) → is_Some (assertions_t (w_db (perform cfg c o w).2) !! tid).
Proof.
  intros H. assert ((∃ sid n v, c = CAssert sid n v) ∨ (∀ sid n v, c ≠ CAssert sid n v)) as [(sid & n & v & ->)|Hc].
  { destruct c; try (by right); left; by eexists _, _, _. }
  - cbn [perform]. apply (assert_tool_run sid n v o w (λ d', is_Some (assertions_t d' !! tid))).
    + by intros d' ->.
    + intros d row d' _ _ ->. apply lookup_insert_is_Some'. by right.
  - by rewrite (perform_unmoving c Hc o w).
Qed.

End evidence.
