(* ===== verification/WellTyped.v ===== *)
(** The service's data is JSON: when every call's arguments are, so is everything the
    catalog holds, every stored row reads back, every audit record parses, and every answer
    can be encoded.  A service can therefore always be started again on its own database. *)

From S2P Require Import Prelude PyJson PyJsonLoads PyStr PyColl PyIo DateTime Sha256 Hashing Schema.
From S2P Require Import Descriptor Catalog Policy Db AuditLog Grants Hydrate Store BusPublish.
From S2P Require Import PyEq PyBytes GovGrants McpSource Service ServiceRuns Vouching.

(** ** JSON values *)

Lemma json_none : json_ok PNone. Proof. done. Qed.
Lemma json_bool b : json_ok (PBool b). Proof. done. Qed.
Lemma json_int z : json_ok (PInt z). Proof. done. Qed.
Lemma json_str s : json_ok (PStr s). Proof. done. Qed.
Lemma json_strings l : json_ok (strings l).
Proof. apply strings_json_ok. Qed.
Lemma json_opt_str o : json_ok (opt_str o).
Proof. by destruct o. Qed.

Lemma dict_get_json_ok k d v : json_ok (PDict d) → dict_get k d = Some v → json_ok v.
Proof.
  intros [_ Hd]%json_ok_dict. induction Hd as [|[k' v'] d [_ Hv] _ IH]; simpl; [done|].
  case_decide; [by intros [= <-]|done].
Qed.
Lemma dget_or_json_ok k dflt d : json_ok (PDict d) → json_ok dflt → json_ok (dget_or k dflt d).
Proof.
  intros Hd Hk. unfold dget_or. destruct (dict_get _ d) as [v|] eqn:E; [|done]. by eapply dict_get_json_ok.
Qed.
Lemma dget_json_ok k d : json_ok (PDict d) → json_ok (dget k d).
Proof. intros Hd. by apply (dget_or_json_ok k PNone). Qed.
Lemma py_or_json_ok a b : json_ok a → json_ok b → json_ok (py_or a b).
Proof. unfold py_or. by destruct (py_truthy a). Qed.
Lemma json_default o : (∀ v, o = Some v → json_ok v) → json_ok (default PNone o).
Proof. destruct o; simpl; auto. Qed.

Create HintDb json discriminated.
#[export] Hint Resolve json_none json_bool json_int json_str json_strings json_opt_str dget_json_ok dget_or_json_ok
  py_or_json_ok : json.

(** A mapping written out: its keys are distinct and its values are JSON. *)
Ltac json_dict :=
  apply json_ok_dict; split;
  [by apply (bool_decide_unpack _)|repeat first [apply Forall_nil|apply Forall_cons; split; [split; [exact I|]|]]];
  cbn [snd str_pair]; auto with json.

Lemma py_iter_json_ok v l : json_ok v → py_iter v = Ok l → Forall json_ok l.
Proof.
  intros Hv. destruct v as [| | | |s|l'|d|]; simpl; try done; intros [= <-].
  - clear Hv. induction s; repeat constructor; done.
  - by apply json_ok_list.
  - apply json_ok_dict in Hv as [_ Hd]. apply Forall_fmap, Forall_fmap. eapply Forall_impl; [exact Hd|].
    intros [[k|k] x] [Hk _]; [done|by destruct Hk].
Qed.

Lemma py_dict_json_ok v d : json_ok v → py_dict v = Ok d → json_ok (PDict d).
Proof.
  intros Hv. assert (∀ l, py_iter v = Ok l → (pairs ← map_res dict_item l; Ok (dict_of_pairs pairs)) = Ok d →
    json_ok (PDict d)) as H.
  { intros l Hl (pairs & Hp & [= <-])%bind_ok. apply dict_of_pairs_json_ok.
    apply (map_res_Forall dict_item _ l); [exact Hp|]. intros x y Hin (kv & Hkv & Hy)%bind_ok.
    assert (json_ok x) as Hx by (pose proof (py_iter_json_ok v l Hv Hl) as Hl'; by eapply Forall_forall in Hl').
    pose proof (py_iter_json_ok x kv Hx Hkv) as Hall.
    destruct kv as [|k [|z [|]]]; try done. destruct k; try done. injection Hy as <-.
    apply Forall_cons in Hall as [_ [Hz _]%Forall_cons]. done. }
  unfold py_dict. destruct v; try done; [by intros (items & Hl & Hp)%bind_ok; eapply H..|by intros [= ->]].
Qed.

Lemma dedupe_Forall P l : Forall P l → Forall P (dedupe l).
Proof. induction 1 as [|x l Hx _ IH]; simpl; constructor; [done|].
  rewrite Forall_forall in IH |- *. intros y [_ Hy]%list_elem_of_filter. by apply IH.
Qed.

Lemma py_set_json_ok l l' : Forall json_ok l → py_set l = Ok l' → Forall json_ok l' ∧ forallb hashable l' = true.
Proof.
  unfold py_set. intros Hl. destruct (forallb hashable l) eqn:Hh; [|done]. intros [= <-].
  split; [by apply dedupe_Forall|]. apply forallb_forall. intros x Hx%list_elem_of_In.
  assert (Forall (λ v, hashable v = true) (dedupe l)) as Hd.
  { apply dedupe_Forall, Forall_forall. intros y Hy%list_elem_of_In. by apply (proj1 (forallb_forall _ _) Hh). }
  rewrite Forall_forall in Hd. by apply Hd.
Qed.

Lemma py_sorted_perm l l' : py_sorted l = Ok l' → l' ≡ₚ l.
Proof.
  unfold py_sorted. destruct l as [|x [|y l]]; [by intros [= <-]..|].
  destruct (forallb is_str _); [intros [= <-]; apply merge_sort_Permutation|].
  destruct (forallb _ _); [intros [= <-]; apply merge_sort_Permutation|done].
Qed.

Lemma scalar_sorted_json v : hashable v = true → sorted_json v = v.
Proof. by destruct v. Qed.

(** ** Typed data *)

Definition claim_json (c : ClaimedMetadata) : Prop :=
  Forall json_ok [description c; read_only_hint c; destructive_hint c; idempotent_hint c; open_world_hint c].

Record desc_json (a : AssertedDescriptor) : Prop := {
  dj_flags : Forall json_ok [reversible a; idempotent a; requires_approval a; declassifies a; asserted_by a];
  dj_scopes : Forall json_ok (scopes a);
  dj_hashable : forallb hashable (scopes a) = true;
}.

Record tool_json (tv : ToolVersion) : Prop := {
  tj_claim : claim_json (claimed tv);
  tj_schema : json_ok (input_schema tv);
  tj_asserted a : asserted tv = Some a → desc_json a;
}.

(** The catalog holds JSON. *)
Record typed (c : Catalog) : Prop := {
  ty_tool tid tv : tools c !! tid = Some tv → tool_json tv;
  ty_record tid r : assertions c !! tid = Some r → desc_json (descriptor r);
}.

Lemma claim_json_renders cl : claim_json cl → claim_renders cl.
Proof. intros H. eapply Forall_impl; [exact H|]. apply json_ok_serializable. Qed.

Section rows.
Context {rt : PyFloatRuntime}.

(** Every row of the catalog's tables reads back, as JSON. *)
Record readable (d : db) : Prop := {
  rd_source sid r : sources_t d !! sid = Some r → is_ok (source_of_row sid r) = true;
  rd_command sid r text : sources_t d !! sid = Some r → sr_command r = Some text →
    ∃ argv : list string, json_loads text = Ok (PList (PStr <$> argv));
  rd_tool tid r : tools_t d !! tid = Some r → ∃ tv, tool_of_row tid r = Ok tv ∧ tool_json tv;
  rd_record tid r : assertions_t d !! tid = Some r →
    ∃ rec, record_of_row tid r = Ok rec ∧ desc_json (descriptor rec);
  rd_discovery sid text at_ : discoveries_t d !! sid = Some (text, at_) → is_ok (name_set text) = true;
}.

Lemma typed_load W d :
  readable d →
  outcome W load_catalog d (λ r d', d' = d ∧
    match r with Ok c => typed c | Raise e => e = OperationalError ∧ can_fail W end).
Proof.
  intros Hd o t Ho. pose proof (load_catalog_reads W d) as Hr. specialize (Hr (rd_source _ Hd)).
  specialize (λ H1 H2, Hr H1 H2 o t Ho). pose proof (load_catalog_outcome W d o t Ho) as Hl.
  destruct (load_catalog o (mkSim d t)) as [[c|e] s]; destruct Hl as [-> Hh].
  - split; [done|]. split.
    + intros tid tv Htv. pose proof (hy_tool _ _ Hh tid) as H. destruct (tools_t d !! tid) as [row|] eqn:Er; [|congruence].
      destruct H as (tv' & Hrow & Hc & _). rewrite Htv in Hc. injection Hc as ->.
      destruct (rd_tool _ Hd _ _ Er) as (tv2 & Hrow2 & [Hcl Hs _]). rewrite Hrow in Hrow2. injection Hrow2 as <-.
      split; [done..|]. cbn. unfold in_force. pose proof (hy_record _ _ Hh tid) as Ha.
      destruct (assertions_t d !! tid) as [arow|] eqn:Ea; [|by rewrite Ha].
      destruct (rd_record _ Hd _ _ Ea) as (rec & Hrec & Hj). destruct Ha as (rec' & Hrec' & ->).
      rewrite Hrec in Hrec'. injection Hrec' as <-. case_decide; [by intros a [= <-]|done].
    + intros tid r Hrec. pose proof (hy_record _ _ Hh tid) as Ha.
      destruct (assertions_t d !! tid) as [arow|] eqn:Ea; [|congruence].
      destruct Ha as (rec & Hrow & Hc). rewrite Hrec in Hc. injection Hc as ->.
      destruct (rd_record _ Hd _ _ Ea) as (rec' & Hrow' & Hj). congruence.
  - split; [done|]. apply Hr.
    + intros tid r Hrow. destruct (rd_tool _ Hd _ _ Hrow) as (tv & Htv & Hj). exists tv. split; [done|].
      by apply claim_json_renders, tj_claim.
    + intros tid r Hrow. by destruct (rd_record _ Hd _ _ Hrow) as (rec & -> & _).
Qed.

(** ** What is written reads back *)

Lemma claim_reload cl s : claim_json cl → claimed_to_json cl = Ok s → ∃ cl', claimed_from_json s = Ok cl' ∧ claim_json cl'.
Proof.
  unfold claim_json, claimed_to_json, claimed_from_json. rewrite !Forall_cons. intros (H1 & H2 & H3 & H4 & H5 & _) Hs.
  match type of Hs with _canonical ?v = _ => destruct (canonical_loads v) as (s' & Hs' & Hl) end; [json_dict|].
  rewrite Hs in Hs'. injection Hs' as <-. rewrite Hl. pose proof (json_loads_ok _ _ Hl) as Hj.
  cbn [sorted_json] in Hl, Hj |- *. eexists. split; [reflexivity|]. cbn [description read_only_hint destructive_hint idempotent_hint open_world_hint].
  repeat constructor; auto with json.
Qed.

Lemma enum_member_ok {A} (f : string → option A) what v a : enum_member f what v = Ok a → ∃ s, v = PStr s.
Proof. destruct v; try done. intros _. by eexists. Qed.

Lemma asserted_of_json_typed v a : json_ok v → asserted_of_json v = Ok a → desc_json a.
Proof.
  destruct v as [| | | | | |d|]; try done. intros Hd (eff & _ & (rs & _ & (ws & _ & (sc & Hsc & (sc' & Hset & [= <-])
    %bind_ok)%bind_ok)%bind_ok)%bind_ok)%bind_ok.
  assert (json_ok (PList [])) as Hnil by done.
  apply py_iter_json_ok in Hsc; [|by auto with json]. destruct (py_set_json_ok _ _ Hsc Hset) as [H1 H2].
  split; [|done..]. cbn. repeat constructor; auto with json.
Qed.

Lemma hashable_sorted l : forallb hashable l = true → map sorted_json l = l.
Proof.
  induction l as [|x l IH]; simpl; [done|]. intros [Hx Hl]%andb_true_iff. by rewrite scalar_sorted_json, IH.
Qed.

Lemma strings_sorted l : map sorted_json (PStr <$> l) = PStr <$> l.
Proof. pose proof (strings_sorted_json l) as H. by injection H. Qed.

Lemma asserted_reload a s : desc_json a → asserted_to_json a = Ok s → ∃ a', asserted_from_json s = Ok a' ∧ desc_json a'.
Proof.
  intros [Hf Hs Hh] (sc & Hsc & Hc)%bind_ok. pose proof (py_sorted_perm _ _ Hsc) as Hp.
  rewrite !Forall_cons in Hf. destruct Hf as (H1 & H2 & H3 & H4 & H5 & _).
  assert (json_ok (PList sc)) as Hscj by (apply json_ok_list; by rewrite Hp).
  assert (forallb hashable sc = true) as Hsch.
  { apply forallb_forall. intros x Hx%list_elem_of_In. rewrite Hp in Hx. apply list_elem_of_In in Hx.
    by apply (proj1 (forallb_forall _ _) Hh). }
  match type of Hc with _canonical ?v = _ => destruct (canonical_loads v) as (s' & Hs' & Hl) end.
  { json_dict; apply strings_json_ok. }
  rewrite Hc in Hs'. injection Hs' as <-. unfold asserted_from_json. rewrite Hl. pose proof (json_loads_ok _ _ Hl) as Hj.
  cbn [mbind res_bind]. destruct (asserted_of_json _) as [a'|e] eqn:Ha.
  { exists a'. split; [done|]. by eapply asserted_of_json_typed. }
  exfalso. revert Ha. cbn [sorted_json map str_pair fst snd]. rewrite !strings_sorted, (hashable_sorted _ Hsch).
  set (d := sort_items _). unfold asserted_of_json.
  replace (dict_get (KStr "effect") d) with (Some (PStr (Effect.value (effect a)))) by reflexivity.
  replace (dget_or "reads" (PList []) d) with (PList (PStr <$> class_values (reads a))) by reflexivity.
  replace (dget_or "writes" (PList []) d) with (PList (PStr <$> class_values (writes a))) by reflexivity.
  replace (dget_or "scopes" (PList []) d) with (PList sc) by reflexivity.
  cbn [enum_member]. rewrite Effect.effect_of_value. cbn [mbind res_bind]. rewrite !class_values_spec.
  cbn [mbind res_bind py_iter]. unfold py_set. by rewrite Hsch.
Qed.

Lemma tool_reload tv row sch tid :
  tool_json tv → claimed_to_json (claimed tv) = Ok (tr_claimed row) → py_dict (input_schema tv) = Ok sch →
  _canonical (PDict sch) = Ok (tr_input_schema row) → ∃ tv', tool_of_row tid row = Ok tv' ∧ tool_json tv'.
Proof.
  intros [Hcl Hs _] Hc Hd Ht. destruct (claim_reload _ _ Hcl Hc) as (cl & Hcl' & Hj).
  pose proof (py_dict_json_ok _ _ Hs Hd) as Hsch. destruct (canonical_loads _ Hsch) as (s & Hs' & Hl).
  rewrite Ht in Hs'. injection Hs' as <-. unfold tool_of_row. rewrite Hcl'. cbn [mbind res_bind]. rewrite Hl.
  eexists. split; [reflexivity|]. split; [done| |done]. cbn [input_schema]. by eapply json_loads_ok.
Qed.
End rows.

(** ** The database *)

Definition same_tables (d d' : db) : Prop :=
  sources_t d' = sources_t d ∧ tools_t d' = tools_t d ∧ assertions_t d' = assertions_t d ∧
  discoveries_t d' = discoveries_t d.
#[export] Instance same_tables_preorder : PreOrder same_tables.
Proof.
  split; [done|]. intros d1 d2 d3 (H1 & H2 & H3 & H4) (H1' & H2' & H3' & H4'). unfold same_tables.
  by rewrite H1', H2', H3', H4'.
Qed.

Section database.
Context {rt : PyFloatRuntime} {dt : PyDatetime}.

(** A database the service wrote: its rows read back, its log verifies, every grant has
    its records. *)
Record sound (d : db) : Prop := {
  so_rows : readable d;
  so_log : audit_ok d;
  so_paired : paired d;
}.

Lemma readable_same d d' : same_tables d d' → readable d → readable d'.
Proof. intros (H1 & H2 & H3 & H4) []. split; rewrite ?H1, ?H2, ?H3, ?H4; done. Qed.

Lemma sound_good d d' : good_step d d' → readable d' → sound d → sound d'.
Proof. intros [] Hr []. split; auto. Qed.

Lemma readable_source d src ds cmd row :
  readable d → sr_tier row = TrustTier.value (tier src) →
  _canonical (PList (PStr <$> merge_sort String.le ds)) = Ok (sr_declared row) →
  match cmd with Some argv => ∃ s, sr_command row = Some s ∧ _canonical (PList (PStr <$> argv)) = Ok s
               | None => sr_command row = None end →
  readable (set_sources_t (<[src_id src := row]> (sources_t d)) d).
Proof.
  intros [Hrs Hrc Hrt Hra Hrd] Ht Hd Hc. split; cbn [set_sources_t sources_t tools_t assertions_t discoveries_t]; try done.
  - intros sid r [[<- <-]|[_ H]]%lookup_insert_Some; [|by apply (Hrs sid)]. unfold source_of_row.
    rewrite Ht. cbn [enum_member]. rewrite TrustTier.trusttier_of_value. cbn [mbind res_bind]. by rewrite (name_set_canonical _ _ Hd).
  - intros sid r text [[<- <-]|[_ H]]%lookup_insert_Some; [|by apply (Hrc sid)]. intros Hr.
    destruct cmd as [argv|]; [|congruence]. destruct Hc as (s & Hs & Hc). rewrite Hr in Hs. injection Hs as <-.
    destruct (canonical_loads _ (strings_json_ok argv)) as (s & Hs & Hl). rewrite Hc in Hs. injection Hs as <-.
    exists argv. by rewrite Hl, strings_sorted_json.
Qed.

Lemma readable_tool d tid row tv :
  readable d → tool_of_row tid row = Ok tv → tool_json tv → readable (set_tools_t (<[tid := row]> (tools_t d)) d).
Proof.
  intros [Hs Hc Ht Ha Hd] Hr Hj. split; cbn; try done.
  intros tid' r [[<- <-]|[_ H]]%lookup_insert_Some; [by exists tv|by apply Ht].
Qed.

Lemma readable_assertion d tid row rec :
  readable d → record_of_row tid row = Ok rec → desc_json (descriptor rec) →
  readable (set_assertions_t (<[tid := row]> (assertions_t d)) d).
Proof.
  intros [Hs Hc Ht Ha Hd] Hr Hj. split; cbn; try done.
  intros tid' r [[<- <-]|[_ H]]%lookup_insert_Some; [by exists rec|by apply Ha].
Qed.

Lemma readable_discovery d sid names text t :
  readable d → _canonical (PList (PStr <$> names)) = Ok text →
  readable (set_discoveries_t (<[sid := (text, t)]> (discoveries_t d)) d).
Proof.
  intros [Hrs Hrc Hrt Hra Hrd] Hn. split; cbn; try done.
  intros sid' r at_ [[<- [= <- <-]]|[_ H]]%lookup_insert_Some; [by rewrite (name_set_canonical _ _ Hn)|by eapply Hrd].
Qed.

(** A method of the store that keeps it sound, and what it answers. *)
Definition keeps_sound {A} (m : act A) (Q : A → Prop) : Prop :=
  ∀ d, sound d → outcome any_world m d (λ r d', sound d' ∧ ∀ a, r = Ok a → Q a).

(** By the store's own theorem a method keeps the log; its rows are the question. *)
Lemma sound_exec {A} (m : act A) op (f : A → reply) (Q : A → Prop) :
  exec op = (a ← m; mret (f a)) → op_ok op →
  (∀ d, readable d → outcome any_world m d (λ r d', readable d' ∧ ∀ a, r = Ok a → Q a)) → keeps_sound m Q.
Proof.
  intros He Hop Hm d Hd o t _. specialize (Hm d (so_rows _ Hd) o t I).
  pose proof (exec_good any_world op d Hop o t I) as Hg. rewrite He in Hg. cbv [mbind act_bind] in Hg.
  destruct (m o (mkSim d t)) as [[a|e] s]; destruct Hm as [Hr HQ]; destruct Hg as [Hg _];
    (split; [by eapply sound_good|done]).
Qed.

(** A method that leaves the catalog's tables alone keeps the rows. *)
Lemma rows_preserved {A} (m : act A) d :
  act_preserves same_tables m → readable d → outcome any_world m d (λ r d', readable d' ∧ ∀ a, r = Ok a → True).
Proof.
  intros Hm Hd. eapply outcome_mono; [apply Hm|]. intros r d' Hs. split; [exact (readable_same _ _ Hs Hd)|done].
Qed.

Abbreviation still m := (act_preserves same_tables m).
Lemma append_in_txn_still kind body : still (_append_audit_in_txn kind body).
Proof. unfold _append_audit_in_txn. preserve. Qed.
#[local] Hint Resolve append_in_txn_still : preserve.
Lemma append_still kind body : still (append_audit kind body).
Proof. unfold append_audit. preserve. Qed.
Lemma redeem_grant_still gid h p chk : still (redeem_grant gid h p chk).
Proof. unfold redeem_grant, kill_grant, consume_grant, update_grant. cbv zeta. preserve. Qed.
Lemma close_grant_still gid why : still (close_grant gid why).
Proof. unfold close_grant, update_grant. cbv zeta. preserve. Qed.
Lemma issue_grant_still gid did pid sid n h at_ ex ttl : still (issue_grant gid did pid sid n h at_ ex ttl).
Proof. unfold issue_grant. cbv zeta. preserve. Qed.
Lemma gov_still gid drid cid ikid prid pid sid n h va body :
  still (record_govgrant_redemption gid drid cid ikid prid pid sid n h va body).
Proof. unfold record_govgrant_redemption. preserve. Qed.
Lemma set_meta_still k v : still (set_meta k v).
Proof. unfold set_meta. preserve. Qed.

Lemma ks_append kind body : plain kind = true → json_ok (PDict body) → keeps_sound (append_audit kind body) (λ _, True).
Proof.
  intros Hk Hb. apply (sound_exec _ (OAppend kind body) (λ _, RDone)); [done..|].
  intros d. apply rows_preserved, append_still.
Qed.
Lemma ks_redeem gid h p chk : keeps_sound (redeem_grant gid h p chk) (λ _, True).
Proof.
  apply (sound_exec _ (ORedeem gid h p chk) RRedeem); [done..|]. intros d. apply rows_preserved, redeem_grant_still.
Qed.
Lemma ks_close gid why : keeps_sound (close_grant gid why) (λ _, True).
Proof.
  apply (sound_exec _ (OClose gid why) (λ _, RDone)); [done..|]. intros d. apply rows_preserved, close_grant_still.
Qed.
Lemma ks_issue gid did pid sid n h at_ ex ttl : keeps_sound (issue_grant gid did pid sid n h at_ ex ttl) (λ _, True).
Proof.
  apply (sound_exec _ (OIssue gid did pid sid n h at_ ex ttl) (λ _, RDone)); [done..|].
  intros d. apply rows_preserved, issue_grant_still.
Qed.
Lemma ks_gov gid drid cid ikid prid pid sid n h va body :
  json_ok (PDict body) → keeps_sound (record_govgrant_redemption gid drid cid ikid prid pid sid n h va body) (λ _, True).
Proof.
  intros Hb. apply (sound_exec _ (OGov gid drid cid ikid prid pid sid n h va body) (λ r, RGov r.1.1)); [done..|].
  intros d. apply rows_preserved, gov_still.
Qed.
Lemma ks_meta k v : k ≠ _AUDIT_HEAD_SEQ → k ≠ _AUDIT_HEAD_HASH → keeps_sound (set_meta k v) (λ _, True).
Proof.
  intros H1 H2. apply (sound_exec _ (OSetMeta k v) (λ _, RDone)); [done..|]. intros d. apply rows_preserved, set_meta_still.
Qed.

Lemma ks_source src ds cmd : keeps_sound (upsert_source src ds cmd) (λ _, True).
Proof.
  apply (sound_exec _ (OSource src ds cmd) (λ _, RDone)); [done..|]. intros d Hd.
  eapply outcome_mono; [apply upsert_source_outcome|]. intros [[]|e] d' H; [|by destruct H as [-> _]].
  destruct H as (text & c & at_ & Ht & Hc & ->). split; [|done]. by eapply readable_source.
Qed.
Lemma ks_tool tv : tool_json tv → keeps_sound (upsert_tool tv) (λ _, True).
Proof.
  intros Hj. apply (sound_exec _ (OTool tv) (λ _, RDone)); [done..|]. intros d Hd.
  eapply outcome_mono; [apply upsert_tool_row|]. intros [[]|e] d' H; [|by subst d'].
  destruct H as (row & sch & Hc & Hs & Hss & ->). split; [|done].
  destruct (tool_reload tv row sch (source_id tv, ref_name (ref tv)) Hj Hc Hs Hss) as (tv' & Hr & Hj').
  by eapply readable_tool.
Qed.
Lemma ks_assertion sid n rec : desc_json (descriptor rec) → keeps_sound (upsert_assertion sid n rec) (λ _, True).
Proof.
  intros Hj. apply (sound_exec _ (OAssertion sid n rec) (λ _, RDone)); [done..|]. intros d Hd.
  eapply outcome_mono; [apply upsert_assertion_row|]. intros [[]|e] d' H; [|by subst d'].
  destruct H as (row & Ha & Hf & ->). split; [|done]. destruct (asserted_reload _ _ Hj Ha) as (a & Hr & Hja).
  eapply (readable_assertion _ _ _ (mkRecord a (fingerprint rec))); [done| |done].
  unfold record_of_row. rewrite Hr. cbn. by rewrite Hf, py_int_of_Z.
Qed.
Lemma ks_discovery sid names : keeps_sound (record_discovery sid names) (λ _, True).
Proof.
  apply (sound_exec _ (ODiscovery sid names) (λ _, RDone)); [done..|]. intros d Hd.
  eapply outcome_mono; [apply record_discovery_row|]. intros [[]|e] d' H; [|by subst d'].
  destruct H as (text & t & Ht & ->). split; [|done]. by eapply readable_discovery.
Qed.

Lemma ks_reads {A} (m : act A) Q :
  (∀ d, outcome any_world m d (λ r d', d' = d ∧ ∀ a, r = Ok a → Q a)) → keeps_sound m Q.
Proof.
  intros Hm d Hd. eapply outcome_mono; [apply Hm|]. by intros r d' [-> HQ].
Qed.
End database.

(** ** Values from outside *)

(** What a computation gives when it returns. *)
Definition gives {S A} (m : st S A) (Q : A → Prop) : Prop := ∀ s a s', m s = (Ok a, s') → Q a.

Lemma gives_bind {S A B} (m : st S A) (k : A → st S B) P Q :
  gives m P → (∀ a, P a → gives (k a) Q) → gives (m ≫= k) Q.
Proof.
  intros Hm Hk s b s'. cbv [mbind st_bind]. destruct (m s) as [[a|e] s1] eqn:E; [|done].
  intros H. by eapply Hk; [eapply Hm|].
Qed.
Lemma gives_any {S A} (m : st S A) : gives m (λ _, True).
Proof. done. Qed.
Lemma gives_lift {S A} (r : res A) (Q : A → Prop) : (∀ a, r = Ok a → Q a) → gives (S := S) (st_lift r) Q.
Proof. intros H s a s' [= -> _]. by apply H. Qed.
Lemma gives_ret {S A} (a : A) (Q : A → Prop) : Q a → gives (S := S) (mret a) Q.
Proof. by intros H s b s' [= <- _]. Qed.
Lemma gives_throw {S A} e (Q : A → Prop) : gives (S := S) (st_throw e) Q.
Proof. done. Qed.

Section outside.
Context {rt : PyFloatRuntime} {utf8 : Utf8}.

Lemma py_get_json_ok v k x : json_ok v → py_get v k = Ok x → json_ok x.
Proof. destruct v; try done. intros Hd [= <-]. auto with json. Qed.

Lemma receive_json : gives receive (λ msg, json_ok (PDict msg)).
Proof.
  intros t msg t'. unfold receive. cbv [mbind st_bind st_throw st_lift mret st_ret].
  destruct (_read_line t) as [[line|e] t1]; [|done]. destruct (utf8_decode line) as [text|]; [|done].
  destruct (json_loads text) as [[| | | | | |d|]|[]] eqn:E; try done.
  destruct (py_eq _ _); [|done]. intros [= <- _]. by apply json_loads_ok in E.
Qed.

Lemma await_json fuel req_id method : gives (await_reply fuel req_id method) json_ok.
Proof.
  induction fuel as [|fuel IH]; [done|]. eapply gives_bind; [apply receive_json|]. intros msg Hm.
  destruct (negb _); [apply IH|]. destruct (dhas "error" msg).
  - eapply gives_bind; [apply gives_any|intros]. eapply gives_bind; [apply gives_any|intros]. apply gives_throw.
  - destruct (dhas "result" msg); [|apply gives_throw]. apply gives_ret. auto with json.
Qed.

Lemma request_json broken req_id method params : gives (request broken req_id method params) json_ok.
Proof.
  eapply gives_bind; [apply gives_any|intros]. eapply gives_bind; [apply gives_any|intros]. apply await_json.
Qed.

Definition discovered_json (d : DiscoveredTool) : Prop := claim_json (dt_claimed d) ∧ json_ok (PDict (dt_input_schema d)).

Lemma normalize_json tool version d : json_ok tool → _normalize tool version = Ok d → discovered_json d.
Proof.
  intros Ht (name & _ & Hd)%bind_ok. destruct name as [| | | |[|c s]| | |]; try done.
  apply bind_ok in Hd as (ann & Hann & Hd). assert (json_ok (PDict [])) as Hnil by (apply json_ok_dict; by repeat constructor).
  apply py_get_json_ok in Hann; [|done]. assert (json_ok (py_or ann (PDict []))) as Ha by auto with json.
  destruct (py_or ann _) as [| | | | | |a|]; try done.
  apply bind_ok in Hd as (desc & _ & (schema & Hs & [= <-])%bind_ok). apply py_get_json_ok in Hs; [|done].
  split; cbn [dt_claimed dt_input_schema]; [unfold claim_json; cbn; repeat constructor; auto with json|].
  assert (json_ok (py_or schema (PDict []))) as Hsj by auto with json. destruct (py_or schema _); first [exact Hsj|exact Hnil].
Qed.

Lemma take_page_json raw version tools tools' :
  Forall json_ok raw → Forall discovered_json tools → take_page raw version tools = Ok tools' → Forall discovered_json tools'.
Proof.
  intros Hr. revert tools. induction Hr as [|x raw Hx _ IH]; intros tools Ht; simpl; [by intros [= <-]|].
  intros (d & Hd & H)%bind_ok. case_decide; [done|]. eapply IH; [|exact H].
  apply Forall_app. split; [done|]. apply Forall_singleton. by eapply normalize_json.
Qed.

Lemma take_pages_json broken fuel : ∀ version cursor req_id tools,
  Forall discovered_json tools → gives (take_pages broken fuel version cursor req_id tools) (Forall discovered_json).
Proof.
  induction fuel as [|fuel IH]; intros version cursor req_id tools Ht; [done|].
  eapply gives_bind; [apply request_json|]. intros page Hp.
  eapply gives_bind; [apply (gives_lift _ json_ok); intros a Ha; by eapply py_get_json_ok|]. intros raw Hraw.
  destruct raw as [| | | | |raw| |]; try apply gives_throw. apply json_ok_list in Hraw.
  eapply gives_bind; [apply (gives_lift _ (Forall discovered_json)); intros a Ha; by eapply take_page_json|].
  intros tools' Ht'. eapply gives_bind; [apply gives_any|]. intros c _. case_decide; [by apply gives_ret|]. by apply IH.
Qed.

Lemma discover_json p r : discover p = Ok r → Forall discovered_json (dr_tools r).
Proof.
  unfold discover. destruct (spawn_fails p); [done|].
  assert (gives (handshake (broken_pipe p)) (λ r, Forall discovered_json (dr_tools r))) as H.
  { eapply gives_bind; [apply gives_any|intros init _]. eapply gives_bind; [apply gives_any|intros info _]. cbv zeta.
    eapply gives_bind; [apply gives_any|intros proto _]. destruct proto; try apply gives_throw.
    eapply gives_bind; [apply gives_any|intros _ _]. eapply gives_bind; [apply gives_any|intros version _]. cbv zeta.
    eapply gives_bind; [apply gives_any|intros t _]. eapply gives_bind; [by apply take_pages_json|intros tools Ht].
    eapply gives_bind; [apply gives_any|intros name _]. by apply gives_ret. }
  specialize (H (mkTransport "" false (events p) [])).
  destruct (handshake _ _) as [r' t']. cbn. intros ->. by eapply H.
Qed.
End outside.

(** ** Methods of the service *)

Section service.
Context {rt : PyFloatRuntime} {dt : PyDatetime} {utf8 : Utf8} {crypto : Cryptography}
  {engine : PolicyEngine} {processes : Processes} {endpoint : BusEndpoint} (cfg : config).

Record typed_world (w : world) : Prop := {
  tw_catalog : typed (w_catalog w);
  tw_db : sound (w_db w);
}.

(** A method keeps the data typed, and what it answers. *)
Definition keeps_typed {A} (m : svc A) (Q : A → Prop) : Prop :=
  ∀ o w, typed_world w → let '(r, w') := m o w in typed_world w' ∧ ∀ a, r = Ok a → Q a.

Definition answers_json (m : svc pydict) : Prop := keeps_typed m (λ pl, json_ok (PDict pl)).

Lemma kt_bind {A B} (m : svc A) (k : A → svc B) P Q :
  keeps_typed m P → (∀ a, P a → keeps_typed (k a) Q) → keeps_typed (m ≫= k) Q.
Proof.
  intros Hm Hk o w Hw. cbv [mbind svc_bind]. specialize (Hm o w Hw). destruct (m o w) as [[a|e] w1];
    destruct Hm as [Hw1 HP]; [by apply Hk, Hw1; apply HP|done].
Qed.
Lemma kt_mono {A} (m : svc A) (P Q : A → Prop) : (∀ a, P a → Q a) → keeps_typed m P → keeps_typed m Q.
Proof. intros H Hm o w Hw. specialize (Hm o w Hw). destruct (m o w). destruct Hm. split; auto. Qed.
Lemma kt_any {A} (m : svc A) (Q : A → Prop) : keeps_typed m Q → keeps_typed m (λ _, True).
Proof. by apply kt_mono. Qed.
Lemma kt_ret {A} (a : A) (Q : A → Prop) : Q a → keeps_typed (mret a) Q.
Proof. intros H o w Hw. split; [done|]. by intros b [= <-]. Qed.
Lemma kt_pure {A} (r : res A) (Q : A → Prop) : (∀ a, r = Ok a → Q a) → keeps_typed (pure r) Q.
Proof. by intros H o w Hw. Qed.
Lemma kt_throw {A} e (Q : A → Prop) : keeps_typed (throw e) Q.
Proof. by intros o w Hw. Qed.
Lemma kt_refuse b s m : keeps_typed (refuse_if b s m) (λ _, b = false).
Proof. intros o w Hw. by destruct b. Qed.
Lemma kt_catalog : keeps_typed catalog typed.
Proof. intros o w Hw. split; [done|]. intros c [= <-]. apply Hw. Qed.
Lemma kt_push_audit r : keeps_typed (push_audit r) (λ _, True).
Proof. intros o w []. split; [by split|done]. Qed.
Lemma kt_push_posts l : keeps_typed (push_posts l) (λ _, True).
Proof. intros o w []. split; [by split|done]. Qed.
Lemma kt_last_id : keeps_typed last_decision_id (λ _, True).
Proof. by intros o w. Qed.
Lemma kt_rethrow {A} f (m : svc A) Q : keeps_typed m Q → keeps_typed (rethrow f m) Q.
Proof. intros Hm o w Hw. unfold rethrow. specialize (Hm o w Hw). by destruct (m o w) as [[a|e] w1]; destruct Hm. Qed.
Lemma kt_each {A} (f : A → svc unit) l P :
  Forall P l → (∀ x, P x → keeps_typed (f x) (λ _, True)) → keeps_typed (each f l) (λ _, True).
Proof.
  intros Hl Hf. induction Hl as [|x l Hx _ IH]; [by apply kt_ret|]. eapply kt_bind; [by apply Hf|]. by intros.
Qed.
Lemma kt_on_catalog {A} (m : st Catalog A) (Q : A → Prop) :
  (∀ c, typed c → let '(r, c') := m c in typed c' ∧ ∀ a, r = Ok a → Q a) → keeps_typed (on_catalog m) Q.
Proof.
  intros Hm o w [Hc Hd]. unfold on_catalog. specialize (Hm (w_catalog w) Hc). destruct (m (w_catalog w)) as [r c].
  destruct Hm as [Hc' HQ]. by split.
Qed.
Lemma kt_on_store {A} (m : act A) (Q : A → Prop) : keeps_sound m Q → keeps_typed (on_store m) Q.
Proof.
  intros Hm o w [Hc Hd]. unfold on_store, w_db in *. specialize (Hm _ Hd o (s_tick (w_sim w)) I).
  replace (mkSim (s_db (w_sim w)) (s_tick (w_sim w))) with (w_sim w) in Hm by (by destruct (w_sim w)).
  destruct (m o (w_sim w)) as [r s]. destruct Hm as [Hs HQ]. by split.
Qed.

Lemma ks_now : keeps_sound now (λ _, True).
Proof. apply ks_reads. intros d. step_outcome. by intros t _. Qed.
Lemma ks_now_text : keeps_sound _now (λ _, True).
Proof. apply ks_reads. intros d. unfold _now. do 2 step_outcome. intros t _. by step_outcome. Qed.
Lemma ks_uuid : keeps_sound uuid4_hex (λ _, True).
Proof. apply ks_reads. intros d. by apply outcome_uuid. Qed.

Create HintDb typed discriminated.
#[local] Hint Resolve kt_refuse kt_catalog kt_push_audit kt_push_posts kt_last_id ks_now ks_now_text ks_uuid ks_redeem
  ks_close ks_issue ks_source ks_tool ks_assertion ks_discovery : typed.

(** Take a method apart: each step keeps the data typed, and its answer is named. *)
Ltac typed_step :=
  lazymatch goal with
  | |- keeps_typed (mbind _ _) _ => eapply kt_bind; [|intros ? ?]
  | |- keeps_typed (throw _) _ => apply kt_throw
  | |- keeps_typed (pure _) (λ _, True) => by apply kt_pure
  | |- keeps_typed (mret _) (λ _, True) => by apply kt_ret
  | |- keeps_typed (on_store _) _ => apply kt_on_store
  | |- keeps_typed (match ?x with _ => _ end) (λ _, True) => destruct x
  end.

Lemma kt_append kind body :
  plain kind = true → json_ok (PDict body) → keeps_typed (on_store (append_audit kind body)) (λ _, True).
Proof. intros. by apply kt_on_store, ks_append. Qed.

Ltac logs := apply kt_append; [reflexivity|json_dict].

Lemma ks_still {A} (m : act A) : act_preserves eq m → keeps_sound m (λ _, True).
Proof. intros H. apply ks_reads. intros d. eapply outcome_mono; [apply H|]. by intros r d' <-. Qed.
Lemma ks_command sid : keeps_sound (get_source_command sid) (λ _, True).
Proof. apply ks_still. unfold get_source_command. preserve. Qed.
Lemma ks_get_grant gid : keeps_sound (get_grant gid) (λ _, True).
Proof. apply ks_still. unfold get_grant, _grant_row_to_dict. preserve. Qed.
Lemma ks_find did : keeps_sound (find_decision did) (λ _, True).
Proof. apply ks_still. unfold find_decision. preserve. Qed.
#[local] Hint Resolve ks_command ks_get_grant ks_find : typed.

Lemma kt_publish e : keeps_typed (publish_event cfg e) (λ _, True).
Proof. unfold publish_event. destruct (negb _); [by apply kt_ret|]. repeat typed_step; auto with typed. Qed.
#[local] Hint Resolve kt_publish : typed.

Lemma payload_answer d : json_ok (PDict d) → keeps_typed (mret d) (λ pl, json_ok (PDict pl)).
Proof. intros H. by apply (kt_ret d (λ pl, json_ok (PDict pl))). Qed.
Ltac answer := apply payload_answer; json_dict.

(** ** Sources and ingestion *)

Lemma kt_register sid tr tp ds cmd : answers_json (register_source sid tr tp ds cmd).
Proof.
  unfold answers_json, register_source. typed_step; [auto with typed|].
  destruct (TrustTier.of_value tr) as [trust|]; [|apply kt_throw]. typed_step; [auto with typed|]. cbv zeta.
  typed_step; [by apply (kt_pure _ (λ _, True))|]. typed_step.
  { apply (kt_on_catalog _ (λ _, True)). intros c []. by split. }
  do 2 (typed_step; [first [logs|apply kt_on_store; auto with typed]|]). answer.
Qed.

Lemma typed_set_tool c tid tv : typed c → tool_json tv → typed (set_tool tid tv c).
Proof.
  intros [Ht Hr] Hj. split; cbn; [|done]. intros tid' tv' [[<- <-]|[_ H]]%lookup_insert_Some; [done|by eapply Ht].
Qed.
Lemma typed_set_assertion c tid r : typed c → desc_json (descriptor r) → typed (set_assertion tid r c).
Proof.
  intros [Ht Hr] Hj. split; cbn; [done|]. intros tid' r' [[<- <-]|[_ H]]%lookup_insert_Some; [done|by eapply Hr].
Qed.
Lemma with_asserted_json tv a : tool_json tv → (∀ d, a = Some d → desc_json d) → tool_json (with_asserted a tv).
Proof. by intros [] Ha. Qed.

Lemma typed_ingest c sid n cl v :
  typed c → claim_json cl → let '(r, c') := ingest_claimed sid n cl v c in typed c'.
Proof.
  intros Hc Hcl. unfold ingest_claimed. run_st. case_decide; [done|].
  assert (tool_json (mkTool (mkToolRef n v) sid cl None (PDict []))) as Hj.
  { split; [done|apply json_ok_dict; by repeat constructor|done]. }
  destruct (assertions c !! (sid, n)) as [r|] eqn:E; [|by apply typed_set_tool].
  destruct (_fingerprint _) as [fp|e]; [|done]. apply typed_set_tool; [done|].
  destruct (fp =? fingerprint r); [|done]. apply with_asserted_json; [done|]. intros d [= <-]. by eapply ty_record.
Qed.

Lemma kt_ingest_one sid n cl v sch :
  claim_json cl → json_ok sch → keeps_typed (ingest_one sid n cl v sch) (λ _, True).
Proof.
  intros Hcl Hs. unfold ingest_one. typed_step.
  { apply (kt_on_catalog _ (λ _, True)). intros c Hc. pose proof (typed_ingest c sid n cl v Hc Hcl) as H.
    by destruct (ingest_claimed sid n cl v c). }
  typed_step; [apply (kt_pure _ (λ d, json_ok (PDict d))); intros d Hd; by eapply py_dict_json_ok|].
  typed_step.
  { apply (kt_on_catalog _ (λ _, True)). intros c Hc. unfold attach_schema, st_modify. split; [|done].
    destruct (tools c !! (sid, n)) as [tv|] eqn:E; [|done]. apply typed_set_tool; [done|].
    destruct (ty_tool _ Hc _ _ E). by split. }
  eapply kt_bind; [apply kt_catalog|intros c Hc].
  destruct (get c sid n) as [tv|] eqn:E; [|apply kt_throw]. apply kt_on_store, ks_tool. by eapply ty_tool.
Qed.

Lemma drift_json r : json_ok (PDict (_drift_payload r)).
Proof.
  json_dict. apply json_ok_list, Forall_fmap, Forall_forall. intros [n m] _. apply json_ok_list. by repeat constructor.
Qed.

Lemma kt_ingest_result sid r :
  Forall discovered_json (dr_tools r) → answers_json (ingest_result sid r).
Proof.
  intros Hr. unfold answers_json, ingest_result. typed_step.
  { apply (kt_each _ _ _ Hr). intros x [H1 H2]. by apply kt_ingest_one. }
  cbv zeta. typed_step; [apply kt_on_store; auto with typed|]. typed_step; [logs|].
  typed_step; [auto with typed|]. typed_step; [logs|]. answer; [json_dict|apply drift_json].
Qed.

Lemma kt_failed sid kind msg : answers_json (discovery_failed sid kind msg).
Proof. unfold answers_json, discovery_failed. typed_step; [logs|]. apply kt_throw. Qed.

Lemma kt_ingest sid : answers_json (ingest sid).
Proof.
  unfold answers_json, ingest, ingest_by. typed_step; [auto with typed|]. typed_step; [auto with typed|].
  typed_step; [apply kt_on_store; auto with typed|].
  match goal with |- keeps_typed (match ?c with _ => _ end) _ => destruct c as [argv|] end; [|apply kt_throw].
  eapply (kt_bind _ _ (λ _, True)); [by intros o w|intros p _].
  pose proof (discover_json p) as Hd. destruct (discover p) as [r|[]]; try apply kt_throw; [|apply kt_failed].
  by apply kt_ingest_result, Hd.
Qed.

Definition pushed_json (t : pushed_tool) : Prop := claim_json (pt_claim t) ∧ json_ok (pt_schema t).

Lemma parse_claim_json raw cl : json_ok raw → parse_claim raw = Ok cl → claim_json cl.
Proof.
  destruct raw as [| | | | | |d|]; try done. intros Hd [= <-]. unfold claim_json. cbn. repeat constructor; auto with json.
Qed.

Lemma parse_tools_json l : ∀ seen ts, Forall json_ok l → parse_tools l seen = Ok ts → Forall pushed_json ts.
Proof.
  assert (json_ok (PDict [])) as Hnil by (apply json_ok_dict; by repeat constructor).
  induction l as [|v l IH]; intros seen ts Hl; cbn [parse_tools]; [by intros [= <-]|].
  apply Forall_cons in Hl as [Hv Hl]. destruct v as [| | | | | |t|]; try done.
  destruct (dget "name" t) as [| | | |[|a b]| | |]; try done. case_decide; [done|].
  intros (cl & Hcl & (rest & Hr & [= <-])%bind_ok)%bind_ok. constructor; [|by eapply IH]. split; cbn.
  - eapply parse_claim_json; [|exact Hcl]. auto with json.
  - auto with json.
Qed.

Lemma kt_push sid tl : json_ok tl → answers_json (ingest_payload sid tl).
Proof.
  intros Ht. unfold answers_json, ingest_payload. typed_step; [auto with typed|]. typed_step; [auto with typed|].
  destruct tl as [| | | | |l| |]; try apply kt_throw. apply json_ok_list in Ht.
  eapply kt_bind; [apply (kt_pure _ (Forall pushed_json)); intros ts; by apply parse_tools_json|intros ts Hts].
  typed_step. { apply (kt_each _ _ _ Hts). intros x [H1 H2]. by apply kt_ingest_one. }
  cbv zeta. typed_step; [apply kt_on_store; auto with typed|]. typed_step; [logs|]. answer.
Qed.

(** ** Assertions *)

Lemma read_descriptor_json d a : read_descriptor d = Ok a → desc_json a.
Proof.
  unfold read_descriptor. destruct (json_dumps _ _ _ _) as [text|e]; cbn.
  2: { by destruct (_ || _). }
  destruct (asserted_from_json text) as [a'|e] eqn:E; [|by destruct (_ || _)]. intros [= <-].
  apply bind_ok in E as (v & Hv & Ha). by eapply asserted_of_json_typed; [eapply json_loads_ok|].
Qed.

Lemma typed_assert c sid n desc :
  typed c → desc_json desc → let '(r, c') := assert_descriptor sid n desc c in
  typed c' ∧ ∀ tv, r = Ok tv → tool_json tv.
Proof.
  intros Hc Hd. unfold assert_descriptor. destruct (negb _); [done|]. run_st.
  destruct (tools c !! (sid, n)) as [tv|] eqn:E; [|done].
  assert (tool_json (with_asserted (Some desc) tv)) as Hj.
  { apply with_asserted_json; [by eapply ty_tool|]. by intros d [= <-]. }
  pose proof (typed_set_tool c (sid, n) _ Hc Hj) as Hc1.
  destruct (_fingerprint _) as [fp|e]; [|by split]. split; [by apply typed_set_assertion|]. by intros tv' [= <-].
Qed.

Lemma asserted_payload_json a v : desc_json a → asserted_payload a = Ok v → json_ok v.
Proof.
  intros [Hf Hs _] (sc & Hsc & [= <-])%bind_ok. pose proof (py_sorted_perm _ _ Hsc) as Hp.
  rewrite !Forall_cons in Hf. destruct Hf as (H1 & H2 & H3 & H4 & H5 & _).
  json_dict. apply json_ok_list. by rewrite Hp.
Qed.

Lemma tool_payload_json c sid n pl : typed c → _tool_payload c sid n = Ok pl → json_ok (PDict pl).
Proof.
  intros Hc. unfold _tool_payload. destruct (get c sid n) as [tv|] eqn:E; [|done]. cbv zeta.
  destruct (ty_tool _ Hc _ _ E) as [Hcl Hs Ha].
  intros (a & Hpa & (inv & _ & (sch & Hsch & [= <-])%bind_ok)%bind_ok)%bind_ok.
  unfold claim_json in Hcl. rewrite !Forall_cons in Hcl. destruct Hcl as (H1 & H2 & H3 & H4 & H5 & _).
  assert (json_ok a) as Haj.
  { destruct (asserted tv) as [d|]; [|by injection Hpa as <-]. eapply asserted_payload_json; [|exact Hpa]. by apply Ha. }
  pose proof (py_dict_json_ok _ _ Hs Hsch) as Hd. json_dict. json_dict.
Qed.

Lemma kt_get_tool sid n : answers_json (get_tool sid n).
Proof.
  unfold answers_json, get_tool. eapply kt_bind; [apply kt_catalog|intros c Hc]. typed_step; [auto with typed|].
  apply kt_pure. intros pl. by apply tool_payload_json.
Qed.

Lemma kt_assert sid n d : answers_json (assert_tool sid n d).
Proof.
  unfold answers_json, assert_tool. destruct d as [| | | | | |d|]; try apply kt_throw.
  eapply kt_bind; [apply (kt_pure _ desc_json), read_descriptor_json|intros desc Hd].
  typed_step; [auto with typed|]. typed_step; [by apply kt_rethrow, (kt_pure _ (λ _, True))|].
  eapply kt_bind; [apply kt_rethrow, (kt_on_catalog _ tool_json); intros c Hc; by apply typed_assert|intros tv Htv].
  typed_step; [by apply kt_on_store, ks_tool|].
  eapply kt_bind; [apply kt_catalog|intros c Hc]. destruct (assertions c !! (sid, n)) as [r|] eqn:E; [|apply kt_throw].
  typed_step; [apply kt_on_store, ks_assertion; by eapply ty_record|].
  pose proof (dj_flags _ Hd) as Hf. rewrite !Forall_cons in Hf. destruct Hf as (_ & _ & _ & _ & Hby & _).
  typed_step; [logs|]. apply kt_get_tool.
Qed.

(** ** Grants *)

Lemma kt_log_append p sid n dec : keeps_typed (audit_log_append (decision_record p sid n dec)) (λ _, True).
Proof.
  unfold audit_log_append. change (dhas "decision_id" (decision_record p sid n dec)) with false. cbv iota.
  eapply (kt_bind _ _ (λ r, json_ok (PDict r))).
  - typed_step; [apply kt_on_store; auto with typed|]. apply payload_answer. unfold decision_record. cbn [app].
    json_dict; apply json_strings.
  - intros r Hr. typed_step; [by apply kt_append|]. auto with typed.
Qed.

Lemma broker_records c p sid n ctx :
  Forall (λ r, ∃ dec, r = decision_record p sid n dec) (Policy.authorize c p sid n ctx []).2.
Proof.
  unfold Policy.authorize. run_st. destruct (authorize_decision c p sid n ctx) as [dec|e]; repeat constructor. by exists dec.
Qed.

Lemma kt_broker p sid n ctx : keeps_typed (broker_authorize p sid n ctx) (λ _, True).
Proof.
  unfold broker_authorize. eapply kt_bind; [apply kt_catalog|intros c _]. pose proof (broker_records c p sid n ctx) as Hr.
  destruct (Policy.authorize c p sid n ctx []) as [r records]. typed_step; [|by apply kt_pure].
  apply (kt_each _ _ _ Hr). intros x [dec ->]. apply kt_log_append.
Qed.

Definition grant_json (g : option (string * pyval)) : Prop := json_ok (default PNone (snd <$> g)).

Lemma kt_decide p sid n ctx requested :
  keeps_typed (decide_and_issue p sid n ctx requested) (λ r, grant_json r.2).
Proof.
  unfold decide_and_issue. eapply kt_bind; [apply kt_broker|intros dec _]. typed_step; [auto with typed|].
  destruct requested as [[h t]|]; [|by apply kt_ret]. destruct (allowed dec); [|by apply kt_ret].
  eapply (kt_bind _ _ (λ g, json_ok g.2)); [|intros g Hg; by apply kt_ret].
  unfold issue_for. do 3 (typed_step; [apply kt_on_store; auto with typed|]). apply kt_ret. cbn [snd]. json_dict.
Qed.

Lemma kt_authorize p sid n ctx args ttl : answers_json (authorize cfg p sid n ctx args ttl).
Proof.
  unfold answers_json, authorize. do 2 (typed_step; [by apply (kt_pure _ (λ _, True))|]). cbv zeta.
  eapply kt_bind; [apply kt_decide|intros [[dec did] grant] Hg]. typed_step; [auto with typed|].
  typed_step; [repeat case_match; auto with typed; by apply kt_ret|].
  apply payload_answer. unfold grant_json in Hg. unfold _decision_payload.
  match goal with |- context [match ?q with Some _ => _ | None => _ end] => destruct q end; cbn [app];
    json_dict; apply json_strings.
Qed.

Lemma kt_redeem gid p args : answers_json (redeem cfg gid p args).
Proof.
  unfold answers_json, redeem. typed_step; [auto with typed|]. do 2 (typed_step; [by apply (kt_pure _ (λ _, True))|]).
  typed_step; [auto with typed|]. typed_step; [apply kt_on_store; auto with typed|].
  typed_step; [case_match; [auto with typed|typed_step; [logs|by apply kt_ret]]|]. answer.
Qed.

Lemma kt_close gid why : answers_json (close gid why).
Proof.
  unfold answers_json, close. typed_step; [apply kt_on_store; auto with typed|].
  match goal with |- keeps_typed (match ?c with _ => _ end) _ => destruct c as [[did al]|] end; [|apply kt_throw]. answer.
Qed.

Lemma kt_outcome did out det gid : json_ok det → answers_json (record_outcome cfg did out det gid).
Proof.
  intros Hdet. assert (json_ok (PDict [])) as Hnil by (apply json_ok_dict; by repeat constructor).
  unfold answers_json, record_outcome. do 2 (typed_step; [auto with typed|]).
  typed_step; [apply kt_on_store; auto with typed|].
  match goal with |- keeps_typed (match ?c with _ => _ end) _ => destruct c as [[seq body]|] end; [|apply kt_throw].
  cbv zeta. typed_step; [logs|]. typed_step.
  { destruct (decide (gid = PNone)); [by apply (kt_ret _ (λ _, True))|]. unfold settle_grant. typed_step; [by apply (kt_pure _ (λ _, True))|].
    typed_step; [apply kt_on_store; auto with typed|].
    eapply (kt_bind _ _ (λ _, True)); [case_match; [by apply kt_ret|apply kt_throw]|intros g _].
    typed_step; [auto with typed|]. typed_step; [apply kt_on_store; auto with typed|]. by apply kt_ret. }
  typed_step; [auto with typed|]. apply payload_answer. destruct (decide (gid = PNone)); cbn [app]; json_dict.
Qed.

(** ** Governance redemption *)

Definition payload_json (v : GovVerification) : Prop :=
  (∀ d, payload v = Some d → json_ok (PDict d)) ∧ (∀ i, issuer_key_id v = Some i → json_ok i).

Lemma verify_grant_json grant pem at_ key rl v :
  json_ok grant → verify_grant grant pem at_ key rl = Ok v → payload_json v.
Proof.
  intros Hg. unfold verify_grant.
  assert (∀ fs d, _structural_failures grant = (fs, Some d) → json_ok (PDict d)) as Hs.
  { intros fs d. unfold _structural_failures. destruct grant as [| | | | | |g|]; try done.
    pose proof (dget_json_ok "payload" g Hg) as Hp.
    destruct (dget "payload" g) as [| | | | | |pl|], (dget "signature_scheme" g), (dget "signature" g); try done.
    destruct (negb _); [done|]. case_decide; [|done]. by intros [= _ <-]. }
  destruct (_structural_failures grant) as [fs [d|]]; [|by intros [= <-]].
  specialize (Hs fs d eq_refl). assert (payload_json (mkGov false false false [] (Some (dget "issuer_key_id" d)) (Some d))) as Hok.
  { split; cbn; [by intros ? [= <-]|intros ? [= <-]; auto with json]. }
  destruct pem as [pem|]; [|by intros [= <-]]. cbv zeta. destruct (check_grant _ _ _ _ _ _) as [r fs'].
  intros ([sv ww] & _ & [= <-])%bind_ok. done.
Qed.

Lemma enforcement_json pl issuer p sid n h ok codes out instant :
  (∀ d, pl = Some d → json_ok (PDict d)) → (∀ i, issuer = Some i → json_ok i) → json_ok instant →
  json_ok (PDict (enforcement_body cfg pl issuer p sid n h ok codes out instant)).
Proof.
  intros Hpl Hi Hat. assert (json_ok (default PNone issuer)) as Hij by (by apply json_default).
  unfold enforcement_body. destruct pl as [d|]; cbv zeta; [specialize (Hpl d eq_refl)|]; json_dict.
Qed.

Lemma kt_deny v p sid n h instant why :
  payload_json v → json_ok instant → answers_json (gov_deny cfg v p sid n h instant why).
Proof.
  intros [Hp Hi] Hat. unfold answers_json, gov_deny. cbv zeta.
  typed_step; [by apply kt_append; [|apply enforcement_json]|].
  assert (json_ok (match payload v with Some d => dget "grant_id" d | None => PNone end)) as Hg.
  { destruct (payload v) as [d|]; [|done]. specialize (Hp d eq_refl). auto with json. }
  answer.
Qed.

Lemma kt_gov g p sid n args at_ : json_ok g → json_ok at_ → answers_json (redeem_governance_grant cfg g p sid n args at_).
Proof.
  intros Hg Hat. unfold answers_json, redeem_governance_grant. do 2 (typed_step; [by apply (kt_pure _ (λ _, True))|]).
  eapply (kt_bind _ _ json_ok).
  { destruct (decide (at_ = PNone)); [typed_step; [apply kt_on_store; auto with typed|]|]; by apply kt_ret. }
  intros instant Hin. eapply kt_bind; [apply (kt_pure _ payload_json); intros v; by apply verify_grant_json|intros v Hv].
  destruct (valid v), (payload v) as [d|] eqn:Hd;
    try (destruct (failure_codes v); [apply kt_throw|by apply kt_deny]).
  typed_step; [by apply (kt_pure _ (λ _, True))|].
  match goal with |- keeps_typed (match ?c with _ => _ end) _ => destruct c end; [|by apply kt_deny].
  pose proof (proj1 Hv d Hd) as Hdj. unfold gov_claim.
  typed_step. { apply kt_on_store, ks_gov, enforcement_json; [by intros ? [= <-]|intros ? [= <-]; auto with json|done]. }
  match goal with |- context [let '(_, _) := ?c in _] => destruct c as [[granted why] at2] end.
  destruct (negb granted); [by apply kt_deny|]. typed_step; [auto with typed|]. answer.
Qed.

(** ** Histories *)

(** The arguments that are stored or echoed as they come are JSON values. *)
Definition json_call (c : call) : Prop :=
  match c with
  | CPush _ tools => json_ok tools
  | CGov grant _ _ _ _ at_ => json_ok grant ∧ json_ok at_
  | COutcome _ _ detail _ => json_ok detail
  | _ => True
  end.

Lemma kt_perform c : json_call c → answers_json (perform cfg c).
Proof.
  destruct c; cbn [perform json_call]; intros Hc; first
    [apply kt_register|apply kt_ingest|by apply kt_push|apply kt_assert|apply kt_authorize|apply kt_redeem
    |by apply kt_gov; apply Hc|apply kt_close|by apply kt_outcome].
Qed.

Lemma serve_typed calls o : ∀ w, Forall json_call calls → typed_world w →
  let '(rs, w') := serve cfg calls o w in
  typed_world w' ∧ Forall (λ r, ∀ pl, r = Ok pl → json_ok (PDict pl)) rs.
Proof.
  induction calls as [|c calls IH]; intros w Hc Hw; simpl; [by split|]. apply Forall_cons in Hc as [Hc Hcs].
  pose proof (kt_perform c Hc o w Hw) as H. destruct (perform cfg c o w) as [r w1]. destruct H as [Hw1 Hr].
  specialize (IH w1 Hcs Hw1). destruct (serve cfg calls o w1) as [rs w2]. destruct IH. by split; [|constructor].
Qed.

(** C7 -- The service's data is JSON, and it can always be started again: over any
    history of calls whose arguments are JSON, whatever fails and whatever the clock, the
    policies and the discovered servers do, every answer is a JSON value; the catalog
    holds JSON values only; the audit log verifies; and loading the database left behind
    raises only when a query fails, and gives a catalog of JSON values again. *)
Theorem service_data_is_json (calls : list call) (o : oracle) (w : world) :
  Forall json_call calls → typed_world w →
  let '(rs, w') := serve cfg calls o w in
  Forall (λ r, ∀ pl, r = Ok pl → json_ok (PDict pl)) rs ∧ typed (w_catalog w') ∧
  verify_chain (w_db w') = Ok (mkVerification true (Z.of_nat (length (audit_t (w_db w')))) None "") ∧
  outcome faultless load_catalog (w_db w') (λ r d', d' = w_db w' ∧ ∃ c, r = Ok c ∧ typed c).
Proof.
  intros Hc Hw. pose proof (serve_typed calls o w Hc Hw) as H. destruct (serve cfg calls o w) as [rs w'].
  destruct H as [[Hcat [Hrows Hlog Hpaired]] Hrs]. split_and!; [done..|by apply verify_complete|].
  eapply outcome_mono; [by apply typed_load|]. intros [c|e] d' [-> H]; (split; [done|]); [by exists c|].
  by destruct H as [_ Hf%faultless_cannot_fail].
Qed.
End service.

(** ** A history *)

Definition blank_world : world := mkWorld empty_catalog (mkSim empty_db 0%nat) [] [].

Lemma blank_typed : typed_world (rt := coded_float_runtime) blank_world.
Proof.
  split; [split; cbn; intros *; by rewrite lookup_empty|]. split; [|apply audit_ok_empty|apply paired_empty].
  split; cbn; intros *; by rewrite lookup_empty.
Qed.

Definition first_day : list call :=
  [CRegister "ws" "verified" "mcp" (PList [PStr "search"]) PNone;
   CPush "ws" (PList [PDict [(KStr "name", PStr "search");
                             (KStr "claimed", PDict [(KStr "read_only_hint", PBool true)])]]);
   CAssert "ws" "search" (PDict [(KStr "effect", PStr "read"); (KStr "asserted_by", PStr "op")]);
   CAuthorize alice "ws" "search" PNone (Some call_args) PNone;
   CClose "nothing" "done"].

Lemma first_day_json : Forall json_call first_day.
Proof.
  repeat constructor; cbn; try done; try (by apply (bool_decide_unpack _)).
Qed.

Lemma service_data_is_json_witness :
  map is_ok (sample_serve first_day blank_world).1 = [true; true; true; true; false] ∧
  Forall (λ r, ∀ pl, r = Ok pl → json_ok (PDict pl)) (sample_serve first_day blank_world).1 ∧
  size (tools_t (w_db (sample_serve first_day blank_world).2)) = 1%nat ∧
  ∃ c, (load_catalog (rt := coded_float_runtime) calm
          (mkSim (w_db (sample_serve first_day blank_world).2) 0%nat)).1 = Ok c ∧ typed c.
Proof.
  pose proof (service_data_is_json (rt := coded_float_runtime) (dt := decimal_datetime) (utf8 := ascii_utf8)
    (crypto := toy_crypto) (engine := open_engine) (processes := no_processes) (endpoint := no_endpoint) quiet
    first_day calm blank_world first_day_json blank_typed) as H.
  fold (sample_serve first_day blank_world) in H.
  split; [vm_compute; reflexivity|]. split.
  { destruct (sample_serve first_day blank_world) as [rs w']. apply H. }
  split; [vm_compute; reflexivity|].
  destruct (sample_serve first_day blank_world) as [rs w']. destruct H as (_ & _ & _ & H).
  specialize (H calm 0%nat (λ n, eq_refl)). destruct (load_catalog _ _) as [r s]. destruct H as (_ & c & -> & Hc).
  exists c. split; [reflexivity|exact Hc].
Defined.
