(* ===== verification/Liveness.v ===== *)
(** What is permitted goes through: in a world where no statement fails and the clock
    stays inside the grant's lifetime, an allowed call gets a grant, and presenting it
    with the same arguments redeems it. *)

From S2P Require Import Prelude PyJson PyJsonLoads PyStr PyColl DateTime Sha256 Hashing Schema.
From S2P Require Import Descriptor Catalog Policy Db AuditLog Grants Hydrate Store BusPublish.
From S2P Require Import PyEq PyBytes GovGrants McpSource Service ServiceRuns.

(** ** The world a call needs *)

(** No statement fails; the identifiers drawn are new and not empty; any two readings of
    the clock are less than the lifetime apart, and inside the calendar. *)
Record prompt_world (ttl : Z) (d : db) (o : oracle) : Prop := {
  pw_faultless : faultless o;
  pw_fresh n : grants_t d !! Db.fresh o n = None;
  pw_named n : Db.fresh o n ≠ "";
  pw_soon i j : clock o j < clock o i + ttl * microseconds;
  pw_calendar i : in_calendar (clock o i + ttl * microseconds);
}.

Section live.
Context {rt : PyFloatRuntime} {dt : PyDatetime} {utf8 : Utf8} {crypto : Cryptography}
  {engine : PolicyEngine} {processes : Processes} {endpoint : BusEndpoint} (cfg : config).

Lemma no_fault_here o : faultless o → ¬ can_fail (λ o', o' = o).
Proof. intros Ho (o' & n & -> & Hf). by rewrite Ho in Hf. Qed.

(** A store method in this world only. *)
Lemma on_store_here {A} (m : act A) o w (Q : res A → db → Prop) :
  outcome (λ o', o' = o) m (w_db w) Q →
  let '(r, w') := on_store m o w in
  Q r (w_db w') ∧ w_catalog w' = w_catalog w ∧ w_audit w' = w_audit w.
Proof. by apply on_store_run_in. Qed.

(** Publishing never raises and touches neither the database nor the catalog. *)
Lemma publish_still e o w :
  ∃ w', publish_event cfg e o w = (Ok tt, w') ∧ w_db w' = w_db w ∧ w_catalog w' = w_catalog w.
Proof. unfold publish_event. destruct (negb _); by eexists. Qed.

Lemma strings_serializable (l : list string) : json_serializable true (PList (PStr <$> l)) = true.
Proof. simpl. apply forallb_forall. intros v Hv. apply list_elem_of_In, list_elem_of_fmap in Hv as (x & -> & _). done. Qed.

Lemma record_serializable p s n d id :
  json_serializable true (PDict (decision_record p s n d ++ [str_pair "decision_id" (PStr id)])) = true.
Proof.
  pose proof (strings_serializable (determining_policies d)) as H. simpl in H |- *. by rewrite H.
Qed.

Lemma append_here kind body d o :
  faultless o → json_serializable true (PDict body) = true →
  outcome (λ o', o' = o) (append_audit kind body) d (λ r d', ∃ seq, r = Ok seq ∧ appended kind body d seq d').
Proof.
  intros Ho Hs. unfold append_audit. step_outcome; [intros H; by destruct (no_fault_here o Ho)|].
  eapply outcome_mono; [by apply append_renders|]. intros [seq|e] d' H; [by exists seq|].
  by destruct (no_fault_here o Ho); apply H.
Qed.

(** The decision, logged. *)
Lemma broker_here p s n ctx dec o w :
  faultless o → authorize_decision (w_catalog w) p s n ctx = Ok dec →
  ∃ w' record id row, broker_authorize p s n ctx o w = (Ok dec, w') ∧ w_catalog w' = w_catalog w ∧
    last (w_audit w') = Some record ∧ dget "decision_id" record = PStr id ∧ logged row (w_db w) (w_db w').
Proof.
  intros Ho Hdec. unfold broker_authorize, Policy.authorize. run_svc. rewrite Hdec. cbn [app each]. run_svc.
  unfold audit_log_append. change (dhas "decision_id" (decision_record p s n dec)) with false. cbv iota.
  cbv beta delta [mbind svc_bind]. pose proof (on_store_here uuid4_hex o w (λ r d', d' = w_db w ∧ is_ok r = true)
    ltac:(by apply outcome_uuid)) as Hu.
  destruct (on_store uuid4_hex o w) as [[id|e] w1]; destruct Hu as ((Hd1 & Hok) & Hc1 & Ha1); [|done].
  cbn [mret svc_ret]. set (stored := _ ++ _).
  pose proof (on_store_here (append_audit "decision" stored) o w1 _
    (append_here "decision" stored _ o Ho (record_serializable p s n dec id))) as Hs.
  destruct (on_store (append_audit "decision" stored) o w1) as [r w2]. destruct Hs as ((seq & -> & Hs) & Hc2 & Ha2).
  apply appended_logged in Hs as (row & Hrow & _). rewrite Hd1 in Hrow. cbn [push_audit fst snd].
  eexists _, stored, id, row. split_and!; [reflexivity|cbn; congruence|cbn; apply last_snoc|done|done].
Qed.

(** The grant, on file. *)
Lemma issue_here p s n id h ttl o w :
  prompt_world ttl (w_db w) o →
  ∃ w' gid k, issue_for p s n id h ttl o w =
      (Ok (gid, grant_payload gid h (isoformat (clock o k + ttl * microseconds)) ttl), w') ∧
    gid ≠ "" ∧ w_catalog w' = w_catalog w ∧ grants_t (w_db w') !! gid = Some (issued_row p s n id h (clock o k) ttl).
Proof.
  intros Ho. unfold issue_for. cbv beta delta [mbind svc_bind].
  pose proof (on_store_here now o w (λ r d', d' = w_db w ∧ ∃ k, r = Ok (clock o k))) as Hn.
  destruct (on_store now o w) as [r w1]. destruct Hn as ((Hd1 & k & ->) & Hc1 & _).
  { step_outcome. intros t (o' & k & -> & <-). split; [done|by exists k]. }
  cbv beta iota. unfold on_store at 1. cbn [uuid4_hex].
  set (gid := Db.fresh o (s_tick (w_sim w1))). set (w2 := mkWorld _ _ _ _).
  set (m := issue_grant _ _ _ _ _ _ _ _ _).
  pose proof (on_store_here m o w2 _ (issue_grant_outcome _ _ _ _ _ _ _ _ _ _ _)) as Hi.
  assert (grants_t (w_db w2) !! gid = None) as Hfree by (change (w_db w2) with (w_db w1); rewrite Hd1; apply Ho).
  destruct (on_store m o w2) as [[seq|e] w3]; destruct Hi as (Hi & Hc3 & _); cbn [mret svc_ret].
  - eexists w3, gid, k. split_and!; [done|apply Ho|by rewrite Hc3|].
    destruct Hi as (_ & payload & t & _ & _ & ->). apply lookup_insert_eq.
  - exfalso. destruct Hi as (_ & [[_ Hf]|[_ Hs]]); [by apply (no_fault_here o); [apply Ho|]|].
    rewrite Hfree in Hs. by destruct Hs.
Qed.

(** A live grant of the caller for these arguments, on an invocable tool, is redeemed. *)
Lemma redeem_here gid principal args p h g expires o w :
  faultless o → gid ≠ "" → _parse_principal principal = Ok p → bound_args_hash args = Ok h →
  grants_t (w_db w) !! gid = Some g → gr_redeemed_at g = None → gr_closed_at g = None →
  parse_datetime (gr_expires_at g) = Ok (Aware expires) → (∀ k, clock o k < expires) →
  gr_principal_id g = principal_id p → gr_args_hash g = h →
  Catalog.invocable (w_catalog w) (gr_source_id g) (gr_name g) = Ok true →
  ∃ pl w', redeem cfg gid principal args o w = (Ok pl, w') ∧ dget "redeemed" pl = PBool true.
Proof.
  intros Ho Hgid Hp Hh Hg Hr Hc Hex Hlate Hpid Hhash Hinv. unfold redeem, refuse_if. rewrite bool_decide_eq_false_2 by done.
  svc_step. rewrite Hp. svc_step. rewrite Hh. svc_step. svc_step. set (m := redeem_grant _ _ _ _). svc_step.
  assert (∀ t, clock_shows (λ o', o' = o) t →
    redeem_verdict (grants_t (w_db w) !! gid) h (principal_id p) (Some (Catalog.invocable (w_catalog w))) t = Ok "ok") as Hv.
  { intros t (o' & k & -> & <-). rewrite Hg. unfold redeem_verdict. rewrite Hr, Hc. cbn [is_none negb].
    rewrite Hex. cbn. rewrite (proj2 (Z.leb_gt expires (clock o k))) by apply Hlate. cbn.
    rewrite !decide_False by (by rewrite ?Hpid, ?Hhash; intros []). by rewrite Hinv. }
  pose proof (on_store_here m o w _ (redeem_grant_outcome _ gid h (principal_id p) _ _)) as Hm.
  destruct (on_store m o w) as [[res|e] w1].
  - destruct Hm as ((t & why & Ht & Hw & He) & _). rewrite (Hv t Ht) in Hw. injection Hw as <-. svc_step.
    unfold redeem_effect in He. rewrite Hg, decide_True in He by done. destruct He as [-> _]. cbn [redeemed].
    match goal with |- context [publish_event cfg ?e o w1] => destruct (publish_still e o w1) as (w2 & -> & _) end.
    by eexists _, w2.
  - exfalso. destruct Hm as ([_ [[_ Hf]|(t & Ht & Hw)]] & _); [by apply (no_fault_here o)|]. by rewrite (Hv t Ht) in Hw.
Qed.

(** An allowed decision is about an invocable tool. *)
Lemma allowed_invocable c p s n ctx dec :
  authorize_decision c p s n ctx = Ok dec → allowed dec = true → Catalog.invocable c s n = Ok true.
Proof.
  unfold authorize_decision. destruct (get c s n); [|by intros [= <-]].
  destruct (Catalog.invocable c s n) as [[]|]; cbn; [done| |done]. destruct (sources c !! _); [by intros [= <-]|done].
Qed.

(** Decision and grant together. *)
Lemma decided_here p s n c h t dec o w :
  authorize_decision (w_catalog w) p s n c = Ok dec → allowed dec = true → prompt_world t (w_db w) o →
  ∃ w1 id gid k, decide_and_issue p s n c (Some (h, t)) o w =
      (Ok (dec, id, Some (gid, grant_payload gid h (isoformat (clock o k + t * microseconds)) t)), w1) ∧
    gid ≠ "" ∧ w_catalog w1 = w_catalog w ∧ grants_t (w_db w1) !! gid = Some (issued_row p s n id h (clock o k) t).
Proof.
  intros Hdec Hal Hpw. unfold decide_and_issue. cbv beta delta [mbind svc_bind].
  destruct (broker_here p s n c dec o w) as (w1 & record & id & row & -> & Hc & Hlast & Hid & Hlog);
    [apply Hpw|done|].
  unfold last_decision_id. rewrite Hlast, Hid, Hal.
  assert (prompt_world t (w_db w1) o) as Hpw1.
  { destruct Hpw as [? Hf ? ? ?]. split; try done. destruct Hlog as (_ & Hg & _). intros i. unfold w_db in *. rewrite Hg. apply Hf. }
  destruct (issue_here p s n id h t o w1 Hpw1) as (w2 & gid & k & -> & Hgid & Hc2 & Hrow).
  exists w2, id, gid, k. split_and!; [done..|congruence|done].
Qed.

Lemma requested_hash ctx args ttl h t :
  authorize_shape ctx (Some args) ttl = Ok (Some (h, t)) → bound_args_hash args = Ok h.
Proof.
  unfold authorize_shape, raise_if. destruct (negb _ && _); [done|]. cbn.
  destruct (bound_args_hash args); [|done]. cbn. destruct (grant_ttl ttl); [|done]. cbn. by intros [= -> _].
Qed.

(** C6 -- When no statement fails and the clock stays inside the grant's lifetime, an
    allowed request that binds arguments gets a grant, and redeeming that grant as the
    same principal with the same arguments succeeds. *)
Theorem allowed_call_goes_through (principal ctx args ttl : pyval) (s n h : string) (t : Z) (p : Principal)
    (dec : Decision) (o : oracle) (w : world) :
  authorize_shape ctx (Some args) ttl = Ok (Some (h, t)) → _parse_principal principal = Ok p →
  authorize_decision (w_catalog w) p s n (match ctx with PDict d => d | _ => [] end) = Ok dec → allowed dec = true →
  prompt_world t (w_db w) o →
  ∃ pl w1 gid, authorize cfg principal s n ctx (Some args) ttl o w = (Ok pl, w1) ∧
    dget "allowed" pl = PBool true ∧ py_item (dget "grant" pl) "grant_id" = Ok (PStr gid) ∧
    ∃ pl2 w2, redeem cfg gid principal args o w1 = (Ok pl2, w2) ∧ dget "redeemed" pl2 = PBool true.
Proof.
  intros Hshape Hp Hdec Hal Hpw. unfold authorize. rewrite Hshape. svc_step. rewrite Hp. svc_step. cbv zeta.
  set (c := match ctx with PDict d => d | _ => [] end) in *.
  destruct (decided_here p s n c h t dec o w) as (w1 & id & gid & k & Hrun & Hgid & Hc1 & Hrow); [done..|].
  cbv beta delta [mbind svc_bind]. rewrite Hrun.
  set (e1 := authorized_event _ _ _ _ _ _ _). destruct (publish_still e1 o w1) as (w2 & -> & Hd2 & Hc2).
  cbn [fst]. set (e2 := issued_event _ _ _ _ _ _ _). destruct (publish_still e2 o w2) as (w3 & -> & Hd3 & Hc3).
  eexists _, w3, gid.
  split_and!; [reflexivity|by simpl; rewrite Hal|reflexivity|].
  apply (redeem_here gid principal args p h (issued_row p s n id h (clock o k) t) (clock o k + t * microseconds));
    try done; try apply Hpw.
  - by eapply requested_hash.
  - by rewrite Hd3, Hd2.
  - unfold parse_datetime. cbn. by rewrite fromisoformat_iso by apply Hpw.
  - rewrite Hc3, Hc2, Hc1. by eapply allowed_invocable.
Qed.
End live.

(** ** A call that goes through *)

(** A clock that stands still. *)
Definition frozen : oracle := mkOracle (λ _, 0) (λ _, false) (Db.fresh calm).

Lemma frozen_prompt : prompt_world 60 empty_db frozen.
Proof.
  split; [done..| | |].
  - intros n. cbn. by destruct (string_of_Z _).
  - intros i j. cbn. unfold microseconds. lia.
  - intros i. cbn. unfold in_calendar, datetime_min, datetime_max, microseconds. lia.
Qed.

Lemma allowed_call_goes_through_witness :
  ∃ pl w1 gid, authorize (rt := coded_float_runtime) (dt := decimal_datetime) (engine := open_engine)
      (endpoint := no_endpoint) quiet alice "ws" "search" PNone (Some call_args) PNone frozen fresh_world
      = (Ok pl, w1) ∧
    py_item (dget "grant" pl) "grant_id" = Ok (PStr gid) ∧
    ∃ pl2 w2, redeem (rt := coded_float_runtime) (dt := decimal_datetime) (endpoint := no_endpoint) quiet gid
      alice call_args frozen w1 = (Ok pl2, w2) ∧ dget "redeemed" pl2 = PBool true.
Proof.
  destruct (authorize_shape (rt := coded_float_runtime) PNone (Some call_args) PNone) as [[[h t]|]|e] eqn:Hs;
    [|vm_compute in Hs; discriminate Hs..].
  assert (t = 60) as -> by (vm_compute in Hs; congruence).
  destruct (authorize_decision (engine := open_engine) sample_catalog
    (mkPrincipal "alice" "local" "agent" None) "ws" "search" []) as [dec|e] eqn:Hd;
    [|vm_compute in Hd; discriminate Hd].
  assert (allowed dec = true) as Ha.
  { assert (match authorize_decision (engine := open_engine) sample_catalog
      (mkPrincipal "alice" "local" "agent" None) "ws" "search" [] with Ok d => allowed d | _ => false end = true) as H
      by (vm_compute; reflexivity). by rewrite Hd in H. }
  destruct (allowed_call_goes_through (rt := coded_float_runtime) (dt := decimal_datetime) (engine := open_engine)
    (endpoint := no_endpoint) quiet alice PNone call_args PNone "ws" "search" h 60
    (mkPrincipal "alice" "local" "agent" None) dec frozen fresh_world Hs ltac:(vm_compute; reflexivity) Hd Ha
    frozen_prompt) as (pl & w1 & gid & Hrun & _ & Hgid & Hr).
  exists pl, w1, gid. split; [exact Hrun|]. split; [exact Hgid|exact Hr].
Defined.
