(* ===== verification/GovRedemption.v ===== *)
(** [service.redeem_governance_grant] end to end: every answer leaves one record, and a
    redemption is only ever answered for a grant the contract allows. *)

From S2P Require Import Prelude PyJson PyJsonLoads PyStr PyColl DateTime Sha256 Hashing Schema.
From S2P Require Import Descriptor Catalog Policy Db AuditLog Grants Hydrate Store BusPublish.
From S2P Require Import PyEq PyBytes GovGrants McpSource Service ServiceRuns.

Section gov.
Context {rt : PyFloatRuntime} {dt : PyDatetime} {utf8 : Utf8} {crypto : Cryptography}
  {engine : PolicyEngine} {processes : Processes} {endpoint : BusEndpoint} (cfg : config).

(** The one record of an enforcement, and what else the call changed. *)
Definition enforcement (outcome_text : string) (d d' : db) : Prop :=
  ∃ body row, audit_t d' = audit_t d ++ [row] ∧ grants_t d' = grants_t d ∧
    au_kind row = "provider_enforcement" ∧ _canonical (PDict body) = Ok (au_body row) ∧
    dget "outcome" body = PStr outcome_text.

Lemma publish_run e o w :
  ∃ w', publish_event cfg e o w = (Ok tt, w') ∧ w_db w' = w_db w.
Proof.
  unfold publish_event. destruct (negb _); [by exists w|]. svc_step.
  pose proof (on_store_run uuid4_hex o w (λ r d', (∃ u, r = Ok u) ∧ d' = w_db w)
    ltac:(apply outcome_uuid; eauto)) as Hu.
  destruct (on_store uuid4_hex o w) as [r w1]. destruct Hu as (([u ->] & Hd) & _). by eexists.
Qed.

Lemma now_run o w :
  ∃ k w', on_store _now o w = (Ok (isoformat (clock o k)), w') ∧ w_db w' = w_db w.
Proof. by exists (s_tick (w_sim w)); eexists. Qed.

(** A denial: the answer, its record, and no redemption. *)
Definition denial (why : string) (pl : pydict) (d d' : db) : Prop :=
  dget "redeemed" pl = PBool false ∧ dget "reason" pl = PStr why ∧
  enforcement ("denied:" +:+ why) d d' ∧ redemptions_t d' = redemptions_t d.

Lemma gov_deny_run v p sid n h instant why o w :
  let '(r, w') := gov_deny cfg v p sid n h instant why o w in
  match r with
  | Ok pl => denial why pl (w_db w) (w_db w')
  | Raise _ => w_db w' = w_db w
  end.
Proof.
  unfold gov_deny. svc_step. set (body := enforcement_body _ _ _ _ _ _ _ _ _ _ _).
  pose proof (on_store_run (append_audit "provider_enforcement" body) o w _ (append_audit_outcome any_world _ _ _)) as H.
  destruct (on_store _ o w) as [[seq|e] w1]; destruct H as (H & _); [|by destruct H].
  apply appended_logged in H as (row & (Ha & Hg & Hr) & Hk & Hb).
  split; [done|]. split; [done|]. split; [|done]. by exists body, row.
Qed.

(** A grant redeemed here: the claim on file is new. *)
Definition claimed_now (d : pydict) (pl : pydict) (db0 db1 : db) : Prop :=
  dget "redeemed" pl = PBool true ∧ dget "grant_id" pl = dget "grant_id" d ∧
  enforcement "redeemed" db0 db1 ∧
  redemptions_t db0 !! text_of (dget "grant_id" d) = None ∧
  is_Some (redemptions_t db1 !! text_of (dget "grant_id" d)).

Lemma gov_claim_run v d p sid n h instant o w :
  let '(r, w') := gov_claim cfg v d p sid n h instant o w in
  match r with
  | Ok pl => claimed_now d pl (w_db w) (w_db w') ∨ denial "already_redeemed" pl (w_db w) (w_db w')
  | Raise _ => w_db w' = w_db w
  end.
Proof.
  unfold gov_claim. svc_step. set (m := record_govgrant_redemption _ _ _ _ _ _ _ _ _ _ _).
  pose proof (on_store_run m o w _ (govgrant_outcome any_world _ _ _ _ _ _ _ _ _ _ _ _)) as H.
  destruct (on_store m o w) as [[[[granted why] at_]|e] w1]; destruct H as (H & _); [|by destruct H].
  destruct granted; cbn [negb].
  - destruct H as (_ & Hfree & t & seq & _ & H). svc_step.
    destruct (publish_run (redeemed_event p (text_of (dget "grant_id" d)) (dget "decision_record_id" d) sid n h) o w1)
      as (w2 & -> & Hd2). apply appended_logged in H as (row & (Ha & Hg & Hr) & Hk & Hb).
    left. rewrite Hd2. split_and!; [done|done| |done|].
    + by eexists _, row.
    + rewrite Hr. simpl. rewrite lookup_insert_eq. by eexists.
  - destruct H as (-> & _ & _ & Hd). pose proof (gov_deny_run v p sid n h instant "already_redeemed" o w1) as Hr.
    rewrite Hd in Hr. destruct (gov_deny _ _ _ _ _ _ _ _ o w1) as [[pl|e] w2]; [by right|done].
Qed.

(** What a redemption of the grant document [d] by [p] at [instant] asks for. *)
Definition contract_met (grant : pyval) (d : pydict) (p : Principal) (sid n : string) (args : pydict)
    (instant : pyval) : Prop :=
  (∃ v, verify_grant grant (gov_trust_root_pem cfg) instant None (gov_revocation_list cfg) = Ok v ∧
        valid v = true ∧ payload v = Some d) ∧
  scope_failures d (principal_id p) (gov_provider_id cfg) sid n args = Ok [].

Lemma gov_redeem_run grant principal sid n args at_ o w :
  let '(r, w') := redeem_governance_grant cfg grant principal sid n args at_ o w in
  match r with
  | Ok pl =>
      (∃ why, denial why pl (w_db w) (w_db w')) ∨
      ∃ d p a h instant, _parse_principal principal = Ok p ∧ args = PDict a ∧ args_hash args = Ok h ∧
        (at_ ≠ PNone → instant = at_) ∧ (at_ = PNone → ∃ k, instant = PStr (isoformat (clock o k))) ∧
        contract_met grant d p sid n a instant ∧ claimed_now d pl (w_db w) (w_db w')
  | Raise _ => w_db w' = w_db w
  end.
Proof.
  unfold redeem_governance_grant.
  destruct (_parse_principal principal) as [p|e]; svc_step; [|done].
  destruct (bound_args_hash args) as [h|e] eqn:Hh; svc_step; [|done]. svc_step.
  set (m := if decide (at_ = PNone) then _ else _).
  assert (∃ w1, w_db w1 = w_db w ∧ ((∃ e, m o w = (Raise e, w1)) ∨ ∃ instant, m o w = (Ok instant, w1) ∧
    (at_ ≠ PNone → instant = at_) ∧ (at_ = PNone → ∃ k, instant = PStr (isoformat (clock o k)))))
    as (w1 & Hd1 & [[e ->]|(instant & -> & Hat)]); [|done|].
  { subst m. case_decide as Hn; [|exists w; split; [done|]; right; by exists at_].
    svc_step. destruct (now_run o w) as (k & w1 & -> & Hd). exists w1. split; [done|]. right. eexists.
    split; [reflexivity|]. split; [done|]. intros _. by exists k. }
  destruct (verify_grant grant _ instant None _) as [v|e] eqn:Hv; svc_step; [|done].
  assert (∀ why, let '(r, w') := gov_deny cfg v p sid n h instant why o w1 in
    match r with Ok pl => ∃ why, denial why pl (w_db w) (w_db w') | Raise _ => w_db w' = w_db w end) as Hdeny.
  { intros why. pose proof (gov_deny_run v p sid n h instant why o w1) as Hr. rewrite Hd1 in Hr.
    destruct (gov_deny _ _ _ _ _ _ _ _ o w1) as [[pl|e] w2]; [by exists why|done]. }
  assert (∀ codes, let '(r, w') := match codes with
      | why :: _ => gov_deny cfg v p sid n h instant why
      | [] => throw IndexError end o w1 in
    match r with Ok pl => ∃ why, denial why pl (w_db w) (w_db w') | Raise _ => w_db w' = w_db w end) as Hcodes.
  { intros [|why codes]; [done|apply Hdeny]. }
  destruct (valid v) eqn:Hval; [destruct (payload v) as [d|] eqn:Hpay|].
  2-3: specialize (Hcodes (failure_codes v)); destruct (_ o w1) as [[pl|e] w2]; [by left|done].
  destruct (scope_failures d _ _ sid n _) as [[|why fs]|e] eqn:Hs; svc_step; [| |done].
  - pose proof (gov_claim_run v d p sid n h instant o w1) as Hc. rewrite Hd1 in Hc.
    destruct (gov_claim _ _ _ _ _ _ _ _ o w1) as [[pl|e] w2]; [|done]. destruct Hc as [Hc|Hc]; [right|left; eauto].
    destruct args as [| | | | | |a|]; try done.
    exists d, p, a, h, instant. split_and!; try done; [exact (bound_hash_ok _ _ Hh)|exact (proj1 Hat)|exact (proj2 Hat)|by split; [exists v|]].
  - specialize (Hdeny why). destruct (gov_deny _ _ _ _ _ _ _ _ o w1) as [[pl|e] w2]; [by left|done].
Qed.

Lemma contract_grant_id grant d p sid n a instant :
  contract_met grant d p sid n a instant → dget "grant_id" d = PStr (text_of (dget "grant_id" d)).
Proof.
  intros [Hv _]. apply verify_grant_valid in Hv as (g & root & t & _ & Hw & _).
  destruct (well_shaped_text g d "grant_id" Hw) as (s & -> & _); [set_solver|done].
Qed.

(** C10 -- Every governance enforcement leaves exactly one record: a call that answers
    appends one [provider_enforcement] record, which says [redeemed] exactly when the
    answer does, and then the grant's id, until then unclaimed, is claimed; otherwise it
    says [denied:] with the answer's reason and nothing else changes.  A call that raises
    changes the database not at all. *)
Theorem governance_calls_recorded (grant principal : pyval) (sid n : string) (args at_ : pyval)
    (o : oracle) (w : world) :
  let '(r, w') := redeem_governance_grant cfg grant principal sid n args at_ o w in
  match r with
  | Ok pl =>
      ∃ text, enforcement text (w_db w) (w_db w') ∧
        ((dget "redeemed" pl = PBool true ∧ text = "redeemed" ∧
          ∃ gid, dget "grant_id" pl = PStr gid ∧ redemptions_t (w_db w) !! gid = None ∧
            is_Some (redemptions_t (w_db w') !! gid)) ∨
         (dget "redeemed" pl = PBool false ∧ redemptions_t (w_db w') = redemptions_t (w_db w) ∧
          ∃ why, dget "reason" pl = PStr why ∧ text = "denied:" +:+ why))
  | Raise _ => w_db w' = w_db w
  end.
Proof.
  pose proof (gov_redeem_run grant principal sid n args at_ o w) as H.
  destruct (redeem_governance_grant _ _ _ _ _ _ _ o w) as [[pl|e] w']; [|done].
  destruct H as [(why & Hr & Hw & He & Hs)|(d & p & a & h & i & _ & _ & _ & _ & _ & Hc & Hr & Hg & He & Hn & Hs)].
  - eexists. split; [exact He|]. right. eauto.
  - eexists. split; [exact He|]. left. rewrite (contract_grant_id _ _ _ _ _ _ _ Hc) in Hg. eauto 10.
Qed.

(** C9 -- A governance redemption is authorized end to end: when [redeem_governance_grant]
    answers [redeemed: true], the document is complete and signed by the configured trust
    root, the instant (the caller's, or a reading of the clock during the call) lies in
    the grant's window, the configured revocation list clears it, and the grant is for
    this provider, principal, operation, tool, source and arguments. *)
Theorem governance_redemption_authorized (grant principal : pyval) (sid n : string) (args at_ : pyval)
    (o : oracle) (w w' : world) (pl : pydict) :
  redeem_governance_grant cfg grant principal sid n args at_ o w = (Ok pl, w') →
  dget "redeemed" pl = PBool true →
  ∃ g d p a instant root t operations constraints,
    grant = PDict g ∧ _parse_principal principal = Ok p ∧ args = PDict a ∧
    (instant = at_ ∨ at_ = PNone ∧ ∃ k, instant = PStr (isoformat (clock o k))) ∧
    well_shaped g d ∧ gov_trust_root_pem cfg = Some root ∧
    signed_by root (dget "issuer_key_id" d) (signed_bytes g d) ∧
    _parse_rfc3339 instant = Ok t ∧ in_window d t ∧
    not_revoked d root instant (gov_revocation_list cfg) ∧
    dget "permitted_operations" d = PList operations ∧ PStr INVOKE_OPERATION ∈ operations ∧
    dget "argument_constraints" d = PDict constraints ∧
    dget "provider_id" d = PStr (gov_provider_id cfg) ∧
    dget "requesting_principal_id" d = PStr (principal_id p) ∧
    dict_get (KStr "tool") constraints = Some (PStr n) ∧
    (∀ v, dict_get (KStr "source") constraints = Some v → v = PStr sid) ∧
    ∀ k expected, (k, expected) ∈ constraints → k ≠ KStr "tool" → k ≠ KStr "source" →
      ∃ v, dict_get k a = Some v ∧ py_eq v expected = true.
Proof.
  intros Hrun Hred. pose proof (gov_redeem_run grant principal sid n args at_ o w) as H. rewrite Hrun in H.
  destruct H as [(why & Hr & _)|(d & p & a & h & i & Hp & -> & _ & Ha & Hn & [Hv Hs] & _)]; [congruence|].
  apply verify_grant_valid in Hv as (g & root & t & -> & Hw & Hroot & Hsig & _ & Ht & Hwin & Hrev).
  destruct (scope_failures_spec g d (principal_id p) (gov_provider_id cfg) sid n a Hw)
    as (l & ops & cs & Hl & Hops & Hcs & Hiff).
  rewrite Hs in Hl. injection Hl as <-. destruct (proj1 Hiff eq_refl) as (? & ? & ? & ? & ? & ?).
  exists g, d, p, a, i, root, t, ops, cs. split_and!; try done.
  destruct (decide (at_ = PNone)) as [Hat|Hat]; [right; auto|left; auto].
Qed.

(** ** One use, over histories *)

Lemma perform_redemptions c o w gid :
  is_Some (redemptions_t (w_db w) !! gid) → is_Some (redemptions_t (w_db (perform cfg c o w).2) !! gid).
Proof.
  intros [x Hx]. destruct (perform_kept cfg c o w) as [Hk|(d1 & Hm & Hk)].
  - exists x. by apply (k_redemptions _ _ Hk).
  - exists x. apply (k_redemptions _ _ Hk). destruct Hm as [Hm|Hm]; [by apply (k_redemptions _ _ Hm)|].
    destruct Hm as (? & ? & ? & ? & ? & ? & (_ & _ & Hr) & _ & _ & _ & _ & pay & t & _ & _ & ->).
    simpl. by rewrite Hr.
Qed.

(** The calls of a history that redeemed a governance grant. *)
Definition gov_redeemed_call (gid : string) (x : call * res pydict) : bool :=
  match x with
  | (CGov _ _ _ _ _ _, Ok pl) =>
      bool_decide (dget "grant_id" pl = PStr gid) && bool_decide (dget "redeemed" pl = PBool true)
  | _ => false
  end.
Definition gov_redeemed_calls (gid : string) (calls : list call) (rs : list (res pydict)) : nat :=
  length (filter (λ x, gov_redeemed_call gid x = true) (zip calls rs)).

Lemma gov_call_fresh gid c o w :
  gov_redeemed_call gid (c, (perform cfg c o w).1) = true →
  redemptions_t (w_db w) !! gid = None ∧ is_Some (redemptions_t (w_db (perform cfg c o w).2) !! gid).
Proof.
  destruct c; try done. simpl. pose proof (gov_redeem_run grant principal source_id name args at_ o w) as H.
  destruct (redeem_governance_grant _ _ _ _ _ _ _ o w) as [[pl|e] w']; [|done]. simpl.
  intros [Hg%bool_decide_eq_true Hr%bool_decide_eq_true]%andb_true_iff.
  destruct H as [(why & Hf & _)|(d & p & a & h & i & _ & _ & _ & _ & _ & Hc & _ & Hid & _ & Hn & Hs)]; [congruence|].
  rewrite Hid, (contract_grant_id _ _ _ _ _ _ _ Hc) in Hg. injection Hg as Hg. by rewrite Hg in Hn, Hs.
Qed.

Lemma gov_claimed_never_again calls gid : ∀ o w,
  is_Some (redemptions_t (w_db w) !! gid) → gov_redeemed_calls gid calls (serve cfg calls o w).1 = 0%nat.
Proof.
  induction calls as [|c calls IH]; intros o w Hs; simpl; [done|].
  pose proof (perform_redemptions c o w gid Hs) as Hs1. pose proof (gov_call_fresh gid c o w) as Hf.
  destruct (perform cfg c o w) as [r w1]. simpl in *. specialize (IH o w1 Hs1).
  destruct (serve cfg calls o w1) as [rs w2]. unfold gov_redeemed_calls in *. simpl in *.
  rewrite filter_cons, decide_False; [done|]. intros Hred. destruct (Hf Hred) as [Hn _].
  rewrite Hn in Hs. by destruct Hs.
Qed.

(** C14 -- One use of a governance grant, end to end: over any history of service calls,
    failures included, at most one redemption of a given grant id is answered
    [redeemed: true], and none once the id is claimed. *)
Theorem governance_redeemed_at_most_once (calls : list call) (o : oracle) (w : world) (gid : string) :
  (gov_redeemed_calls gid calls (serve cfg calls o w).1 ≤ 1)%nat ∧
  (is_Some (redemptions_t (w_db w) !! gid) → gov_redeemed_calls gid calls (serve cfg calls o w).1 = 0%nat).
Proof.
  split; [|apply gov_claimed_never_again].
  revert w. induction calls as [|c calls IH]; intros w; simpl; [unfold gov_redeemed_calls; simpl; lia|].
  pose proof (gov_call_fresh gid c o w) as Hf. destruct (perform cfg c o w) as [r w1]. simpl in *.
  pose proof (gov_claimed_never_again calls gid o w1) as Hdead. specialize (IH w1).
  destruct (serve cfg calls o w1) as [rs w2]. unfold gov_redeemed_calls in *. simpl in *.
  rewrite filter_cons. case_decide as Hred; [|done]. simpl.
  destruct (Hf Hred) as [_ Hs]. rewrite (Hdead Hs). lia.
Qed.
End gov.

(** ** Witnesses *)

(** The service configured with the sample revocation list. *)
Definition governed : config := mkConfig (mkBus None None) (Some "ROOT") (PDict sample_list) "toolconnect".
Definition gov_args : pyval := PDict [(KStr "limit", PInt 1)].

Definition gov_run : res pydict * world :=
  redeem_governance_grant (rt := coded_float_runtime) (dt := decimal_datetime) (crypto := toy_crypto)
    (endpoint := no_endpoint) governed (PDict (sample_grant full_bounds)) alice "ws" "search" gov_args
    (PStr "150") calm fresh_world.

Lemma governance_redemption_authorized_witness :
  match gov_run with
  | (Ok pl, _) => dget "redeemed" pl = PBool true ∧
      ∃ d t, signed_by (crypto := toy_crypto) "ROOT" (dget "issuer_key_id" d)
               (signed_bytes (rt := coded_float_runtime) (sample_grant full_bounds) d) ∧
        _parse_rfc3339 (dt := decimal_datetime) (PStr "150") = Ok t ∧ in_window (dt := decimal_datetime) d t
  | _ => False
  end.
Proof.
  destruct gov_run as [[pl|e] w'] eqn:E; [|vm_compute in E; discriminate E].
  assert (dget "redeemed" pl = PBool true) as Hr.
  { assert (match gov_run.1 with Ok pl => dget "redeemed" pl | Raise _ => PNone end = PBool true) as H
      by (vm_compute; reflexivity). rewrite E in H. exact H. }
  split; [exact Hr|].
  destruct (governance_redemption_authorized (rt := coded_float_runtime) (dt := decimal_datetime)
    (crypto := toy_crypto) (endpoint := no_endpoint) governed (PDict (sample_grant full_bounds)) alice "ws"
    "search" gov_args (PStr "150") calm fresh_world w' pl E Hr)
    as (g & d & p & a & i & root & t & ops & cs & Hg & _ & _ & Hi & _ & Hroot & Hsig & Ht & Hwin & _).
  injection Hg as <-. injection Hroot as <-.
  destruct Hi as [->|[Hi _]]; [|discriminate Hi].
  exists d, t. split; [exact Hsig|]. split; [exact Ht|exact Hwin].
Defined.
