(* ===== verification/Gateway.v ===== *)
(** [gateway.py]: the MCP enforcement proxy in front of one downstream server.

    The gateway's state is the service's world, the link to the downstream process and
    the messages written to the client.  The downstream process is the environment: which
    writes to it fail, and what each turn of the read loop sees.  Lines to stderr are
    not modelled; how the process ends is in [Subprocess]. *)

From S2P Require Import Prelude PyJson PyJsonLoads PyStr PyColl PyEq PyIo Descriptor Catalog Policy.
From S2P Require Import DateTime Db AuditLog BusPublish GovGrants McpSource Service.

(** ** Codes and bounds *)

Definition PARSE_ERROR : Z := -32700.
Definition INVALID_REQUEST : Z := -32600.
Definition METHOD_NOT_FOUND : Z := -32601.
Definition INVALID_PARAMS : Z := -32602.
Definition INTERNAL_ERROR : Z := -32603.
Definition _MAX_FRAME_BYTES : Z := 8 * 1024 * 1024.
Definition _MAX_LIST_PAGES : Z := 100.
Definition _MAX_LIST_TOOLS : Z := 10000.
Definition DENIED : Z := -32001.
Definition REDEEM_DENIED : Z := -32002.
Definition DOWNSTREAM_UNAVAILABLE : Z := -32003.
Definition NOT_PERMITTED : Z := -32004.

Definition _PASSTHROUGH_REQUESTS : list string := ["initialize"; "ping"].
Definition _PASSTHROUGH_NOTIFICATIONS : list string := ["notifications/initialized"].
Definition _FILTERED_LIST : string := "tools/list".
Definition _GOVERNED_CALL : string := "tools/call".

(** ** The downstream link *)

(** One turn of a read loop: what [select] and [os.read] gave, or the clock past the
    deadline of the call in progress.  After the last turn every deadline has passed. *)
Inductive turn :=
| Turn (ev : io_event)
| Late.

(** [_DownstreamLink]: the buffer, the end of the stream, what is still to come, the next
    request id, and the messages written and the number of writes tried. *)
Record link := mkLink {
  l_buf : string;
  l_eof : bool;
  l_turns : list turn;
  l_next_id : Z;
  l_sent : list pyval;
  l_writes : nat;
}.

Definition open_link (turns : list turn) : link := mkLink "" false turns 1 [] 0.

(** A round trip ends with a result or with the error object of [DownstreamRpcError]. *)
Inductive reply (A : Type) :=
| Answer (a : A)
| RpcError (code : Z) (message : string) (data : pyval).
Arguments Answer {A} _.
Arguments RpcError {A} _ _ _.

Definition too_late : exn :=
  DownstreamTransportError "timeout" "downstream server did not respond before the deadline".

Module Link.

(** The loop of [_read_line]. *)
Fixpoint read_loop (buf : string) (eof : bool) (turns : list turn) :
    res string * (string * bool * list turn) :=
  let '(line, found, rest) := partition newline buf in
  if found : bool then (Ok line, (rest, eof, turns))
  else
    match turns with
    | [] => (Raise too_late, (buf, eof, []))
    | Late :: turns' => (Raise too_late, (buf, eof, turns'))
    | Turn ev :: turns' =>
        if eof then
          (Raise (DownstreamTransportError "truncated_response" "downstream stream ended mid-message"),
           (buf, eof, turns))
        else
          match ev with
          | Idle => read_loop buf eof turns'
          | Data chunk =>
              if decide (chunk = "") then
                if decide (buf = "") then
                  (Raise (DownstreamTransportError "truncated_response"
                     "downstream closed the stream with no response"), (buf, true, turns'))
                else read_loop buf true turns'
              else
                let buf' := buf +:+ chunk in
                if negb (string_has newline buf') && (_MAX_FRAME_BYTES <? Z.of_nat (String.length buf')) then
                  (Raise (DownstreamTransportError "oversized_frame" "downstream frame exceeded 8388608 bytes"),
                   ("", eof, turns'))
                else read_loop buf' eof turns'
          end
    end.

(** [_read_line(deadline)] *)
Definition _read_line : st link string := λ l,
  let '(r, (buf, eof, turns)) := read_loop (l_buf l) (l_eof l) (l_turns l) in
  (r, mkLink buf eof turns (l_next_id l) (l_sent l) (l_writes l)).

Section link.
Context {rt : PyFloatRuntime} {utf8 : Utf8} (broken_pipe : nat → bool).

(** [_send(message)] *)
Definition _send (message : pyval) : st link unit :=
  l ← st_get;
  _ ← st_lift (json_dumps true false true message);
  if broken_pipe (l_writes l) then
    _ ← st_modify (λ l, mkLink (l_buf l) (l_eof l) (l_turns l) (l_next_id l) (l_sent l) (S (l_writes l)));
    st_throw (DownstreamTransportError "broken_pipe" "downstream server closed stdin")
  else
    st_modify (λ l, mkLink (l_buf l) (l_eof l) (l_turns l) (l_next_id l) (l_sent l ++ [message]) (S (l_writes l))).

(** [_receive(deadline)]: [except json.JSONDecodeError] does not catch a decoding error. *)
Definition _receive : st link pydict :=
  line ← _read_line;
  match utf8_decode line with
  | None => st_throw (ValueError "'utf-8' codec can't decode frame")
  | Some text =>
      match json_loads text with
      | Raise JSONDecodeError =>
          st_throw (DownstreamTransportError "malformed_json" "unparseable frame from downstream")
      | Raise e => st_throw e
      | Ok (PDict msg) =>
          if py_eq (dget "jsonrpc" msg) (PStr "2.0") then mret msg
          else st_throw (DownstreamTransportError "protocol_error" "frame is not a JSON-RPC 2.0 message")
      | Ok _ => st_throw (DownstreamTransportError "protocol_error" "frame is not a JSON-RPC 2.0 message")
      end
  end.

(** Complete frames still to come. *)
Fixpoint turn_frames (turns : list turn) : nat :=
  match turns with
  | Turn (Data c) :: turns' => newlines c + turn_frames turns'
  | _ :: turns' => turn_frames turns'
  | [] => 0
  end.

Definition frames_left (l : link) : nat := newlines (l_buf l) + turn_frames (l_turns l).

(** The refusal of a request the downstream server makes. *)
Definition server_request_refusal (id : pyval) : pyval :=
  PDict [str_pair "jsonrpc" (PStr "2.0"); str_pair "id" id;
         str_pair "error" (PDict [str_pair "code" (PInt METHOD_NOT_FOUND);
           str_pair "message" (PStr "server-initiated requests are not supported through the ToolConnect gateway")])].

(** The error object of a reply. *)
Definition rpc_error {A} (error : pyval) : res (reply A) :=
  let err := match error with PDict d => d | _ => [] end in
  code ← int_of (py_or (dget "code" err) (PInt INTERNAL_ERROR));
  Ok (RpcError code (py_str (py_or (dget "message" err) (PStr "downstream error"))) (dget "data" err)).

(** The [while True] of [call]. *)
Fixpoint await_reply (fuel : nat) (req_id : Z) (method : string) : st link (reply pydict) :=
  match fuel with
  | O => st_throw out_of_fuel
  | S fuel =>
      msg ← _receive;
      if negb (py_eq (dget "id" msg) (PInt req_id)) then
        _ ← (if dhas "method" msg && negb (bool_decide (dget "id" msg = PNone))
             then _send (server_request_refusal (dget "id" msg)) else mret tt);
        await_reply fuel req_id method
      else if dhas "error" msg then st_lift (rpc_error (dget "error" msg))
      else if dhas "result" msg then
        mret (Answer (match dget "result" msg with PDict d => d | _ => [] end))
      else st_throw (DownstreamTransportError "protocol_error"
             (method +:+ " response has neither result nor error"))
  end.

(** [call(method, params, timeout)] *)
Definition call (method : string) (params : pydict) : st link (reply pydict) :=
  l ← st_get;
  let req_id := l_next_id l in
  _ ← st_modify (λ l, mkLink (l_buf l) (l_eof l) (l_turns l) (req_id + 1) (l_sent l) (l_writes l));
  _ ← _send (rpc req_id method params);
  l ← st_get;
  await_reply (S (frames_left l)) req_id method.

(** [notify(method, params)] *)
Definition notify (method : string) (params : pydict) : st link unit :=
  _send (PDict [str_pair "jsonrpc" (PStr "2.0"); str_pair "method" (PStr method);
                str_pair "params" (PDict params)]).
End link.
End Link.

(** ** The gateway *)

Record gw := mkGw {
  g_world : world;
  g_link : link;
  g_out : list pyval;
}.

(** What a gateway is constructed with. *)
Record gateway := mkGateway {
  gw_service : config;
  gw_principal : pydict;
  gw_source_id : string;
  gw_broken_pipe : nat → bool;
}.

(** [Gateway.__init__(...)] *)
Definition new_gateway (service : config) (principal : pydict) (source_id : string) (command : list string)
    (spawn_fails : bool) (broken_pipe : nat → bool) (turns : list turn) (w : world) : res (gateway * gw) :=
  if decide (source_id = "") then Raise (ValueError "gateway requires a source_id")
  else if decide (command = []) then Raise (ValueError "gateway requires a downstream command")
  else if spawn_fails then Raise (DownstreamTransportError "spawn_failed" "could not start the downstream command")
  else Ok (mkGateway service principal source_id broken_pipe, mkGw w (open_link turns) []).

Definition gwm (A : Type) : Type := oracle → st gw A.

#[global] Instance gwm_ret : MRet gwm := λ A a o g, (Ok a, g).
#[global] Instance gwm_bind : MBind gwm := λ A B f m o g,
  match m o g with
  | (Ok a, g') => f a o g'
  | (Raise e, g') => (Raise e, g')
  end.

Definition on_service {A} (m : svc A) : gwm A := λ o g,
  let '(r, w) := m o (g_world g) in (r, mkGw w (g_link g) (g_out g)).
Definition on_link {A} (m : st link A) : gwm A := λ o g,
  let '(r, l) := m (g_link g) in (r, mkGw (g_world g) l (g_out g)).
Definition step {A} (r : res A) : gwm A := λ o g, (r, g).

(** [self._out.write(...)] *)
Definition to_client (message : pyval) : gwm unit := λ o g,
  (Ok tt, mkGw (g_world g) (g_link g) (g_out g ++ [message])).

(** [try: m]: what [m] gave, an exception included. *)
Definition attempt {A} (m : gwm A) : gwm (res A) := λ o g, let '(r, g') := m o g in (Ok r, g').

Section gateway.
Context {rt : PyFloatRuntime} {dt : PyDatetime} {utf8 : Utf8} {crypto : Cryptography}
  {engine : PolicyEngine} {processes : Processes} {endpoint : BusEndpoint} (gc : gateway).

(** ** Wire plumbing *)

(** [_write(message)] *)
Definition _write (message : pyval) : gwm unit :=
  _ ← step (json_dumps true false true message);
  to_client message.

(** [_respond(req_id, result)] *)
Definition response (req_id result : pyval) : pyval :=
  PDict [str_pair "jsonrpc" (PStr "2.0"); str_pair "id" req_id; str_pair "result" result].
Definition _respond (req_id result : pyval) : gwm unit := _write (response req_id result).

(** [_refuse(req_id, code, message, data)] *)
Definition refusal (req_id : pyval) (code : Z) (message data : pyval) : pyval :=
  PDict [str_pair "jsonrpc" (PStr "2.0"); str_pair "id" req_id;
    str_pair "error" (PDict ([str_pair "code" (PInt code); str_pair "message" message] ++
      if decide (data = PNone) then [] else [str_pair "data" data]))].
Definition _refuse (req_id : pyval) (code : Z) (message data : pyval) : gwm unit :=
  _write (refusal req_id code message data).
Definition refuse (req_id : pyval) (code : Z) (message : string) : gwm unit :=
  _refuse req_id code (PStr message) PNone.

(** [self._downstream.call(method, params, self.timeout)], its transport faults refused. *)
Definition unavailable (req_id : pyval) (e : exn) : gwm unit :=
  match e with
  | DownstreamTransportError _ m => refuse req_id DOWNSTREAM_UNAVAILABLE ("downstream unavailable: " +:+ m)
  | e => step (Raise e)
  end.

Definition downstream_call (method : string) (params : pydict) : gwm (reply pydict) :=
  on_link (Link.call (gw_broken_pipe gc) method params).

(** [_forward_passthrough(req_id, method, params)] *)
Definition _forward_passthrough (req_id : pyval) (method : string) (params : pydict) : gwm unit :=
  r ← attempt (downstream_call method params);
  match r with
  | Ok (Answer result) => _respond req_id (PDict result)
  | Ok (RpcError code message data) => _refuse req_id code (PStr message) data
  | Raise e => unavailable req_id e
  end.

(** ** tools/list *)

Definition protocol_fault (m : string) : exn := DownstreamTransportError "protocol_error" m.

(** The loop over the pages: the accumulated tools, or the downstream's error. *)
Fixpoint gather (fuel : nat) (cursor : option string) (seen : list string) (pages : Z) (tools : list pyval) :
    st link (reply (list pyval)) :=
  match fuel with
  | O => st_throw out_of_fuel
  | S fuel =>
      r ← Link.call (gw_broken_pipe gc) "tools/list"
            (match cursor with Some c => [str_pair "cursor" (PStr c)] | None => [] end);
      match r with
      | RpcError code message data => mret (RpcError code message data)
      | Answer result =>
          match dget "tools" result with
          | PList page =>
              let tools := tools ++ page in
              let pages := pages + 1 in
              if _MAX_LIST_TOOLS <? Z.of_nat (length tools) then
                st_throw (protocol_fault "tools/list accumulated more than 10000 tools")
              else
                match dget "nextCursor" result with
                | PNone => mret (Answer tools)
                | PStr next =>
                    if decide (next ∈ seen) then
                      st_throw (protocol_fault "tools/list pagination cycled (cursor repeated)")
                    else if _MAX_LIST_PAGES <=? pages then
                      st_throw (protocol_fault "tools/list exceeded 100 pages")
                    else gather fuel (Some next) (next :: seen) pages tools
                | _ => st_throw (protocol_fault "tools/list nextCursor is not a string")
                end
          | _ => st_throw (protocol_fault "tools/list result lacks a tools array")
          end
      end
  end.

(** The tools of a listing that this catalog has asserted and invocable. *)
Fixpoint invocable_only (c : Catalog) (source_id : string) (tools : list pyval) : res (list pyval) :=
  match tools with
  | [] => Ok []
  | PDict t :: tools' =>
      match dget "name" t with
      | PStr n =>
          b ← Catalog.invocable c source_id n;
          rest ← invocable_only c source_id tools';
          Ok (if b : bool then PDict t :: rest else rest)
      | _ => invocable_only c source_id tools'
      end
  | _ :: tools' => invocable_only c source_id tools'
  end.

(** [_handle_tools_list(req_id)] *)
Definition _handle_tools_list (req_id : pyval) : gwm unit :=
  r ← attempt (on_link (gather (Z.to_nat _MAX_LIST_PAGES) None [] 0 []));
  match r with
  | Ok (RpcError code message data) => _refuse req_id code (PStr message) data
  | Raise e => unavailable req_id e
  | Ok (Answer tools) =>
      c ← on_service catalog;
      filtered ← step (invocable_only c (gw_source_id gc) tools);
      _respond req_id (PDict [str_pair "tools" (PList filtered)])
  end.

(** ** tools/call *)

(** [_best_effort_outcome(...)]: every exception is logged and swallowed. *)
Definition _best_effort_outcome (decision_id grant_id outcome : string) (detail : pyval) : gwm unit :=
  _ ← attempt (on_service (record_outcome (gw_service gc) decision_id outcome detail (PStr grant_id)));
  mret tt.

(** [except ServiceError as exc]: its message refused. *)
Definition service_refusal (req_id : pyval) (e : exn) : gwm unit :=
  match e with
  | ServiceError _ m => refuse req_id INVALID_PARAMS m
  | e => step (Raise e)
  end.

(** The forwarding of an authorized, redeemed call and its outcome. *)
Definition forward_call (req_id : pyval) (name : string) (frozen_args : pydict) (decision_id grant_id : string) :
    gwm unit :=
  r ← attempt (downstream_call "tools/call" [str_pair "name" (PStr name); str_pair "arguments" (PDict frozen_args)]);
  match r with
  | Ok (RpcError code message data) =>
      _ ← _best_effort_outcome decision_id grant_id "executed"
            (PDict [str_pair "downstream_error"
                      (PDict [str_pair "code" (PInt code); str_pair "message" (PStr message)])]);
      _refuse req_id code (PStr message) data
  | Raise (DownstreamTransportError kind m) =>
      _ ← _best_effort_outcome decision_id grant_id "error"
            (PDict [str_pair "fault_kind" (PStr kind); str_pair "error" (PStr m)]);
      unavailable req_id (DownstreamTransportError kind m)
  | Raise e => step (Raise e)
  | Ok (Answer result) =>
      _ ← _best_effort_outcome decision_id grant_id "executed" PNone;
      _respond req_id (PDict result)
  end.

(** The redemption of the grant of an allowed call. *)
Definition redeem_and_forward (req_id : pyval) (name : string) (frozen_args : pydict)
    (decision_id grant_id : string) : gwm unit :=
  redemption ← attempt (on_service (redeem (gw_service gc) grant_id (PDict (gw_principal gc)) (PDict frozen_args)));
  match redemption with
  | Raise e => service_refusal req_id e
  | Ok redemption =>
      redeemed ← step (ditem "redeemed" redemption);
      if negb (py_truthy redeemed) then
        reason ← step (ditem "reason" redemption);
        _refuse req_id REDEEM_DENIED (py_or reason (PStr "redeem denied"))
          (PDict [str_pair "decision_id" (PStr decision_id); str_pair "grant_id" (PStr grant_id)])
      else forward_call req_id name frozen_args decision_id grant_id
  end.

(** The governed path, on the one mapping it uses. *)
Definition governed_call (req_id : pyval) (name : string) (frozen_args : pydict) : gwm unit :=
  decision ← attempt (on_service (authorize (gw_service gc) (PDict (gw_principal gc)) (gw_source_id gc) name
                                    PNone (Some (PDict frozen_args)) PNone));
  match decision with
  | Raise e => service_refusal req_id e
  | Ok decision =>
      allowed ← step (ditem "allowed" decision);
      if negb (py_truthy allowed) then
        reason ← step (ditem "reason" decision);
        id ← step (ditem "decision_id" decision);
        _refuse req_id DENIED (py_or reason (PStr "denied")) (PDict [str_pair "decision_id" id])
      else if decide (dget "grant" decision = PNone) then
        refuse req_id INTERNAL_ERROR "authorize allowed but issued no grant"
      else
        grant_id ← step (py_item (dget "grant" decision) "grant_id");
        decision_id ← step (ditem "decision_id" decision);
        redeem_and_forward req_id name frozen_args (text_of decision_id) (text_of grant_id)
  end.

(** [_handle_tools_call(req_id, params)] *)
Definition _handle_tools_call (req_id : pyval) (params : pydict) : gwm unit :=
  match dget "name" params with
  | PStr (String a b) =>
      match dget_or "arguments" (PDict []) params with
      | PNone => governed_call req_id (String a b) []
      | PDict arguments => governed_call req_id (String a b) arguments
      | _ => refuse req_id INVALID_PARAMS "'arguments' must be an object"
      end
  | _ => refuse req_id INVALID_PARAMS "tools/call requires a string 'name'"
  end.

(** ** Dispatch *)

(** [_dispatch_notification(method, params)] *)
Definition _dispatch_notification (method : string) (params : pydict) : gwm unit :=
  if decide (method ∈ _PASSTHROUGH_NOTIFICATIONS) then
    r ← attempt (on_link (Link.notify (gw_broken_pipe gc) method params));
    match r with
    | Raise (DownstreamTransportError _ _) => mret tt
    | r => step r
    end
  else mret tt.

(** [_dispatch_request(req_id, method, params)] *)
Definition _dispatch_request (req_id : pyval) (method : string) (params : pydict) : gwm unit :=
  if decide (method ∈ _PASSTHROUGH_REQUESTS) then _forward_passthrough req_id method params
  else if decide (method = _FILTERED_LIST) then _handle_tools_list req_id
  else if decide (method = _GOVERNED_CALL) then _handle_tools_call req_id params
  else refuse req_id NOT_PERMITTED
         ("method " +:+ repr_str method +:+ " is not permitted through the ToolConnect gateway").

Definition refuse_with_id (msg : pydict) (code : Z) (m : string) : gwm unit :=
  if dhas "id" msg then refuse (dget "id" msg) code m else mret tt.

(** A well-formed message: dispatched, a bug in dispatch still answered. *)
Definition dispatch (msg : pydict) (method : string) (params : pydict) : gwm unit :=
  r ← attempt (if dhas "id" msg then _dispatch_request (dget "id" msg) method params
               else _dispatch_notification method params);
  match r with
  | Ok _ => mret tt
  | Raise e => refuse_with_id msg INTERNAL_ERROR ("gateway internal error: " +:+ str_exn e)
  end.

(** A JSON object: its version, method and parameters checked. *)
Definition handle_message (msg : pydict) : gwm unit :=
  if negb (py_eq (dget "jsonrpc" msg) (PStr "2.0")) then
    refuse_with_id msg INVALID_REQUEST "missing or wrong jsonrpc version"
  else
    match dget "method" msg with
    | PStr (String a b) =>
        match dget "params" msg with
        | PNone => dispatch msg (String a b) []
        | PDict params => dispatch msg (String a b) params
        | _ => refuse_with_id msg INVALID_PARAMS "params must be an object"
        end
    | _ => refuse_with_id msg INVALID_REQUEST "missing or invalid method"
    end.

(** [_handle_line(line)] *)
Definition _handle_line (line : string) : gwm unit :=
  match json_loads line with
  | Raise JSONDecodeError => refuse PNone PARSE_ERROR "invalid JSON"
  | Raise e => step (Raise e)
  | Ok (PList _) => refuse PNone INVALID_REQUEST "batched requests are not permitted through this gateway"
  | Ok (PDict msg) => handle_message msg
  | Ok _ => refuse PNone INVALID_REQUEST "message must be a JSON object"
  end.

(** ** The session *)

(** The rest of an oversized line, discarded. *)
Fixpoint drain (fuel : nat) (input : string) : string :=
  match fuel with
  | O => input
  | S fuel =>
      let '(rest, input') := readline _MAX_FRAME_BYTES input in
      if bool_decide (rest = "") || ends_nl rest then input' else drain fuel input'
  end.

(** [run()]: the client's input to its end; what is left unread. *)
Fixpoint run (fuel : nat) (input : string) : gwm string :=
  match fuel with
  | O => mret input
  | S fuel =>
      let '(line, rest) := readline (_MAX_FRAME_BYTES + 1) input in
      if decide (line = "") then mret rest
      else if (_MAX_FRAME_BYTES <? Z.of_nat (String.length line)) && negb (ends_nl line) then
        _ ← attempt (refuse PNone INVALID_REQUEST "frame exceeds 8388608 bytes; refused");
        run fuel (drain (S (String.length rest)) rest)
      else
        let line := py_strip line in
        if decide (line = "") then run fuel rest
        else _ ← attempt (_handle_line line); run fuel rest
  end.

Definition session (input : string) : gwm string := run (S (String.length input)) input.
End gateway.
