(* ===== verification/Subprocess.v ===== *)
(** The end of a subprocess: [_StdioTransport.close] of [mcp_source.py] and
    [_DownstreamLink.close] of [gateway.py], which are the same code, and what runs before
    them.  A started process is always waited for, however its use ended. *)

From S2P Require Import Prelude PyJson PyJsonLoads PyStr PyColl PyEq PyIo DateTime Descriptor Catalog Policy.
From S2P Require Import Db AuditLog GovGrants BusPublish McpSource Service Gateway.

(** The child as [close] finds it: which of its streams raise [OSError] when closed, and
    whether it outlives the two seconds it gets to terminate. *)
Record child := mkChild {
  stdin_breaks : bool;
  stdout_breaks : bool;
  lingers : bool;
}.

(** What is done to a child. *)
Inductive deed := ClosedStdin | ClosedStdout | Terminated | Killed | Reaped.

Definition doing (A : Type) : Type := st (list deed) A.
Definition log (d : deed) : doing unit := st_modify (λ l, l ++ [d]).

Definition is_OSError (e : exn) : bool := match e with OSError => true | _ => false end.
Definition is_TimeoutExpired (e : exn) : bool := match e with TimeoutExpired => true | _ => false end.

(** [try: stream.close() except OSError: pass] *)
Definition close_stream (breaks : bool) (d : deed) : doing unit :=
  try_except is_OSError (if breaks then st_throw OSError else log d) (mret tt).

(** [proc.wait(timeout=2)], and [proc.wait()] after [proc.kill()]. *)
Definition wait_briefly (c : child) : doing unit :=
  if lingers c then st_throw TimeoutExpired else log Reaped.

(** [close()] *)
Definition close (c : child) : doing unit :=
  _ ← close_stream (stdin_breaks c) ClosedStdin;
  _ ← close_stream (stdout_breaks c) ClosedStdout;
  _ ← log Terminated;
  try_except is_TimeoutExpired (wait_briefly c) (_ ← log Killed; log Reaped).

(** [try: ... finally: close()]: an exception of [close] would replace the answer. *)
Definition finally {A} (r : res A) (c : child) : res A * list deed :=
  match close c [] with
  | (Ok _, l) => (r, l)
  | (Raise e, l) => (Raise e, l)
  end.

(** [discover(command, timeout)]: the answer and what became of the process. *)
Definition discover_command {rt : PyFloatRuntime} {utf8 : Utf8} (p : process) (c : child) :
    res DiscoveryResult * list deed :=
  if spawn_fails p then (discover p, []) else finally (discover p) c.

(** [Gateway.run()], its client's input to the end. *)
Definition run_to_end {rt : PyFloatRuntime} {dt : PyDatetime} {utf8 : Utf8} {crypto : Cryptography}
    {engine : PolicyEngine} {processes : Processes} {endpoint : BusEndpoint} (gc : gateway)
    (input : string) (c : child) : gwm (Z * list deed) := λ o g,
  let '(r, g') := session gc input o g in
  let '(r, l) := finally r c in (_ ← r; Ok (0, l), g').

(** ** What is left behind *)

(** Closing never raises, and does what it can: it asks the process to end, kills it only
    when it does not, and returns after it has been waited for. *)
Lemma close_run c l :
  close c l =
  (Ok tt, l ++ (if stdin_breaks c then [] else [ClosedStdin]) ++ (if stdout_breaks c then [] else [ClosedStdout])
            ++ [Terminated] ++ (if lingers c then [Killed] else []) ++ [Reaped]).
Proof.
  destruct c as [[] [] []]; cbv [close close_stream wait_briefly log try_except st_modify st_throw mbind st_bind mret st_ret].
  all: cbn; by rewrite <- ?app_assoc.
Qed.

Lemma finally_reaps {A} (r : res A) c :
  (finally r c).1 = r ∧ Terminated ∈ (finally r c).2 ∧ last (finally r c).2 = Some Reaped ∧
  (Killed ∈ (finally r c).2 ↔ lingers c = true).
Proof.
  unfold finally. rewrite close_run. cbn [fst snd]. destruct c as [[] [] []]; cbn.
  all: split_and!; try done; try set_solver.
Qed.

(** No discovery leaves a process behind: every process started is asked to end and waited
    for, whatever the answer, which closing does not change. *)
Theorem discovery_reaps {rt : PyFloatRuntime} {utf8 : Utf8} (p : process) (c : child) :
  let '(r, deeds) := discover_command p c in
  r = discover p ∧
  if spawn_fails p then deeds = [] else Terminated ∈ deeds ∧ last deeds = Some Reaped ∧ (Killed ∈ deeds ↔ lingers c = true).
Proof.
  unfold discover_command. destruct (spawn_fails p); [done|]. pose proof (finally_reaps (discover p) c) as H.
  destruct (finally (discover p) c). destruct H as (Hr & H). by split.
Qed.

(** A session that ends has returned 0 and its downstream server has ended. *)
Lemma session_reaps {rt : PyFloatRuntime} {dt : PyDatetime} {utf8 : Utf8} {crypto : Cryptography}
    {engine : PolicyEngine} {processes : Processes} {endpoint : BusEndpoint} (gc : gateway) input c o g n deeds g' :
  run_to_end gc input c o g = (Ok (n, deeds), g') →
  n = 0 ∧ Terminated ∈ deeds ∧ last deeds = Some Reaped ∧ g' = (session gc input o g).2.
Proof.
  unfold run_to_end. destruct (session gc input o g) as [r g1]. pose proof (finally_reaps r c) as H.
  destruct (finally r c) as [r' l]. destruct H as (Hr & Ht & Hl & _). cbn in Hr, Ht, Hl. subst r'.
  intros [= H <-]. apply bind_ok in H as (x & _ & [= <- <-]). done.
Qed.
