(* ===== verification/GatewayRuns.v ===== *)
(** The gateway's guarantees: it always ends, answers every request once, and forwards a
    tool call only against a grant of its own that was permitted and redeemed for exactly
    that call. *)

From S2P Require Import Prelude PyJson PyJsonLoads PyStr PyColl PyEq PyIo Descriptor Catalog Policy.
From S2P Require Import DateTime Hashing Db AuditLog Grants Store BusPublish GovGrants McpSource Service.
From S2P Require Import ServiceRuns Gateway.

(** Run the gateway monad one step further, where that is pure. *)
Ltac gw_step :=
  lazymatch goal with
  | |- context [@mbind gwm ?i ?A ?B ?k ?m ?o ?g] =>
      change (@mbind gwm i A B k m o g) with
        (match m o g with (Ok a, g') => k a o g' | (Raise e, g') => (@Raise B e, g') end);
      try lazymatch m with
      | step ?r => change (m o g) with (r, g)
      | mret ?a => change (m o g) with (@Ok A a, g)
      | attempt ?m' => change (m o g) with (let '(r, g') := m' o g in (Ok r, g'))
      end; cbv beta iota
  end.

(** ** What a step does to the database and to the calls forwarded *)

(** Nothing on file is undone: grants keep their latches, the log grows, and permits stay
    in order. *)
Record grows {rt : PyFloatRuntime} (d d' : db) : Prop := {
  gr_log : ∃ rows, audit_t d' = audit_t d ++ rows;
  gr_grants gid g : grants_t d !! gid = Some g → ∃ g', grants_t d' !! gid = Some g' ∧ latched g g';
  gr_redemptions gid r : redemptions_t d !! gid = Some r → redemptions_t d' !! gid = Some r;
  gr_permits : permitted d → permitted d';
}.

#[export] Instance grows_refl {rt : PyFloatRuntime} : Reflexive grows.
Proof.
  intros d. split; [by exists []; rewrite app_nil_r| |done|done].
  intros gid g H. exists g. split; [done|apply latched_refl].
Qed.

#[export] Instance grows_trans {rt : PyFloatRuntime} : Transitive grows.
Proof.
  intros d1 d2 d3 [[l1 L1] G1 R1 P1] [[l2 L2] G2 R2 P2]. split; [|  |by auto..].
  - exists (l1 ++ l2). by rewrite L2, L1, app_assoc.
  - intros gid g H. destruct (G1 _ _ H) as (g2 & H2 & La). destruct (G2 _ _ H2) as (g3 & H3 & Lb).
    exists g3. split; [done|]. by eapply latched_trans.
Qed.

Lemma kept_grows {rt : PyFloatRuntime} d d' : kept d d' → grows d d'.
Proof. intros H. split; [apply (k_log _ _ H)|apply (k_grants _ _ H)|apply (k_redemptions _ _ H)|by apply kept_permitted]. Qed.

Section service_calls.
Context {rt : PyFloatRuntime} {dt : PyDatetime} {utf8 : Utf8} {crypto : Cryptography}
  {engine : PolicyEngine} {processes : Processes} {endpoint : BusEndpoint} (cfg : config).

Lemma may_issue_grows d d' : may_issue d d' → grows d d'.
Proof.
  intros Hm. split; [| | |by apply may_issue_permitted].
  - destruct Hm as [Hk|(? & ? & row & d1 & ? & ? & (Ha & _) & _ & _ & _ & _ & pay & t & _ & _ & ->)];
      [apply (k_log _ _ Hk)|]. simpl. rewrite Ha. eexists. by rewrite <- app_assoc.
  - intros gid g Hg.
    destruct Hm as [Hk|(gid1 & g1 & row & d1 & ? & ? & (_ & Hgr & _) & _ & _ & _ & Hfree & pay & t & _ & _ & ->)];
      [by apply (k_grants _ _ Hk)|].
    exists g. simpl. rewrite lookup_insert_ne by congruence. rewrite Hgr. split; [done|apply latched_refl].
  - intros gid r Hr.
    destruct Hm as [Hk|(? & ? & ? & d1 & ? & ? & (_ & _ & Hre) & _ & _ & _ & _ & pay & t & _ & _ & ->)];
      [by apply (k_redemptions _ _ Hk)|]. simpl. by rewrite Hre.
Qed.

Lemma authorize_grows p s n ctx args ttl o w :
  grows (w_db w) (w_db (authorize cfg p s n ctx args ttl o w).2).
Proof.
  destruct (authorize_effect cfg p s n ctx args ttl o w) as (d1 & Hm & Hk).
  transitivity d1; [by apply may_issue_grows|by apply kept_grows].
Qed.

(** The grant an authorization answers with is on file, bound to the call. *)
Lemma authorize_grant p s n ctx args ttl o w pl w' v :
  authorize cfg p s n ctx (Some args) ttl o w = (Ok pl, w') →
  py_item (dget "grant" pl) "grant_id" = Ok v →
  ∃ gid g, v = PStr gid ∧ grants_t (w_db w') !! gid = Some g ∧ gr_source_id g = s ∧ gr_name g = n.
Proof.
  unfold authorize. destruct (authorize_shape ctx (Some args) ttl) as [requested|e] eqn:Hsh; svc_step; [|done].
  destruct (_parse_principal p) as [pr|e]; svc_step; [|done].
  set (c := match ctx with PDict d => d | _ => [] end). svc_step.
  pose proof (decide_run pr s n c requested o w) as Hd.
  destruct (decide_and_issue pr s n c requested o w) as [[[[dec id] grant]|e] w1]; [|done].
  destruct Hd as (_ & row & d1 & Hlog & _ & Hd). svc_step.
  destruct (publish_event cfg _ o w1) as [[[]|e] w2] eqn:Hp1; [|done]. svc_step.
  set (m := match grant with Some _ => _ | None => _ end).
  assert (svc_keeps m) as Hk2 by (subst m; destruct grant as [[gid gp]|], requested as [[h t]|];
    try apply svc_ret_keeps; apply publish_keeps).
  specialize (Hk2 o w2). destruct (m o w2) as [[[]|e] w3]; [|done]. simpl in Hk2.
  intros [= <- <-] Hv.
  assert (kept (w_db w1) (w_db w2)) as Hk1.
  { pose proof (publish_keeps cfg (authorized_event pr s n id dec (fst <$> requested) (fst <$> grant)) o w1) as H.
    by rewrite Hp1 in H. }
  destruct requested as [[h t]|]; [|done]. destruct (allowed dec).
  - destruct Hd as (gid & issued & seq & Hfree & -> & pay & tm & _ & _ & Hd). injection Hv as <-.
    assert (grants_t (w_db w1) !! gid = Some (issued_row pr s n id h issued t)) as Hg
      by (rewrite Hd; simpl; by rewrite lookup_insert_eq).
    destruct (k_grants _ _ Hk1 _ _ Hg) as (g2 & Hg2 & L2). destruct (k_grants _ _ Hk2 _ _ Hg2) as (g3 & Hg3 & L3).
    exists gid, g3. rewrite (la_source _ _ L3), (la_source _ _ L2), (la_name _ _ L3), (la_name _ _ L2). done.
  - destruct Hd as [-> _]. done.
Qed.
End service_calls.

(** ** Messages written downstream *)

(** A [tools/call] request. *)
Definition is_tools_call (m : pyval) : bool :=
  match m with PDict d => bool_decide (dget "method" d = PStr _GOVERNED_CALL) | _ => false end.
Definition calls_sent (l : link) : list pyval := filter (λ m, is_tools_call m = true) (l_sent l).


(** What else the gateway may write: the requests of the handshake and the listing, the
    notification that completes the handshake, and refusals of the server's requests. *)
Inductive plumbing : pyval → Prop :=
| PlumbingRequest id method params :
    method ∈ _FILTERED_LIST :: _PASSTHROUGH_REQUESTS → plumbing (rpc id method params)
| PlumbingNotification method params :
    method ∈ _PASSTHROUGH_NOTIFICATIONS →
    plumbing (PDict [str_pair "jsonrpc" (PStr "2.0"); str_pair "method" (PStr method); str_pair "params" (PDict params)])
| PlumbingRefusal id : plumbing (Link.server_request_refusal id).

Lemma plumbing_no_call m : plumbing m → is_tools_call m = false.
Proof.
  intros [id method params Hm|method params Hm|id]; simpl; try done; apply bool_decide_eq_false; intros [= ->];
    unfold _PASSTHROUGH_REQUESTS, _PASSTHROUGH_NOTIFICATIONS in Hm; set_solver.
Qed.

Lemma filter_plumbing l : Forall plumbing l → filter (λ m, is_tools_call m = true) l = [].
Proof.
  induction 1 as [|m l Hm _ IH]; [done|]. rewrite filter_cons, decide_False; [done|].
  by rewrite plumbing_no_call.
Qed.

Section link.
Context {rt : PyFloatRuntime} {utf8 : Utf8} (broken_pipe : nat → bool).

(** A link operation that writes plumbing only. *)
Definition no_call {A} (m : st link A) : Prop := ∀ l,
  ∃ new, l_sent (m l).2 = l_sent l ++ new ∧ Forall plumbing new.

Lemma no_call_same {A} (m : st link A) : (∀ l, l_sent (m l).2 = l_sent l) → no_call m.
Proof. intros H l. exists []. by rewrite app_nil_r. Qed.

Lemma no_call_bind {A B} (m : st link A) (k : A → st link B) :
  no_call m → (∀ a, no_call (k a)) → no_call (m ≫= k).
Proof.
  intros Hm Hk l. unfold mbind, st_bind. specialize (Hm l). destruct (m l) as [[a|e] l1]; [|done].
  destruct Hm as (new1 & H1 & P1). destruct (Hk a l1) as (new2 & H2 & P2). simpl in *.
  exists (new1 ++ new2). rewrite H2, H1, app_assoc. split; [done|]. by apply Forall_app.
Qed.
Lemma no_call_ret {A} (a : A) : no_call (mret a).
Proof. by apply no_call_same. Qed.
Lemma no_call_lift {A} (r : res A) : no_call (st_lift r).
Proof. by apply no_call_same. Qed.
Lemma no_call_throw {A} e : no_call (st_throw (A := A) e).
Proof. by apply no_call_same. Qed.
#[local] Hint Resolve no_call_bind no_call_ret no_call_lift no_call_throw : core.

Lemma send_sent message l :
  l_sent (Link._send broken_pipe message l).2 = l_sent l ∨
  l_sent (Link._send broken_pipe message l).2 = l_sent l ++ [message].
Proof.
  unfold Link._send. run_st. destruct (json_dumps _ _ _ _); [|by left].
  destruct (broken_pipe (l_writes l)); [by left|by right].
Qed.

Lemma send_no_call message : plumbing message → no_call (Link._send broken_pipe message).
Proof.
  intros Hm l. destruct (send_sent message l) as [->| ->]; [exists []; by rewrite app_nil_r|].
  exists [message]. split; [done|]. by constructor.
Qed.

Lemma read_line_no_call : no_call Link._read_line.
Proof.
  apply no_call_same. intros l. unfold Link._read_line.
  by destruct (Link.read_loop _ _ _) as [r [[buf eof] turns]].
Qed.

Lemma receive_no_call : no_call Link._receive.
Proof.
  unfold Link._receive. apply no_call_bind; [apply read_line_no_call|]. intros line.
  destruct (utf8_decode line); [|auto]. destruct (json_loads _) as [[| | | | | |d|]|[]]; auto.
  destruct (py_eq _ _); auto.
Qed.

Lemma await_no_call fuel req_id method : no_call (Link.await_reply broken_pipe fuel req_id method).
Proof.
  induction fuel as [|fuel IH]; [simpl; auto|]. simpl. apply no_call_bind; [apply receive_no_call|]. intros msg.
  destruct (negb _); [|destruct (dhas "error" msg), (dhas "result" msg); auto].
  apply no_call_bind; [|done]. destruct (_ && _); [by apply send_no_call; constructor|auto].
Qed.

(** [call] writes its request, or fails to, and then plumbing. *)
Lemma call_sent method params l :
  ∃ new, Forall plumbing new ∧
    (l_sent (Link.call broken_pipe method params l).2 = l_sent l ++ new ∨
     l_sent (Link.call broken_pipe method params l).2 = l_sent l ++ rpc (l_next_id l) method params :: new).
Proof.
  unfold Link.call. cbv beta delta [mbind st_bind st_get st_modify]. cbv beta iota.
  set (l1 := mkLink _ _ _ _ _ _). set (m := rpc _ _ _). pose proof (send_sent m l1) as Hs.
  destruct (Link._send broken_pipe m l1) as [[[]|e] l2]; simpl in Hs.
  - destruct (await_no_call (S (Link.frames_left l2)) (l_next_id l) method l2) as (new & -> & Hn).
    exists new. split; [done|]. destruct Hs as [->| ->]; [by left|right]. by rewrite <- app_assoc.
  - exists []. split; [constructor|]. simpl. destruct Hs as [->| ->]; [left; by rewrite app_nil_r|by right].
Qed.

Lemma call_no_call method params :
  method ∈ _FILTERED_LIST :: _PASSTHROUGH_REQUESTS → no_call (Link.call broken_pipe method params).
Proof.
  intros Hm l. destruct (call_sent method params l) as (new & Hn & [->| ->]); [by exists new|].
  eexists. split; [done|]. constructor; [|done]. by constructor.
Qed.

Lemma notify_no_call method params :
  method ∈ _PASSTHROUGH_NOTIFICATIONS → no_call (Link.notify broken_pipe method params).
Proof. intros Hm. apply send_no_call. by constructor. Qed.
End link.

(** ** Quiet steps of the gateway: the database only grows, no tool call is forwarded *)

Section gateway.
Context {rt : PyFloatRuntime} {dt : PyDatetime} {utf8 : Utf8} {crypto : Cryptography}
  {engine : PolicyEngine} {processes : Processes} {endpoint : BusEndpoint} (gc : gateway).

Definition g_db (g : gw) : db := w_db (g_world g).

Record quietly (g g' : gw) : Prop := {
  q_grows : grows (g_db g) (g_db g');
  q_sent : ∃ new, l_sent (g_link g') = l_sent (g_link g) ++ new ∧ Forall plumbing new;
}.

#[export] Instance quietly_refl : Reflexive quietly.
Proof. intros g. split; [done|]. exists []. by rewrite app_nil_r. Qed.
#[export] Instance quietly_trans : Transitive quietly.
Proof.
  intros g1 g2 g3 [A1 (n1 & B1 & P1)] [A2 (n2 & B2 & P2)]. split; [by etrans|].
  exists (n1 ++ n2). rewrite B2, B1, app_assoc. split; [done|]. by apply Forall_app.
Qed.

Lemma quiet_calls g g' : quietly g g' → calls_sent (g_link g') = calls_sent (g_link g).
Proof.
  intros [_ (new & Hs & Hp)]. unfold calls_sent. rewrite Hs, filter_app.
  rewrite (filter_plumbing new) by done. apply app_nil_r.
Qed.

Definition quiet_op {A} (m : gwm A) : Prop := ∀ o g, quietly g (m o g).2.

Lemma quiet_bind {A B} (m : gwm A) (k : A → gwm B) : quiet_op m → (∀ a, quiet_op (k a)) → quiet_op (m ≫= k).
Proof.
  intros Hm Hk o g. unfold mbind, gwm_bind. specialize (Hm o g). destruct (m o g) as [[a|e] g1]; [|done].
  etrans; [exact Hm|apply Hk].
Qed.
Lemma quiet_ret {A} (a : A) : quiet_op (mret a).
Proof. intros o g. reflexivity. Qed.
Lemma quiet_step {A} (r : res A) : quiet_op (step r).
Proof. intros o g. reflexivity. Qed.
Lemma quiet_attempt {A} (m : gwm A) : quiet_op m → quiet_op (attempt m).
Proof. intros Hm o g. unfold attempt. specialize (Hm o g). by destruct (m o g). Qed.
Lemma quiet_to_client m : quiet_op (to_client m).
Proof. intros o g. split; [done|]. exists []. by rewrite app_nil_r. Qed.
Lemma quiet_link {A} (m : st link A) : no_call m → quiet_op (on_link m).
Proof. intros Hm o g. unfold on_link. specialize (Hm (g_link g)). by destruct (m (g_link g)). Qed.
Lemma quiet_service {A} (m : svc A) : (∀ o w, grows (w_db w) (w_db (m o w).2)) → quiet_op (on_service m).
Proof.
  intros Hm o g. unfold on_service. specialize (Hm o (g_world g)). destruct (m o (g_world g)). split; [done|].
  exists []. by rewrite app_nil_r.
Qed.
Lemma quiet_keeps {A} (m : svc A) : svc_keeps m → quiet_op (on_service m).
Proof. intros Hm. apply quiet_service. intros o w. apply kept_grows, Hm. Qed.
End gateway.

Create HintDb quiet discriminated.
#[export] Hint Resolve quiet_bind quiet_ret quiet_step quiet_attempt quiet_to_client quiet_keeps
  catalog_keeps outcome_call_keeps redeem_call_keeps : quiet.
#[export] Hint Extern 1 (quiet_op (match ?x with _ => _ end)) => destruct x : quiet.

Section handlers.
Context {rt : PyFloatRuntime} {dt : PyDatetime} {utf8 : Utf8} {crypto : Cryptography}
  {engine : PolicyEngine} {processes : Processes} {endpoint : BusEndpoint} (gc : gateway).

Lemma quiet_write m : quiet_op (_write m).
Proof. unfold _write. eauto with quiet. Qed.
#[local] Hint Resolve quiet_write : quiet.
Lemma quiet_respond id v : quiet_op (_respond id v).
Proof. apply quiet_write. Qed.
Lemma quiet_refusal id c m v : quiet_op (_refuse id c m v).
Proof. apply quiet_write. Qed.
Lemma quiet_refuse id c m : quiet_op (refuse id c m).
Proof. apply quiet_write. Qed.
#[local] Hint Resolve quiet_respond quiet_refusal quiet_refuse : quiet.
Lemma quiet_unavailable id e : quiet_op (unavailable id e).
Proof. unfold unavailable. eauto with quiet. Qed.
Lemma quiet_service_refusal id e : quiet_op (service_refusal id e).
Proof. unfold service_refusal. eauto with quiet. Qed.
Lemma quiet_outcome did gid out det : quiet_op (_best_effort_outcome gc did gid out det).
Proof. unfold _best_effort_outcome. eauto with quiet. Qed.
#[local] Hint Resolve quiet_unavailable quiet_service_refusal quiet_outcome : quiet.

Lemma quiet_call method params :
  method ∈ _FILTERED_LIST :: _PASSTHROUGH_REQUESTS → quiet_op (downstream_call gc method params).
Proof. intros Hm. by apply quiet_link, call_no_call. Qed.

Lemma gather_no_call fuel : ∀ cursor seen pages tools, no_call (gather gc fuel cursor seen pages tools).
Proof.
  induction fuel as [|fuel IH]; intros cursor seen pages tools; [apply no_call_throw|]. simpl.
  apply no_call_bind; [apply call_no_call; by left|]. intros [result|]; [|apply no_call_ret].
  destruct (dget "tools" result); try apply no_call_throw. destruct (_ <? _); [apply no_call_throw|].
  destruct (dget "nextCursor" result); try apply no_call_throw; [apply no_call_ret|].
  case_decide; [apply no_call_throw|]. destruct (_ <=? _); [apply no_call_throw|apply IH].
Qed.

Lemma quiet_passthrough id method params :
  method ∈ _PASSTHROUGH_REQUESTS → quiet_op (_forward_passthrough gc id method params).
Proof.
  intros Hm. unfold _forward_passthrough. apply quiet_bind; [|eauto with quiet].
  apply quiet_attempt, quiet_call. by right.
Qed.

Lemma quiet_tools_list id : quiet_op (_handle_tools_list gc id).
Proof.
  unfold _handle_tools_list. apply quiet_bind; [|eauto 20 with quiet].
  by apply quiet_attempt, quiet_link, gather_no_call.
Qed.

Lemma quiet_notification method params : quiet_op (_dispatch_notification gc method params).
Proof.
  unfold _dispatch_notification. case_decide; [|apply quiet_ret].
  apply quiet_bind; [by apply quiet_attempt, quiet_link, notify_no_call|]. eauto with quiet.
Qed.

Lemma quiet_with_id msg code m : quiet_op (refuse_with_id msg code m).
Proof. unfold refuse_with_id. eauto with quiet. Qed.
End handlers.

#[export] Hint Resolve quiet_respond quiet_refusal quiet_refuse quiet_unavailable quiet_service_refusal
  quiet_outcome quiet_passthrough quiet_tools_list quiet_notification quiet_with_id : quiet.

(** ** Complete mediation *)

Section mediation.
Context {rt : PyFloatRuntime} {dt : PyDatetime} {utf8 : Utf8} {crypto : Cryptography}
  {engine : PolicyEngine} {processes : Processes} {endpoint : BusEndpoint} (gc : gateway).

(** A redeemed grant for this call: bound to the gateway's principal and source, the
    tool's name and exactly these arguments, and permitted by a logged decision. *)
Definition paid (d : db) (gid name : string) (args : pydict) : Prop :=
  ∃ g p, grants_t d !! gid = Some g ∧ gr_redeemed_at g ≠ None ∧
    _parse_principal (PDict (gw_principal gc)) = Ok p ∧ gr_principal_id g = principal_id p ∧
    gr_source_id g = gw_source_id gc ∧ gr_name g = name ∧ args_hash (PDict args) = Ok (gr_args_hash g) ∧
    Exists (permit_of g) (audit_t d).

(** A message that forwards a call paid for with the grant [gid]. *)
Definition forwards (d : db) (m : pyval) (gid : string) : Prop :=
  ∃ id name args, m = rpc id _GOVERNED_CALL [str_pair "name" (PStr name); str_pair "arguments" (PDict args)] ∧
    paid d gid name args.

(** Only plumbing and tool calls are written downstream. *)
Definition on_surface (l : link) : Prop := Forall (λ m, plumbing m ∨ is_tools_call m = true) (l_sent l).

(** Every tool call written downstream has its own grant. *)
Definition mediated (g : gw) : Prop :=
  permitted (g_db g) ∧ on_surface (g_link g) ∧
  ∃ gids, NoDup gids ∧ Forall2 (forwards (g_db g)) (calls_sent (g_link g)) gids.

Lemma permit_latched g g' row : latched g g' → permit_of g row → permit_of g' row.
Proof. intros L. unfold permit_of. by rewrite (la_principal _ _ L), (la_source _ _ L), (la_name _ _ L), (la_decision _ _ L). Qed.

Lemma paid_grows d d' gid name args : grows d d' → paid d gid name args → paid d' gid name args.
Proof.
  intros [[rows Hl] Hg _] (g & p & Hgid & Hr & Hp & H1 & H2 & H3 & H4 & Hex).
  destruct (Hg _ _ Hgid) as (g' & Hg' & L). exists g', p.
  rewrite (la_redeemed _ _ L Hr), (la_principal _ _ L), (la_source _ _ L), (la_name _ _ L), (la_hash _ _ L).
  split_and!; try done. rewrite Hl, Exists_app. left. eapply Exists_impl; [exact Hex|]. intros row. by apply permit_latched.
Qed.

Lemma forwards_grows d d' ms gids :
  grows d d' → Forall2 (forwards d) ms gids → Forall2 (forwards d') ms gids.
Proof.
  intros Hg H. eapply Forall2_impl; [exact H|]. intros m gid (id & n & a & -> & Hp).
  exists id, n, a. split; [done|]. by eapply paid_grows.
Qed.

Lemma mediated_quietly g g' : quietly g g' → mediated g → mediated g'.
Proof.
  intros Hq [Hp [Hs (gids & Hnd & Hf)]]. split; [by apply (gr_permits _ _ (q_grows _ _ Hq))|]. split.
  - destruct (q_sent _ _ Hq) as (new & Hn & Hpl). unfold on_surface. rewrite Hn. apply Forall_app.
    split; [done|]. eapply Forall_impl; [exact Hpl|]. by left.
  - exists gids. split; [done|]. rewrite (quiet_calls _ _ Hq). eapply forwards_grows; [apply Hq|done].
Qed.

(** An operation that keeps the invariant. *)
Definition mediates {A} (m : gwm A) : Prop := ∀ o g, mediated g → mediated (m o g).2.

Lemma mediates_quiet {A} (m : gwm A) : quiet_op m → mediates m.
Proof. intros Hq o g. apply mediated_quietly, Hq. Qed.
Lemma mediates_bind {A B} (m : gwm A) (k : A → gwm B) : mediates m → (∀ a, mediates (k a)) → mediates (m ≫= k).
Proof.
  intros Hm Hk o g Hg. unfold mbind, gwm_bind. specialize (Hm o g Hg). destruct (m o g) as [[a|e] g1]; [|done].
  by apply Hk.
Qed.
Lemma mediates_attempt {A} (m : gwm A) : mediates m → mediates (attempt m).
Proof. intros Hm o g Hg. unfold attempt. specialize (Hm o g Hg). by destruct (m o g). Qed.

(** A grant used by no call so far, paid for this one. *)
Definition ready (gid name : string) (args : pydict) (g : gw) : Prop :=
  permitted (g_db g) ∧ paid (g_db g) gid name args ∧ on_surface (g_link g) ∧
  ∃ gids, NoDup gids ∧ (gid ∉ gids) ∧ Forall2 (forwards (g_db g)) (calls_sent (g_link g)) gids.

Lemma forward_call_mediated id name args did gid o g :
  ready gid name args g → mediated (forward_call gc id name args did gid o g).2.
Proof.
  intros (Hp & Hpaid & Hsf & gids & Hnd & Hnin & Hf). unfold forward_call, downstream_call. gw_step. unfold on_link.
  set (params := [_; _]).
  destruct (call_sent (gw_broken_pipe gc) "tools/call" params (g_link g)) as (new & Hnew & Hc).
  destruct (Link.call _ "tools/call" params (g_link g)) as [r l1]. cbv beta iota. simpl in Hc.
  assert (mediated (mkGw (g_world g) l1 (g_out g))) as Hm.
  { assert (Forall (λ m, plumbing m ∨ is_tools_call m = true) new) as Hnew'
      by (eapply Forall_impl; [exact Hnew|]; by left).
    split; [done|]. unfold on_surface, calls_sent in *. simpl. destruct Hc as [->| ->].
    - split; [by apply Forall_app|]. exists gids. split; [done|].
      rewrite filter_app, (filter_plumbing new), app_nil_r by done. done.
    - split; [apply Forall_app; split; [done|]; constructor; [by right|done]|]. exists (gids ++ [gid]).
      split; [apply NoDup_app; split_and!; [done| |apply NoDup_singleton]; set_solver|].
      rewrite filter_app, filter_cons, decide_True, (filter_plumbing new) by done.
      apply Forall2_app; [done|]. constructor; [|done]. by eexists _, name, args. }
  assert (∀ m : gwm unit, quiet_op m → mediated (m o (mkGw (g_world g) l1 (g_out g))).2) as Hq.
  { intros m Hq. eapply mediated_quietly; [apply Hq|done]. }
  apply Hq. eauto 10 with quiet.
Qed.

Lemma world_quietly w' g : grows (g_db g) (w_db w') → quietly g (mkGw w' (g_link g) (g_out g)).
Proof. intros H. split; [done|]. exists []. by rewrite app_nil_r. Qed.

Lemma redeem_payload cfg gid p args o w pl w' :
  redeem cfg gid p args o w = (Ok pl, w') → ∃ r, pl = redemption_payload gid r.
Proof.
  unfold redeem, refuse_if. destruct (bool_decide (gid = "")); svc_step; [done|].
  destruct (_parse_principal p) as [pr|e]; svc_step; [|done].
  destruct (bound_args_hash args) as [h|e]; svc_step; [|done]. svc_step.
  set (m := redeem_grant _ _ _ _). svc_step. destruct (on_store m o w) as [[r|e] w1]; [|done]. svc_step.
  match goal with |- context [(if redeemed r then ?a else ?b) o w1] => set (tail := if redeemed r then a else b) end.
  destruct (tail o w1) as [[[]|e] w2]; [|done]. intros [= <- _]. by exists r.
Qed.

Lemma redeem_and_forward_mediated id name args did gid o g grant :
  mediated g → grants_t (g_db g) !! gid = Some grant → gr_source_id grant = gw_source_id gc → gr_name grant = name →
  mediated (redeem_and_forward gc id name args did gid o g).2.
Proof.
  intros Hm Hgrant Hsrc Hname. unfold g_db in Hgrant. unfold redeem_and_forward. gw_step. unfold on_service.
  set (m := redeem _ gid (PDict _) (PDict args)).
  pose proof (redeem_call_run (gw_service gc) gid (PDict (gw_principal gc)) (PDict args) o (g_world g)) as Hrun.
  pose proof (redeem_call_keeps (gw_service gc) gid (PDict (gw_principal gc)) (PDict args) o (g_world g)) as Hk.
  fold m in Hrun, Hk. destruct (m o (g_world g)) as [r w1] eqn:Hrd. cbv beta iota. simpl in Hk.
  assert (mediated (mkGw w1 (g_link g) (g_out g))) as Hm1.
  { eapply mediated_quietly; [|exact Hm]. by apply world_quietly, kept_grows. }
  destruct r as [pl|e]; [|by apply (mediates_quiet (service_refusal id e)); [eauto with quiet|]].
  subst m.
  unfold ditem. gw_step. destruct (dict_get (KStr "redeemed") pl) as [v|] eqn:Hv; [|done].
  destruct (py_truthy v) eqn:Htr; cbn [negb]; [|by apply (mediates_quiet (A := unit)); eauto with quiet].
  destruct (redeem_payload _ _ _ _ _ _ _ _ Hrd) as [res Hpl].
  assert (dget "redeemed" pl = PBool true) as Hred.
  { rewrite Hpl in Hv |- *. injection Hv as <-. simpl in Htr.
    change (PBool (redeemed res) = PBool true). by rewrite Htr. }
  destruct (Hrun pl eq_refl Hred) as (p & h & g0 & ex & n & Hpr & Hh & Hg0 & Hr & Hcl & _ & _ & Hpid & Hhash & _ & g1 & Hg1 & Hr1).
  destruct Hm as [Hp [Hsf (gids & Hnd & Hf)]].
  apply forward_call_mediated. split; [apply Hm1|]. split; [|split; [done|]].
  - destruct (k_grants _ _ Hk _ _ Hg0) as (g1' & Hg1' & L). rewrite Hg1 in Hg1'. injection Hg1' as <-.
    rewrite Hgrant in Hg0. injection Hg0 as <-.
    exists g1, p. rewrite (la_principal _ _ L), (la_source _ _ L), (la_name _ _ L), (la_hash _ _ L), Hhash.
    split_and!; try done. destruct Hm1 as [Hp1 _]. by apply (Hp1 gid).
  - exists gids. split; [done|]. split; [|eapply forwards_grows; [by apply kept_grows|exact Hf]].
    intros [i Hi]%list_elem_of_lookup. destruct (Forall2_lookup_r _ _ _ _ _ Hf Hi) as (m0 & _ & Hm0).
    destruct Hm0 as (? & ? & ? & _ & g2 & ? & Hg2 & Hr2 & _). unfold g_db in Hg2. congruence.
Qed.

Lemma governed_call_mediated id name args : mediates (governed_call gc id name args).
Proof.
  intros o g Hm. unfold governed_call. gw_step. unfold on_service.
  set (m := authorize _ _ _ _ _ _ _).
  pose proof (authorize_grows (gw_service gc) (PDict (gw_principal gc)) (gw_source_id gc) name PNone
    (Some (PDict args)) PNone o (g_world g)) as Hg. fold m in Hg.
  destruct (m o (g_world g)) as [r w1] eqn:Ha. cbv beta iota. simpl in Hg.
  assert (mediated (mkGw w1 (g_link g) (g_out g))) as Hm1 by (eapply mediated_quietly; [by apply world_quietly|exact Hm]).
  destruct r as [pl|e]; [|by apply (mediates_quiet (service_refusal id e)); [eauto with quiet|]].
  gw_step. destruct (ditem "allowed" pl) as [allowed|e]; [|done].
  destruct (negb (py_truthy allowed)); [by apply (mediates_quiet (A := unit)); eauto 10 with quiet|].
  case_decide; [by apply (mediates_quiet (A := unit)); eauto 10 with quiet|].
  gw_step. destruct (py_item (dget "grant" pl) "grant_id") as [v|e] eqn:Hv; [|done].
  gw_step. destruct (ditem "decision_id" pl) as [did|e]; [|done].
  destruct (authorize_grant _ _ _ _ _ _ _ _ _ _ _ _ Ha Hv) as (gid & grant & -> & Hgr & Hs & Hn).
  by eapply redeem_and_forward_mediated.
Qed.

Lemma tools_call_mediated id params : mediates (_handle_tools_call gc id params).
Proof.
  unfold _handle_tools_call. repeat case_match; try apply governed_call_mediated;
    apply mediates_quiet; eauto with quiet.
Qed.

Lemma request_mediated id method params : mediates (_dispatch_request gc id method params).
Proof.
  unfold _dispatch_request. repeat case_decide; try (apply mediates_quiet; by eauto with quiet).
  apply tools_call_mediated.
Qed.

Lemma dispatch_mediated msg method params : mediates (dispatch gc msg method params).
Proof.
  unfold dispatch. apply mediates_bind; [|intros r; apply mediates_quiet; eauto with quiet].
  apply mediates_attempt. destruct (dhas "id" msg); [apply request_mediated|]. apply mediates_quiet; eauto with quiet.
Qed.

Lemma line_mediated line : mediates (_handle_line gc line).
Proof.
  assert (∀ m : gwm unit, quiet_op m → mediates m) as Hq by (intros m; apply mediates_quiet).
  unfold _handle_line, handle_message. repeat case_match; try apply dispatch_mediated; apply Hq; eauto with quiet.
Qed.

Lemma run_mediated fuel : ∀ input, mediates (run gc fuel input).
Proof.
  induction fuel as [|fuel IH]; intros input; [by apply mediates_quiet, quiet_ret|]. simpl.
  destruct (readline _ input) as [line rest]. case_decide; [by apply mediates_quiet, quiet_ret|].
  destruct (_ && _).
  - apply mediates_bind; [|intros _; apply IH]. apply mediates_quiet; eauto with quiet.
  - case_decide; [apply IH|]. apply mediates_bind; [|intros _; apply IH].
    apply mediates_attempt, line_mediated.
Qed.

(** C8 -- Complete mediation: in every session, whatever the client and the downstream
    server send and whatever fails, the tool calls written downstream correspond one to
    one to distinct grants on file, each redeemed, each bound to the gateway's principal
    and source, to the tool's name and to the hash of exactly the arguments forwarded,
    and each permitted by a decision in the audit log; and nothing is written downstream
    but these calls and the enumerated plumbing (the handshake, the listing, refusals of
    the server's own requests). *)
Theorem complete_mediation (input : string) (o : oracle) (w : world) (turns : list turn) :
  permitted (w_db w) →
  let g := (session gc input o (mkGw w (open_link turns) [])).2 in
  on_surface (g_link g) ∧
  ∃ gids, NoDup gids ∧ Forall2 (forwards (g_db g)) (calls_sent (g_link g)) gids.
Proof.
  intros Hp g. destruct (run_mediated (S (String.length input)) input o (mkGw w (open_link turns) [])) as [_ H]; [|exact H].
  split; [done|]. split; [constructor|]. exists []. split; [apply NoDup_nil_2|]. constructor.
Qed.
End mediation.

(** ** Every request is answered once *)

Section answers.
Context {rt : PyFloatRuntime} {dt : PyDatetime} {utf8 : Utf8} {crypto : Cryptography}
  {engine : PolicyEngine} {processes : Processes} {endpoint : BusEndpoint} (gc : gateway).

(** A message that answers the request [id]. *)
Inductive answer_to (id : pyval) : pyval → Prop :=
| AnswerResult result : answer_to id (response id result)
| AnswerError code message data : answer_to id (refusal id code message data).

(** A step that writes nothing to the client. *)
Definition silent {A} (m : gwm A) : Prop := ∀ o g, g_out (m o g).2 = g_out g.

(** A step that answers [id] once if it returns, and writes nothing if it raises. *)
Definition answers (id : pyval) (m : gwm unit) : Prop := ∀ o g,
  match m o g with
  | (Ok _, g') => ∃ a, g_out g' = g_out g ++ [a] ∧ answer_to id a
  | (Raise _, g') => g_out g' = g_out g
  end.

Lemma silent_link {A} (m : st link A) : silent (on_link m).
Proof. intros o g. unfold on_link. by destruct (m (g_link g)). Qed.
Lemma silent_service {A} (m : svc A) : silent (on_service m).
Proof. intros o g. unfold on_service. by destruct (m o (g_world g)). Qed.
Lemma silent_step {A} (r : res A) : silent (step r).
Proof. by intros o g. Qed.
Lemma silent_attempt {A} (m : gwm A) : silent m → silent (attempt m).
Proof. intros Hm o g. unfold attempt. specialize (Hm o g). by destruct (m o g). Qed.
Lemma silent_bind {A B} (m : gwm A) (k : A → gwm B) : silent m → (∀ a, silent (k a)) → silent (m ≫= k).
Proof.
  intros Hm Hk o g. unfold mbind, gwm_bind. specialize (Hm o g). destruct (m o g) as [[a|e] g1]; [|done].
  simpl in Hm. rewrite <- Hm. apply Hk.
Qed.

Lemma answers_bind {A} id (m : gwm A) (k : A → gwm unit) :
  silent m → (∀ a, answers id (k a)) → answers id (m ≫= k).
Proof.
  intros Hm Hk o g. unfold mbind, gwm_bind. specialize (Hm o g). destruct (m o g) as [[a|e] g1]; [|done].
  simpl in Hm. rewrite <- Hm. apply Hk.
Qed.
Lemma answers_raise id e : answers id (step (Raise e)).
Proof. by intros o g. Qed.

Lemma write_answers id m : answer_to id m → answers id (_write m).
Proof.
  intros Hm o g. unfold _write. gw_step. destruct (json_dumps _ _ _ m); [|done]. simpl. by exists m.
Qed.
Lemma respond_answers id r : answers id (_respond id r).
Proof. apply write_answers. constructor. Qed.
Lemma refusal_answers id c m v : answers id (_refuse id c m v).
Proof. apply write_answers. constructor. Qed.
Lemma refuse_answers id c m : answers id (refuse id c m).
Proof. apply refusal_answers. Qed.
End answers.

Create HintDb answers discriminated.
#[export] Hint Resolve silent_link silent_service silent_step silent_attempt silent_bind answers_bind answers_raise
  respond_answers refusal_answers refuse_answers : answers.
#[export] Hint Extern 1 (answers _ (match ?x with _ => _ end)) => destruct x : answers.

Section answered.
Context {rt : PyFloatRuntime} {dt : PyDatetime} {utf8 : Utf8} {crypto : Cryptography}
  {engine : PolicyEngine} {processes : Processes} {endpoint : BusEndpoint} (gc : gateway).

Lemma unavailable_answers id e : answers id (unavailable id e).
Proof. unfold unavailable. eauto with answers. Qed.
Lemma service_refusal_answers id e : answers id (service_refusal id e).
Proof. unfold service_refusal. eauto with answers. Qed.
Lemma outcome_silent did gid out det : silent (_best_effort_outcome gc did gid out det).
Proof. unfold _best_effort_outcome. apply silent_bind; [eauto with answers|]. by intros a o g. Qed.
#[local] Hint Resolve unavailable_answers service_refusal_answers outcome_silent : answers.

Lemma forward_answers id name args did gid : answers id (forward_call gc id name args did gid).
Proof. unfold forward_call, downstream_call. eauto 10 with answers. Qed.
#[local] Hint Resolve forward_answers : answers.
Lemma redeem_answers id name args did gid : answers id (redeem_and_forward gc id name args did gid).
Proof. unfold redeem_and_forward. eauto 10 with answers. Qed.
#[local] Hint Resolve redeem_answers : answers.
Lemma governed_answers id name args : answers id (governed_call gc id name args).
Proof. unfold governed_call. eauto 20 with answers. Qed.
#[local] Hint Resolve governed_answers : answers.

Lemma request_answers id method params : answers id (_dispatch_request gc id method params).
Proof.
  unfold _dispatch_request, _forward_passthrough, downstream_call, _handle_tools_list, _handle_tools_call.
  eauto 20 with answers.
Qed.

Lemma notification_silent method params : silent (_dispatch_notification gc method params).
Proof.
  unfold _dispatch_notification. case_decide; [|by intros o g]. apply silent_bind; [eauto with answers|].
  intros [|[]] o g; done.
Qed.

(** A refusal that can be rendered is sent. *)
Lemma refuse_sent id c m o g :
  json_serializable true id = true →
  refuse id c m o g = (Ok tt, mkGw (g_world g) (g_link g) (g_out g ++ [refusal id c (PStr m) PNone])).
Proof.
  intros Hid. unfold refuse, _refuse, _write. gw_step.
  destruct (dumps_serializable (refusal id c (PStr m) PNone)) as [s ->]; [|done].
  unfold refusal, str_pair. simpl. by rewrite Hid.
Qed.

(** How a message is answered. *)
Definition answered (msg : pydict) (g g' : gw) : Prop :=
  if dhas "id" msg then ∃ a, g_out g' = g_out g ++ [a] ∧ answer_to (dget "id" msg) a
  else g_out g' = g_out g.

Lemma with_id_answered msg c m o g :
  json_serializable true (dget "id" msg) = true →
  ∃ g', refuse_with_id msg c m o g = (Ok tt, g') ∧ answered msg g g'.
Proof.
  intros Hid. unfold refuse_with_id, answered. destruct (dhas "id" msg); [|by eexists].
  rewrite refuse_sent by done. eexists. split; [done|]. eexists. split; [done|]. constructor.
Qed.

Lemma dispatch_answered msg method params o g :
  json_serializable true (dget "id" msg) = true →
  ∃ g', dispatch gc msg method params o g = (Ok tt, g') ∧ answered msg g g'.
Proof.
  intros Hid. unfold dispatch. gw_step. set (m := if dhas "id" msg then _ else _).
  assert (match m o g with (Ok _, g') => answered msg g g' | (Raise _, g') => g_out g' = g_out g end) as Hm.
  { subst m. unfold answered. destruct (dhas "id" msg); [apply request_answers|].
    pose proof (notification_silent method params o g) as H.
    by destruct (_dispatch_notification gc method params o g) as [[]]. }
  destruct (m o g) as [[a|e] g1]; cbv beta iota; [by eexists|].
  destruct (with_id_answered msg INTERNAL_ERROR ("gateway internal error: " +:+ str_exn e) o g1 Hid) as (g2 & -> & H2).
  exists g2. split; [done|]. revert H2. unfold answered. by rewrite Hm.
Qed.

(** C23 -- Every line is answered at most once, every request exactly once: handling a
    line never raises; a JSON object with an id gets exactly one message, a result or an
    error for that very id, one without an id gets none, and a line that is no JSON
    object gets one error with a null id. *)
Theorem every_request_answered (line : string) (o : oracle) (g : gw) :
  ∃ g', _handle_line gc line o g = (Ok tt, g') ∧
    match json_loads line with
    | Ok (PDict msg) => answered msg g g'
    | _ => ∃ c m, g_out g' = g_out g ++ [refusal PNone c (PStr m) PNone]
    end.
Proof.
  unfold _handle_line. destruct (json_loads line) as [v|e] eqn:Hl.
  2: { apply json_loads_raises in Hl as ->. rewrite refuse_sent by done. eexists. eauto. }
  destruct v as [| | | | | |msg|]; try (rewrite refuse_sent by done; eexists; by eauto).
  assert (json_serializable true (dget "id" msg) = true) as Hid
    by (apply dget_serializable; by eapply json_loads_serializable).
  unfold handle_message. destruct (negb _); [by apply with_id_answered|].
  destruct (dget "method" msg) as [| | | |[|a b]| | |]; try by apply with_id_answered.
  destruct (dget "params" msg); try (by apply with_id_answered); by apply dispatch_answered.
Qed.
End answered.

(** ** Outcomes are best effort *)

Section outcomes.
Context {rt : PyFloatRuntime} {dt : PyDatetime} {utf8 : Utf8} {crypto : Cryptography}
  {engine : PolicyEngine} {processes : Processes} {endpoint : BusEndpoint} (gc : gateway).

(** The outcome reported for a forwarded call and the answer to the client; an exception
    the code does not expect is neither. *)
Definition forwarded_result (id : pyval) (r : res (reply pydict)) : option (string * pyval * pyval) :=
  match r with
  | Ok (Answer d) => Some ("executed", PNone, response id (PDict d))
  | Ok (RpcError code m data) =>
      Some ("executed", PDict [str_pair "downstream_error" (PDict [str_pair "code" (PInt code); str_pair "message" (PStr m)])],
            refusal id code (PStr m) data)
  | Raise (DownstreamTransportError kind m) =>
      Some ("error", PDict [str_pair "fault_kind" (PStr kind); str_pair "error" (PStr m)],
            refusal id DOWNSTREAM_UNAVAILABLE (PStr ("downstream unavailable: " +:+ m)) PNone)
  | Raise _ => None
  end.

Lemma write_run a o g :
  let '(r, g') := _write a o g in
  g_world g' = g_world g ∧ g_link g' = g_link g ∧ (r = Ok tt → g_out g' = g_out g ++ [a]).
Proof. unfold _write. gw_step. by destruct (json_dumps _ _ _ a). Qed.

(** An audit failure never destroys a result: once an authorized, redeemed call was
    forwarded, the client gets the downstream's result, its error, or the transport fault,
    whatever recording the outcome does, and the service's state is exactly what
    [record_outcome] left, its exceptions swallowed; only an exception that is neither
    (an undecodable frame, an error code that is no number) skips the outcome record. *)
Theorem result_survives_audit (id : pyval) (name : string) (args : pydict) (did gid : string) (o : oracle) (g : gw) :
  let '(r, l') := Link.call (gw_broken_pipe gc) "tools/call"
    [str_pair "name" (PStr name); str_pair "arguments" (PDict args)] (g_link g) in
  let '(r', g') := forward_call gc id name args did gid o g in
  match forwarded_result id r with
  | Some (outcome, detail, answer) =>
      g_world g' = (record_outcome (gw_service gc) did outcome detail (PStr gid) o (g_world g)).2 ∧
      (r' = Ok tt → g_out g' = g_out g ++ [answer])
  | None => g_world g' = g_world g ∧ (∃ e, r = Raise e ∧ r' = Raise e) ∧ g_out g' = g_out g
  end.
Proof.
  unfold forward_call, downstream_call. gw_step. unfold on_link. set (params := [_; _]).
  destruct (Link.call _ "tools/call" params (g_link g)) as [r l1]. cbv beta iota.
  assert (∀ outcome detail a, let '(r', g') := (_ ← _best_effort_outcome gc did gid outcome detail; _write a) o
      (mkGw (g_world g) l1 (g_out g)) in
    g_world g' = (record_outcome (gw_service gc) did outcome detail (PStr gid) o (g_world g)).2 ∧
    (r' = Ok tt → g_out g' = g_out g ++ [a])) as Hw.
  { intros outcome detail a. gw_step. unfold _best_effort_outcome. gw_step. unfold on_service. simpl.
    destruct (record_outcome _ did outcome detail (PStr gid) o (g_world g)) as [r' w']. cbv beta iota.
    pose proof (write_run a o (mkGw w' l1 (g_out g))) as H.
    change ((mret tt : gwm unit) o (mkGw w' l1 (g_out g))) with (Ok tt, mkGw w' l1 (g_out g)). cbv beta iota.
    destruct (_write a o _) as [r2 g2]. tauto. }
  destruct r as [[d|code m data]|e]; cbn [forwarded_result].
  - apply (Hw "executed" PNone (response id (PDict d))).
  - apply (Hw "executed" _ (refusal id code (PStr m) data)).
  - destruct e; try (by split_and!; eauto). apply (Hw "error" _ (refusal id _ _ PNone)).
Qed.
End outcomes.

(** ** Witnesses *)

Definition sample_gateway : gateway := mkGateway quiet [(KStr "id", PStr "alice")] "ws" (λ _, false).

Definition wire (body : pydict) : string :=
  json_text (rt := coded_float_runtime) true false (PDict ((KStr "jsonrpc", PStr "2.0") :: body)) +:+ nl.

Definition call_line (id : Z) : string :=
  wire [(KStr "id", PInt id); (KStr "method", PStr "tools/call");
        (KStr "params", PDict [(KStr "name", PStr "search"); (KStr "arguments", call_args)])].

Definition sample_session (input : string) (turns : list turn) : res string * gw :=
  session (rt := coded_float_runtime) (dt := decimal_datetime) (utf8 := ascii_utf8) (engine := open_engine)
    (endpoint := no_endpoint) sample_gateway input calm (mkGw fresh_world (open_link turns) []).

(** Two calls, of which the server answers the first. *)
Definition sample_input : string := call_line 7 +:+ "[]" +:+ nl +:+ call_line 8.
Definition sample_turns : list turn :=
  [Turn Idle; Turn (Data (wire [(KStr "id", PInt 1); (KStr "result", PDict [(KStr "content", PStr "found")])])); Late].

Lemma complete_mediation_witness :
  length (calls_sent (g_link (sample_session sample_input sample_turns).2)) = 2%nat ∧
  ∃ gids, NoDup gids ∧
    Forall2 (forwards (rt := coded_float_runtime) sample_gateway (g_db (sample_session sample_input sample_turns).2))
      (calls_sent (g_link (sample_session sample_input sample_turns).2)) gids.
Proof.
  split; [vm_compute; reflexivity|].
  exact (proj2 (complete_mediation (rt := coded_float_runtime) (dt := decimal_datetime) (utf8 := ascii_utf8)
    (engine := open_engine) (endpoint := no_endpoint) sample_gateway sample_input calm fresh_world sample_turns permitted_empty)).
Defined.

(** The session writes the result and the transport fault, and both outcomes are logged. *)
Example sample_session_log :
  au_kind <$> audit_t (w_db (g_world (sample_session sample_input sample_turns).2)) =
    ["decision"; "grant_issue"; "grant_redeem"; "outcome"; "grant_close";
     "decision"; "grant_issue"; "grant_redeem"; "outcome"; "grant_close"].
Proof. vm_compute. reflexivity. Qed.

(** A forwarded call can go unrecorded: a server that answers a tool call with an
    error whose code is no number leaves a redeemed, executed call without an outcome
    record, although the client is answered. *)
Theorem outcome_can_be_lost :
  let g := (sample_session (call_line 7) [Turn (Data (wire [(KStr "id", PInt 1);
    (KStr "error", PDict [(KStr "code", PStr "E"); (KStr "message", PStr "failed")])]))]).2 in
  length (calls_sent (g_link g)) = 1%nat ∧ length (g_out g) = 1%nat ∧
  au_kind <$> audit_t (w_db (g_world g)) = ["decision"; "grant_issue"; "grant_redeem"].
Proof. vm_compute. split_and!; reflexivity. Qed.
