(* ===== verification/GatewayBounds.v ===== *)
(** The gateway's resource bounds: every loop ends, a listing asks for at most 100 pages,
    the buffer of the downstream link never grows past one frame and one read, and a
    listing shows invocable tools only. *)

From S2P Require Import Prelude PyJson PyJsonLoads PyStr PyColl PyEq PyIo Descriptor Catalog Policy.
From S2P Require Import DateTime Db AuditLog BusPublish GovGrants McpSource Service ServiceRuns Gateway GatewayRuns.

(** ** The loops of the link end *)

Lemma read_loop_frames turns : ∀ buf eof line buf' eof' turns',
  Link.read_loop buf eof turns = (Ok line, (buf', eof', turns')) →
  (newlines buf + Link.turn_frames turns = S (newlines buf' + Link.turn_frames turns'))%nat.
Proof.
  induction turns as [|t turns IH]; intros buf eof line buf' eof' turns'; simpl;
    destruct (partition newline buf) as [[a f] b] eqn:Hp; destruct (partition_newlines _ _ _ _ Hp) as [Hn Hb].
  { destruct f; [|done]. intros [= <- <- <- <-]. simpl. lia. }
  destruct f; [intros [= <- <- <- <-]; simpl; lia|].
  destruct t as [ev|]; [|done]. destruct eof; [done|]. destruct ev as [|chunk]; [by apply IH|].
  case_decide as Hc.
  - subst chunk. case_decide; [done|]. simpl. by apply IH.
  - destruct (_ && _); [done|]. intros H%IH. rewrite newlines_app in H. simpl. lia.
Qed.

Lemma read_loop_fuelled turns : ∀ buf eof, fuelled (Link.read_loop buf eof turns).1.
Proof.
  induction turns as [|t turns IH]; intros buf eof; simpl; destruct (partition newline buf) as [[a f] b];
    destruct f; try done.
  destruct t as [ev|]; [|done]. destruct eof; [done|]. destruct ev; [apply IH|].
  repeat case_decide; [done|apply IH|]. destruct (_ && _); [done|apply IH].
Qed.

Section link.
Context {rt : PyFloatRuntime} {utf8 : Utf8} (broken_pipe : nat → bool).

Lemma link_receive_spec l :
  fuelled (Link._receive l).1 ∧
  l_next_id (Link._receive l).2 = l_next_id l ∧
  ∀ msg l', Link._receive l = (Ok msg, l') → Link.frames_left l = S (Link.frames_left l').
Proof.
  unfold Link._receive, Link._read_line, Link.frames_left. run_st.
  pose proof (read_loop_fuelled (l_turns l) (l_buf l) (l_eof l)) as Hf.
  destruct (Link.read_loop (l_buf l) (l_eof l) (l_turns l)) as [[line|e] [[buf eof] turns]] eqn:Hr;
    [|split; [by eapply fuelled_raise|by split]].
  destruct (utf8_decode line) as [text|]; [|by split_and!].
  pose proof (json_loads_raises text) as Hj. destruct (json_loads text) as [v|e]; [|by rewrite (Hj e eq_refl); split_and!].
  destruct v as [| | | | | |d|]; try by split_and!. destruct (py_eq _ _); [|by split_and!].
  split_and!; [done..|]. intros msg l' [= <- <-]. simpl. by eapply read_loop_frames.
Qed.

Lemma link_send_spec m l :
  fuelled (Link._send broken_pipe m l).1 ∧ l_next_id (Link._send broken_pipe m l).2 = l_next_id l ∧
  Link.frames_left (Link._send broken_pipe m l).2 = Link.frames_left l.
Proof.
  unfold Link._send. run_st. pose proof (dumps_fuelled true false true m) as Hd.
  destruct (json_dumps true false true m) as [text|e]; [|split; [by eapply fuelled_raise|done]].
  by destruct (broken_pipe _).
Qed.

Lemma int_of_fuelled v : fuelled (int_of v).
Proof.
  unfold fuelled, out_of_fuel. destruct v as [| | |[]|s| | |]; simpl; try by intros [=].
  unfold py_int. case_match; by intros [=].
Qed.

Lemma link_await_spec fuel req_id method : ∀ l,
  (Link.frames_left l < fuel)%nat →
  fuelled (Link.await_reply broken_pipe fuel req_id method l).1 ∧
  l_next_id (Link.await_reply broken_pipe fuel req_id method l).2 = l_next_id l.
Proof.
  induction fuel as [|fuel IH]; intros l Hf; [lia|]. simpl. cbv beta delta [mbind st_bind].
  destruct (link_receive_spec l) as (Hr & Hid & Hfr).
  destruct (Link._receive l) as [[msg|e] l1]; simpl in Hid; [|split; [by eapply fuelled_raise|done]].
  specialize (Hfr msg l1 eq_refl). destruct (negb _).
  - set (m := if _ && _ then _ else _).
    assert (fuelled (m l1).1 ∧ l_next_id (m l1).2 = l_next_id l1 ∧ Link.frames_left (m l1).2 = Link.frames_left l1)
      as (H1 & H2 & H3) by (subst m; destruct (_ && _); [apply link_send_spec|done]).
    destruct (m l1) as [[[]|e] l2]; simpl in *; [|split; [by eapply fuelled_raise|congruence]].
    rewrite <- Hid, <- H2. apply IH. lia.
  - destruct (dhas "error" msg); [|destruct (dhas "result" msg); by rewrite <- Hid].
    unfold st_lift, Link.rpc_error. split; [|done]. simpl.
    match goal with |- context [int_of ?v] => pose proof (int_of_fuelled v); destruct (int_of v) end;
      [done|by eapply fuelled_raise].
Qed.

Lemma link_call_spec method params l :
  fuelled (Link.call broken_pipe method params l).1 ∧
  l_next_id (Link.call broken_pipe method params l).2 = l_next_id l + 1.
Proof.
  unfold Link.call. cbv beta delta [mbind st_bind st_get st_modify]. cbv beta iota.
  set (l1 := mkLink _ _ _ _ _ _). set (m := rpc _ _ _).
  destruct (link_send_spec m l1) as (Hf & Hid & _).
  destruct (Link._send broken_pipe m l1) as [[[]|e] l2]; simpl in Hid; [|split; [by eapply fuelled_raise|done]].
  destruct (link_await_spec (S (Link.frames_left l2)) (l_next_id l) method l2) as [H1 H2]; [lia|].
  split; [done|]. by rewrite H2.
Qed.
End link.

(** ** A listing ends *)

Section gateway.
Context {rt : PyFloatRuntime} {dt : PyDatetime} {utf8 : Utf8} {crypto : Cryptography}
  {engine : PolicyEngine} {processes : Processes} {endpoint : BusEndpoint} (gc : gateway).

Lemma gather_spec fuel : ∀ cursor seen pages tools l,
  (0 < fuel)%nat → pages + Z.of_nat fuel = _MAX_LIST_PAGES →
  fuelled (gather gc fuel cursor seen pages tools l).1 ∧
  l_next_id (gather gc fuel cursor seen pages tools l).2 ≤ l_next_id l + Z.of_nat fuel.
Proof.
  induction fuel as [|fuel IH]; intros cursor seen pages tools l Hpos Hsum; [lia|].
  cbn [gather]. cbv beta delta [mbind st_bind].
  match goal with |- context [Link.call ?b ?m ?p l] => destruct (link_call_spec b m p l) as [Hf Hid];
    destruct (Link.call b m p l) as [[r|e] l1] end; simpl in Hid; [|split; [by eapply fuelled_raise|simpl; lia]].
  destruct r as [result|]; [|split; [done|simpl; lia]].
  assert (∀ e, e ≠ out_of_fuel → fuelled (st_throw (A := reply (list pyval)) e l1).1 ∧
    l_next_id (st_throw (A := reply (list pyval)) e l1).2 ≤ l_next_id l + Z.of_nat (S fuel)) as Ht.
  { intros e He. split; [by intros [= ->]|simpl; lia]. }
  destruct (dget "tools" result); try by apply Ht. destruct (_ <? _); [by apply Ht|].
  destruct (dget "nextCursor" result); try (by apply Ht); [split; [done|simpl; lia]|].
  case_decide; [by apply Ht|]. destruct (Z.leb_spec _MAX_LIST_PAGES (pages + 1)); [by apply Ht|].
  match goal with |- context [gather gc fuel ?c ?s ?p ?t l1] => destruct (IH c s p t l1) as [H1 H2] end; [lia..|].
  split; [done|]. lia.
Qed.

(** ** The session ends *)

Lemma drain_split fuel : ∀ input,
  (String.length input < fuel)%nat →
  ∃ skipped, input = skipped +:+ drain fuel input ∧ (drain fuel input = "" ∨ ends_nl skipped = true).
Proof.
  induction fuel as [|fuel IH]; intros input Hf; [lia|]. simpl.
  pose proof (readline_split _MAX_FRAME_BYTES input) as Hs.
  pose proof (readline_shorter _MAX_FRAME_BYTES input) as Hsh.
  destruct (readline _MAX_FRAME_BYTES input) as [rest input'] eqn:Hr. simpl in Hs, Hsh.
  case_bool_decide as He; simpl.
  - assert (input = "") as ->.
    { destruct (decide (input = "")) as [|Hne]; [done|].
      pose proof (readline_nonempty _MAX_FRAME_BYTES input eq_refl Hne) as H. by rewrite Hr in H. }
    injection Hr as <- <-. exists "". split; [done|by left].
  - destruct (ends_nl rest) eqn:Hnl; [by exists rest; eauto|].
    destruct (decide (input = "")) as [->|Hne]; [by injection Hr as <- <-|].
    destruct (IH input') as (skipped & Hi & Hd); [specialize (Hsh eq_refl Hne); lia|].
    exists (rest +:+ skipped). rewrite Hs at 1. rewrite Hi at 1. split; [by rewrite sapp_assoc|].
    destruct Hd as [Hd|Hd]; [by left|right]. by apply ends_nl_app.
Qed.

Lemma drain_shorter fuel : ∀ input, (String.length (drain fuel input) ≤ String.length input)%nat.
Proof.
  induction fuel as [|fuel IH]; intros input; [done|]. simpl.
  pose proof (readline_split _MAX_FRAME_BYTES input) as Hs.
  destruct (readline _MAX_FRAME_BYTES input) as [rest input']. simpl in Hs.
  assert (String.length input' ≤ String.length input)%nat by (rewrite Hs, slength_app; lia).
  destruct (_ || _); [done|]. etrans; [apply IH|done].
Qed.

Lemma run_ends fuel : ∀ input o g, (String.length input < fuel)%nat → (run gc fuel input o g).1 = Ok "".
Proof.
  induction fuel as [|fuel IH]; intros input o g Hf; [lia|]. cbn [run].
  pose proof (readline_nonempty (_MAX_FRAME_BYTES + 1) input eq_refl) as Hne.
  pose proof (readline_shorter (_MAX_FRAME_BYTES + 1) input eq_refl) as Hsh.
  pose proof (readline_split (_MAX_FRAME_BYTES + 1) input) as Hs.
  destruct (readline (_MAX_FRAME_BYTES + 1) input) as [line rest]. simpl in *.
  case_decide as Hl.
  { subst line. destruct (decide (input = "")) as [->|Hi]; [|by destruct (Hne Hi)].
    change ("" +:+ rest) with rest in Hs. by rewrite <- Hs. }
  assert (input ≠ "") as Hi by (intros ->; destruct line; [done|by rewrite sapp_cons in Hs]).
  specialize (Hsh Hi). destruct (_ && _); [|case_decide].
  - gw_step. destruct (refuse _ _ _ o g) as [r g1]. apply IH. pose proof (drain_shorter (S (String.length rest)) rest). simpl in *. lia.
  - apply IH. lia.
  - gw_step. destruct (_handle_line gc _ o g) as [r g1]. apply IH. lia.
Qed.

End gateway.

(** ** The buffer is bounded *)

(** [os.read(fd, 65536)] *)
Definition READ_SIZE : Z := 65536.
Definition small_turn (t : turn) : Prop :=
  match t with Turn (Data chunk) => Z.of_nat (String.length chunk) ≤ READ_SIZE | _ => True end.

Record bounded (buf : string) : Prop := {
  b_whole : Z.of_nat (String.length buf) ≤ _MAX_FRAME_BYTES + READ_SIZE;
  b_partial : string_has newline buf = false → Z.of_nat (String.length buf) ≤ _MAX_FRAME_BYTES;
  b_rest line rest : partition newline buf = (line, true, rest) → Z.of_nat (String.length rest) ≤ READ_SIZE;
}.

Definition link_bounded (l : link) : Prop := bounded (l_buf l) ∧ Forall small_turn (l_turns l).

Lemma partition_spec c s :
  let '(a, f, b) := partition c s in
  f = string_has c s ∧ (String.length b ≤ String.length s)%nat ∧ (f = false → a = s).
Proof.
  induction s as [|x s IH]; simpl; [done|]. case_decide as Hx.
  - subst x. rewrite bool_decide_true by done. simpl. split; [done|]. split; [lia|done].
  - destruct (partition c s) as [[a f] b]. destruct IH as (-> & Hl & Ha).
    rewrite bool_decide_false by congruence. simpl. split_and!; [done|lia|]. intros H. by rewrite Ha.
Qed.

Lemma partition_app c s t :
  string_has c s = false → partition c (s +:+ t) = (s +:+ (partition c t).1.1, (partition c t).1.2, (partition c t).2).
Proof.
  induction s as [|x s IH]; intros Hs.
  - change ("" +:+ t) with t. by destruct (partition c t) as [[]].
  - simpl in Hs. apply orb_false_iff in Hs as [Hx%bool_decide_eq_false Hs]. rewrite !sapp_cons. simpl.
    rewrite decide_False by congruence. rewrite IH by done. done.
Qed.

Lemma bounded_small buf : Z.of_nat (String.length buf) ≤ READ_SIZE → bounded buf.
Proof.
  unfold READ_SIZE. intros H. split; unfold _MAX_FRAME_BYTES, READ_SIZE; [lia|lia|].
  intros line rest Hp. pose proof (partition_spec newline buf) as Hs. rewrite Hp in Hs. lia.
Qed.

Lemma read_loop_bounded turns : ∀ buf eof,
  bounded buf → Forall small_turn turns →
  let '(_, (buf', _, turns')) := Link.read_loop buf eof turns in bounded buf' ∧ Forall small_turn turns'.
Proof.
  induction turns as [|t turns IH]; intros buf eof Hb Ht; simpl;
    pose proof (partition_spec newline buf) as Hp; destruct (partition newline buf) as [[a f] b] eqn:E;
    destruct Hp as (Hf & Hl & _); destruct f;
    try (split; [|done]; apply bounded_small; by apply (b_rest _ Hb a)); [done|].
  inversion_clear Ht as [|? ? Hs Ht']. destruct t as [ev|]; [|done]. destruct eof; [by auto|].
  destruct ev as [|chunk]; [by apply IH|]. case_decide; [by case_decide; [|apply IH]|].
  simpl in Hs. destruct (negb _ && _) eqn:Hbig.
  { split; [apply bounded_small; done|done]. }
  apply IH; [|done]. pose proof (b_partial _ Hb (eq_sym Hf)) as Hpart. split.
  - rewrite slength_app. lia.
  - intros Hn. rewrite Hn in Hbig. simpl in Hbig. by apply Z.ltb_ge in Hbig.
  - intros line rest Hpa. rewrite partition_app in Hpa by done. injection Hpa as _ _ <-.
    pose proof (partition_spec newline chunk) as Hc. destruct (partition newline chunk) as [[a' f'] b']. simpl. lia.
Qed.

Section bounded.
Context {rt : PyFloatRuntime} {dt : PyDatetime} {utf8 : Utf8} {crypto : Cryptography}
  {engine : PolicyEngine} {processes : Processes} {endpoint : BusEndpoint} (gc : gateway).

Definition bounds_link {A} (m : st link A) : Prop := ∀ l, link_bounded l → link_bounded (m l).2.

Lemma bounds_bind {A B} (m : st link A) (k : A → st link B) :
  bounds_link m → (∀ a, bounds_link (k a)) → bounds_link (m ≫= k).
Proof.
  intros Hm Hk l Hl. unfold mbind, st_bind. specialize (Hm l Hl). destruct (m l) as [[a|e] l1]; [|done].
  by apply Hk.
Qed.
Lemma bounds_lift {A} (r : res A) : bounds_link (st_lift r).
Proof. by intros l. Qed.
Lemma bounds_throw {A} e : bounds_link (st_throw (A := A) e).
Proof. by intros l. Qed.
Lemma bounds_ret {A} (a : A) : bounds_link (mret a).
Proof. by intros l. Qed.
Lemma bounds_get : bounds_link st_get.
Proof. by intros l. Qed.
Lemma bounds_send m : bounds_link (Link._send (gw_broken_pipe gc) m).
Proof.
  intros l Hl. unfold Link._send. run_st. destruct (json_dumps _ _ _ m); [|done].
  by destruct (gw_broken_pipe gc (l_writes l)).
Qed.
Lemma bounds_read_line : bounds_link Link._read_line.
Proof.
  intros l [Hb Ht]. unfold Link._read_line. pose proof (read_loop_bounded (l_turns l) (l_buf l) (l_eof l) Hb Ht) as H.
  by destruct (Link.read_loop _ _ _) as [r [[buf eof] turns]].
Qed.
End bounded.

Create HintDb bounds discriminated.
#[export] Hint Resolve bounds_bind bounds_lift bounds_throw bounds_ret bounds_get bounds_send bounds_read_line : bounds.
#[export] Hint Extern 1 (bounds_link (match ?x with _ => _ end)) => destruct x : bounds.

Section frames.
Context {rt : PyFloatRuntime} {dt : PyDatetime} {utf8 : Utf8} {crypto : Cryptography}
  {engine : PolicyEngine} {processes : Processes} {endpoint : BusEndpoint} (gc : gateway).

Lemma bounds_receive : bounds_link Link._receive.
Proof. unfold Link._receive. eauto 12 with bounds. Qed.
#[local] Hint Resolve bounds_receive : bounds.

Lemma bounds_await fuel req_id method : bounds_link (Link.await_reply (gw_broken_pipe gc) fuel req_id method).
Proof. induction fuel as [|fuel IH]; simpl; eauto 12 with bounds. Qed.
#[local] Hint Resolve bounds_await : bounds.

Lemma bounds_call method params : bounds_link (Link.call (gw_broken_pipe gc) method params).
Proof.
  unfold Link.call. apply bounds_bind; [apply bounds_get|intros l]. apply bounds_bind; [by intros l'|].
  eauto with bounds.
Qed.
#[local] Hint Resolve bounds_call : bounds.

Lemma bounds_gather fuel : ∀ cursor seen pages tools, bounds_link (gather gc fuel cursor seen pages tools).
Proof. induction fuel as [|fuel IH]; intros; simpl; eauto 12 with bounds. Qed.

(** The same of the gateway's steps. *)
Definition bounds_gw {A} (m : gwm A) : Prop := ∀ o g, link_bounded (g_link g) → link_bounded (g_link (m o g).2).

Lemma gw_bounds_bind {A B} (m : gwm A) (k : A → gwm B) :
  bounds_gw m → (∀ a, bounds_gw (k a)) → bounds_gw (m ≫= k).
Proof.
  intros Hm Hk o g Hg. unfold mbind, gwm_bind. specialize (Hm o g Hg). destruct (m o g) as [[a|e] g1]; [|done].
  by apply Hk.
Qed.
Lemma gw_bounds_attempt {A} (m : gwm A) : bounds_gw m → bounds_gw (attempt m).
Proof. intros Hm o g Hg. unfold attempt. specialize (Hm o g Hg). by destruct (m o g). Qed.
Lemma gw_bounds_step {A} (r : res A) : bounds_gw (step r).
Proof. by intros o g. Qed.
Lemma gw_bounds_ret {A} (a : A) : bounds_gw (mret a).
Proof. by intros o g. Qed.
Lemma gw_bounds_to_client m : bounds_gw (to_client m).
Proof. by intros o g. Qed.
Lemma gw_bounds_service {A} (m : svc A) : bounds_gw (on_service m).
Proof. intros o g. unfold on_service. by destruct (m o (g_world g)). Qed.
Lemma gw_bounds_link {A} (m : st link A) : bounds_link m → bounds_gw (on_link m).
Proof. intros Hm o g Hg. unfold on_link. specialize (Hm (g_link g) Hg). by destruct (m (g_link g)). Qed.
End frames.

#[export] Hint Resolve bounds_call bounds_gather gw_bounds_bind gw_bounds_attempt gw_bounds_step gw_bounds_ret
  gw_bounds_to_client gw_bounds_service gw_bounds_link : bounds.
#[export] Hint Extern 1 (bounds_gw (match ?x with _ => _ end)) => destruct x : bounds.

Section session.
Context {rt : PyFloatRuntime} {dt : PyDatetime} {utf8 : Utf8} {crypto : Cryptography}
  {engine : PolicyEngine} {processes : Processes} {endpoint : BusEndpoint} (gc : gateway).

Lemma gw_bounds_write m : bounds_gw (_write m).
Proof. unfold _write. auto with bounds. Qed.
#[local] Hint Resolve gw_bounds_write : bounds.

Lemma gw_bounds_refuse id c m : bounds_gw (refuse id c m).
Proof. apply gw_bounds_write. Qed.
#[local] Hint Resolve gw_bounds_refuse : bounds.

Lemma gw_bounds_unavailable id e : bounds_gw (unavailable id e).
Proof. unfold unavailable. destruct e; auto with bounds. Qed.
Lemma gw_bounds_call method params : bounds_gw (downstream_call gc method params).
Proof. unfold downstream_call. auto with bounds. Qed.
Lemma gw_bounds_outcome did gid out det : bounds_gw (_best_effort_outcome gc did gid out det).
Proof. unfold _best_effort_outcome. auto with bounds. Qed.
Lemma gw_bounds_service_refusal id e : bounds_gw (service_refusal id e).
Proof. unfold service_refusal. destruct e; auto with bounds. Qed.
#[local] Hint Resolve gw_bounds_unavailable gw_bounds_call gw_bounds_outcome gw_bounds_service_refusal : bounds.

Lemma gw_bounds_forward id name args did gid : bounds_gw (forward_call gc id name args did gid).
Proof.
  unfold forward_call, _refuse, _respond. apply gw_bounds_bind; [auto with bounds|].
  intros [[]|[]]; auto with bounds.
Qed.
#[local] Hint Resolve gw_bounds_forward : bounds.
Lemma gw_bounds_redeem id name args did gid : bounds_gw (redeem_and_forward gc id name args did gid).
Proof.
  unfold redeem_and_forward, _refuse. apply gw_bounds_bind; [auto with bounds|].
  intros [pl|e]; [|auto with bounds]. auto 10 with bounds.
Qed.
#[local] Hint Resolve gw_bounds_redeem : bounds.
Lemma gw_bounds_governed id name args : bounds_gw (governed_call gc id name args).
Proof.
  unfold governed_call, _refuse. apply gw_bounds_bind; [auto with bounds|].
  intros [pl|e]; [|auto with bounds]. apply gw_bounds_bind; [auto with bounds|]. intros v. auto 12 with bounds.
Qed.
#[local] Hint Resolve gw_bounds_governed : bounds.

Lemma gw_bounds_request id method params : bounds_gw (_dispatch_request gc id method params).
Proof.
  unfold _dispatch_request, _handle_tools_call, _handle_tools_list, _forward_passthrough, _refuse, _respond.
  repeat case_decide; [..|repeat case_match|]; auto 12 with bounds.
Qed.
Lemma gw_bounds_notification method params : bounds_gw (_dispatch_notification gc method params).
Proof.
  unfold _dispatch_notification, Link.notify. case_decide; [|auto with bounds].
  apply gw_bounds_bind; [auto with bounds|]. intros [[]|[]]; auto with bounds.
Qed.
#[local] Hint Resolve gw_bounds_request gw_bounds_notification : bounds.

Lemma gw_bounds_with_id msg code m : bounds_gw (refuse_with_id msg code m).
Proof. unfold refuse_with_id. auto with bounds. Qed.
#[local] Hint Resolve gw_bounds_with_id : bounds.

Lemma gw_bounds_dispatch msg method params : bounds_gw (dispatch gc msg method params).
Proof.
  unfold dispatch. apply gw_bounds_bind; [apply gw_bounds_attempt; auto with bounds|].
  intros []; auto with bounds.
Qed.

Lemma gw_bounds_line line : bounds_gw (_handle_line gc line).
Proof.
  pose proof gw_bounds_dispatch. unfold _handle_line, handle_message. repeat case_match; auto with bounds.
Qed.

Lemma gw_bounds_run fuel : ∀ input, bounds_gw (run gc fuel input).
Proof.
  induction fuel as [|fuel IH]; intros input; [apply gw_bounds_ret|]. cbn [run].
  destruct (readline _ input) as [line rest]. pose proof gw_bounds_line. auto 12 with bounds.
Qed.


(** ** What a listing shows *)

Definition shown (c : Catalog) (source_id : string) (t : pyval) : bool :=
  match t with
  | PDict d => match dget "name" d with
               | PStr n => bool_decide (Catalog.invocable c source_id n = Ok true)
               | _ => false
               end
  | _ => false
  end.

Lemma invocable_only_filter c sid tools r :
  invocable_only c sid tools = Ok r → r = filter (λ t, shown c sid t = true) tools.
Proof.
  revert r. induction tools as [|t tools IH]; intros r; simpl; [by intros [= <-]|].
  rewrite filter_cons. assert (shown c sid t = false → invocable_only c sid tools = Ok r →
    r = if decide (shown c sid t = true) then t :: filter (λ t, shown c sid t = true) tools
        else filter (λ t, shown c sid t = true) tools) as Hskip.
  { intros Hs H. rewrite decide_False by congruence. by apply IH. }
  destruct t as [| | | | | |d|]; try by apply Hskip. simpl in *.
  destruct (dget "name" d) as [| | | |n| | |]; try by apply Hskip.
  destruct (Catalog.invocable c sid n) as [b|e]; [|done]. simpl.
  destruct (invocable_only c sid tools) as [rest|e]; [|done]. simpl. intros [= <-]. rewrite (IH rest eq_refl).
  by destruct b.
Qed.

(** C26 -- A listing shows invocable tools only: [tools/list] answers with the tools the
    downstream server announced, all pages in order, that the catalog holds invocable at
    that moment for the gateway's source, or with an error; never with part of a
    listing. *)
Theorem listing_is_filtered (id : pyval) (o : oracle) (g : gw) :
  let '(r, g') := _handle_tools_list gc id o g in
  r = Ok tt →
  (∃ code message data, g_out g' = g_out g ++ [refusal id code message data]) ∨
  ∃ tools l', gather gc (Z.to_nat _MAX_LIST_PAGES) None [] 0 [] (g_link g) = (Ok (Answer tools), l') ∧
    g_out g' = g_out g ++ [response id (PDict [str_pair "tools"
      (PList (filter (λ t, shown (w_catalog (g_world g)) (gw_source_id gc) t = true) tools))])].
Proof.
  unfold _handle_tools_list. gw_step. unfold on_link.
  destruct (gather gc _ None [] 0 [] (g_link g)) as [r l1]. cbv beta iota.
  assert (∀ a (g1 : gw), let '(r, g') := _write a o g1 in r = Ok tt → g_out g' = g_out g1 ++ [a]) as Hw.
  { intros a g1. unfold _write. gw_step. by destruct (json_dumps _ _ _ a). }
  destruct r as [[tools|code message data]|e].
  - gw_step. unfold on_service. change (catalog o (g_world (mkGw (g_world g) l1 (g_out g))))
      with (Ok (w_catalog (g_world g)), g_world g). cbv beta iota. gw_step.
    destruct (invocable_only _ _ tools) as [l|e] eqn:Hl; [|done]. apply invocable_only_filter in Hl as ->.
    unfold _respond. match goal with |- context [_write ?a o ?g1] => pose proof (Hw a g1) as H; destruct (_write a o g1) end.
    intros ->. right. exists tools, l1. split; [done|]. by apply H.
  - unfold _refuse. match goal with |- context [_write ?a o ?g1] => pose proof (Hw a g1) as H; destruct (_write a o g1) end.
    intros ->. left. eexists _, _, _. by apply H.
  - destruct e; try done. unfold unavailable, refuse, _refuse.
    match goal with |- context [_write ?a o ?g1] => pose proof (Hw a g1) as H; destruct (_write a o g1) end.
    intros ->. left. eexists _, _, _. by apply H.
Qed.
End session.

(** ** Witnesses *)

