(* ===== verification/Server.v ===== *)
(** [server.py]: the HTTP front of the service.

    The state is the service's world, the rate limiter and the connection: the bytes not
    yet read from it, whether it is to be closed, and the responses sent.  A request comes
    as [http.server] and [urllib.parse] give it: the decoded path, the last value of each
    query parameter, the headers the code reads.  The lock makes a request one step.  The
    listening socket and the texts of the interpreter's own exceptions are not modelled. *)

From S2P Require Import Prelude PyJson PyJsonLoads PyStr PyColl PyEq PyIo Descriptor Catalog Policy.
From S2P Require Import DateTime Db AuditLog Grants BusPublish GovGrants McpSource Service RateLimiter.

Definition DEFAULT_HOST : string := "127.0.0.1".
Definition LOOPBACK_HOSTS : list string := ["127.0.0.1"; "::1"; "localhost"].
Definition _MAX_BODY : Z := Z.shiftl 1 20.

(** ** The route patterns *)

(** The text before the first end that is the given suffix. *)
Fixpoint strip_suffix (suf s : string) : option string :=
  if decide (s = suf) then Some EmptyString
  else match s with
       | String c s' => String c <$> strip_suffix suf s'
       | EmptyString => None
       end.

(** [suf$]: [$] also matches before a final newline. *)
Definition before_end (suf s : string) : option string :=
  match strip_suffix suf s with
  | Some t => Some t
  | None => t ← strip_suffix (String newline EmptyString) s; strip_suffix suf t
  end.

(** [.+] and [[^/]+] on all of a text. *)
Definition dots (s : string) : bool := negb (bool_decide (s = "")) && negb (string_has newline s).
Definition segment (s : string) : bool := negb (bool_decide (s = "")) && negb (string_has "/"%char s).

(** The two parts at the last slash. *)
Fixpoint rsplit_slash (s : string) : option (string * string) :=
  match s with
  | EmptyString => None
  | String c s' =>
      match rsplit_slash s' with
      | Some (a, b) => Some (String c a, b)
      | None => if decide (c = "/"%char) then Some (EmptyString, s') else None
      end
  end.

Definition keep_if {A} (p : A → bool) (a : A) : option A := if p a then Some a else None.

(** [^/pre/(?P<sid>.+)/suf$] and [^/pre/(?P<id>[^/]+)/suf$] *)
Definition around (p : string → bool) (pre suf path : string) : option string :=
  r ← strip_prefix pre path; s ← before_end suf r; keep_if p s.
(** [^/pre/(?P<sid>.+)/(?P<name>[^/]+)$]: the name takes all after the last slash. *)
Definition source_and_name (pre path : string) : option (string * string) :=
  r ← strip_prefix pre path; sn ← rsplit_slash r; keep_if (λ sn, dots sn.1 && negb (bool_decide (sn.2 = ""))) sn.

Definition _INGEST : string → option string := around dots "/sources/" "/ingest".
Definition _PUSH : string → option string := around dots "/sources/" "/tools".
Definition _CATALOG : string → option (string * string) := source_and_name "/catalog/".
Definition _ASSERTION : string → option (string * string) := source_and_name "/assertions/".
Definition _DRIFT : string → option string := around dots "/drift/" "".
Definition _OUTCOME : string → option string := around segment "/decisions/" "/outcome".
Definition _GRANT_REDEEM : string → option string := around segment "/grants/" "/redeem".
Definition _GRANT_CLOSE : string → option string := around segment "/grants/" "/close".
(** [[^/]+] takes a final newline itself. *)
Definition _GRANT (path : string) : option string := r ← strip_prefix "/grants/" path; keep_if segment r.

(** ** Requests, responses, connections *)

Record request := mkRequest {
  rq_method : string;
  rq_path : string;
  rq_query : list (string * string);
  rq_authorization : string;
  rq_length : string;
  rq_client : string;
  rq_now : Z;
}.

Record response := mkResponse {
  rs_status : Z;
  rs_body : pyval;
  rs_headers : list (string * string);
}.

Record conn := mkConn {
  h_world : world;
  h_limiter : limiter;
  h_in : string;
  h_close : bool;
  h_out : list response;
}.

(** What [make_server] binds to the handler class. *)
Record server := mkServer {
  sv_service : config;
  sv_token : option string;
}.

Definition web (A : Type) : Type := oracle → st conn A.

#[global] Instance web_ret : MRet web := λ A a o c, (Ok a, c).
#[global] Instance web_bind : MBind web := λ A B f m o c,
  match m o c with
  | (Ok a, c') => f a o c'
  | (Raise e, c') => (Raise e, c')
  end.

Definition give {A} (r : res A) : web A := λ o c, (r, c).
Definition on_world {A} (m : svc A) : web A := λ o c,
  let '(r, w) := m o (h_world c) in (r, mkConn w (h_limiter c) (h_in c) (h_close c) (h_out c)).
Definition on_limiter {A} (f : limiter → A * limiter) : web A := λ o c,
  let '(a, l) := f (h_limiter c) in (Ok a, mkConn (h_world c) l (h_in c) (h_close c) (h_out c)).
Definition on_input {A} (f : string → A * string) : web A := λ o c,
  let '(a, i) := f (h_in c) in (Ok a, mkConn (h_world c) (h_limiter c) i (h_close c) (h_out c)).
Definition close_connection : web unit := λ o c,
  (Ok tt, mkConn (h_world c) (h_limiter c) (h_in c) true (h_out c)).
Definition send_response (r : response) : web unit := λ o c,
  (Ok tt, mkConn (h_world c) (h_limiter c) (h_in c) (h_close c) (h_out c ++ [r])).
Definition try_ {A} (m : web A) : web (res A) := λ o c, let '(r, c') := m o c in (Ok r, c').

(** The answer of a service method, as the JSON it becomes. *)
Definition answer {A} (f : A → pyval) (m : svc A) : web pyval := a ← on_world m; mret (f a).

Section server.
Context {rt : PyFloatRuntime} {dt : PyDatetime} {utf8 : Utf8} {crypto : Cryptography}
  {engine : PolicyEngine} {processes : Processes} {endpoint : BusEndpoint} (sv : server).

(** ** Plumbing *)

(** [_json(status, payload, extra_headers)] *)
Definition _json (status : Z) (payload : pyval) (extra_headers : list (string * string)) : web unit :=
  _ ← give (json_dumps true false true payload);
  send_response (mkResponse status payload extra_headers).

(** [_error(status, message, extra_headers)] *)
Definition error_body (status : Z) (message : string) : pyval :=
  PDict [str_pair "error" (PDict [str_pair "status" (PInt status); str_pair "message" (PStr message)])].
Definition _error (status : Z) (message : string) (extra_headers : list (string * string)) : web unit :=
  _json status (error_body status message) extra_headers.

(** [hmac.compare_digest(a, b)] on text *)
Definition compare_digest (a b : string) : res bool :=
  if all_chars (λ c, char_code c <? 128) (a +:+ b) then Ok (bool_decide (a = b))
  else Raise (TypeError "comparing strings with non-ASCII characters is not supported").

(** [_authenticated()] *)
Definition _authenticated (rq : request) : res bool :=
  match sv_token sv with
  | None | Some EmptyString => Ok true
  | Some token =>
      let '(scheme, _, presented) := partition " "%char (rq_authorization rq) in
      if negb (bool_decide (py_lower scheme = "bearer")) || bool_decide (presented = "") then Ok false
      else compare_digest (py_strip presented) token
  end.

(** [int(self.headers.get("Content-Length") or 0)] *)
Definition content_length (rq : request) : res Z :=
  if decide (rq_length rq = "") then Ok 0 else py_int (rq_length rq).

(** The loop of [_drain_body]. *)
Fixpoint drain_loop (fuel : nat) (remaining : Z) (input : string) : string :=
  match fuel with
  | O => input
  | S fuel =>
      if 0 <? remaining then
        let '(chunk, rest) := read (Z.min remaining 65536) input in
        if decide (chunk = "") then rest
        else drain_loop fuel (remaining - Z.of_nat (String.length chunk)) rest
      else input
  end.

(** [_drain_body()] *)
Definition _drain_body (rq : request) : web unit :=
  length ← give (content_length rq);
  on_input (λ i, (tt, drain_loop (S (String.length i)) (Z.min length (_MAX_BODY + 1)) i)).

(** [self.rfile.read(n)]: [-1] reads to the end of the stream. *)
Definition rfile_read (n : Z) : web string :=
  if n =? -1 then on_input (λ i, (i, EmptyString))
  else if n <? 0 then give (Raise (ValueError "read length must be non-negative or -1"))
  else on_input (read n).

(** [_body()] *)
Definition _body (rq : request) : web pydict :=
  length ← give (content_length rq);
  _ ← give (raise_if (_MAX_BODY <? length) (ServiceError 413 "request body too large"));
  raw ← (if length =? 0 then mret "{}" else rfile_read length);
  match utf8_decode (if decide (raw = "") then "{}" else raw) with
  | None => give (Raise (ValueError "'utf-8' codec can't decode the body"))
  | Some text =>
      match json_loads text with
      | Ok (PDict b) => mret b
      | Ok _ => give (Raise (ServiceError 400 "request body must be a JSON object"))
      | Raise JSONDecodeError => give (Raise (ServiceError 400 "request body is not valid JSON"))
      | Raise e => give (Raise e)
      end
  end.

(** ** Routing *)

Definition no_route (method path : string) : web pyval :=
  give (Raise (ServiceError 404 ("no route " +:+ method +:+ " " +:+ path))).

(** [query.get(k)], [int(query.get("limit", "100"))] *)
Definition query_get (query : list (string * string)) (k : string) : option string :=
  snd <$> head (filter (λ kv : string * string, kv.1 = k) query).
Definition query_limit (query : list (string * string)) : res Z :=
  py_int (default "100" (query_get query "limit")).

(** [re.fullmatch(r"[a-z_]+", kind)] *)
Definition audit_kind_ok (kind : string) : bool :=
  negb (kind ≟ "") &&
  all_chars (λ c, ((97 <=? char_code c) && (char_code c <=? 122)) || bool_decide (c = "_"%char)) kind.

Definition audit_record (rb : audit_row * pyval) : pyval :=
  let '(r, b) := rb in
  PDict [str_pair "seq" (PInt (au_seq r)); str_pair "kind" (PStr (au_kind r)); str_pair "body" b;
         str_pair "created_at" (PStr (au_created_at r)); str_pair "record_hash" (PStr (au_record_hash r))].

(** [ChainVerification.as_dict()] *)
Definition as_dict (v : ChainVerification) : pyval :=
  PDict [str_pair "ok" (PBool (AuditLog.ok v)); str_pair "records" (PInt (AuditLog.records v));
         str_pair "broken_at" (match broken_at v with Some n => PInt n | None => PNone end);
         str_pair "detail" (PStr (detail v))].

Definition named (k : string) (l : list pyval) : pyval := PDict [str_pair k (PList l)].

(** The routes of [GET]. *)
Definition route_get (path : string) (query : list (string * string)) : web pyval :=
  if decide (path = "/health") then answer PDict (health (sv_service sv))
  else if decide (path = "/sources") then answer (λ l, named "sources" (PDict <$> l)) list_sources
  else if decide (path = "/catalog") then answer (λ l, named "tools" (PDict <$> l)) list_catalog
  else if decide (path = "/audit") then
    limit ← give (query_limit query);
    let kind := query_get query "kind" in
    _ ← give (raise_if (match kind with Some k => negb (audit_kind_ok k) | None => false end)
                (ServiceError 400 ("invalid audit kind " +:+ repr_str (default "" kind))));
    answer (λ l, named "records" (audit_record <$> l)) (on_store (read_audit kind (Z.max 1 (Z.min limit 1000))))
  else if decide (path = "/audit/verify") then answer as_dict verify_audit
  else
    match _CATALOG path with
    | Some (sid, name) => answer PDict (get_tool sid name)
    | None =>
    match _ASSERTION path with
    | Some (sid, name) => answer PDict (get_assertion sid name)
    | None =>
    match _DRIFT path with
    | Some sid => answer PDict (drift_report sid)
    | None =>
      if decide (path = "/grants") then
        limit ← give (query_limit query);
        answer (λ l, named "grants" (PDict <$> l))
          (grants_list (query_get query "state") (Z.max 1 (Z.min limit 1000)))
      else
        match _GRANT path with
        | Some grant_id => answer PDict (grant_of grant_id)
        | None => no_route "GET" path
        end
    end
    end
    end.

Definition str_field (b : pydict) (k d : string) : string := py_str (dget_or k (PStr d) b).
Definition mapping_field (b : pydict) (k : string) : pyval := py_or (dget k b) (PDict []).

(** The routes of [POST]. *)
Definition post_source (b : pydict) : svc pydict :=
  register_source (str_field b "source_id" "") (str_field b "tier" "untrusted") (str_field b "transport" "mcp")
    (dget "declares" b) (dget "command" b).
Definition post_authorize (b : pydict) : svc pydict :=
  authorize (sv_service sv) (mapping_field b "principal") (str_field b "source_id" "") (str_field b "name" "")
    (dget "context" b) (if dhas "args" b then Some (dget "args" b) else None) (dget "ttl_seconds" b).
Definition post_ingest (sid : string) (b : pydict) : svc pydict :=
  nan ← pure (float_is_nan (dget_or "timeout" (PInt 10) b));
  if nan : bool then ingest_by discover_nan sid else ingest sid.
Definition post_redemption (b : pydict) : svc pydict :=
  redeem_governance_grant (sv_service sv) (dget "grant" b) (mapping_field b "principal")
    (str_field b "source_id" "") (str_field b "name" "") (dget "args" b) (dget "at" b).

Definition with_body (rq : request) (f : pydict → svc pydict) : web pyval :=
  b ← _body rq; answer PDict (f b).

Definition route_post (rq : request) (path : string) : web pyval :=
  if decide (path = "/sources") then with_body rq post_source
  else if decide (path = "/authorize") then with_body rq post_authorize
  else
    match _INGEST path with
    | Some sid => with_body rq (post_ingest sid)
    | None =>
    match _PUSH path with
    | Some sid => with_body rq (λ b, ingest_payload sid (dget_or "tools" (PList []) b))
    | None =>
      if decide (path = "/assertions") then
        with_body rq (λ b, assert_tool (str_field b "source_id" "") (str_field b "name" "")
                             (mapping_field b "descriptor"))
      else
        match _OUTCOME path with
        | Some did => with_body rq (λ b, record_outcome (sv_service sv) did (str_field b "outcome" "")
                                           (dget "detail" b) (dget "grant_id" b))
        | None =>
        match _GRANT_REDEEM path with
        | Some gid => with_body rq (λ b, redeem (sv_service sv) gid (mapping_field b "principal") (dget "args" b))
        | None =>
          if decide (path = "/redemptions") then with_body rq post_redemption
          else
            match _GRANT_CLOSE path with
            | Some gid => with_body rq (λ b, close gid (str_field b "reason" "explicit_close"))
            | None => no_route "POST" path
            end
        end
        end
    end
    end.

(** [path.rstrip("/") or "/"] *)
Definition normal_path (path : string) : string :=
  let p := rstrip_slash path in if decide (p = "") then "/" else p.

(** [_route(method, path, query)] *)
Definition _route (rq : request) : web pyval :=
  let path := normal_path (rq_path rq) in
  if decide (rq_method rq = "GET") then route_get path (rq_query rq)
  else if decide (rq_method rq = "POST") then route_post rq path
  else no_route (rq_method rq) path.

(** [_dispatch(method)]; an exception that leaves it ends the connection unanswered. *)
Definition serve_route (rq : request) : web unit :=
  result ← try_ (_route rq);
  match result with
  | Ok payload => _json 200 payload []
  | Raise (ServiceError status m) =>
      _ ← (if status =? 413 then close_connection else mret tt);
      _error status m []
  | Raise e => _error 500 ("internal error: " +:+ str_exn e) []
  end.

Definition _dispatch (rq : request) : web unit :=
  allowed ← on_limiter (check (rq_client rq) (rq_now rq));
  if negb (fst allowed) then
    _ ← _drain_body rq;
    _error 429 "rate limit exceeded" [("Retry-After", string_of_Z (snd allowed / microseconds + 1))]
  else
    authenticated ← give (_authenticated rq);
    if negb authenticated then
      _ ← _drain_body rq;
      _error 401 "missing or invalid bearer token" [("WWW-Authenticate", "Bearer")]
    else serve_route rq.

(** [serve_forever()] until the interrupt.  Each request on a connection of its own, with the bytes that follow its headers. *)
Fixpoint serve_http (rqs : list (request * string)) (o : oracle) (w : world) (l : limiter) :
    list (list response) * world :=
  match rqs with
  | [] => ([], w)
  | (rq, input) :: rqs' =>
      let c := (_dispatch rq o (mkConn w l input false [])).2 in
      let '(outs, w') := serve_http rqs' o (h_world c) (h_limiter c) in (h_out c :: outs, w')
  end.
End server.

(** ** The server *)

(** [make_server(service, host, port, token, rate_limit_per_min)]; the bind is the
    caller's environment. *)
Definition make_server (service : config) (host : string) (token : option string) (rate_limit_per_min : Z) :
    res (server * limiter) :=
  if negb (host ∈? LOOPBACK_HOSTS) && bool_decide (default "" token = "") then
    Raise (ValueError ("refusing to bind " +:+ repr_str host +:+ " without authentication: a non-loopback bind exposes an open decision point on a reachable interface."))
  else
    Ok (mkServer service (if decide (default "" token = "") then None else token),
        new_limiter rate_limit_per_min (60 * microseconds)).
