(* ===== verification/ServerRuns.v ===== *)
(** The HTTP front's guarantees: nothing happens for a request that is not authenticated,
    every response says what the service method did, and a history of requests redeems a
    grant once. *)

From S2P Require Import Prelude PyJson PyJsonLoads PyStr PyColl PyEq PyIo Descriptor Catalog Policy.
From S2P Require Import DateTime Hashing Db AuditLog Grants Store BusPublish GovGrants McpSource Service.
From S2P Require Import ServiceRuns RateLimiter Server.

(** Run the server monad one step further, where that is pure. *)
Ltac web_step :=
  lazymatch goal with
  | |- context [@mbind web ?i ?A ?B ?k ?m ?o ?c] =>
      change (@mbind web i A B k m o c) with
        (match m o c with (Ok a, c') => k a o c' | (Raise e, c') => (@Raise B e, c') end);
      try lazymatch m with
      | give ?r => change (m o c) with (r, c)
      | mret ?a => change (m o c) with (@Ok A a, c)
      | try_ ?m' => change (m o c) with (let '(r, c') := m' o c in (Ok r, c'))
      end; cbv beta iota
  end.

Section reads.
Context {rt : PyFloatRuntime} {dt : PyDatetime} {utf8 : Utf8} {crypto : Cryptography}
  {engine : PolicyEngine} {processes : Processes} {endpoint : BusEndpoint}.

(** ** The methods behind [GET] change nothing on file *)

Lemma verify_audit_keeps : svc_keeps verify_audit.
Proof. unfold verify_audit. eauto with keeps. Qed.
#[local] Hint Resolve verify_audit_keeps : keeps.

Lemma health_keeps cfg : svc_keeps (health cfg).
Proof. unfold health. eauto 30 with keeps. Qed.

Lemma list_sources_keeps : svc_keeps list_sources.
Proof. by intros o w. Qed.

Lemma list_catalog_keeps : svc_keeps list_catalog.
Proof. by intros o w. Qed.

Lemma get_assertion_keeps sid n : svc_keeps (get_assertion sid n).
Proof. unfold get_assertion. eauto 20 with keeps. Qed.

Lemma drift_report_keeps sid : svc_keeps (drift_report sid).
Proof. unfold drift_report. eauto 20 with keeps. Qed.

Lemma grants_list_keeps state limit : svc_keeps (grants_list state limit).
Proof. unfold grants_list. eauto with keeps. Qed.

Lemma read_audit_keeps kind limit : svc_keeps (on_store (read_audit kind limit)).
Proof. unfold read_audit. eauto with keeps. Qed.
End reads.

#[export] Hint Resolve verify_audit_keeps health_keeps list_sources_keeps list_catalog_keeps get_assertion_keeps
  drift_report_keeps grants_list_keeps read_audit_keeps get_tool_keeps grant_of_keeps ingest_by_keeps : keeps.

(** ** What a request does *)

Section server.
Context {rt : PyFloatRuntime} {dt : PyDatetime} {utf8 : Utf8} {crypto : Cryptography}
  {engine : PolicyEngine} {processes : Processes} {endpoint : BusEndpoint} (sv : server).

(** The grant a request asks to redeem. *)
Definition redeem_path (rq : request) : option string :=
  if decide (rq_method rq = "POST") then _GRANT_REDEEM (normal_path (rq_path rq)) else None.

(** What routing a request comes to: an exception before any method runs, a method that
    changes nothing on file, or exactly one call of the service and its answer; a request
    to redeem a grant is the redemption of that grant. *)
Inductive routed (rq : request) (o : oracle) (w : world) : res pyval → world → Prop :=
| R_refused e : routed rq o w (Raise e) w
| R_read r w' : redeem_path rq = None → kept (w_db w) (w_db w') → routed rq o w r w'
| R_call c : (∀ gid, redeem_path rq = Some gid → ∃ p args, c = CRedeem gid p args) →
    routed rq o w (PDict <$> (perform (sv_service sv) c o w).1) (perform (sv_service sv) c o w).2.

(** The connection but for what was read from it and the world. *)
Definition same_conn (c c' : conn) : Prop :=
  h_limiter c' = h_limiter c ∧ h_close c' = h_close c ∧ h_out c' = h_out c.

Definition routes (rq : request) (m : web pyval) : Prop := ∀ o c,
  let '(r, c') := m o c in routed rq o (h_world c) r (h_world c') ∧ same_conn c c'.

Lemma give_routes rq e : routes rq (give (Raise e)).
Proof. intros o c. split; [constructor|done]. Qed.

Lemma answer_reads {A} rq (f : A → pyval) (m : svc A) :
  redeem_path rq = None → svc_keeps m → routes rq (answer f m).
Proof.
  intros Hp Hm o c. unfold answer. web_step. unfold on_world. specialize (Hm o (h_world c)).
  by destruct (m o (h_world c)) as [[a|e] w']; split; try apply R_read.
Qed.

Lemma answer_calls rq call :
  (∀ gid, redeem_path rq = Some gid → ∃ p args, call = CRedeem gid p args) →
  routes rq (answer PDict (perform (sv_service sv) call)).
Proof.
  intros Hp o c. unfold answer. web_step. unfold on_world. pose proof (R_call rq o (h_world c) call Hp) as H.
  by destruct (perform (sv_service sv) call o (h_world c)) as [[a|e] w'].
Qed.

(** Reading the body leaves everything but the input. *)
Lemma body_inert rq o c :
  h_world (_body rq o c).2 = h_world c ∧ same_conn c (_body rq o c).2.
Proof.
  unfold _body. web_step. destruct (content_length rq) as [n|e]; [|done].
  web_step. destruct (raise_if _ _) as [[]|e]; [|done]. web_step.
  assert (∀ (m : web string), (m = mret "{}" ∨ m = rfile_read n) →
    h_world (m o c).2 = h_world c ∧ same_conn c (m o c).2) as Hm.
  { intros m [->| ->]; [done|]. unfold rfile_read, on_input. repeat case_match; done. }
  specialize (Hm (if n =? 0 then mret "{}" else rfile_read n) ltac:(destruct (n =? 0); auto)).
  destruct ((if n =? 0 then mret "{}" else rfile_read n) o c) as [[raw|e] c1]; [|done]. simpl in Hm.
  destruct (utf8_decode _); [|done]. by destruct (json_loads _) as [[]|[]].
Qed.

Lemma with_body_routes rq f :
  (∀ b, routes rq (answer PDict (f b))) → routes rq (with_body rq f).
Proof.
  intros Hf o c. unfold with_body. web_step. destruct (body_inert rq o c) as [Hw (Hl & Hc & Ho)].
  destruct (_body rq o c) as [[b|e] c1]; simpl in *; [|rewrite Hw; split; [constructor|done]].
  specialize (Hf b o c1). rewrite Hw in Hf. destruct (answer PDict (f b) o c1) as [r c2].
  destruct Hf as [Hr (? & ? & ?)]. split; [done|]. unfold same_conn. split_and!; congruence.
Qed.

Lemma with_body_calls rq (f : pydict → call) :
  (∀ b gid, redeem_path rq = Some gid → ∃ p args, f b = CRedeem gid p args) →
  routes rq (with_body rq (λ b, perform (sv_service sv) (f b))).
Proof. intros Hf. apply with_body_routes. intros b. apply answer_calls, Hf. Qed.

(** ** Routing *)

Lemma strip_prefix_some p s r : strip_prefix p s = Some r → s = p +:+ r.
Proof.
  revert s. induction p as [|a p IH]; intros s; simpl; [by intros [= ->]|].
  destruct s as [|b s]; [done|]. case_decide; [|done]. subst b. intros H. by rewrite (IH _ H).
Qed.

(** Only the redemption route is under [/grants/] with a second segment. *)
Lemma redeem_path_only rq gid :
  redeem_path rq = Some gid →
  rq_method rq = "POST" ∧ ∃ r, normal_path (rq_path rq) = "/grants/" +:+ r ∧
    _GRANT_REDEEM ("/grants/" +:+ r) = Some gid.
Proof.
  unfold redeem_path. case_decide as Hm; [|done]. intros H. split; [done|].
  assert (∃ r, normal_path (rq_path rq) = "/grants/" +:+ r) as [r Hr].
  { unfold _GRANT_REDEEM, around in H. destruct (strip_prefix "/grants/" _) as [r|] eqn:E; [|done].
    exists r. by apply strip_prefix_some. }
  exists r. by rewrite Hr in H.
Qed.

Lemma give_then {A} rq (r : res A) (k : A → web pyval) :
  (∀ a, routes rq (k a)) → routes rq (give r ≫= k).
Proof. intros Hk o c. web_step. destruct r as [a|e]; [apply Hk|]. split; [constructor|done]. Qed.

Lemma route_get_routes rq path query :
  redeem_path rq = None → routes rq (route_get sv path query).
Proof.
  intros Hp. unfold route_get, no_route. cbv zeta.
  repeat case_match; repeat first
    [apply answer_reads; [done|solve [auto with keeps]]|apply give_routes|apply give_then; intros ?].
Qed.

Lemma post_ingest_routes rq sid :
  redeem_path rq = None → routes rq (with_body rq (post_ingest sid)).
Proof.
  intros Hp. apply with_body_routes. intros b. unfold post_ingest.
  destruct (float_is_nan _) as [[]|e].
  - apply answer_reads; [done|]. eauto with keeps.
  - apply (answer_calls rq (CIngest sid)). by rewrite Hp.
  - intros o c. split; [constructor|done].
Qed.

Lemma redeem_routes rq gid r :
  redeem_path rq = Some gid → _GRANT_REDEEM ("/grants/" +:+ r) = Some gid →
  routes rq (route_post sv rq ("/grants/" +:+ r)).
Proof.
  intros Hp Hr. unfold route_post. rewrite !decide_False by done.
  change (_INGEST ("/grants/" +:+ r)) with (@None string). change (_PUSH ("/grants/" +:+ r)) with (@None string).
  change (_OUTCOME ("/grants/" +:+ r)) with (@None string). rewrite Hr. cbv beta iota.
  apply (with_body_calls rq (λ b, CRedeem gid (mapping_field b "principal") (dget "args" b))).
  rewrite Hp. intros b _ [= <-]. eauto.
Qed.

(** The route performs the given call of its body. *)
Ltac by_call H f := pose proof (H f) as Hcall; cbn [perform] in Hcall; exact Hcall.

Lemma route_post_routes rq path :
  redeem_path rq = None → routes rq (route_post sv rq path).
Proof.
  intros Hp. assert (∀ f : pydict → call, routes rq (with_body rq (λ b, perform (sv_service sv) (f b)))) as Hc.
  { intros f. apply with_body_calls. by rewrite Hp. }
  unfold route_post, no_route, post_source, post_authorize, post_redemption.
  repeat case_match; try apply give_routes; try (by apply post_ingest_routes).
  - by_call Hc (λ b, CRegister (str_field b "source_id" "") (str_field b "tier" "untrusted")
      (str_field b "transport" "mcp") (dget "declares" b) (dget "command" b)).
  - by_call Hc (λ b, CAuthorize (mapping_field b "principal") (str_field b "source_id" "") (str_field b "name" "")
      (dget "context" b) (if dhas "args" b then Some (dget "args" b) else None) (dget "ttl_seconds" b)).
  - match goal with |- context [ingest_payload ?s] => by_call Hc (λ b, CPush s (dget_or "tools" (PList []) b)) end.
  - by_call Hc (λ b, CAssert (str_field b "source_id" "") (str_field b "name" "") (mapping_field b "descriptor")).
  - match goal with |- context [record_outcome _ ?d] => by_call Hc (λ b, COutcome d (str_field b "outcome" "")
      (dget "detail" b) (dget "grant_id" b)) end.
  - match goal with |- context [redeem _ ?g] => by_call Hc (λ b, CRedeem g (mapping_field b "principal") (dget "args" b)) end.
  - by_call Hc (λ b, CGov (dget "grant" b) (mapping_field b "principal") (str_field b "source_id" "")
      (str_field b "name" "") (dget "args" b) (dget "at" b)).
  - match goal with |- context [close ?g] => by_call Hc (λ b, CClose g (str_field b "reason" "explicit_close")) end.
Qed.

Lemma route_routes rq : routes rq (_route sv rq).
Proof.
  unfold _route. cbv zeta. destruct (redeem_path rq) as [gid|] eqn:Hp.
  - destruct (redeem_path_only rq gid Hp) as (Hm & r & Hr & Hg). rewrite Hm, decide_False, decide_True by done.
    rewrite Hr. by eapply redeem_routes.
  - repeat case_decide; [by apply route_get_routes|by apply route_post_routes|apply give_routes].
Qed.

(** ** Responses *)

(** The response to what a route came to. *)
Definition response_of (r : res pyval) : response :=
  match r with
  | Ok payload => mkResponse 200 payload []
  | Raise (ServiceError status m) => mkResponse status (error_body status m) []
  | Raise e => mkResponse 500 (error_body 500 ("internal error: " +:+ str_exn e)) []
  end.

Lemma error_sent status m hs o c :
  _error status m hs o c =
    (Ok tt, mkConn (h_world c) (h_limiter c) (h_in c) (h_close c)
      (h_out c ++ [mkResponse status (error_body status m) hs])).
Proof.
  unfold _error, _json. destruct (dumps_serializable (error_body status m) eq_refl) as [s Hs].
  web_step. by rewrite Hs.
Qed.

(** The exchange after the checks: the route's effect, and one response that says it. *)
Lemma serve_route_run rq o c :
  let '(r, c') := serve_route sv rq o c in
  ∃ result, routed rq o (h_world c) result (h_world c') ∧ h_limiter c' = h_limiter c ∧
    ((r = Ok tt ∧ h_out c' = h_out c ++ [response_of result]) ∨
     (∃ payload, result = Ok payload ∧ is_ok (json_dumps true false true payload) = false ∧
        h_out c' = h_out c)).
Proof.
  unfold serve_route. web_step. pose proof (route_routes rq o c) as H.
  destruct (_route sv rq o c) as [result c1]. destruct H as (Hr & Hl & _ & Ho).
  assert (∀ status m c2, h_world c2 = h_world c1 → h_limiter c2 = h_limiter c1 → h_out c2 = h_out c1 →
    response_of result = mkResponse status (error_body status m) [] →
    let '(r, c') := _error status m [] o c2 in
    ∃ result, routed rq o (h_world c) result (h_world c') ∧ h_limiter c' = h_limiter c ∧
      ((r = Ok tt ∧ h_out c' = h_out c ++ [response_of result]) ∨
       (∃ payload, result = Ok payload ∧ is_ok (json_dumps true false true payload) = false ∧
          h_out c' = h_out c))) as Herr.
  { intros status m c2 Hw2 Hl2 Ho2 He. rewrite error_sent. simpl. exists result.
    rewrite Hw2, Hl2, Ho2, Ho, He. auto. }
  destruct result as [payload|e].
  - unfold _json. web_step.
    destruct (json_dumps true false true payload) as [s|e] eqn:Hd; simpl; exists (Ok payload); rewrite Ho;
      (split; [done|]); (split; [done|]).
    + by left.
    + right. exists payload. by rewrite Hd.
  - destruct e; try (apply Herr; done). cbv beta iota. web_step.
    destruct (status =? 413); cbv beta iota; apply Herr; done.
Qed.

Lemma drain_inert rq o c :
  h_world (_drain_body rq o c).2 = h_world c ∧ same_conn c (_drain_body rq o c).2.
Proof. unfold _drain_body. web_step. by destruct (content_length rq). Qed.

(** Refused by the limiter or for want of the token. *)
Definition admitted (rq : request) (c : conn) : bool := (check (rq_client rq) (rq_now rq) (h_limiter c)).1.1.

Definition turned_away (rq : request) (c : conn) : Prop :=
  admitted rq c = false ∨ _authenticated sv rq ≠ Ok true.

Lemma refused_run rq o c status m hs :
  let '(r, c') := (_ ← _drain_body rq; _error status m hs) o c in
  h_world c' = h_world c ∧ h_limiter c' = h_limiter c ∧
  (h_out c' = h_out c ++ [mkResponse status (error_body status m) hs] ∨ r ≠ Ok tt ∧ h_out c' = h_out c).
Proof.
  web_step. destruct (drain_inert rq o c) as [Hw (Hl & _ & Ho)].
  destruct (_drain_body rq o c) as [[[]|e] c1]; simpl in Hw, Hl, Ho; [|by auto].
  rewrite error_sent. simpl. rewrite Ho. auto.
Qed.

Lemma turned_away_core (rq : request) (o : oracle) (c : conn) :
  turned_away rq c →
  let '(r, c') := _dispatch sv rq o c in
  h_world c' = h_world c ∧
  h_limiter c' = (check (rq_client rq) (rq_now rq) (h_limiter c)).2 ∧
  (h_out c' = h_out c ∨ ∃ rs, h_out c' = h_out c ++ [rs] ∧
     rs_status rs = if admitted rq c then 401 else 429).
Proof.
  intros Hno. unfold _dispatch. web_step. unfold on_limiter, turned_away, admitted in *.
  destruct (check _ _ _) as [[b wait] l]. cbv beta iota. simpl in Hno |- *.
  set (c1 := mkConn _ _ _ _ _). assert (h_world c1 = h_world c ∧ h_out c1 = h_out c) as [<- <-] by done.
  assert (∀ s m hs, let '(_, c') := (_ ← _drain_body rq; _error s m hs) o c1 in
    h_world c' = h_world c1 ∧ h_limiter c' = l ∧
    (h_out c' = h_out c1 ∨ ∃ rs, h_out c' = h_out c1 ++ [rs] ∧ rs_status rs = s)) as Href.
  { intros s m hs. pose proof (refused_run rq o c1 s m hs) as H.
    destruct ((_ ← _drain_body rq; _error s m hs) o c1) as [r c'].
    destruct H as (-> & -> & [->|[_ ->]]); split_and!; try done; [right|by left]. by eexists. }
  destruct b; cbn [fst snd negb]; cbv iota; [|apply Href]. destruct Hno as [|Hno]; [done|]. web_step.
  destruct (_authenticated sv rq) as [[]|e]; [done|apply Href|by auto].
Qed.

(** C15 -- A request that is turned away does nothing: over the rate limit, or without the
    token the server was given, no method of the service runs, whatever the request's
    route and body; the only effect is the limiter's own count, and the only response, if
    any, is one 429 or 401. *)
Theorem turned_away_is_inert (rq : request) (o : oracle) (c : conn) :
  turned_away rq c →
  let '(r, c') := _dispatch sv rq o c in
  h_world c' = h_world c ∧
  h_limiter c' = (check (rq_client rq) (rq_now rq) (h_limiter c)).2 ∧
  (h_out c' = h_out c ∨ ∃ rs, h_out c' = h_out c ++ [rs] ∧
     rs_status rs = if admitted rq c then 401 else 429).
Proof. apply turned_away_core. Qed.

(** Past the checks, a request is its route. *)
Lemma dispatch_admitted rq o c :
  admitted rq c = true → _authenticated sv rq = Ok true →
  ∃ l, _dispatch sv rq o c = serve_route sv rq o (mkConn (h_world c) l (h_in c) (h_close c) (h_out c)) ∧
    l = (check (rq_client rq) (rq_now rq) (h_limiter c)).2.
Proof.
  intros Had Hau. unfold admitted in Had. unfold _dispatch. web_step. unfold on_limiter.
  destruct (check _ _ _) as [[b wait] l]. simpl in Had. subst b. cbv beta iota. cbn [fst snd negb]. web_step.
  rewrite Hau. cbn [negb]. exists l. done.
Qed.


(** ** Histories of requests *)

Definition says_redeemed (rs : response) : bool :=
  bool_decide (rs_status rs = 200) &&
  match rs_body rs with PDict pl => bool_decide (dget "redeemed" pl = PBool true) | _ => false end.

(** The exchanges that answered a redemption of the grant with [redeemed: true]. *)
Definition redeemed_exchange (gid : string) (x : (request * string) * list response) : bool :=
  bool_decide (redeem_path x.1.1 = Some gid) && existsb says_redeemed x.2.
Definition redeemed_exchanges (gid : string) (rqs : list (request * string)) (outs : list (list response)) : nat :=
  length (filter (λ x, redeemed_exchange gid x = true) (zip rqs outs)).

Lemma routed_permitted rq o w r w' : routed rq o w r w' → permitted (w_db w) → permitted (w_db w').
Proof.
  intros [e|r' w1 _ Hk|call _] Hp; [done|by eapply kept_permitted|].
  destruct (perform_kept (sv_service sv) call o w) as [Hk|(d1 & Hm & Hk)]; eapply kept_permitted; try done.
  by eapply may_issue_permitted.
Qed.

Lemma routed_grants rq o w r w' gid g :
  routed rq o w r w' → grants_t (w_db w) !! gid = Some g →
  ∃ g', grants_t (w_db w') !! gid = Some g' ∧ latched g g'.
Proof.
  intros [e|r' w1 _ Hk|call _] Hg; [exists g; split; [done|apply latched_refl]|by apply (k_grants _ _ Hk)|].
  by apply perform_grants.
Qed.

Lemma response_redeemed result :
  says_redeemed (response_of result) = true → ∃ pl, result = Ok (PDict pl) ∧ dget "redeemed" pl = PBool true.
Proof.
  unfold says_redeemed. destruct result as [v|e]; simpl.
  - destruct v as [| | | | | |pl|]; try done. intros H%bool_decide_eq_true. by exists pl.
  - destruct e; rewrite ?andb_false_r; try done.
Qed.

(** A redeemed answer found the grant live, and leaves it redeemed. *)
Lemma routed_redeemed rq o w result w' gid :
  routed rq o w result w' → redeem_path rq = Some gid → says_redeemed (response_of result) = true →
  (∃ g, grants_t (w_db w) !! gid = Some g ∧ gr_redeemed_at g = None ∧ gr_closed_at g = None) ∧
  ∃ g', grants_t (w_db w') !! gid = Some g' ∧ gr_redeemed_at g' ≠ None.
Proof.
  intros Hr Hp (pl & -> & Hred)%response_redeemed. inversion Hr as [|r w1 Hn|call Hc Hres]; subst; [congruence|].
  destruct (Hc gid Hp) as (p & args & ->).
  apply (redeemed_call_live (sv_service sv) gid (CRedeem gid p args) o w). cbn [redeemed_call].
  destruct (perform (sv_service sv) (CRedeem gid p args) o w).1 as [pl'|e]; [|done].
  injection Hres as ->. by rewrite bool_decide_eq_true_2, Hred.
Qed.

Lemma turned_away_run rq o c :
  turned_away rq c → let c' := (_dispatch sv rq o c).2 in
  h_world c' = h_world c ∧ (h_out c' = h_out c ∨ ∃ rs, h_out c' = h_out c ++ [rs] ∧ rs_status rs ≠ 200).
Proof.
  intros Hno. pose proof (turned_away_core rq o c Hno) as H. destruct (_dispatch sv rq o c) as [r c'].
  destruct H as (Hw & _ & [Ho|(rs & Ho & Hs)]); split; auto. right. exists rs. split; [done|].
  destruct (admitted rq c); lia.
Qed.

(** An exchange on a fresh connection. *)
Lemma exchange_run rq o c :
  h_out c = [] → let c' := (_dispatch sv rq o c).2 in
  ∃ result, routed rq o (h_world c) result (h_world c') ∧
    (existsb says_redeemed (h_out c') = true → says_redeemed (response_of result) = true).
Proof.
  intros Hout. cbv zeta. destruct (decide (admitted rq c = true ∧ _authenticated sv rq = Ok true)) as [[Had Hau]|Hno].
  - destruct (dispatch_admitted rq o c Had Hau) as (l & -> & _).
    pose proof (serve_route_run rq o (mkConn (h_world c) l (h_in c) (h_close c) (h_out c))) as H.
    destruct (serve_route sv rq o _) as [r c']. destruct H as (result & Hr & _ & H). exists result. split; [done|].
    simpl in H |- *. rewrite Hout in H. destruct H as [[_ ->]|(? & _ & _ & ->)]; simpl; [|done]. by rewrite orb_false_r.
  - assert (turned_away rq c) as Ht.
    { unfold turned_away. destruct (admitted rq c); [|by left]. right. intros Hau. by apply Hno. }
    destruct (turned_away_run rq o c Ht) as [Hw Ho]. rewrite Hw. exists (Raise AssertionError). split; [constructor|].
    rewrite Hout in Ho. destruct Ho as [->|(rs & -> & Hs)]; simpl; [done|].
    unfold says_redeemed at 1. by rewrite bool_decide_eq_false_2.
Qed.

Lemma exchange_grants rq o c gid g :
  h_out c = [] → grants_t (w_db (h_world c)) !! gid = Some g →
  ∃ g', grants_t (w_db (h_world (_dispatch sv rq o c).2)) !! gid = Some g' ∧ latched g g'.
Proof. intros Hout Hg. destruct (exchange_run rq o c Hout) as (result & Hr & _). by eapply routed_grants. Qed.

Lemma exchange_redeemed rq input o c gid :
  h_out c = [] → redeemed_exchange gid ((rq, input), h_out (_dispatch sv rq o c).2) = true →
  (∃ g, grants_t (w_db (h_world c)) !! gid = Some g ∧ gr_redeemed_at g = None ∧ gr_closed_at g = None) ∧
  ∃ g', grants_t (w_db (h_world (_dispatch sv rq o c).2)) !! gid = Some g' ∧ gr_redeemed_at g' ≠ None.
Proof.
  intros Hout [Hp%bool_decide_eq_true Hs]%andb_true_iff. destruct (exchange_run rq o c Hout) as (result & Hr & Hi).
  eapply routed_redeemed; [done|done|by apply Hi].
Qed.

Lemma latched_never_answered rqs gid : ∀ o w l g,
  grants_t (w_db w) !! gid = Some g → gr_redeemed_at g ≠ None ∨ gr_closed_at g ≠ None →
  redeemed_exchanges gid rqs (serve_http sv rqs o w l).1 = 0%nat.
Proof.
  induction rqs as [|[rq input] rqs IH]; intros o w l g Hg Hdead; simpl; [done|].
  set (c := mkConn w l input false []).
  destruct (exchange_grants rq o c gid g eq_refl Hg) as (g1 & Hg1 & Hl).
  pose proof (exchange_redeemed rq input o c gid eq_refl) as Hlive.
  assert (gr_redeemed_at g1 ≠ None ∨ gr_closed_at g1 ≠ None) as Hdead1.
  { destruct Hdead as [H|H]; [left; by rewrite (la_redeemed _ _ Hl)|right].
    by destruct (la_closed _ _ Hl H) as [-> _]. }
  specialize (IH o _ (h_limiter (_dispatch sv rq o c).2) g1 Hg1 Hdead1).
  destruct (serve_http sv rqs o _ _) as [outs w']. unfold redeemed_exchanges in *. simpl in *.
  rewrite filter_cons, decide_False; [done|]. intros Hred.
  destruct (Hlive Hred) as [(g2 & Hg2 & Hr & Hc) _]. simpl in Hg2. rewrite Hg in Hg2. injection Hg2 as <-. tauto.
Qed.

(** C17 -- The network keeps the guarantees: over any history of requests, admitted or not,
    at most one response to a redemption of a given grant says [redeemed: true], none once
    the grant was redeemed or closed, and if every grant on file had its permit at the
    start, every grant on file has one at the end. *)
Theorem http_history_is_safe (rqs : list (request * string)) (o : oracle) (w : world) (l : limiter) :
  (permitted (w_db w) → permitted (w_db (serve_http sv rqs o w l).2)) ∧
  ∀ gid, (redeemed_exchanges gid rqs (serve_http sv rqs o w l).1 ≤ 1)%nat ∧
    ∀ g, grants_t (w_db w) !! gid = Some g → gr_redeemed_at g ≠ None ∨ gr_closed_at g ≠ None →
      redeemed_exchanges gid rqs (serve_http sv rqs o w l).1 = 0%nat.
Proof.
  split; [|intros gid; split; [|by intros; eapply latched_never_answered]].
  - revert w l. induction rqs as [|[rq input] rqs IH]; intros w l Hp; simpl; [done|].
    destruct (exchange_run rq o (mkConn w l input false []) eq_refl) as (result & Hr & _).
    specialize (IH _ (h_limiter (_dispatch sv rq o (mkConn w l input false [])).2) (routed_permitted _ _ _ _ _ Hr Hp)).
    by destruct (serve_http sv rqs o _ _).
  - revert w l. induction rqs as [|[rq input] rqs IH]; intros w l; simpl; [unfold redeemed_exchanges; simpl; lia|].
    set (c := mkConn w l input false []).
    pose proof (exchange_redeemed rq input o c gid eq_refl) as Hlive.
    pose proof (latched_never_answered rqs gid o (h_world (_dispatch sv rq o c).2) (h_limiter (_dispatch sv rq o c).2)) as Hdead.
    specialize (IH (h_world (_dispatch sv rq o c).2) (h_limiter (_dispatch sv rq o c).2)).
    destruct (serve_http sv rqs o _ _) as [outs w']. unfold redeemed_exchanges in *. simpl in *.
    rewrite filter_cons. case_decide as Hred; [|done]. simpl.
    destruct (Hlive Hred) as [_ (g & Hg & Hr)]. rewrite (Hdead g Hg); [lia|by left].
Qed.
End server.

(** ** Framing: what a request leaves of the bytes that follow its headers *)

Lemma drain_loop_spec fuel : ∀ n i, (String.length i < fuel)%nat → drain_loop fuel n i = (read n i).2.
Proof.
  assert (∀ n i, n ≤ 0 → read n i = ("", i)) as Hz.
  { intros n [|ch i] Hn; simpl; [done|]. by rewrite (proj2 (Z.leb_le n 0)). }
  induction fuel as [|fuel IH]; intros n i Hf; [lia|]. cbn [drain_loop].
  destruct (Z.ltb_spec 0 n); [|by rewrite Hz by lia].
  pose proof (read_length (Z.min n 65536) i ltac:(lia)) as Hlen. pose proof (read_split (Z.min n 65536) i) as Hs.
  pose proof (read_add (Z.min n 65536) (n - Z.of_nat (String.length (read (Z.min n 65536) i).1)) i) as Hadd.
  destruct (read (Z.min n 65536) i) as [chunk rest] eqn:Hr. simpl in *.
  case_decide as Hc.
  - subst chunk. simpl in Hlen. destruct i as [|ch i]; [|simpl in Hlen; lia]. injection Hr as <-. done.
  - assert (String.length chunk ≠ 0%nat) as Hpos by (by destruct chunk).
    assert (String.length i = (String.length chunk + String.length rest)%nat) as Hi by (rewrite Hs at 1; apply slength_app).
    rewrite IH by lia. rewrite Hadd by lia. destruct (Z.le_gt_cases (Z.of_nat (String.length i)) (Z.min n 65536)).
    + assert (∀ m, Z.of_nat (String.length i) ≤ m → (read m i).2 = "") as Hall.
      { intros m Hm. pose proof (read_split m i) as Hsp. pose proof (read_length m i ltac:(lia)) as Hl.
        destruct (read m i) as [a b]. simpl in *. rewrite Hsp, slength_app in Hl.
        destruct b as [|? b]; [done|]. rewrite Hsp, slength_app in Hm. simpl in *. lia. }
      by rewrite !Hall by lia.
    + f_equal. f_equal. lia.
Qed.

Section framing.
Context {rt : PyFloatRuntime} {dt : PyDatetime} {utf8 : Utf8} {crypto : Cryptography}
  {engine : PolicyEngine} {processes : Processes} {endpoint : BusEndpoint} (sv : server).

(** The input a step leaves. *)
Definition leaves {A} (m : web A) (f : string → string) : Prop := ∀ o c, h_in (m o c).2 = f (h_in c).

Lemma answer_leaves {A} (f : A → pyval) (m : svc A) : leaves (answer f m) id.
Proof. intros o c. unfold answer. web_step. unfold on_world. by destruct (m o (h_world c)) as [[]]. Qed.
Lemma give_leaves {A} (r : res A) : leaves (give r) id.
Proof. by intros o c. Qed.
Lemma give_then_leaves {A B} (r : res A) (k : A → web B) : (∀ a, leaves (k a) id) → leaves (give r ≫= k) id.
Proof. intros Hk o c. web_step. destruct r; [apply Hk|done]. Qed.

(** The requests whose body the code reads. *)
Definition takes_body (path : string) : bool :=
  bool_decide (path ∈ ["/sources"; "/authorize"; "/assertions"; "/redemptions"]) ||
  bool_decide (is_Some (_INGEST path)) || bool_decide (is_Some (_PUSH path)) ||
  bool_decide (is_Some (_OUTCOME path)) || bool_decide (is_Some (_GRANT_REDEEM path)) ||
  bool_decide (is_Some (_GRANT_CLOSE path)).
Definition reads_body (rq : request) : bool :=
  bool_decide (rq_method rq = "POST") && takes_body (normal_path (rq_path rq)).

Lemma route_get_leaves path query : leaves (route_get sv path query) id.
Proof.
  unfold route_get, no_route. cbv zeta.
  repeat case_match; repeat first [apply answer_leaves|apply give_leaves|apply give_then_leaves; intros ?].
Qed.

Lemma route_post_takes rq path :
  if takes_body path then ∃ f, route_post sv rq path = with_body rq f
  else route_post sv rq path = no_route "POST" path.
Proof.
  unfold route_post, takes_body.
  destruct (decide (path = "/sources")) as [->|H1]; [by eexists|].
  destruct (decide (path = "/authorize")) as [->|H2]; [by eexists|].
  destruct (decide (path = "/assertions")) as [->|H3]; [by eexists|].
  destruct (decide (path = "/redemptions")) as [->|H4]; [by eexists|].
  rewrite bool_decide_eq_false_2 by set_solver.
  destruct (_INGEST path); [by eexists|]. destruct (_PUSH path); [by eexists|].
  destruct (_OUTCOME path); [by eexists|]. destruct (_GRANT_REDEEM path); [by eexists|].
  destruct (_GRANT_CLOSE path); [by eexists|]. done.
Qed.

Lemma read_zero i : (read 0 i).2 = i.
Proof. by destruct i. Qed.

Lemma body_leaves rq o c n :
  content_length rq = Ok n → 0 ≤ n →
  let '(r, c') := _body rq o c in
  if _MAX_BODY <? n then r = Raise (ServiceError 413 "request body too large") ∧ h_in c' = h_in c
  else h_in c' = (read n (h_in c)).2.
Proof.
  intros Hn Hpos. unfold _body. web_step. rewrite Hn. web_step. destruct (_MAX_BODY <? n) eqn:E; [done|]. simpl raise_if.
  cbv beta iota. web_step.
  assert (h_in ((if n =? 0 then mret "{}" else rfile_read n) o c).2 = (read n (h_in c)).2) as Hi.
  { destruct (Z.eqb_spec n 0) as [->|]; [by rewrite read_zero|]. unfold rfile_read, on_input.
    rewrite (proj2 (Z.eqb_neq n (-1))), (proj2 (Z.ltb_ge n 0)) by lia. by destruct (read n (h_in c)). }
  destruct ((if n =? 0 then mret "{}" else rfile_read n) o c) as [[raw|e] c1]; [|done]. simpl in Hi.
  destruct (utf8_decode _); [|done]. by destruct (json_loads _) as [[]|[]].
Qed.

Lemma drain_leaves rq o c n :
  content_length rq = Ok n → h_in (_drain_body rq o c).2 = (read (Z.min n (_MAX_BODY + 1)) (h_in c)).2.
Proof. intros Hn. unfold _drain_body. web_step. rewrite Hn. apply drain_loop_spec. lia. Qed.

Lemma error_leaves status m hs o c : h_in (_error status m hs o c).2 = h_in c ∧ h_close (_error status m hs o c).2 = h_close c.
Proof. by rewrite error_sent. Qed.

Lemma route_leaves rq o c n :
  content_length rq = Ok n → 0 ≤ n →
  let '(r, c') := _route sv rq o c in
  if reads_body rq then
    if _MAX_BODY <? n then r = Raise (ServiceError 413 "request body too large") ∧ h_in c' = h_in c
    else h_in c' = (read n (h_in c)).2
  else h_in c' = h_in c.
Proof.
  intros Hn Hpos. unfold _route, reads_body. cbv zeta. set (path := normal_path (rq_path rq)).
  assert (∀ m : web pyval, leaves m id → let '(r, c') := m o c in h_in c' = h_in c) as Hl.
  { intros m Hm. specialize (Hm o c). by destruct (m o c). }
  case_decide as Hget; [rewrite bool_decide_eq_false_2 by congruence; apply Hl, route_get_leaves|].
  case_decide as Hpost; [rewrite bool_decide_eq_true_2 by done|rewrite bool_decide_eq_false_2 by done; apply Hl, give_leaves].
  simpl andb. pose proof (route_post_takes rq path) as Ht. destruct (takes_body path); [|rewrite Ht; apply Hl, give_leaves].
  destruct Ht as [f ->]. unfold with_body. web_step. pose proof (body_leaves rq o c n Hn Hpos) as Hb.
  destruct (_body rq o c) as [[b|e] c1].
  - pose proof (answer_leaves PDict (f b) o c1) as Ha. destruct (answer PDict (f b) o c1) as [r c2]. simpl in Ha.
    destruct (_MAX_BODY <? n); [by destruct Hb|]. by rewrite Ha, Hb.
  - destruct (_MAX_BODY <? n); [by destruct Hb as [[= ->] ?]|done].
Qed.

Lemma close_if (b : bool) o c :
  ∃ c2, (if b then close_connection else mret tt) o c = (Ok tt, c2) ∧ h_in c2 = h_in c ∧ h_close c2 = b || h_close c.
Proof. destruct b; by eexists. Qed.

Lemma serve_route_leaves rq o c n :
  content_length rq = Ok n → 0 ≤ n →
  let c' := (serve_route sv rq o c).2 in
  if reads_body rq then
    if _MAX_BODY <? n then h_in c' = h_in c ∧ h_close c' = true else h_in c' = (read n (h_in c)).2
  else h_in c' = h_in c.
Proof.
  intros Hn Hpos. cbv zeta. unfold serve_route. web_step. pose proof (route_leaves rq o c n Hn Hpos) as H.
  destruct (_route sv rq o c) as [result c1].
  assert (∀ m : web unit, (∀ c2, h_in (m o c2).2 = h_in c2) → h_in (m o c1).2 = h_in c1) as Hi by auto.
  assert (h_in (match result with
    | Ok payload => _json 200 payload []
    | Raise (ServiceError status m) => _ ← (if status =? 413 then close_connection else mret tt); _error status m []
    | Raise e => _error 500 ("internal error: " +:+ str_exn e) []
    end o c1).2 = h_in c1) as Hin.
  { destruct result as [payload|e].
    - unfold _json. web_step. by destruct (json_dumps _ _ _ payload).
    - destruct e; try apply error_leaves. web_step.
      destruct (close_if (status =? 413) o c1) as (c2 & -> & Hc2 & _). by rewrite error_sent. }
  destruct (reads_body rq); [destruct (_MAX_BODY <? n)|]; [|by rewrite Hin..].
  destruct H as [-> H]. rewrite Hin, H. split; [done|]. web_step.
  destruct (close_if (413 =? 413) o c1) as (c2 & -> & _ & Hc2). by rewrite error_sent.
Qed.

(** C19 -- Framing on a kept connection: for a declared length that is not negative, a
    request past the checks leaves exactly the bytes after its body when its route reads
    one of at most a mebibyte, and the connection is closed when the body is larger; a
    refusal by the limiter or for want of the token reads at most one byte more than a
    mebibyte of it; a request whose route reads no body leaves the body in the stream. *)
Theorem body_framing (rq : request) (o : oracle) (c : conn) (n : Z) :
  content_length rq = Ok n → 0 ≤ n →
  let c' := (_dispatch sv rq o c).2 in
  match admitted rq c, _authenticated sv rq with
  | true, Ok true =>
      if reads_body rq then
        if _MAX_BODY <? n then h_in c' = h_in c ∧ h_close c' = true else h_in c' = (read n (h_in c)).2
      else h_in c' = h_in c
  | true, Raise _ => h_in c' = h_in c
  | _, _ => h_in c' = (read (Z.min n (_MAX_BODY + 1)) (h_in c)).2
  end.
Proof.
  intros Hn Hpos. cbv zeta. unfold _dispatch. web_step. unfold on_limiter, admitted.
  destruct (check _ _ _) as [[b wait] l]. cbv beta iota. cbn [fst snd negb].
  set (c1 := mkConn _ _ _ _ _). change (h_in c) with (h_in c1).
  assert (∀ s m hs, h_in ((_ ← _drain_body rq; _error s m hs) o c1).2 = (read (Z.min n (_MAX_BODY + 1)) (h_in c1)).2) as Hd.
  { intros s m hs. rewrite <- (drain_leaves rq o c1 n Hn). web_step. destruct (_drain_body rq o c1) as [[[]|e] c2]; [|done].
    by rewrite error_sent. }
  destruct b; cbn [fst snd negb]; cbv iota; [|apply Hd]. web_step.
  destruct (_authenticated sv rq) as [[]|e]; cbn [negb]; cbv iota; [|apply Hd|done].
  by apply serve_route_leaves.
Qed.
End framing.

(** No open server on the network: [make_server] builds a server exactly when the
    host is a loopback host or there is a token that is not empty; so a server on any
    other host authenticates, and answers a request without the token's scheme, or with
    another token, with nothing but a refusal. *)
Theorem make_server_fails_closed (service : config) (host : string) (token : option string) (rate : Z) :
  let r := make_server service host token rate in
  (is_ok r = true ↔ host ∈ LOOPBACK_HOSTS ∨ default "" token ≠ "") ∧
  ∀ sv l, r = Ok (sv, l) → host ∉ LOOPBACK_HOSTS →
    ∃ t, token = Some t ∧ t ≠ "" ∧
      ∀ rq, _authenticated sv rq = Ok true →
        let '(scheme, _, presented) := partition " "%char (rq_authorization rq) in
        py_lower scheme = "bearer" ∧ py_strip presented = t.
Proof.
  intros r. subst r. unfold make_server. split.
  - destruct (bool_decide (host ∈ LOOPBACK_HOSTS)) eqn:Hh; [apply bool_decide_eq_true in Hh|apply bool_decide_eq_false in Hh]; simpl.
    + split; [by left|done].
    + case_bool_decide as Ht; simpl; split; try done; [by intros [|]|by right].
  - intros sv l Hok Hh. rewrite bool_decide_eq_false_2 in Hok by done. simpl in Hok.
    case_bool_decide as Ht; [done|]. destruct token as [t|]; [|done]. simpl in Ht. injection Hok as <- <-.
    exists t. split_and!; [done..|]. intros rq. unfold _authenticated. simpl. rewrite decide_False by done.
    destruct t as [|a t]; [done|]. destruct (partition _ _) as [[scheme f] presented].
    case_bool_decide; simpl; [|done]. case_bool_decide; simpl; [done|]. unfold compare_digest.
    destruct (all_chars _ _); [|done]. intros [= Heq%bool_decide_eq_true]. done.
Qed.

(** A negative declared length passes the size check and reads the stream to its end. *)
Lemma body_limit_bypassed {utf8 : Utf8} {rt : PyFloatRuntime} rq o c :
  rq_length rq = "-1" → h_in (_body rq o c).2 = "".
Proof.
  intros Hn. unfold _body. web_step.
  assert (content_length rq = Ok (-1)) as -> by (unfold content_length; by rewrite Hn). cbv beta iota. web_step. change (_MAX_BODY <? -1) with false. simpl raise_if.
  cbv beta iota. web_step. change (-1 =? 0) with false. cbv iota. change (rfile_read (-1)) with (on_input (λ i, (i, ""))).
  unfold on_input. cbv beta iota.
  destruct (utf8_decode _); [|done]. by destruct (json_loads _) as [[]|[]].
Qed.

(** ** Witnesses *)

Definition guarded : server := mkServer quiet (Some "secret").

Definition post (path authorization body : string) : request :=
  mkRequest "POST" path [] authorization (string_of_Z (Z.of_nat (String.length body))) "10.0.0.1" 0.

Definition json_body (v : pyval) : string := json_text (rt := coded_float_runtime) true false v.

Definition sample_conn (w : world) (body : string) : conn :=
  mkConn w (new_limiter 0 (60 * microseconds)) body false [].

Definition redeem_body : string := json_body (PDict [(KStr "principal", alice); (KStr "args", call_args)]).
Definition redeem_request (authorization : string) : request := post "/grants/id8/redeem" authorization redeem_body.

Definition sample_dispatch (rq : request) (c : conn) : res unit * conn :=
  _dispatch (rt := coded_float_runtime) (dt := decimal_datetime) (utf8 := ascii_utf8) (crypto := toy_crypto)
    (engine := open_engine) (processes := no_processes) (endpoint := no_endpoint) guarded rq calm c.

(** Without the token the grant of the sample world stays live. *)
Lemma turned_away_is_inert_witness :
  let c := sample_conn granted_world redeem_body in
  h_world (sample_dispatch (redeem_request "Bearer guess") c).2 = granted_world ∧
  rs_status <$> h_out (sample_dispatch (redeem_request "Bearer guess") c).2 = [401].
Proof.
  intros c. assert (turned_away guarded (redeem_request "Bearer guess") c) as Ht by (right; vm_compute; discriminate).
  pose proof (turned_away_is_inert (rt := coded_float_runtime) (dt := decimal_datetime) (utf8 := ascii_utf8)
    (crypto := toy_crypto) (engine := open_engine) (processes := no_processes) (endpoint := no_endpoint)
    guarded (redeem_request "Bearer guess") calm c Ht) as H.
  unfold sample_dispatch. split; [|vm_compute; reflexivity]. destruct (_dispatch _ _ _ _). apply H.
Defined.


(** The body is read to its end, and what follows stays; one after [GET] stays whole. *)
Lemma body_framing_witness :
  let rq := redeem_request "Bearer secret" in
  h_in (sample_dispatch rq (sample_conn granted_world (redeem_body +:+ "GET /health"))).2 = "GET /health".
Proof.
  pose proof (body_framing (rt := coded_float_runtime) (dt := decimal_datetime) (utf8 := ascii_utf8)
    (crypto := toy_crypto) (engine := open_engine) (processes := no_processes) (endpoint := no_endpoint)
    guarded (redeem_request "Bearer secret") calm (sample_conn granted_world (redeem_body +:+ "GET /health"))
    (Z.of_nat (String.length redeem_body)) ltac:(vm_compute; reflexivity) ltac:(lia)) as H.
  exact H.
Defined.

(** The body of a [GET] is left to be read as the next request. *)
Example unread_get_body :
  let rq := mkRequest "GET" "/health" [] "Bearer secret" "11" "10.0.0.1" 0 in
  let c' := (sample_dispatch rq (sample_conn fresh_world "GET /health")).2 in
  h_in c' = "GET /health" ∧ h_close c' = false ∧ rs_status <$> h_out c' = [200].
Proof. vm_compute. split_and!; reflexivity. Qed.

(** Redeeming twice over the network is answered once with [redeemed: true]. *)
Example redeemed_once_over_http :
  let rqs := [(redeem_request "Bearer secret", redeem_body); (redeem_request "Bearer secret", redeem_body)] in
  let outs := (serve_http (rt := coded_float_runtime) (dt := decimal_datetime) (utf8 := ascii_utf8)
    (crypto := toy_crypto) (engine := open_engine) (processes := no_processes) (endpoint := no_endpoint)
    guarded rqs calm granted_world (new_limiter 0 (60 * microseconds))).1 in
  (map says_redeemed <$> outs) = [[true]; [false]].
Proof. vm_compute. reflexivity. Qed.

Example routes_of_paths :
  (_INGEST "/sources/io.github.owner/server/ingest", _CATALOG "/catalog/io.github/server/tool",
   _GRANT "/grants/abc", _GRANT "/grants/abc/redeem", _GRANT_REDEEM "/grants/abc/redeem", _DRIFT "/drift/") =
  (Some "io.github.owner/server", Some ("io.github/server", "tool"), Some "abc", None, Some "abc", None).
Proof. vm_compute. reflexivity. Qed.
