(* ===== verification/OpenApi.v ===== *)
(** [openapi_source.py]: OpenAPI documents as discoveries, and the payload they become.

    A document is a Python value, as [json.loads] or a YAML parser gives it; the YAML
    parser is a library, a parameter here.  The file is its bytes, if it could be read.
    The operations come in the order of the document's mappings. *)

From S2P Require Import Prelude PyJson PyJsonLoads PyStr PyColl PyEq Descriptor McpSource.

Definition FAULT_KINDS : list string :=
  ["unreadable"; "malformed_document"; "not_openapi"; "no_operations"; "duplicate_operation"; "invalid_parameter"].

Definition _METHODS : list string := ["get"; "put"; "post"; "delete"; "options"; "head"; "patch"; "trace"].
Definition _READ_ONLY_METHODS : list string := ["get"; "head"; "options"].

Definition invalid_parameter (m : string) : exn := OpenAPISpecError "invalid_parameter" m.

(** [_claimed_for(method, summary, description)] *)
Definition _claimed_for (method summary description : string) : ClaimedMetadata :=
  let text := PStr (if decide (summary = "") then description else summary) in
  if decide (method ∈ _READ_ONLY_METHODS) then mkClaimed text (PBool true) PNone PNone PNone
  else if decide (method = "delete") then mkClaimed text (PBool false) (PBool true) PNone (PBool true)
  else mkClaimed text (PBool false) (PBool false) PNone (PBool true).

(** [[A-Za-z0-9_.-]] *)
Definition safe_char (c : ascii) : bool :=
  let n := char_code c in
  is_digit c || ((65 <=? n) && (n <=? 90)) || ((97 <=? n) && (n <=? 122)) ||
  bool_decide (c ∈ ["_"%char; "."%char; "-"%char]).

(** [_SAFE_NAME.sub("_", s)]: each longest run of other characters becomes one [_]. *)
Fixpoint safe_name (in_run : bool) (s : string) : string :=
  match s with
  | EmptyString => EmptyString
  | String c s' =>
      if safe_char c then String c (safe_name false s')
      else if in_run then safe_name true s'
      else String "_" (safe_name true s')
  end.

(** [s.strip(c)] *)
Definition strip_char (c : ascii) (s : string) : string :=
  rstrip_by (λ d, bool_decide (d = c)) (lstrip_by (λ d, bool_decide (d = c)) s).

(** [_fallback_name(method, path)] *)
Definition _fallback_name (method path : string) : string :=
  let cleaned := strip_char "_"%char (safe_name false (strip_char "/"%char path)) in
  if decide (cleaned = "") then method else method +:+ "_" +:+ cleaned.

(** ** The input schema *)

(** [params], a dict by name and location. *)
Fixpoint param_set (k : string * string) (p : pydict) (l : list ((string * string) * pydict)) :
    list ((string * string) * pydict) :=
  match l with
  | [] => [(k, p)]
  | (k', p') :: l' => if decide (k = k') then (k', p) :: l' else (k', p') :: param_set k p l'
  end.

Section openapi.
Context {rt : PyFloatRuntime}.

Fixpoint add_parameters (source : list pyval) (params : list ((string * string) * pydict)) :
    res (list ((string * string) * pydict)) :=
  match source with
  | [] => Ok params
  | PDict p :: source' =>
      match dget "name" p with
      | PStr n => add_parameters source' (param_set (n, py_str (dget_or "in" (PStr "query") p)) p params)
      | _ => Raise (invalid_parameter "parameter without a usable name")
      end
  | _ :: _ => Raise (invalid_parameter "parameter without a usable name")
  end.

(** One of the two levels of [parameters]. *)
Definition parameters_of (source : pyval) (params : list ((string * string) * pydict)) :
    res (list ((string * string) * pydict)) :=
  match source with
  | PNone => Ok params
  | PList l => add_parameters l params
  | _ => Raise (invalid_parameter "'parameters' must be an array")
  end.

(** The properties and required names of the parameters, in order. *)
Fixpoint describe_parameters (params : list ((string * string) * pydict)) (properties : pydict)
    (required : list string) : res (pydict * list string) :=
  match params with
  | [] => Ok (properties, required)
  | ((n, _), p) :: params' =>
      schema ← py_dict (py_or (dget "schema" p) (PDict []));
      describe_parameters params' (dict_set (KStr n) (PDict schema) properties)
        (if decide (dget "required" p = PBool true) then required ++ [n] else required)
  end.

(** [k.endswith("+json")] *)
Fixpoint ends_json (s : string) : bool :=
  bool_decide (s = "+json") || match s with String _ s' => ends_json s' | EmptyString => false end.

(** The media type entry used: [application/json], or the first structured one. *)
Fixpoint json_entry (content : pydict) : option pydict :=
  match content with
  | [] => None
  | (KStr k, PDict v) :: content' => if ends_json k then Some v else json_entry content'
  | _ :: content' => json_entry content'
  end.
Definition media_entry (content : pydict) : option pydict :=
  match dget "application/json" content with PDict e => Some e | _ => json_entry content end.

(** The schema of the request body, when there is a JSON one. *)
Definition body_schema (operation : pydict) : option pydict :=
  match dget "requestBody" operation with
  | PDict body =>
      match py_or (dget "content" body) (PDict []) with
      | PDict content =>
          match media_entry content with
          | Some e => match dget "schema" e with PDict s => Some s | _ => None end
          | None => None
          end
      | _ => None
      end
  | _ => None
  end.

Fixpoint add_required (l : list pyval) (required : list string) : list string :=
  match l with
  | [] => required
  | PStr r :: l' => add_required l' (if decide (r ∈ required) then required else required ++ [r])
  | _ :: l' => add_required l' required
  end.

(** The body merged into the parameters. *)
Definition merge_body (schema : pydict) (properties : pydict) (required : list string) :
    res (pydict * list string) :=
  if py_eq (dget "type" schema) (PStr "object") || dhas "properties" schema then
    match py_or (dget "properties" schema) (PDict []) with
    | PDict props =>
        items ← py_iter (py_or (dget "required" schema) (PList []));
        Ok (foldl (λ d kv, dict_set kv.1 kv.2 d) properties props, add_required items required)
    | v => Raise (AttributeError ("'" +:+ type_name v +:+ "' object has no attribute 'items'"))
    end
  else Ok (dict_set (KStr "body") (PDict schema) properties, required).

(** [_merge_schema_parameters(operation, path_item)] *)
Definition _merge_schema_parameters (operation path_item : pydict) : res pydict :=
  params ← parameters_of (dget "parameters" path_item) [];
  params ← parameters_of (dget "parameters" operation) params;
  pr ← describe_parameters params [] [];
  pr ← match body_schema operation with
       | Some schema => merge_body schema pr.1 pr.2
       | None => Ok pr
       end;
  Ok ([str_pair "type" (PStr "object"); str_pair "properties" (PDict pr.1)] ++
      if decide (pr.2 = []) then []
      else [str_pair "required" (PList (PStr <$> sorted_set (list_to_set pr.2)))]).

(** ** Operations *)

(** An operation object and its capability name. *)
Definition operation_head (path method : string) (operation : pyval) : res (string * pydict) :=
  match operation with
  | PDict op =>
      match dget "operationId" op with
      | PNone | PStr EmptyString => Ok (_fallback_name method path, op)
      | PStr op_id => Ok (op_id, op)
      | _ => Raise (invalid_parameter ("operationId of an operation of " +:+ path +:+ " is not a string"))
      end
  | _ => Raise (invalid_parameter ("an operation of " +:+ path +:+ " is not an object"))
  end.

Definition operation_tool (version method : string) (path_item : pydict) (name : string) (op : pydict) :
    res DiscoveredTool :=
  schema ← _merge_schema_parameters op path_item;
  Ok (mkDiscovered name
        (_claimed_for method (py_str (py_or (dget "summary" op) (PStr "")))
           (py_str (py_or (dget "description" op) (PStr ""))))
        schema version).

Definition duplicate_operation (name : string) : exn :=
  OpenAPISpecError "duplicate_operation" ("capability name " +:+ repr_str name +:+ " is declared more than once").

(** The loop over the entries of one path item. *)
Fixpoint take_operations (version path : string) (path_item entries : pydict) (tools : list DiscoveredTool) :
    res (list DiscoveredTool) :=
  match entries with
  | [] => Ok tools
  | (KStr method, operation) :: entries' =>
      if decide (method ∈ _METHODS) then
        head ← operation_head path method operation;
        if decide (head.1 ∈ dt_name <$> tools) then Raise (duplicate_operation head.1)
        else
          t ← operation_tool version method path_item head.1 head.2;
          take_operations version path path_item entries' (tools ++ [t])
      else take_operations version path path_item entries' tools
  | (KOther _, _) :: entries' => take_operations version path path_item entries' tools
  end.

(** The loop over the paths. *)
Fixpoint take_paths (version : string) (paths : pydict) (tools : list DiscoveredTool) :
    res (list DiscoveredTool) :=
  match paths with
  | [] => Ok tools
  | (KStr path, path_item) :: paths' =>
      if negb (startswith "/" path) then
        Raise (invalid_parameter ("path key " +:+ repr_str path +:+ " must start with '/'"))
      else
        match path_item with
        | PDict item => tools ← take_operations version path item item tools; take_paths version paths' tools
        | _ => Raise (invalid_parameter ("path item " +:+ repr_str path +:+ " is not an object"))
        end
  | (KOther r, _) :: _ => Raise (invalid_parameter ("path key " +:+ r +:+ " must start with '/'"))
  end.

(** [parse_openapi(document)] *)
Definition parse_openapi (document : pyval) : res DiscoveryResult :=
  match document with
  | PDict doc =>
      match dget "openapi" doc with
      | PStr version =>
          if negb (startswith "3." version) then Raise (OpenAPISpecError "not_openapi" "only OpenAPI 3.x is supported")
          else
            match py_or (dget "info" doc) (PDict []) with
            | PDict info =>
                match dget "paths" doc with
                | PDict paths =>
                    let api_version := py_str (py_or (dget "version" info) (PStr "0.0.0")) in
                    tools ← take_paths api_version paths [];
                    if decide (tools = []) then
                      Raise (OpenAPISpecError "no_operations" "document declares paths but zero operations")
                    else
                      Ok (mkDiscovery (py_str (py_or (dget "title" info) (PStr "unknown"))) api_version
                            ("openapi-" +:+ version) tools)
                | _ => Raise (OpenAPISpecError "no_operations" "document has no 'paths' object")
                end
            | _ => Raise (OpenAPISpecError "not_openapi" "'info' is not an object")
            end
      | _ => Raise (OpenAPISpecError "not_openapi" "only OpenAPI 3.x is supported")
      end
  | _ => Raise (OpenAPISpecError "not_openapi" "document is not a JSON/YAML object")
  end.

(** ** The payload *)

Definition claim_payload (c : ClaimedMetadata) : pydict :=
  [str_pair "description" (description c); str_pair "read_only_hint" (read_only_hint c);
   str_pair "destructive_hint" (destructive_hint c); str_pair "idempotent_hint" (idempotent_hint c);
   str_pair "open_world_hint" (open_world_hint c)].

(** [discovery_to_payload(result)] *)
Definition discovery_to_payload (r : DiscoveryResult) : list pyval :=
  (λ t, PDict [str_pair "name" (PStr (dt_name t)); str_pair "version" (PStr (dt_version t));
               str_pair "claimed" (PDict (claim_payload (dt_claimed t)));
               str_pair "input_schema" (PDict (dt_input_schema t))]) <$> dr_tools r.

(** ** The file *)

(** [yaml.safe_load], when PyYAML is installed; [None] for a [YAMLError]. *)
Definition yaml_parser : Type := option (string → option pyval).

(** [load_openapi(path)]: [except json.JSONDecodeError] does not catch a decoding error. *)
Definition load_openapi {utf8 : Utf8} (yaml : yaml_parser) (raw : option string) : res DiscoveryResult :=
  match raw with
  | None => Raise (OpenAPISpecError "unreadable" "could not read the file")
  | Some raw =>
      match utf8_decode raw with
      | None => Raise (ValueError "'utf-8' codec can't decode the file")
      | Some text =>
          match json_loads text with
          | Ok document => parse_openapi document
          | Raise JSONDecodeError =>
              match yaml with
              | None => Raise (OpenAPISpecError "malformed_document" "not valid JSON, and PyYAML is not installed to try YAML")
              | Some load =>
                  match load raw with
                  | Some document => parse_openapi document
                  | None => Raise (OpenAPISpecError "malformed_document" "parses as neither JSON nor YAML")
                  end
              end
          | Raise e => Raise e
          end
      end
  end.
End openapi.
