(* ===== verification/OpenApiRuns.v ===== *)
(** OpenAPI ingest: exactly which documents parse and to what, which failures are typed,
    and that the payload pushed to the service is the discovery. *)

From S2P Require Import Prelude PyJson PyJsonLoads PyStr PyColl PyEq Descriptor Catalog Policy.
From S2P Require Import DateTime Db BusPublish GovGrants McpSource Service ServiceRuns OpenApi.

Section openapi.
Context {rt : PyFloatRuntime}.

(** ** The operations of a document, in order *)

Record entry := mkEntry { e_path : string; e_item : pydict; e_method : string; e_operation : pyval }.

Definition item_operations (path : string) (item entries : pydict) : list entry :=
  omap (λ kv, match kv.1 with
              | KStr m => if decide (m ∈ _METHODS) then Some (mkEntry path item m kv.2) else None
              | KOther _ => None
              end) entries.

Fixpoint operations (paths : pydict) : list entry :=
  match paths with
  | (KStr path, PDict item) :: paths' => item_operations path item item ++ operations paths'
  | _ :: paths' => operations paths'
  | [] => []
  end.

Definition entry_tool (version : string) (e : entry) : res DiscoveredTool :=
  head ← operation_head (e_path e) (e_method e) (e_operation e);
  operation_tool version (e_method e) (e_item e) head.1 head.2.

(** Every path starts with a slash and names an object. *)
Definition paths_ok (paths : pydict) : Prop :=
  Forall (λ kv : pykey * pyval, match kv with
    | (KStr path, PDict _) => startswith "/" path = true
    | _ => False
    end) paths.

(** Names new to a list of tools, and different from each other. *)
Definition fresh_names (tools new : list DiscoveredTool) : Prop :=
  NoDup (dt_name <$> new) ∧ ∀ n, n ∈ dt_name <$> new → n ∉ dt_name <$> tools.

Lemma fresh_names_nil tools : fresh_names tools [].
Proof. split; [constructor|]. intros n Hn. by apply not_elem_of_nil in Hn. Qed.

Lemma fresh_names_app tools new1 new2 :
  fresh_names tools (new1 ++ new2) ↔ fresh_names tools new1 ∧ fresh_names (tools ++ new1) new2.
Proof.
  unfold fresh_names. rewrite !fmap_app, NoDup_app. setoid_rewrite elem_of_app. naive_solver.
Qed.

Lemma fresh_names_one tools t : fresh_names tools [t] ↔ dt_name t ∉ dt_name <$> tools.
Proof.
  unfold fresh_names. simpl. split; [intros [_ H]; apply H; by left|]. intros H. split; [apply NoDup_singleton|].
  by intros n ->%list_elem_of_singleton.
Qed.

Lemma entry_name version e t :
  entry_tool version e = Ok t → ∃ head, operation_head (e_path e) (e_method e) (e_operation e) = Ok head ∧
    operation_tool version (e_method e) (e_item e) head.1 head.2 = Ok t ∧ dt_name t = head.1.
Proof.
  unfold entry_tool. intros (head & Hh & Ht)%bind_ok. exists head. split; [done|]. split; [done|].
  unfold operation_tool in Ht. by apply bind_ok in Ht as (schema & _ & [= <-]).
Qed.

Lemma take_operations_ok version path item entries : ∀ tools tools',
  take_operations version path item entries tools = Ok tools' ↔
  ∃ new, map_res (entry_tool version) (item_operations path item entries) = Ok new ∧
    tools' = tools ++ new ∧ fresh_names tools new.
Proof.
  induction entries as [|[k op] entries IH]; intros tools tools'; simpl.
  { split; [intros [= <-]; exists []; rewrite app_nil_r; auto using fresh_names_nil|].
    intros (new & [= <-] & -> & _). by rewrite app_nil_r. }
  destruct k as [m|r]; simpl; [|apply IH]. case_decide as Hm; simpl; [|apply IH].
  set (e := mkEntry path item m op). change (operation_head path m op) with (operation_head (e_path e) (e_method e) (e_operation e)).
  split.
  - intros (head & Hh & H)%bind_ok. case_decide as Hn; [done|]. apply bind_ok in H as (t & Ht & H).
    assert (entry_tool version e = Ok t) as He by (unfold entry_tool; rewrite Hh; done).
    destruct (entry_name _ _ _ He) as (head' & Hh' & _ & Hname). rewrite Hh in Hh'. injection Hh' as <-.
    apply IH in H as (new & Hnew & -> & Hf). exists (t :: new). rewrite He. simpl. rewrite Hnew. split; [done|].
    split; [by rewrite <- app_assoc|]. apply (fresh_names_app tools [t] new). split; [|done].
    apply fresh_names_one. by rewrite Hname.
  - intros (new & (t & He & (ts & Hts & [= <-])%bind_ok)%bind_ok & -> & Hf).
    destruct (entry_name _ _ _ He) as (head & -> & Ht & Hname). simpl.
    apply (fresh_names_app tools [t] ts) in Hf as [Hf1%fresh_names_one Hf2].
    rewrite decide_False by congruence. change (operation_tool version m item head.1 head.2) with
      (operation_tool version (e_method e) (e_item e) head.1 head.2). rewrite Ht. simpl.
    apply IH. exists ts. split; [done|]. split; [by rewrite <- app_assoc|done].
Qed.

Lemma take_paths_ok version paths : ∀ tools tools',
  take_paths version paths tools = Ok tools' ↔
  paths_ok paths ∧ ∃ new, map_res (entry_tool version) (operations paths) = Ok new ∧
    tools' = tools ++ new ∧ fresh_names tools new.
Proof.
  induction paths as [|[k v] paths IH]; intros tools tools'; simpl.
  { split; [intros [= <-]|].
    - split; [constructor|]. exists []. rewrite app_nil_r. auto using fresh_names_nil.
    - intros (_ & new & [= <-] & -> & _). by rewrite app_nil_r. }
  assert (paths_ok ((k, v) :: paths) → ∃ path item, k = KStr path ∧ v = PDict item ∧ startswith "/" path = true) as Hinv.
  { intros [Hp _]%Forall_cons. destruct k as [path|], v; try done. eauto. }
  destruct k as [path|r]; [|split; [done|]; by intros [(? & ? & [=] & _)%Hinv _]].
  destruct (startswith "/" path) eqn:Hs; simpl; [|split; [done|]; intros [(? & ? & [= <-] & _ & ?)%Hinv _]; congruence].
  destruct v as [| | | | | |item|]; try (split; [done|]; by intros [(? & ? & _ & [=] & _)%Hinv _]). clear Hinv. split.
  - intros (tools1 & H1 & H2)%bind_ok. apply take_operations_ok in H1 as (new1 & Hn1 & -> & Hf1).
    apply IH in H2 as (Hp & new2 & Hn2 & -> & Hf2). split; [by constructor|]. exists (new1 ++ new2).
    rewrite map_res_app, Hn1. simpl. rewrite Hn2. split; [done|]. split; [by rewrite app_assoc|].
    by apply fresh_names_app.
  - intros ([_ Hp]%Forall_cons & new & Hn & -> & Hf). rewrite map_res_app in Hn.
    apply bind_ok in Hn as (new1 & Hn1 & (new2 & Hn2 & [= <-])%bind_ok). apply fresh_names_app in Hf as [Hf1 Hf2].
    apply bind_ok. exists (tools ++ new1). split; [apply take_operations_ok; eauto|].
    apply IH. split; [done|]. exists new2. split; [done|]. by rewrite app_assoc.
Qed.

(** ** Which documents parse *)

Lemma parse_openapi_core (document : pyval) (r : DiscoveryResult) :
  parse_openapi document = Ok r ↔
  ∃ doc version info paths tools, document = PDict doc ∧ dget "openapi" doc = PStr version ∧
    startswith "3." version = true ∧ py_or (dget "info" doc) (PDict []) = PDict info ∧
    dget "paths" doc = PDict paths ∧ paths_ok paths ∧
    let api_version := py_str (py_or (dget "version" info) (PStr "0.0.0")) in
    map_res (entry_tool api_version) (operations paths) = Ok tools ∧ NoDup (dt_name <$> tools) ∧ tools ≠ [] ∧
    r = mkDiscovery (py_str (py_or (dget "title" info) (PStr "unknown"))) api_version ("openapi-" +:+ version) tools.
Proof.
  split.
  - unfold parse_openapi. destruct document as [| | | | | |doc|]; try done.
    destruct (dget "openapi" doc) as [| | | |version| | |] eqn:Hv; try done.
    destruct (startswith "3." version) eqn:Hs; simpl; [|done].
    destruct (py_or _ _) as [| | | | | |info|] eqn:Hi; try done.
    destruct (dget "paths" doc) as [| | | | | |paths|] eqn:Hp; try done.
    intros (tools & Ht & H)%bind_ok. case_decide as Hne; [done|]. injection H as <-.
    apply take_paths_ok in Ht as (Hok & new & Hn & -> & Hnd & _). rewrite app_nil_l in *.
    by exists doc, version, info, paths, new.
  - intros (doc & version & info & paths & tools & -> & Hv & Hs & Hi & Hp & Hok & Hn & Hnd & Hne & ->).
    unfold parse_openapi. rewrite Hv, Hs, Hi, Hp. simpl.
    apply bind_ok. exists tools. rewrite decide_False by done. split; [|done].
    apply take_paths_ok. split; [done|]. exists tools. split; [done|]. split; [done|]. split; [done|].
    intros n _. apply not_elem_of_nil.
Qed.

(** A document is parsed whole or not at all: it parses exactly when it is an OpenAPI
    3 object whose paths start with a slash, whose every operation parses on its own, under
    pairwise distinct names, at least one; and the result is the tools of all its
    operations, in the document's order, under the document's version. *)
Theorem parse_openapi_exact (document : pyval) (r : DiscoveryResult) :
  parse_openapi document = Ok r ↔
  ∃ doc version info paths tools, document = PDict doc ∧ dget "openapi" doc = PStr version ∧
    startswith "3." version = true ∧ py_or (dget "info" doc) (PDict []) = PDict info ∧
    dget "paths" doc = PDict paths ∧ paths_ok paths ∧
    let api_version := py_str (py_or (dget "version" info) (PStr "0.0.0")) in
    map_res (entry_tool api_version) (operations paths) = Ok tools ∧ NoDup (dt_name <$> tools) ∧ tools ≠ [] ∧
    r = mkDiscovery (py_str (py_or (dget "title" info) (PStr "unknown"))) api_version ("openapi-" +:+ version) tools.
Proof. apply parse_openapi_core. Qed.

(** ** Faults *)

Definition typed_fault (e : exn) : Prop := ∃ kind m, e = OpenAPISpecError kind m ∧ kind ∈ FAULT_KINDS.

Lemma typed_fault_intro kind m : bool_decide (kind ∈ FAULT_KINDS) = true → typed_fault (OpenAPISpecError kind m).
Proof. intros H%bool_decide_eq_true. by exists kind, m. Qed.

(** An operation whose own schema cannot be built. *)
Definition schema_fault (paths : pydict) (e : exn) : Prop :=
  ∃ en op, en ∈ operations paths ∧ e_operation en = PDict op ∧ _merge_schema_parameters op (e_item en) = Raise e.

Lemma operation_head_fault path m op e : operation_head path m op = Raise e → typed_fault e.
Proof.
  unfold operation_head. repeat case_match; intros [= <-]; by apply typed_fault_intro.
Qed.

Lemma take_operations_fault version path item entries : ∀ tools e,
  take_operations version path item entries tools = Raise e →
  typed_fault e ∨ ∃ en op, en ∈ item_operations path item entries ∧ e_operation en = PDict op ∧
    _merge_schema_parameters op (e_item en) = Raise e.
Proof.
  induction entries as [|[k v] entries IH]; intros tools e; simpl; [done|].
  destruct k as [m|r]; simpl; [|apply IH]. case_decide as Hm; simpl; [|apply IH]. intros [H|(head & Hh & H)]%bind_raise.
  { left. by eapply operation_head_fault. }
  case_decide; [injection H as <-; left; by apply typed_fault_intro|].
  apply bind_raise in H as [H|(t & _ & H)].
  - right. unfold operation_tool in H. apply bind_raise in H as [H|(s & _ & [=])].
    assert (v = PDict head.2) as -> by (revert Hh; unfold operation_head; repeat case_match; by intros [= <-]).
    exists (mkEntry path item m (PDict head.2)), head.2. split; [by left|done].
  - apply IH in H as [H|(en & op & Hin & H)]; [by left|]. right. exists en, op. split; [by right|done].
Qed.

Lemma take_paths_fault version paths : ∀ tools e,
  take_paths version paths tools = Raise e → typed_fault e ∨ schema_fault paths e.
Proof.
  induction paths as [|[k v] paths IH]; intros tools e; simpl; [done|].
  destruct k as [path|r]; [|intros [= <-]; left; by apply typed_fault_intro].
  destruct (negb _); [intros [= <-]; left; by apply typed_fault_intro|].
  destruct v as [| | | | | |item|]; try (intros [= <-]; left; by apply typed_fault_intro).
  intros [H|(tools1 & _ & H)]%bind_raise.
  - apply take_operations_fault in H as [H|(en & op & Hin & H)]; [by left|]. right. exists en, op.
    split; [apply elem_of_app; by left|done].
  - apply IH in H as [H|(en & op & Hin & H)]; [by left|]. right. exists en, op.
    split; [apply elem_of_app; by right|done].
Qed.

(** Which failures are typed: a document that does not parse raises an
    [OpenAPISpecError] of the declared taxonomy, unless the schema of one of its operations
    cannot be built, when what building it raises comes out as it is. *)
Theorem openapi_faults (document : pyval) :
  match parse_openapi document with
  | Ok _ => True
  | Raise e => typed_fault e ∨
      ∃ doc paths, document = PDict doc ∧ dget "paths" doc = PDict paths ∧ schema_fault paths e
  end.
Proof.
  unfold parse_openapi. destruct document as [| | | | | |doc|]; try (left; by apply typed_fault_intro).
  destruct (dget "openapi" doc) as [| | | |version| | |]; try (left; by apply typed_fault_intro).
  destruct (negb _); [left; by apply typed_fault_intro|].
  destruct (py_or _ _) as [| | | | | |info|]; try (left; by apply typed_fault_intro).
  destruct (dget "paths" doc) as [| | | | | |paths|] eqn:Hp; try (left; by apply typed_fault_intro).
  cbv zeta. destruct (take_paths _ paths []) as [tools|e] eqn:Ht; simpl.
  - case_decide; [left; by apply typed_fault_intro|done].
  - apply take_paths_fault in Ht as [H|H]; [by left|]. right. by exists doc, paths.
Qed.

(** ** Names *)

Lemma fallback_nonempty m path : m ≠ "" → _fallback_name m path ≠ "".
Proof. unfold _fallback_name. case_decide; [done|]. intros Hm. by destruct m. Qed.

Lemma entry_name_nonempty version en t : e_method en ∈ _METHODS → entry_tool version en = Ok t → dt_name t ≠ "".
Proof.
  intros Hm Ht. destruct (entry_name _ _ _ Ht) as (head & Hh & _ & ->).
  assert (e_method en ≠ "") as Hne.
  { intros H. rewrite H in Hm. revert Hm. unfold _METHODS. rewrite !elem_of_cons. by intros [|[|[|[|[|[|[|[|?%not_elem_of_nil]]]]]]]]. }
  revert Hh. unfold operation_head. repeat case_match; try done; intros [= <-]; simpl; try done; by apply fallback_nonempty.
Qed.

Lemma operations_methods paths en : en ∈ operations paths → e_method en ∈ _METHODS.
Proof.
  induction paths as [|[k v] paths IH]; simpl; [intros H; by apply not_elem_of_nil in H|].
  assert (en ∈ operations paths → e_method en ∈ _METHODS) as Hr by done.
  destruct k as [path|]; [|done]. destruct v as [| | | | | |item|]; try done.
  intros [H|H]%elem_of_app; [|by apply Hr]. unfold item_operations in H.
  apply list_elem_of_omap in H as ([k v] & _ & H). destruct k as [m|]; [|done]. simpl in H. case_decide; [|done].
  by injection H as <-.
Qed.

Lemma safe_name_chars b s : all_chars safe_char (safe_name b s) = true.
Proof.
  revert b. induction s as [|c s IH]; intros b; simpl; [done|]. destruct (safe_char c) eqn:Hc; simpl; [by rewrite Hc, IH|].
  destruct b; [apply IH|]. simpl. by rewrite IH.
Qed.

Lemma lstrip_chars p q s : all_chars q s = true → all_chars q (lstrip_by p s) = true.
Proof.
  induction s as [|c s IH]; simpl; [done|]. intros [Hc Hs]%andb_true_iff. destruct (p c); [by apply IH|].
  simpl. by rewrite Hc, Hs.
Qed.

Lemma rstrip_chars p q s : all_chars q s = true → all_chars q (rstrip_by p s) = true.
Proof.
  induction s as [|c s IH]; simpl; [done|]. intros [Hc Hs]%andb_true_iff. specialize (IH Hs).
  destruct (rstrip_by p s) as [|d t]; [destruct (p c); simpl; by rewrite ?Hc|]. simpl in *. by rewrite Hc.
Qed.

(** The name made up for an operation is a single token of safe characters. *)
Lemma fallback_safe m path : m ∈ _METHODS → all_chars safe_char (_fallback_name m path) = true.
Proof.
  intros Hm. assert (all_chars safe_char m = true) as Hs.
  { revert Hm. unfold _METHODS. rewrite !elem_of_cons. by intros [->|[->|[->|[->|[->|[->|[->|[->|?%not_elem_of_nil]]]]]]]]. }
  unfold _fallback_name. case_decide; [done|]. rewrite !all_chars_app, Hs. simpl.
  by apply rstrip_chars, lstrip_chars, safe_name_chars.
Qed.
End openapi.

(** ** The payload *)

Section payload.
Context {rt : PyFloatRuntime} {dt : PyDatetime} {utf8 : Utf8} {crypto : Cryptography}
  {engine : PolicyEngine} {processes : Processes} {endpoint : BusEndpoint}.

(** What the service reads back of a discovered tool. *)
Definition pushed_of (t : DiscoveredTool) : pushed_tool :=
  mkPushed (dt_name t) (dt_version t) (dt_claimed t) (PDict (dt_input_schema t)).

Lemma parse_payload (tools : list DiscoveredTool) : ∀ seen,
  Forall (λ t, dt_name t ≠ "" ∧ ∃ text, description (dt_claimed t) = PStr text) tools →
  NoDup (dt_name <$> tools) → (∀ n, n ∈ dt_name <$> tools → n ∉ seen) →
  parse_tools (discovery_to_payload (mkDiscovery "" "" "" tools)) seen = Ok (pushed_of <$> tools).
Proof.
  unfold discovery_to_payload. simpl. induction tools as [|t tools IH]; intros seen Ht Hnd Hseen; [done|].
  apply Forall_cons in Ht as [[Hne [text Htext]] Ht]. apply NoDup_cons in Hnd as [Hn Hnd].
  csimpl. change (dget "name" _) with (PStr (dt_name t)). destruct (dt_name t) as [|a b] eqn:Hname; [done|].
  rewrite decide_False. 2: { rewrite <- Hname. apply Hseen. csimpl. by left. }
  change (parse_claim _) with (parse_claim (PDict (claim_payload (dt_claimed t)))). destruct (dt_claimed t) as [desc ro de id ow] eqn:Hc.
  simpl in Htext. subst desc. simpl parse_claim. cbv beta iota.
  rewrite IH; [|done|done|].
  2: { intros n Hin [Heq|Hs]%elem_of_cons; [by rewrite Heq in Hin|]. eapply Hseen; [|exact Hs]. csimpl. by right. }
  simpl. unfold pushed_of at 2. rewrite Hname, Hc. do 3 f_equal. unfold dget. simpl. by destruct (dt_input_schema t).
Qed.

Lemma entry_claim version en t : entry_tool version en = Ok t → ∃ text, description (dt_claimed t) = PStr text.
Proof.
  intros (head & _ & Ht & _)%entry_name. unfold operation_tool in Ht. apply bind_ok in Ht as (s & _ & [= <-]).
  simpl. unfold _claimed_for. repeat case_decide; by eexists.
Qed.

(** C21 -- The push is the discovery: of a document that parses, the payload made for the
    service is read back by [ingest_payload] as exactly the tools discovered, each with
    its name, version, claim and input schema, none refused as unnamed or as a duplicate. *)
Theorem payload_round_trip (document : pyval) (r : DiscoveryResult) :
  parse_openapi document = Ok r →
  parse_tools (discovery_to_payload r) [] = Ok (pushed_of <$> dr_tools r).
Proof.
  intros (doc & version & info & paths & tools & _ & _ & _ & _ & _ & _ & Hn & Hnd & _ & ->)%parse_openapi_core. simpl.
  apply (parse_payload tools []); [|done|intros n _; apply not_elem_of_nil].
  eapply map_res_Forall; [exact Hn|]. intros en t Hin Ht. split; [|by eapply entry_claim].
  eapply entry_name_nonempty; [|done]. by eapply operations_methods.
Qed.
End payload.

(** ** Witnesses *)

Definition pet_operation (id : string) : pyval :=
  PDict [(KStr "operationId", PStr id); (KStr "summary", PStr "a pet");
         (KStr "parameters", PList [PDict [(KStr "name", PStr "id"); (KStr "required", PBool true)]])].
Definition pets : pyval :=
  PDict [(KStr "openapi", PStr "3.0.3"); (KStr "info", PDict [(KStr "version", PStr "1.2")]);
         (KStr "paths", PDict [(KStr "/pets/{id}", PDict [(KStr "get", pet_operation "getPet");
                                                         (KStr "delete", pet_operation "");
                                                         (KStr "summary", PStr "ignored")])])].

Definition parsed_pets : res DiscoveryResult := parse_openapi (rt := coded_float_runtime) pets.

Lemma payload_round_trip_witness :
  match parsed_pets with
  | Ok r => dt_name <$> dr_tools r = ["getPet"; "delete_pets_id"] ∧
      parse_tools (rt := coded_float_runtime) (discovery_to_payload r) [] = Ok (pushed_of <$> dr_tools r)
  | Raise _ => False
  end.
Proof.
  destruct parsed_pets as [r|e] eqn:E.
  - split; [vm_compute in E; injection E as <-; reflexivity|].
    apply (payload_round_trip (rt := coded_float_runtime) pets r E).
  - vm_compute in E. discriminate E.
Defined.

(** A parameter whose schema is a number stops the ingest with an untyped [TypeError]. *)
Example untyped_fault :
  parse_openapi (rt := coded_float_runtime)
    (PDict [(KStr "openapi", PStr "3.1.0");
            (KStr "paths", PDict [(KStr "/x", PDict [(KStr "get", PDict [(KStr "parameters",
               PList [PDict [(KStr "name", PStr "q"); (KStr "schema", PInt 1)]])])])])]) =
  Raise (TypeError "'int' object is not iterable").
Proof. vm_compute. reflexivity. Qed.
