(* ===== verification/Client.v ===== *)
(** [client.py]: the caller's client, and the governed invocation of a tool.

    The network is the environment: what a request gets, given all that happened before.
    What happens is a trace of the requests sent and of the executions of the caller's
    function.  Values are immutable here, so the deep copy of the arguments is the
    arguments; timeouts matter only in what the network gives. *)

From S2P Require Import Prelude PyJson PyJsonLoads PyStr PyColl PyEq PyIo McpSource.

(** ** Data *)

Record ClientGrant := mkClientGrant {
  cg_grant_id : string;
  cg_args_hash : string;
  cg_expires_at : string;
  cg_ttl_seconds : Z;
}.

Record ClientRedemption := mkRedemption {
  cr_redeemed : bool;
  cr_reason : string;
  cr_grant_id : string;
  cr_decision_id : string;
  cr_source_id : string;
  cr_name : string;
  cr_contract_version : string;
  cr_raw : pydict;
}.

Record ClientDecision := mkClientDecision {
  cd_allowed : bool;
  cd_reason : string;
  cd_decision_id : string;
  cd_determining_policies : list pyval;
  cd_default_deny : bool;
  cd_errors : list string;
  cd_contract_version : string;
  cd_grant : option ClientGrant;
  cd_raw : pydict;
}.

(** [ToolConnectError] and its subclasses; the exceptions built of an answer. *)
Definition is_ToolConnectError (e : exn) : bool :=
  match e with ToolConnectUnavailable _ | ToolConnectDenied _ | GrantRedeemDenied _ => true | _ => false end.
Definition or_text (s dflt : string) : string := if decide (s = "") then dflt else s.
Definition denied_by (d : ClientDecision) : exn := ToolConnectDenied (or_text (cd_reason d) "denied").
Definition redeem_denied_by (r : ClientRedemption) : exn := GrantRedeemDenied (or_text (cr_reason r) "grant redeem denied").

(** ** The network and the trace *)

Record http_request := mkHttp {
  ht_method : string;
  ht_url : string;
  ht_body : option string;
  ht_authorization : option string;
}.

(** What a request gets: a response, an [HTTPError] with its body, a fault of the
    transport ([URLError], [OSError]), or any other exception. *)
Inductive net :=
| Response (status : Z) (body : string)
| HTTPError (code : Z) (body : string)
| Fault
| Crash (e : exn).

Inductive event :=
| Sent (r : http_request)
| Executed (args : pydict).

Definition trace : Type := list event.

(** ** The client *)

Record ToolConnectClient := mkClient {
  base_url : string;
  cl_token : pyval;
}.

Definition EXPECTED_CONTRACT_MAJOR : string := "1".

(** [ToolConnectClient(base_url, token=token)] *)
Definition new_client (base_url_ : string) (token : pyval) : res ToolConnectClient :=
  if decide (base_url_ = "") then Raise (ValueError "base_url is required")
  else Ok (mkClient (rstrip_slash base_url_) (py_or token PNone)).

Section client.
Context {rt : PyFloatRuntime} {utf8 : Utf8}.

(** [from_config(config, env=env)] *)
Definition from_config (config env : pydict) : res ToolConnectClient :=
  let url := py_or (dget "base_url" config) (dget "TOOLCONNECT_URL" env) in
  if negb (py_truthy url) then Raise (ValueError "ToolConnect base_url not configured")
  else
    let timeout := py_or (py_or (dget "timeout" config) (dget "TOOLCONNECT_TIMEOUT" env)) (PInt 10) in
    _ ← float_is_nan timeout;
    new_client (py_str url) (py_or (dget "token" config) (dget "TOOLCONNECT_TOKEN" env)).

(** [ClientDecision.from_json(body)] *)
Definition grant_from_json (grant_raw : pyval) : res (option ClientGrant) :=
  match grant_raw with
  | PDict g =>
      ttl ← int_of (py_or (dget_or "ttl_seconds" (PInt 0) g) (PInt 0));
      Ok (Some (mkClientGrant (py_str (dget_or "grant_id" (PStr "") g)) (py_str (dget_or "args_hash" (PStr "") g))
                  (py_str (dget_or "expires_at" (PStr "") g)) ttl))
  | _ => Ok None
  end.

Definition from_json (body : pydict) : res ClientDecision :=
  grant ← grant_from_json (dget "grant" body);
  policies ← py_iter (py_or (dget "determining_policies" body) (PList []));
  errors ← py_iter (py_or (dget "errors" body) (PList []));
  Ok (mkClientDecision (py_truthy (dget_or "allowed" (PBool false) body)) (py_str (dget_or "reason" (PStr "") body))
        (py_str (dget_or "decision_id" (PStr "") body)) policies
        (py_truthy (dget_or "default_deny" (PBool false) body)) (py_str <$> errors)
        (py_str (dget_or "contract_version" (PStr "") body)) grant body).

Section methods.
Context (network : trace → http_request → net) (cl : ToolConnectClient).

(** ** Transport *)

(** [_request(method, path, body)] *)
Definition request_of (method path : string) (data : option string) : http_request :=
  mkHttp method (base_url cl +:+ path) data
    (if py_truthy (cl_token cl) then Some ("Bearer " +:+ py_str (cl_token cl)) else None).

(** [json.loads(raw or b"null")] *)
Definition load_body (raw : string) : res pyval :=
  match utf8_decode (if decide (raw = "") then "null" else raw) with
  | None => Raise (ValueError "'utf-8' codec can't decode the body")
  | Some text => json_loads text
  end.

Definition unreachable (rq : http_request) : exn :=
  ToolConnectUnavailable ("toolconnect unreachable at " +:+ ht_url rq).

(** What the code makes of what the network gave. *)
Definition receive_answer (rq : http_request) (n : net) : res (Z * pyval) :=
  match n with
  | Response status raw =>
      match load_body raw with
      | Ok v => Ok (status, v)
      | Raise JSONDecodeError => Raise (unreachable rq)
      | Raise e => Raise e
      end
  | HTTPError code raw =>
      match load_body raw with
      | Ok v => Ok (code, v)
      | Raise e => if is_ValueError e then Ok (code, PNone) else Raise e
      end
  | Fault => Raise (unreachable rq)
  | Crash e => Raise e
  end.

Definition _request (method path : string) (body : option pyval) : st trace (Z * pyval) :=
  data ← st_lift (match body with
                  | Some b => s ← json_dumps true false true b; Ok (Some s)
                  | None => Ok None
                  end);
  let rq := request_of method path data in
  t ← st_get;
  _ ← st_modify (λ t, t ++ [Sent rq]);
  st_lift (receive_answer rq (network t rq)).

(** ** Reading *)

Definition unusable (m : string) : exn := ToolConnectUnavailable m.

(** [_get_ok(path)] *)
Definition _get_ok (path : string) : st trace pyval :=
  r ← _request "GET" path None;
  if r.1 =? 200 then mret r.2 else st_throw (unusable ("GET " +:+ path +:+ " returned " +:+ string_of_Z r.1)).

(** An answer that must be an object. *)
Definition object_answer (what : string) (r : Z * pyval) : st trace pydict :=
  match r with
  | (status, PDict body) =>
      if status =? 200 then mret body else st_throw (unusable (what +:+ " returned " +:+ string_of_Z status))
  | (status, _) => st_throw (unusable (what +:+ " returned " +:+ string_of_Z status))
  end.

Definition health : st trace pydict := r ← _request "GET" "/health" None; object_answer "health" r.
Definition list_sources : st trace pyval := b ← _get_ok "/sources"; st_lift (py_item b "sources").
Definition list_catalog : st trace pyval := b ← _get_ok "/catalog"; st_lift (py_item b "tools").
Definition get_tool (source_id name : string) : st trace pyval := _get_ok ("/catalog/" +:+ source_id +:+ "/" +:+ name).
Definition drift (source_id : string) : st trace pyval := _get_ok ("/drift/" +:+ source_id).
Definition verify_audit : st trace pyval := _get_ok "/audit/verify".
Definition read_audit (kind : option string) (limit : Z) : st trace pyval :=
  let kind_q := match kind with None | Some EmptyString => "" | Some k => "&kind=" +:+ k end in
  b ← _get_ok ("/audit?limit=" +:+ string_of_Z limit +:+ kind_q);
  st_lift (py_item b "records").

(** ** Deciding *)

(** A server on another major version of the contract. *)
Definition incompatible (version : string) : bool :=
  negb (bool_decide (version = "")) && negb (bool_decide ((partition "."%char version).1.1 = EXPECTED_CONTRACT_MAJOR)).

Definition given (k : string) (v : option pyval) : pydict := match v with Some x => [(KStr k, x)] | None => [] end.

(** [authorize(principal, source_id, name, context, args=args, ttl_seconds=ttl_seconds)] *)
Definition authorize_body (principal : pydict) (source_id name : string) (context args : option pydict)
    (ttl_seconds : option Z) : pyval :=
  PDict ([(KStr "principal", PDict principal); (KStr "source_id", PStr source_id); (KStr "name", PStr name)] ++
         given "context" (PDict <$> context) ++ given "args" (PDict <$> args) ++ given "ttl_seconds" (PInt <$> ttl_seconds)).

(** What [authorize] makes of the answer. *)
Definition read_decision (r : Z * pyval) : res ClientDecision :=
  match r with
  | (status, PDict payload) =>
      if (status =? 200) && dhas "allowed" payload then
        d ← from_json payload;
        if incompatible (cd_contract_version d) then
          Raise (unusable ("server decision contract v" +:+ cd_contract_version d +:+ " is incompatible with client-expected major 1"))
        else Ok d
      else Raise (unusable ("/authorize returned " +:+ string_of_Z status))
  | (status, _) => Raise (unusable ("/authorize returned " +:+ string_of_Z status))
  end.

Definition authorize (principal : pydict) (source_id name : string) (context args : option pydict)
    (ttl_seconds : option Z) : st trace ClientDecision :=
  r ← _request "POST" "/authorize" (Some (authorize_body principal source_id name context args ttl_seconds));
  st_lift (read_decision r).

(** [require(principal, source_id, name, context)] *)
Definition require (principal : pydict) (source_id name : string) (context : option pydict) : st trace ClientDecision :=
  d ← authorize principal source_id name context None None;
  if cd_allowed d then mret d else st_throw (denied_by d).

(** What [redeem] makes of the answer. *)
Definition read_redemption (grant_id : string) (r : Z * pyval) : res ClientRedemption :=
  let what := "/grants/" +:+ grant_id +:+ "/redeem returned " in
  match r with
  | (status, PDict payload) =>
      if (status =? 200) && dhas "redeemed" payload then
        let cv := py_str (dget_or "contract_version" (PStr "") payload) in
        if incompatible cv then
          Raise (unusable ("redeem response contract v" +:+ cv +:+ " is incompatible with client-expected major 1"))
        else
          Ok (mkRedemption (bool_decide (dget "redeemed" payload = PBool true))
                (py_str (dget_or "reason" (PStr "") payload)) (py_str (dget_or "grant_id" (PStr grant_id) payload))
                (py_str (py_or (dget "decision_id" payload) (PStr "")))
                (py_str (py_or (dget "source_id" payload) (PStr "")))
                (py_str (py_or (dget "name" payload) (PStr ""))) cv payload)
      else Raise (unusable (what +:+ string_of_Z status))
  | (status, _) => Raise (unusable (what +:+ string_of_Z status))
  end.

(** [redeem(grant_id, principal, args)] *)
Definition redeem_body (principal args : pydict) : pyval :=
  PDict [(KStr "principal", PDict principal); (KStr "args", PDict args)].
Definition redeem (grant_id : string) (principal args : pydict) : st trace ClientRedemption :=
  r ← _request "POST" ("/grants/" +:+ grant_id +:+ "/redeem") (Some (redeem_body principal args));
  st_lift (read_redemption grant_id r).

(** [close_grant(grant_id, reason)] *)
Definition close_grant (grant_id reason : string) : st trace pydict :=
  r ← _request "POST" ("/grants/" +:+ grant_id +:+ "/close") (Some (PDict [(KStr "reason", PStr reason)]));
  object_answer ("closing grant " +:+ grant_id) r.

(** [record_outcome(decision_id, outcome, detail, grant_id)] *)
Definition record_outcome (decision_id outcome : string) (detail : option pydict) (grant_id : option string) :
    st trace pydict :=
  r ← _request "POST" ("/decisions/" +:+ decision_id +:+ "/outcome")
        (Some (PDict ([(KStr "outcome", PStr outcome)] ++ given "detail" (PDict <$> detail) ++
                      given "grant_id" (PStr <$> grant_id))));
  object_answer ("recording outcome for " +:+ decision_id) r.

(** ** Governed invocation *)

Section invoke.
Context (executor : trace → pydict → res pyval).

(** [try: m except ToolConnectError: pass] *)
Definition best_effort {A} (m : st trace A) : st trace unit := λ t,
  match m t with
  | (Ok _, t') => (Ok tt, t')
  | (Raise e, t') => if is_ToolConnectError e then (Ok tt, t') else (Raise e, t')
  end.

(** [executor(frozen)] *)
Definition execute (args : pydict) : st trace pyval :=
  t ← st_get;
  _ ← st_modify (λ t, t ++ [Executed args]);
  st_lift (executor t args).

(** The [try] block: redemption, the checks, execution. *)
Definition redeem_and_execute (grant : ClientGrant) (principal : pydict) (source_id name : string) (args : pydict) :
    st trace pyval :=
  r ← redeem (cg_grant_id grant) principal args;
  if negb (cr_redeemed r) then st_throw (redeem_denied_by r)
  else if (negb (bool_decide (cr_source_id r = "")) && negb (bool_decide (cr_source_id r = source_id))) ||
          (negb (bool_decide (cr_name r = "")) && negb (bool_decide (cr_name r = name))) then
    st_throw (unusable ("redeemed grant is for " +:+ cr_source_id r +:+ ":" +:+ cr_name r +:+ ", expected "
                          +:+ source_id +:+ ":" +:+ name))
  else execute args.

(** [except BaseException]: the cleanup, then the exception again. *)
Definition abort (d : ClientDecision) (grant : ClientGrant) (e : exn) : st trace pyval :=
  _ ← best_effort (close_grant (cg_grant_id grant) "aborted");
  _ ← best_effort (record_outcome (cd_decision_id d) "error" None (Some (cg_grant_id grant)));
  st_throw e.

Definition with_grant (d : ClientDecision) (grant : ClientGrant) (principal : pydict) (source_id name : string)
    (args : pydict) : st trace pyval := λ t,
  match redeem_and_execute grant principal source_id name args t with
  | (Raise e, t') => abort d grant e t'
  | (Ok result, t') =>
      (_ ← best_effort (record_outcome (cd_decision_id d) "executed" None (Some (cg_grant_id grant))); mret result) t'
  end.

(** [governed_invoke(principal, source_id, name, args, executor, context=…, ttl_seconds=…)] *)
Definition governed_invoke (principal : pydict) (source_id name : string) (args : pydict)
    (context : option pydict) (ttl_seconds : option Z) : st trace pyval :=
  d ← authorize principal source_id name context (Some args) ttl_seconds;
  if negb (cd_allowed d) then st_throw (denied_by d)
  else
    match cd_grant d with
    | None => st_throw (unusable "authorize allowed but issued no grant (server pre-1.1?)")
    | Some grant => with_grant d grant principal source_id name args
    end.
End invoke.
End methods.
End client.
