(* ===== verification/ClientRuns.v ===== *)
(** The client's guarantees: the caller's function runs once at most, and only after the
    server redeemed a grant for exactly its arguments; what becomes of its result. *)

From S2P Require Import Prelude PyJson PyJsonLoads PyStr PyColl PyEq PyIo McpSource Client.

Section client.
Context {rt : PyFloatRuntime} {utf8 : Utf8} (network : trace → http_request → net) (cl : ToolConnectClient).

(** ** Traces *)

Definition executions (t : trace) : list pydict := omap (λ ev, match ev with Executed a => Some a | Sent _ => None end) t.

Lemma executions_app t1 t2 : executions (t1 ++ t2) = executions t1 ++ executions t2.
Proof. apply omap_app. Qed.

(** A step that only sends. *)
Definition sends {A} (m : st trace A) : Prop := ∀ t, ∃ new, (m t).2 = t ++ new ∧ executions new = [].

Lemma sends_bind {A B} (m : st trace A) (k : A → st trace B) : sends m → (∀ a, sends (k a)) → sends (m ≫= k).
Proof.
  intros Hm Hk t. destruct (Hm t) as (n1 & H1 & E1). unfold mbind, st_bind. destruct (m t) as [[a|e] t1]; simpl in *; [|eauto].
  destruct (Hk a t1) as (n2 & H2 & E2). exists (n1 ++ n2). by rewrite H2, H1, executions_app, E1, E2, app_assoc.
Qed.

Lemma sends_lift {A} (r : res A) : sends (st_lift r).
Proof. intros t. exists []. by rewrite app_nil_r. Qed.
Lemma sends_ret {A} (a : A) : sends (mret a).
Proof. intros t. exists []. by rewrite app_nil_r. Qed.

(** A request that could be encoded is sent, and answered by the network as it is then. *)
Lemma request_run method path body t :
  let '(r, t') := _request network cl method path body t in
  (t' = t ∧ ∃ e, r = Raise e) ∨
  ∃ data, match body with Some b => ∃ s, json_dumps true false true b = Ok s ∧ data = Some s | None => data = None end ∧
    let rq := request_of cl method path data in
    t' = t ++ [Sent rq] ∧ r = receive_answer rq (network t rq).
Proof.
  unfold _request. run_st. destruct body as [b|]; [|right; by exists None].
  destruct (json_dumps true false true b) as [s|e]; [|left; eauto]. right. exists (Some s). eauto.
Qed.

Lemma request_sends method path body : sends (_request network cl method path body).
Proof.
  intros t. pose proof (request_run method path body t) as H. destruct (_request _ _ _ _ _ t) as [r t'].
  destruct H as [(-> & _)|(data & _ & -> & _)]; [exists []; by rewrite app_nil_r|by eexists].
Qed.

Lemma object_answer_sends what r : sends (object_answer what r).
Proof. unfold object_answer. repeat case_match; apply sends_lift || apply sends_ret. Qed.

Lemma record_sends did out det gid : sends (record_outcome network cl did out det gid).
Proof. apply sends_bind; [apply request_sends|intros r; apply object_answer_sends]. Qed.
Lemma close_sends gid why : sends (close_grant network cl gid why).
Proof. apply sends_bind; [apply request_sends|intros r; apply object_answer_sends]. Qed.

Lemma best_effort_run {A} (m : st trace A) t :
  sends m → ∃ new, (best_effort m t).2 = t ++ new ∧ executions new = [] ∧
    ((best_effort m t).1 = Ok tt ∨ ∃ e, (best_effort m t).1 = Raise e ∧ is_ToolConnectError e = false).
Proof.
  intros Hm. destruct (Hm t) as (new & H & E). unfold best_effort. destruct (m t) as [[a|e] t']; simpl in *; [by eauto|].
  destruct (is_ToolConnectError e) eqn:He; simpl; eauto 10.
Qed.

(** ** Answers *)

(** A request that the network answered so. *)
Definition exchanged (t : trace) (rq : http_request) (v : Z * pyval) : Prop := receive_answer rq (network t rq) = Ok v.

Lemma authorize_run principal sid n ctx args ttl t :
  let '(r, t') := authorize network cl principal sid n ctx args ttl t in
  (∃ e, r = Raise e ∧ ∃ new, t' = t ++ new ∧ executions new = []) ∨
  ∃ data v d, json_dumps true false true (authorize_body principal sid n ctx args ttl) = Ok data ∧
    let rq := request_of cl "POST" "/authorize" (Some data) in
    t' = t ++ [Sent rq] ∧ exchanged t rq v ∧ read_decision v = Ok d ∧ r = Ok d.
Proof.
  unfold authorize, mbind, st_bind.
  pose proof (request_run "POST" "/authorize" (Some (authorize_body principal sid n ctx args ttl)) t) as H.
  destruct (_request _ _ _ _ _ t) as [r t']. destruct H as [(-> & e & ->)|(data & (s & Hs & ->) & -> & Hr)].
  { left. exists e. split; [done|]. exists []. by rewrite app_nil_r. }
  destruct r as [v|e]; [|left; eauto 10]. unfold st_lift. destruct (read_decision v) as [d|e] eqn:Hd; [|left; eauto 10].
  right. exists s, v, d. unfold exchanged. auto.
Qed.

Lemma redeem_run gid principal args t :
  let '(r, t') := redeem network cl gid principal args t in
  (∃ e, r = Raise e ∧ ∃ new, t' = t ++ new ∧ executions new = []) ∨
  ∃ data v red, json_dumps true false true (redeem_body principal args) = Ok data ∧
    let rq := request_of cl "POST" ("/grants/" +:+ gid +:+ "/redeem") (Some data) in
    t' = t ++ [Sent rq] ∧ exchanged t rq v ∧ read_redemption gid v = Ok red ∧ r = Ok red.
Proof.
  unfold redeem, mbind, st_bind.
  pose proof (request_run "POST" ("/grants/" +:+ gid +:+ "/redeem") (Some (redeem_body principal args)) t) as H.
  destruct (_request _ _ _ _ _ t) as [r t']. destruct H as [(-> & e & ->)|(data & (s & Hs & ->) & -> & Hr)].
  { left. exists e. split; [done|]. exists []. by rewrite app_nil_r. }
  destruct r as [v|e]; [|left; eauto 10]. unfold st_lift. destruct (read_redemption gid v) as [red|e] eqn:Hd; [|left; eauto 10].
  right. exists s, v, red. unfold exchanged. auto.
Qed.

(** The answers an execution rests on. *)
Definition allows (v : Z * pyval) (d : ClientDecision) : Prop :=
  read_decision v = Ok d ∧ cd_allowed d = true.
Definition redeems (v : Z * pyval) (sid n : string) : Prop :=
  ∃ payload, v = (200, PDict payload) ∧ dget "redeemed" payload = PBool true ∧
    incompatible (py_str (dget_or "contract_version" (PStr "") payload)) = false ∧
    (py_str (py_or (dget "source_id" payload) (PStr "")) = "" ∨ py_str (py_or (dget "source_id" payload) (PStr "")) = sid) ∧
    (py_str (py_or (dget "name" payload) (PStr "")) = "" ∨ py_str (py_or (dget "name" payload) (PStr "")) = n).

Lemma read_redemption_redeems gid v red sid n :
  read_redemption gid v = Ok red → cr_redeemed red = true →
  cr_source_id red = "" ∨ cr_source_id red = sid → cr_name red = "" ∨ cr_name red = n → redeems v sid n.
Proof.
  unfold read_redemption. destruct v as [status [| | | | | |payload|]]; try done.
  destruct ((status =? 200) && _) eqn:Hs; [|done]. apply andb_true_iff in Hs as [->%Z.eqb_eq _]. cbv zeta.
  destruct (incompatible _) eqn:Hi; [done|]. intros [= <-]; simpl. intros Hr%bool_decide_eq_true Hsid Hn.
  by exists payload.
Qed.

(** ** Governed invocation *)

Context (executor : trace → pydict → res pyval).

(** The run of the [try] block that reached the executor. *)
Definition executed_run (grant : ClientGrant) (principal : pydict) (sid n : string) (args : pydict)
    (t t' : trace) (r : res pyval) : Prop :=
  ∃ data v, json_dumps true false true (redeem_body principal args) = Ok data ∧
    let rq := request_of cl "POST" ("/grants/" +:+ cg_grant_id grant +:+ "/redeem") (Some data) in
    exchanged t rq v ∧ redeems v sid n ∧
    t' = t ++ [Sent rq; Executed args] ∧ r = executor (t ++ [Sent rq]) args.

Lemma redeem_and_execute_run grant principal sid n args t :
  let '(r, t') := redeem_and_execute network cl executor grant principal sid n args t in
  (∃ e, r = Raise e ∧ ∃ new, t' = t ++ new ∧ executions new = []) ∨
  executed_run grant principal sid n args t t' r.
Proof.
  unfold redeem_and_execute, mbind at 1, st_bind at 1. pose proof (redeem_run (cg_grant_id grant) principal args t) as H.
  destruct (redeem network cl (cg_grant_id grant) principal args t) as [r t1].
  destruct H as [(e & -> & new & -> & E)|(data & v & red & Hd & -> & Hx & Hv & ->)]; [left; eauto|].
  destruct (cr_redeemed red) eqn:Hred; cbn [negb]; cbv iota; [|left; eexists; split; [done|]; by eexists].
  destruct (_ || _) eqn:Hm; [left; eexists; split; [done|]; by eexists|].
  apply orb_false_iff in Hm as [Hsid Hn]. right. exists data, v. split; [done|]. split; [done|]. split.
  - eapply read_redemption_redeems; [done|done|..].
    + destruct (bool_decide_reflect (cr_source_id red = "")); [by left|right]. by destruct (bool_decide_reflect (cr_source_id red = sid)).
    + destruct (bool_decide_reflect (cr_name red = "")); [by left|right]. by destruct (bool_decide_reflect (cr_name red = n)).
  - unfold execute. run_st. by rewrite <- app_assoc.
Qed.

(** Reporting after the [try] block: it only sends, and can only replace what is returned
    or raised by an exception that is no [ToolConnectError]. *)
Definition reported (r r' : res pyval) (t t' : trace) : Prop :=
  (∃ new, t' = t ++ new ∧ executions new = []) ∧ (r' = r ∨ ∃ e, r' = Raise e ∧ is_ToolConnectError e = false).

Lemma abort_run d grant e t : let '(r', t') := abort network cl d grant e t in reported (Raise e) r' t t'.
Proof.
  unfold abort. set (m1 := close_grant _ _ _ _). set (m2 := record_outcome _ _ _ _ _ _). unfold mbind, st_bind.
  destruct (best_effort_run m1 t (close_sends _ _)) as (n1 & H1 & E1 & R1).
  destruct (best_effort m1 t) as [r1 t1]. simpl in *. subst t1. destruct R1 as [->|(e1 & -> & He1)].
  2: { split; [eauto|]. right. by exists e1. }
  destruct (best_effort_run m2 (t ++ n1) (record_sends _ _ _ _)) as (n2 & H2 & E2 & R2).
  destruct (best_effort m2 (t ++ n1)) as [r2 t2]. simpl in *. subst t2.
  assert (∃ new, (t ++ n1) ++ n2 = t ++ new ∧ executions new = []) as Hn.
  { exists (n1 ++ n2). by rewrite executions_app, E1, E2, app_assoc. }
  destruct R2 as [->|(e2 & -> & He2)]; split; try done; [by left|right; by exists e2].
Qed.

Lemma with_grant_run d grant principal sid n args t :
  let '(r, t') := with_grant network cl executor d grant principal sid n args t in
  (∃ e, r = Raise e ∧ ∃ new, t' = t ++ new ∧ executions new = []) ∨
  ∃ t1 r1, executed_run grant principal sid n args t t1 r1 ∧ reported r1 r t1 t'.
Proof.
  unfold with_grant. pose proof (redeem_and_execute_run grant principal sid n args t) as H.
  destruct (redeem_and_execute network cl executor grant principal sid n args t) as [[v|e] t1].
  - destruct H as [(e & [=] & _)|H]. set (m := record_outcome _ _ _ _ _ _). unfold mbind, st_bind.
    destruct (best_effort_run m t1 (record_sends _ _ _ _)) as (n1 & H1 & E1 & R1).
    destruct (best_effort m t1) as [r1 t2]. simpl in *. subst t2.
    destruct R1 as [->|(e & -> & He)]; right; exists t1, (Ok v); (split; [done|]); (split; [eauto|]); [by left|right; eauto].
  - pose proof (abort_run d grant e t1) as Ha. destruct (abort network cl d grant e t1) as [r t2].
    destruct H as [(e' & _ & new & -> & E)|H]; [left|right; exists t1, (Raise e); by split].
    destruct Ha as [(n2 & -> & E2) Hr].
    assert (∃ e'', r = Raise e'') as [e'' ->] by (destruct Hr as [->|(? & -> & _)]; by eexists).
    exists e''. split; [done|]. exists (new ++ n2). by rewrite executions_app, E, E2, app_assoc.
Qed.

(** The whole run that reached the executor: its two answers, the execution, and what
    reporting made of its result. *)
Definition governed_run (principal : pydict) (sid n : string) (args : pydict) (ctx : option pydict) (ttl : option Z)
    (t t' : trace) (r : res pyval) : Prop :=
  ∃ data v d grant t1 r1,
    json_dumps true false true (authorize_body principal sid n ctx (Some args) ttl) = Ok data ∧
    let rq := request_of cl "POST" "/authorize" (Some data) in
    exchanged t rq v ∧ allows v d ∧ cd_grant d = Some grant ∧
    executed_run grant principal sid n args (t ++ [Sent rq]) t1 r1 ∧ reported r1 r t1 t'.

Lemma governed_core principal sid n args ctx ttl t :
  let '(r, t') := governed_invoke network cl executor principal sid n args ctx ttl t in
  (∃ e, r = Raise e ∧ ∃ new, t' = t ++ new ∧ executions new = []) ∨
  governed_run principal sid n args ctx ttl t t' r.
Proof.
  unfold governed_invoke, mbind, st_bind. pose proof (authorize_run principal sid n ctx (Some args) ttl t) as H.
  destruct (authorize network cl principal sid n ctx (Some args) ttl t) as [r t1].
  destruct H as [(e & -> & new & -> & E)|(data & v & d & Hd & -> & Hx & Hv & ->)]; [left; eauto|].
  destruct (cd_allowed d) eqn:Hal; cbn [negb]; cbv iota; [|left; eexists; split; [done|]; by eexists].
  destruct (cd_grant d) as [grant|] eqn:Hg; [|left; eexists; split; [done|]; by eexists].
  set (rq := request_of cl "POST" "/authorize" (Some data)) in *.
  pose proof (with_grant_run d grant principal sid n args (t ++ [Sent rq])) as H.
  destruct (with_grant network cl executor d grant principal sid n args (t ++ [Sent rq])) as [r t2].
  destruct H as [(e & -> & new & -> & E)|(t1 & r1 & H1 & H2)].
  - left. exists e. split; [done|]. exists (Sent rq :: new). by rewrite <- app_assoc.
  - right. exists data, v, d, grant, t1, r1. done.
Qed.

(** C20 -- No execution without a redeemed grant: in every run of [governed_invoke],
    whatever the network does, the caller's function either never runs, and the run
    raises, or runs exactly once, on exactly the arguments sent for authorization and
    redemption, after a 200 answer that allowed the call and carried a grant, and a 200
    answer to the redemption of that grant that said [redeemed: true] under a compatible
    contract and named, if any, this source and this tool. *)
Theorem executor_is_guarded (principal : pydict) (sid n : string) (args : pydict) (ctx : option pydict)
    (ttl : option Z) (t : trace) :
  let '(r, t') := governed_invoke network cl executor principal sid n args ctx ttl t in
  (executions t' = executions t ∧ ∃ e, r = Raise e) ∨
  (executions t' = executions t ++ [args] ∧ governed_run principal sid n args ctx ttl t t' r).
Proof.
  pose proof (governed_core principal sid n args ctx ttl t) as H.
  destruct (governed_invoke _ _ _ _ _ _ _ _ _ t) as [r t'].
  destruct H as [(e & -> & new & -> & E)|H]; [left|right].
  - rewrite executions_app, E, app_nil_r. eauto.
  - split; [|done]. destruct H as (data & v & d & grant & t1 & r1 & _ & _ & _ & _ & Hrun & (new & -> & E) & _).
    destruct Hrun as (data2 & v2 & _ & _ & _ & -> & _). rewrite !executions_app, E, app_nil_r, <- app_assoc. done.
Qed.


(** Authorization fails closed: the client answers with an allowing decision only
    for a 200 answer whose body is an object with a truthy [allowed], under no contract
    version or one of major 1; every failure of the transport, any other status and any
    unreadable body raises. *)
Theorem authorize_fails_closed (principal : pydict) (sid n : string) (ctx args : option pydict) (ttl : option Z)
    (t : trace) :
  let '(r, t') := authorize network cl principal sid n ctx args ttl t in
  match r with
  | Ok d => cd_allowed d = true →
      ∃ rq payload, t' = t ++ [Sent rq] ∧ exchanged t rq (200, PDict payload) ∧
        py_truthy (dget "allowed" payload) = true ∧ dhas "allowed" payload = true ∧
        incompatible (py_str (dget_or "contract_version" (PStr "") payload)) = false
  | Raise _ => True
  end.
Proof.
  pose proof (authorize_run principal sid n ctx args ttl t) as H.
  destruct (authorize network cl principal sid n ctx args ttl t) as [r t'].
  destruct H as [(e & -> & _)|(data & v & d & _ & -> & Hx & Hv & ->)]; [done|]. intros Hal.
  unfold read_decision in Hv. destruct v as [status [| | | | | |payload|]]; try done.
  destruct ((status =? 200) && _) eqn:Hs; [|done]. apply andb_true_iff in Hs as [->%Z.eqb_eq Hhas].
  apply bind_ok in Hv as (d' & Hj & Hv). destruct (incompatible _) eqn:Hi; [done|]. injection Hv as ->.
  eexists _, payload. split; [done|]. split; [done|]. unfold from_json in Hj.
  apply bind_ok in Hj as (g & _ & (ps & _ & (es & _ & [= <-])%bind_ok)%bind_ok). simpl in Hal, Hi.
  split_and!; [|done|done]. revert Hal. unfold dget, dget_or. unfold dhas in Hhas.
  apply bool_decide_eq_true in Hhas as [x Hx']. by rewrite Hx'.
Qed.
End client.

(** ** Examples *)

Definition sample_client : ToolConnectClient := mkClient "http://tc" PNone.

Definition net_json (v : pyval) : net := Response 200 (json_text (rt := coded_float_runtime) true false v).

(** A server that allows and redeems; the outcome report gets the given answer. *)
Definition sample_network (allowed redeemed : pyval) (outcome : net) : trace → http_request → net := λ t rq,
  if decide (ht_url rq = "http://tc/authorize") then
    net_json (PDict [(KStr "allowed", allowed); (KStr "decision_id", PStr "d1"); (KStr "contract_version", PStr "1.1");
                     (KStr "grant", PDict [(KStr "grant_id", PStr "g1")])])
  else if decide (ht_url rq = "http://tc/grants/g1/redeem") then net_json (PDict [(KStr "redeemed", redeemed)])
  else outcome.

Definition sample_invoke (allowed redeemed : pyval) (outcome : net) : res pyval * trace :=
  governed_invoke (rt := coded_float_runtime) (utf8 := ascii_utf8) (sample_network allowed redeemed outcome)
    sample_client (λ _ _, Ok (PStr "result")) [(KStr "id", PStr "alice")] "ws" "search" [(KStr "q", PStr "x")] None None [].

Example invoked_once :
  let r := sample_invoke (PBool true) (PBool true) (net_json (PDict [])) in
  r.1 = Ok (PStr "result") ∧ length (executions r.2) = 1%nat.
Proof. vm_compute. split; reflexivity. Qed.

Example outage_keeps_the_result :
  (sample_invoke (PBool true) (PBool true) Fault).1 = Ok (PStr "result") ∧
  (sample_invoke (PBool true) (PBool true) (HTTPError 503 "busy")).1 = Ok (PStr "result").
Proof. vm_compute. split; reflexivity. Qed.

(** Only [true] redeems; but any truthy [allowed] is an allow. *)
Example redeemed_is_true :
  executions (sample_invoke (PBool true) (PStr "true") Fault).2 = [] ∧
  executions (sample_invoke (PStr "false") (PBool true) Fault).2 ≠ [].
Proof. vm_compute. split; [reflexivity|discriminate]. Qed.

(** A result can be destroyed: when the answer to the outcome report is not UTF-8,
    the decoding error is no [ToolConnectError], and the caller gets it in place of the
    result of the call that was executed. *)
Theorem result_can_be_destroyed :
  let r := sample_invoke (PBool true) (PBool true) (Response 200 (String "255" "")) in
  executions r.2 = [[(KStr "q", PStr "x")]] ∧ r.1 = Raise (ValueError "'utf-8' codec can't decode the body").
Proof. vm_compute. split; reflexivity. Qed.
