(* ===== verification/Cli.v ===== *)
(** [cli.py]: the [toolconnect] commands.

    A command runs on a machine: the files it can read, the environment variables, the
    home directory and TOML parser of the interpreter, the faults its databases meet, the
    requests or messages it serves.  Its state is the databases on disk and what has gone
    out: lines and documents printed, HTTP responses, downstream commands started.  The
    arguments come parsed; [Argv] parses them.  Two commands at once on a database, the
    separators of printed JSON and the standard error stream are not modelled here. *)

From S2P Require Import Prelude PyJson PyJsonLoads PyStr PyColl PyEq PyIo DateTime Descriptor Catalog Policy.
From S2P Require Import Db AuditLog Migrate Hydrate BusPublish GovGrants McpSource Service RateLimiter.
From S2P Require Import Gateway Server OpenApi.

Definition DEFAULT_PORT : Z := 8095.
Definition version : string := "0.1.0".

(** ** The machine *)

Record machine := mkMachine {
  m_files : string → option (option string);
  m_expanduser : string → string;
  m_environ : gmap string string;
  m_toml : string → res pydict;
  m_yaml : yaml_parser;
  m_opening : string → nat → bool;
  m_oracle : oracle;
  m_backup_fails : bool;
  m_traffic : res (list (request * string));
  m_stdin : string;
  m_spawn_fails : bool;
  m_broken_pipe : nat → bool;
  m_downstream : list turn;
}.

Inductive output :=
| Line (text : string)
| Document (v : pyval)
| Entry (seq : Z) (kind : string) (body : pyval).

Record host := mkHost {
  databases : gmap string store_file;
  stdout : list output;
  http_out : list (list response);
  mcp_out : list pyval;
  spawned : list (list string);
}.

Definition cli (A : Type) : Type := st host A.

Definition print (x : output) : cli unit := st_modify (λ h,
  mkHost (databases h) (stdout h ++ [x]) (http_out h) (mcp_out h) (spawned h)).
Definition exit {A} (message : string) : cli A := st_throw (SystemExit message).

(** A database file; [":memory:"] is a new one each time and is not kept. *)
Definition memory : string := ":memory:".
Definition file_at (path : string) (h : host) : store_file :=
  if decide (path = memory) then new_file else default new_file (databases h !! path).
Definition put_file (path : string) (f : store_file) (h : host) : host :=
  if decide (path = memory) then h
  else mkHost (<[path := f]> (databases h)) (stdout h) (http_out h) (mcp_out h) (spawned h).
Definition with_rows (f : store_file) (d : db) : store_file :=
  mkFile (f_tables f) (f_indexes f) (f_label f) d.

(** [p.read_text()]: universal newlines. *)
Fixpoint universal (s : string) : string :=
  match s with
  | EmptyString => EmptyString
  | String c s' =>
      if decide (c = "013"%char) then
        match s' with
        | String d s'' => if decide (d = "010"%char) then String "010" (universal s'') else String "010" (universal s')
        | EmptyString => String "010" EmptyString
        end
      else String c (universal s')
  end.

(** [not x], [str(Path(x).expanduser())] on configured values *)
Definition missing (v : pyval) : bool := negb (py_truthy v).
Definition path_text (v : pyval) : res string :=
  match v with
  | PStr s => Ok s
  | v => Raise (TypeError ("argument should be a str or an os.PathLike object, not " +:+ type_name v))
  end.

(** [flag or other] for an argument that may not be given *)
Definition flag_or (flag : option string) (other : pyval) : pyval :=
  match flag with Some s => py_or (PStr s) other | None => other end.

Section cli.
Context {rt : PyFloatRuntime} {dt : PyDatetime} {utf8 : Utf8} {crypto : Cryptography}
  {ce : Cedar} {parser : CedarParser} {processes : Processes} {endpoint : BusEndpoint}.
Context (m : machine).

Definition read_text (path : string) : res string :=
  match m_files m path with
  | Some (Some raw) =>
      match utf8_decode raw with
      | Some text => Ok (universal text)
      | None => Raise (ValueError "'utf-8' codec can't decode the file")
      end
  | _ => Raise OSError
  end.
Definition exists_ (path : string) : bool := bool_decide (is_Some (m_files m path)).

(** ** Configuration *)

Definition _load_config (path : option string) : res pydict :=
  match path with
  | None => Ok []
  | Some p =>
      match m_files m p with
      | None => Raise (SystemExit ("config file not found: " +:+ p))
      | Some None => Raise OSError
      | Some (Some raw) => m_toml m raw
      end
  end.

(** [flag or os.environ.get(var) or cfg.get(key)] *)
Definition governance_path (flag : option string) (var key : string) (cfg : pydict) : pyval :=
  flag_or flag (flag_or (m_environ m !! var) (dget key cfg)).

Definition load_trust_root (named : pyval) : res (option string) :=
  if missing named then Ok None
  else
    p ← path_text named;
    if negb (exists_ (m_expanduser m p)) then
      Raise (SystemExit ("governance trust root not found: " +:+ p))
    else Some <$> read_text (m_expanduser m p).

Definition load_revocation_list (named : pyval) : res pyval :=
  if missing named then Ok PNone
  else
    p ← path_text named;
    if negb (exists_ (m_expanduser m p)) then
      Raise (SystemExit ("governance revocation list not found: " +:+ p))
    else
      text ← read_text (m_expanduser m p);
      match json_loads text with
      | Ok (PDict d) => Ok (PDict d)
      | Ok _ => Raise (SystemExit ("governance revocation list must be a JSON object: " +:+ p))
      | Raise JSONDecodeError =>
          Raise (SystemExit ("governance revocation list is not valid JSON: " +:+ p))
      | Raise e => Raise e
      end.

(** [_load_governance(args, cfg)] *)
Definition _load_governance (root_flag list_flag : option string) (cfg : pydict) : res (option string * pyval) :=
  let root := governance_path root_flag "TOOLCONNECT_GOV_TRUST_ROOT" "gov_trust_root" cfg in
  let list_ := governance_path list_flag "TOOLCONNECT_GOV_REVOCATION_LIST" "gov_revocation_list" cfg in
  trust_root_pem ← load_trust_root root;
  revocation_list ← load_revocation_list list_;
  Ok (trust_root_pem, revocation_list).

(** The database a command is told to use. *)
Definition named_db (what : string) (db_ : pyval) : res string :=
  if missing db_ then Raise (SystemExit (what +:+ " requires --db PATH (or `db` in --config)"))
  else p ← path_text db_; Ok (m_expanduser m p).

(** The policies, parsed: [except ValueError] catches a decoding error too. *)
Definition load_engine (policies : pyval) : res PolicyEngine :=
  p ← path_text policies;
  if negb (exists_ (m_expanduser m p)) then Raise (SystemExit ("policy file not found: " +:+ p))
  else
    match (text ← read_text (m_expanduser m p); new_engine text) with
    | Raise e =>
        if is_ValueError e then Raise (SystemExit (str_exn e +:+ " (policy file: " +:+ p +:+ ")")) else Raise e
    | Ok engine => Ok engine
    end.

(** ** Databases *)

(** [SqliteStore(path)] *)
Definition SqliteStore (path : string) : cli store_file := λ h,
  let '(r, f) := open_store (m_opening m path) (file_at path h) in
  (r ≫= (λ _, Ok f), put_file path f h).

(** Methods of an open store, and what they leave on disk. *)
Definition on_store {A} (path : string) (f : store_file) (body : act A) : cli A := λ h,
  let '(r, s) := body (m_oracle m) (mkSim (f_rows f) 0) in (r, put_file path (with_rows f (s_db s)) h).

(** [store.verify_chain()] *)
Definition verify : act ChainVerification := v ← select verify_chain; lift v.

(** [ToolConnectService(store, engine, ...)], and what runs on it. *)
Definition new_service (path : string) (f : store_file) (service : config) : cli world := λ h,
  let '(r, s) := start_service service (m_oracle m) (mkSim (f_rows f) 0) in
  (c ← r; Ok (mkWorld c s [] []), put_file path (with_rows f (s_db s)) h).
Definition run_on {A} (path : string) (f : store_file) (body : world → res A * world) (w : world) : cli A := λ h,
  let '(r, w') := body w in (r, put_file path (with_rows f (w_db w')) h).

Definition new_config (governance : option string * pyval) : config :=
  mkConfig (from_env (m_environ m)) governance.1 governance.2 "toolconnect".

Definition report_chain (v : ChainVerification) : string :=
  "audit chain ok=" +:+ bool_text (AuditLog.ok v) +:+ ", records=" +:+ string_of_Z (AuditLog.records v).

(** ** Commands *)

Definition _cmd_version : cli Z := _ ← print (Line ("toolconnect " +:+ version)); mret 0.

Definition _cmd_init_db (db_ config_ : option string) : cli Z :=
  cfg ← st_lift (_load_config config_);
  path ← st_lift (named_db "init-db" (flag_or db_ (dget "db" cfg)));
  f ← SqliteStore path;
  chain ← on_store path f verify;
  _ ← print (Line ("initialized " +:+ path +:+ " (schema v" +:+ string_of_Z SCHEMA_VERSION +:+ ", "
                     +:+ report_chain chain +:+ ")"));
  mret 0.

Record serve_args := mkServeArgs {
  sa_db : option string;
  sa_policies : option string;
  sa_host : option string;
  sa_port : option Z;
  sa_token_env : option string;
  sa_rate_limit : option Z;
  sa_gov_trust_root : option string;
  sa_gov_revocation_list : option string;
  sa_config : option string;
}.

(** [os.environ.get(name)] *)
Definition environ_get (name : pyval) : res pyval :=
  match name with
  | PStr s => Ok (match m_environ m !! s with Some v => PStr v | None => PNone end)
  | v => Raise (TypeError ("str expected, not " +:+ type_name v))
  end.

(** [host not in LOOPBACK_HOSTS] on a configured value *)
Definition outside_loopback (host_ : pyval) : res bool :=
  match host_ with
  | PStr s => Ok (negb (s ∈? LOOPBACK_HOSTS))
  | v => if hashable v then Ok true else Raise (TypeError ("unhashable type: '" +:+ type_name v +:+ "'"))
  end.

(** A host or a token that reaches the server is text. *)
Definition text_value (v : pyval) : res string := match v with PStr s => Ok s | _ => Raise NotModelled end.
Definition opt_token (v : pyval) : res (option string) :=
  if missing v then Ok None else Some <$> text_value v.

(** [serve(service, host, port, token, rate_limit_per_min)] to the interrupt. *)
Definition serve {engine : PolicyEngine} (service : config) (host_ : string) (token : option string)
    (rate_limit : Z) (w : world) : res (list (list response)) * world :=
  match make_server service host_ token rate_limit with
  | Raise e => (Raise e, w)
  | Ok (sv, l) =>
      match m_traffic m with
      | Raise e => (Raise e, w)
      | Ok rqs => let '(outs, w') := serve_http sv rqs (m_oracle m) w l in (Ok outs, w')
      end
  end.

Definition _cmd_serve (args : serve_args) : cli Z :=
  cfg ← st_lift (_load_config (sa_config args));
  let db_ := flag_or (sa_db args) (dget "db" cfg) in
  let policies_path := flag_or (sa_policies args) (dget "policies" cfg) in
  let host_ := flag_or (sa_host args) (py_or (dget "host" cfg) (PStr DEFAULT_HOST)) in
  port ← st_lift (match sa_port args with Some p => Ok p | None => int_of (dget_or "port" (PInt DEFAULT_PORT) cfg) end);
  let token_env := flag_or (sa_token_env args) (py_or (dget "token_env" cfg) (PStr "TOOLCONNECT_AUTH_TOKEN")) in
  presented ← st_lift (environ_get token_env);
  let token := py_or presented (dget "token" cfg) in
  rate_limit ← st_lift (match sa_rate_limit args with
                        | Some r => Ok r
                        | None => int_of (dget_or "rate_limit_per_min" (PInt 0) cfg)
                        end);
  if missing db_ then exit "serve requires --db PATH (or `db` in --config)"
  else if missing policies_path then
    exit "serve requires --policies FILE (or `policies` in --config); a decision point must be told its policy set explicitly"
  else
    outside ← st_lift (outside_loopback host_);
    if outside && missing token then
      exit ("refusing to bind " +:+ py_str host_ +:+ " without authentication: set a token via $" +:+ py_str token_env
              +:+ " (or `token` in --config), or bind 127.0.0.1.")
    else
      path ← st_lift (named_db "serve" db_);
      engine ← st_lift (load_engine policies_path);
      governance ← st_lift (_load_governance (sa_gov_trust_root args) (sa_gov_revocation_list args) cfg);
      f ← SqliteStore path;
      w ← new_service path f (new_config governance);
      host_text ← st_lift (text_value host_);
      token_text ← st_lift (opt_token token);
      _ ← print (Line ("toolconnect serving on http://" +:+ host_text +:+ ":" +:+ string_of_Z port +:+ " (db=" +:+ path
            +:+ ", policies=" +:+ py_str policies_path
            +:+ ", auth=" +:+ (if missing token then "open (loopback)" else "bearer ($" +:+ py_str token_env +:+ ")")
            +:+ ", rate_limit=" +:+ (if 0 <? rate_limit then string_of_Z rate_limit +:+ "/min/ip" else "off") +:+ ")"));
      outs ← run_on path f (serve (engine := engine) (new_config governance) host_text token_text rate_limit) w;
      _ ← st_modify (λ h, mkHost (databases h) (stdout h) (http_out h ++ outs) (mcp_out h) (spawned h));
      mret 0.

Record gateway_args := mkGatewayArgs {
  ga_db : option string;
  ga_policies : option string;
  ga_principal_id : option string;
  ga_principal_kind : string;
  ga_privacy_tier : string;
  ga_source_id : option string;
  ga_gov_trust_root : option string;
  ga_gov_revocation_list : option string;
  ga_config : option string;
  ga_downstream : list string;
}.

(** The downstream command without its leading [--]. *)
Definition strip_separator (argv : list string) : list string :=
  match argv with
  | a :: rest => if decide (a = "--") then rest else argv
  | [] => []
  end.

(** A [Gateway] and its [run()]: what the client got, and the world left. *)
Definition run_gateway {engine : PolicyEngine} (service : config) (principal : pydict) (source_id : string)
    (command : list string) (w : world) : res (list pyval) * world :=
  match new_gateway service principal source_id command (m_spawn_fails m) (m_broken_pipe m) (m_downstream m) w with
  | Raise (DownstreamTransportError _ msg) =>
      (Raise (SystemExit ("gateway: could not start downstream command: " +:+ msg)), w)
  | Raise e => (Raise e, w)
  | Ok (gc, g) =>
      let g' := (session gc (m_stdin m) (m_oracle m) g).2 in (Ok (g_out g'), g_world g')
  end.

Definition _cmd_gateway (args : gateway_args) : cli Z :=
  cfg ← st_lift (_load_config (ga_config args));
  let db_ := flag_or (ga_db args) (dget "db" cfg) in
  let policies_path := flag_or (ga_policies args) (dget "policies" cfg) in
  if missing db_ then exit "gateway requires --db PATH (or `db` in --config)"
  else if missing policies_path then
    exit "gateway requires --policies FILE (or `policies` in --config); a decision point must be told its policy set explicitly"
  else if decide (default "" (ga_principal_id args) = "") then exit "gateway requires --principal-id ID"
  else if decide (default "" (ga_source_id args) = "") then exit "gateway requires --source-id ID"
  else
    let downstream := strip_separator (ga_downstream args) in
    if decide (downstream = []) then
      exit "gateway requires a downstream command: toolconnect gateway ... -- <downstream command...>"
    else
      path ← st_lift (named_db "gateway" db_);
      engine ← st_lift (load_engine policies_path);
      governance ← st_lift (_load_governance (ga_gov_trust_root args) (ga_gov_revocation_list args) cfg);
      f ← SqliteStore path;
      let principal := [str_pair "id" (PStr (default "" (ga_principal_id args)));
                        str_pair "kind" (PStr (ga_principal_kind args));
                        str_pair "privacy_tier" (PStr (ga_privacy_tier args))] in
      w ← new_service path f (new_config governance);
      outs ← run_on path f (run_gateway (engine := engine) (new_config governance) principal
                              (default "" (ga_source_id args)) downstream) w;
      _ ← st_modify (λ h, mkHost (databases h) (stdout h) (http_out h) (mcp_out h ++ outs) (spawned h ++ [downstream]));
      mret 0.

Record openapi_args := mkOpenapiArgs {
  oa_spec : string;
  oa_source : string;
  oa_tier : string;
  oa_db : option string;
  oa_gov_trust_root : option string;
  oa_gov_revocation_list : option string;
  oa_config : option string;
}.

(** The service's part of [ingest-openapi]. *)
Definition register_and_push (args : openapi_args) (result : DiscoveryResult) :
    svc pydict :=
  c ← catalog;
  _ ← (if decide (sources c !! oa_source args = None) then
         Service.register_source (oa_source args) (oa_tier args) "openapi" PNone PNone
       else mret []);
  ingest_payload (oa_source args) (PList (discovery_to_payload result)).

Definition ingested_names (out : pydict) : list string :=
  match dget "ingested" out with PList l => text_of <$> l | _ => [] end.

Definition _cmd_ingest_openapi (args : openapi_args) : cli Z :=
  cfg ← st_lift (_load_config (oa_config args));
  path ← st_lift (named_db "ingest-openapi" (flag_or (oa_db args) (dget "db" cfg)));
  f ← SqliteStore path;
  result ← st_lift (match load_openapi (m_yaml m) (mjoin (m_files m (oa_spec args))) with
                    | Raise (OpenAPISpecError kind msg) =>
                        Raise (SystemExit ("openapi ingest failed (" +:+ kind +:+ "): " +:+ msg))
                    | r => r
                    end);
  governance ← st_lift (_load_governance (oa_gov_trust_root args) (oa_gov_revocation_list args) cfg);
  engine ← st_lift (new_engine "");
  w ← new_service path f (new_config governance);
  out ← run_on path f (register_and_push args result (m_oracle m)) w;
  let names := ingested_names out in
  _ ← print (Line ("ingested " +:+ string_of_Z (Z.of_nat (length names)) +:+ " capabilities from " +:+ oa_spec args
                     +:+ " into " +:+ repr_str (oa_source args) +:+ " (" +:+ server_name result +:+ " "
                     +:+ server_version result +:+ ", " +:+ protocol_version result +:+ "): " +:+ join ", " names));
  mret 0.

Definition _cmd_verify_audit (db_ config_ : option string) (json : bool) : cli Z :=
  cfg ← st_lift (_load_config config_);
  path ← st_lift (named_db "verify-audit" (flag_or db_ (dget "db" cfg)));
  f ← SqliteStore path;
  v ← on_store path f verify;
  _ ← print (if json then Document (as_dict v)
             else if AuditLog.ok v then Line ("audit chain OK (" +:+ string_of_Z (AuditLog.records v) +:+ " records)")
             else Line ("audit chain BROKEN at seq " +:+ match broken_at v with Some n => string_of_Z n | None => "None" end
                          +:+ ": " +:+ detail v +:+ " (" +:+ string_of_Z (AuditLog.records v)
                          +:+ " records verified before the break)"));
  mret (if AuditLog.ok v then 0 else 1).

(** The report on a source: what the database's catalog and last discovery say. *)
Definition read_drift (source_id : string) : act (DriftReport * string) :=
  cat ← load_catalog;
  if decide (sources cat !! source_id = None) then
    lift (Raise (SystemExit ("unknown source " +:+ repr_str source_id)))
  else
    obs ← last_discovery source_id;
    match obs with
    | None => lift (Raise (SystemExit ("no discovery has been observed for " +:+ repr_str source_id
                +:+ "; trigger ingest first (drift is unknown, not clean)")))
    | Some (discovered, observed_at) => mret (drift cat source_id discovered, observed_at)
    end.

Definition drift_document (r : DriftReport) (observed_at : string) : pyval :=
  PDict [str_pair "source_id" (PStr (drift_source r)); str_pair "clean" (PBool (clean r));
    str_pair "summary" (PStr (summary r)); str_pair "observed_at" (PStr observed_at);
    str_pair "advertised_missing" (strings (advertised_missing r));
    str_pair "undeclared_present" (strings (undeclared_present r)); str_pair "unasserted" (strings (unasserted r));
    str_pair "claim_conflicts" (PList ((λ c, PList [PStr c.1; PStr c.2]) <$> drift_conflicts r));
    str_pair "redefined_after_assertion" (strings (redefined_after_assertion r))].

Definition drift_lines (r : DriftReport) (observed_at : string) : list output :=
  let named (label : string) (l : list string) : list output :=
    match l with [] => [] | _ => [Line ("  " +:+ label +:+ ": " +:+ join ", " l)] end in
  [Line (summary r +:+ "  (observed " +:+ observed_at +:+ ")")]
    ++ named "advertised-missing" (advertised_missing r) ++ named "undeclared-present" (undeclared_present r)
    ++ named "unasserted" (unasserted r) ++ named "redefined-after-assertion" (redefined_after_assertion r)
    ++ ((λ c, Line ("  claim-conflict " +:+ c.1 +:+ ": " +:+ c.2)) <$> drift_conflicts r).

Fixpoint print_all (l : list output) : cli unit :=
  match l with
  | [] => mret tt
  | x :: l' => _ ← print x; print_all l'
  end.

Definition _cmd_drift (db_ config_ : option string) (source_id : string) (json : bool) : cli Z :=
  cfg ← st_lift (_load_config config_);
  path ← st_lift (named_db "drift" (flag_or db_ (dget "db" cfg)));
  f ← SqliteStore path;
  r ← on_store path f (read_drift source_id);
  let '(report, observed_at) := r in
  _ ← (if json then print (Document (drift_document report observed_at))
       else print_all (drift_lines report observed_at));
  mret (if clean report then 0 else 2).

(** [store.backup(dest_path)]: a transactionally consistent copy, or an error. *)
Definition backup (f : store_file) (dest : string) : cli unit := λ h,
  if m_backup_fails m then (Raise OperationalError, h) else (Ok tt, put_file dest f h).

Definition _cmd_backup (db_ out config_ : option string) : cli Z :=
  cfg ← st_lift (_load_config config_);
  let db_ := flag_or db_ (dget "db" cfg) in
  path ← st_lift (named_db "backup" db_);
  if decide (default "" out = "") then exit "backup requires --out PATH"
  else
    f ← SqliteStore path;
    let dest := m_expanduser m (default "" out) in
    _ ← backup f dest;
    g ← SqliteStore dest;
    chain ← on_store dest g verify;
    _ ← print (Line ("backed up " +:+ py_str db_ +:+ " -> " +:+ dest +:+ " (" +:+ report_chain chain +:+ ")"));
    mret (if AuditLog.ok chain then 0 else 1).

(** One line a record, newest first; without records, an empty line. *)
Definition audit_lines (records : list (audit_row * pyval)) : list output :=
  match records with
  | [] => [Line ""]
  | _ => (λ rb, Entry (au_seq rb.1) (au_kind rb.1) rb.2) <$> records
  end.

Definition _cmd_audit (db_ config_ kind : option string) (limit : Z) (json : bool) : cli Z :=
  cfg ← st_lift (_load_config config_);
  path ← st_lift (named_db "audit" (flag_or db_ (dget "db" cfg)));
  f ← SqliteStore path;
  records ← on_store path f (read_audit kind limit);
  _ ← (if json then print (Document (PList (audit_record <$> records))) else print_all (audit_lines records));
  mret 0.

(** ** The entry point *)

Inductive command :=
| Version
| InitDb (db_ config_ : option string)
| Serve (args : serve_args)
| RunGateway (args : gateway_args)
| IngestOpenapi (args : openapi_args)
| VerifyAudit (db_ config_ : option string) (json : bool)
| Drift (db_ config_ : option string) (source_id : string) (json : bool)
| Backup (db_ out config_ : option string)
| Audit (db_ config_ kind : option string) (limit : Z) (json : bool).

Definition dispatch_command (c : command) : cli Z :=
  match c with
  | Version => _cmd_version
  | InitDb d c => _cmd_init_db d c
  | Serve args => _cmd_serve args
  | RunGateway args => _cmd_gateway args
  | IngestOpenapi args => _cmd_ingest_openapi args
  | VerifyAudit d c json => _cmd_verify_audit d c json
  | Drift d c source_id json => _cmd_drift d c source_id json
  | Backup d out c => _cmd_backup d out c
  | Audit d c kind limit json => _cmd_audit d c kind limit json
  end.

(** [main(argv)], its arguments parsed. *)
Definition main (c : command) : cli Z := λ h,
  match dispatch_command c h with
  | (Raise (SchemaTooNewError _ _), h') => (Ok 1, h')
  | r => r
  end.
End cli.
