(* ===== verification/Argv.v ===== *)
(** [cli.py], the command line itself: the parsers [main] builds and what they make of an
    [argv].

    This is [argparse] of CPython 3.11 as the program uses it: options by name, by an
    unambiguous prefix or with their value after an equals sign; one level of subcommands;
    one positional that takes the remainder; text, integer and float values.  A usage error
    exits with status 2 and a request for help with 0; their texts are not modelled.  A value
    [--] behind an equals sign is read as that text, as of CPython 3.12.7 (3.11 drops it). *)

From S2P Require Import Prelude PyJson PyJsonLoads PyStr PyColl PyEq PyIo DateTime Descriptor Catalog Policy.
From S2P Require Import Db AuditLog Migrate Hydrate BusPublish GovGrants McpSource Service RateLimiter.
From S2P Require Import Gateway Server OpenApi Cli.

(** ** Parsers *)

(** [sys.exit(status)], or a result. *)
Inductive parsing (A : Type) :=
| Exits (status : Z)
| Parsed (a : A).
Arguments Exits {A} _.
Arguments Parsed {A} _.

#[global] Instance parsing_ret : MRet parsing := λ A a, Parsed a.
#[global] Instance parsing_bind : MBind parsing := λ A B f m,
  match m with Exits status => Exits status | Parsed a => f a end.

#[global] Instance parsing_fmap : FMap parsing := λ A B f m,
  match m with Exits status => Exits status | Parsed a => Parsed (f a) end.

Definition usage_error {A} : parsing A := Exits 2.

(** [add_argument(name, ...)]: a value and what [type] accepts, or [store_true]. *)
Record argument := mkArgument {
  name : string;
  converts : option (string → bool);
  required : bool;
}.

(** The positional of a parser: none, [nargs=REMAINDER], or [add_subparsers]. *)
Inductive positional := NoPositional | Remainder | Subcommands.

Record parser := mkParser { arguments : list argument; positionals : positional }.

Inductive action := Help | Store (a : argument).

(** [_option_string_actions], in order. *)
Definition option_strings (p : parser) : list (string * action) :=
  ("-h", Help) :: ("--help", Help) :: ((λ a, (name a, Store a)) <$> arguments p).

Fixpoint find_option (s : string) (l : list (string * action)) : option action :=
  match l with
  | [] => None
  | (s', a) :: l' => if decide (s = s') then Some a else find_option s l'
  end.

(** An option as an argument names it: its action, if there is one, and its value, if the
    argument gives it. *)
Definition option_tuple : Type := option action * option string.

(** [_get_option_tuples] *)
Definition _get_option_tuples (p : parser) (s : string) : list option_tuple :=
  match s with
  | String _ (String "-" _) =>
      let '(prefix, found, value) := partition "=" s in
      omap (λ o, if startswith prefix o.1
                 then Some (Some o.2, if (found : bool) then Some value else None) else None) (option_strings p)
  | String c (String d rest) =>
      omap (λ o, if decide (o.1 = String c (String d "")) then Some (Some o.2, Some rest)
                 else if startswith s o.1 then Some (Some o.2, None) else None) (option_strings p)
  | _ => []
  end.

(** [re.match(r"^-\d+$|^-\d*\.\d+$", s)] *)
Definition is_digit (c : ascii) : bool := (48 <=? char_code c) && (char_code c <=? 57).
Fixpoint digits_end (some : bool) (s : string) : bool :=
  match s with
  | EmptyString => some
  | String c s' => if is_digit c then digits_end true s' else some && (s ≟ String "010" "")
  end.
Fixpoint number_end (some : bool) (s : string) : bool :=
  match s with
  | EmptyString => some
  | String c s' =>
      if is_digit c then number_end true s'
      else if decide (c = "."%char) then digits_end false s' else some && (s ≟ String "010" "")
  end.
Definition negative_number (s : string) : bool :=
  match s with String "-" s' => number_end false s' | _ => false end.

Fixpoint has_space (s : string) : bool :=
  match s with EmptyString => false | String c s' => (c ≟ " "%char) || has_space s' end.

(** [_parse_optional]: an option, or a positional argument. *)
Definition _parse_optional (p : parser) (s : string) : parsing (option option_tuple) :=
  match s with
  | String "-" rest =>
      match find_option s (option_strings p) with
      | Some a => Parsed (Some (Some a, None))
      | None =>
          if decide (rest = "") then Parsed None
          else
            let '(before, found, value) := partition "=" s in
            match (if (found : bool) then find_option before (option_strings p) else None) with
            | Some a => Parsed (Some (Some a, Some value))
            | None =>
                match _get_option_tuples p s with
                | [t] => Parsed (Some t)
                | [] =>
                    if negative_number s || has_space s then Parsed None
                    else Parsed (Some (None, None))
                | _ => usage_error
                end
            end
      end
  | _ => Parsed None
  end.

(** The pattern of an [argv]: [A], [O] and [-]. *)
Inductive item := Arg (s : string) | Opt (s : string) (t : option_tuple) | Dashes.

Definition text_of_item (i : item) : string := match i with Arg s | Opt s _ => s | Dashes => "--" end.
Definition is_opt (i : item) : bool := match i with Opt _ _ => true | _ => false end.

Fixpoint classify (p : parser) (argv : list string) : parsing (list item) :=
  match argv with
  | [] => Parsed []
  | s :: rest =>
      if decide (s = "--") then Parsed (Dashes :: (Arg <$> rest))
      else
        t ← _parse_optional p s;
        items ← classify p rest;
        Parsed (match t with Some t => Opt s t | None => Arg s end :: items)
  end.

(** [-h] with more letters: its only companion is itself. *)
Fixpoint all_h (s : string) : bool :=
  match s with EmptyString => true | String c s' => (c ≟ "h"%char) && all_h s' end.
Definition help_bundle (explicit : string) : Z := if negb (explicit ≟ "") && all_h explicit then 0 else 2.

(** The texts given so far, by option, the last one winning. *)
Definition namespace : Type := gmap string string.

(** What was left: unrecognised arguments, and what the positional took. *)
Record known := mkKnown {
  values : namespace;
  extras : list string;
  taken : option (list string);
}.
Definition extra (s : string) (k : known) : known := mkKnown (values k) (s :: extras k) (taken k).

Definition store (a : argument) (text : string) (ns : namespace) : parsing namespace :=
  match converts a with
  | Some ok => if ok text then Parsed (<[name a := text]> ns) else usage_error
  | None => Parsed (<[name a := text]> ns)
  end.

(** The loop of [_parse_known_args]: [consume_positionals] and [consume_optional]. *)
Fixpoint consume (p : parser) (items : list item) (ns : namespace) : parsing known :=
  match items with
  | [] => Parsed (mkKnown ns [] (match positionals p with Remainder => Some [] | _ => None end))
  | Opt s (None, _) :: rest => extra s <$> consume p rest ns
  | Opt s (Some Help, None) :: _ => Exits 0
  | Opt s (Some Help, Some explicit) :: _ =>
      match s with
      | String _ (String "-" _) => usage_error
      | _ => Exits (help_bundle explicit)
      end
  | Opt _ (Some (Store a), explicit) :: rest =>
      match converts a, explicit, rest with
      | Some _, Some text, _ => ns' ← store a text ns; consume p rest ns'
      | Some _, None, Arg text :: rest' => ns' ← store a text ns; consume p rest' ns'
      | Some _, None, _ => usage_error
      | None, Some _, _ => usage_error
      | None, None, _ => ns' ← store a "" ns; consume p rest ns'
      end
  | i :: rest =>
      match positionals p, items with
      | Remainder, _ => Parsed (mkKnown ns [] (Some (text_of_item <$> items)))
      | Subcommands, ([Dashes]) => Parsed (mkKnown ns ["--"] None)
      | Subcommands, _ => Parsed (mkKnown ns [] (Some (text_of_item <$> items)))
      | NoPositional, _ => extra (text_of_item i) <$> consume p rest ns
      end
  end.

(** [parse_known_args] *)
Definition parse_known_args (p : parser) (argv : list string) : parsing known :=
  items ← classify p argv;
  k ← consume p items ∅;
  if forallb (λ a, negb (required a) || bool_decide (is_Some (values k !! name a))) (arguments p)
  then Parsed k else usage_error.

(** ** [type=int] and [type=float] *)

Definition int_text (s : string) : bool := is_ok (py_int s).

(** Digits with single underscores between them: whether there were any, and the rest. *)
Fixpoint digit_part (after_digit : bool) (s : string) : option (bool * string) :=
  match s with
  | String c s' =>
      if is_digit c then digit_part true s'
      else if decide (c = "_"%char) then
        match s' with
        | String d _ => if after_digit && is_digit d then digit_part false s' else None
        | EmptyString => None
        end
      else Some (after_digit, s)
  | EmptyString => Some (after_digit, EmptyString)
  end.
Definition unsigned (s : string) : string :=
  match s with String "+" s' | String "-" s' => s' | _ => s end.
Definition exponent (s : string) : bool :=
  match s with
  | EmptyString => true
  | String "e" s' => match digit_part false (unsigned s') with Some (true, EmptyString) => true | _ => false end
  | _ => false
  end.

(** What [float(s)] accepts. *)
Definition float_text (s : string) : bool :=
  let t := unsigned (py_lower (py_strip s)) in
  (t ∈? ["inf"; "infinity"; "nan"]) ||
  match digit_part false t with
  | Some (whole, String "." rest) =>
      match digit_part false rest with
      | Some (fraction, rest') => (whole || fraction) && exponent rest'
      | None => false
      end
  | Some (true, rest) => exponent rest
  | _ => false
  end.

(** ** The parsers of [main] *)

Definition text_option (n : string) : argument := mkArgument n (Some (λ _, true)) false.
Definition needed_option (n : string) : argument := mkArgument n (Some (λ _, true)) true.
Definition int_option (n : string) : argument := mkArgument n (Some int_text) false.
Definition flag_option (n : string) : argument := mkArgument n None false.

(** [_gov_arg(parser)] *)
Definition _gov_arg : list argument := [text_option "--gov-trust-root"; text_option "--gov-revocation-list"].

Definition p_version : parser := mkParser [] NoPositional.
Definition p_init : parser := mkParser [text_option "--db"; text_option "--config"] NoPositional.
Definition p_serve : parser :=
  mkParser ([text_option "--db"; text_option "--policies"; text_option "--host"; int_option "--port";
             text_option "--token-env"; int_option "--rate-limit"] ++ _gov_arg ++ [text_option "--config"]) NoPositional.
Definition p_gateway : parser :=
  mkParser ([text_option "--db"; text_option "--policies"; text_option "--principal-id"; text_option "--principal-kind";
             text_option "--privacy-tier"; text_option "--source-id"; mkArgument "--timeout" (Some float_text) false]
            ++ _gov_arg ++ [text_option "--config"]) Remainder.
Definition p_ingest_oa : parser :=
  mkParser ([needed_option "--spec"; needed_option "--source"; text_option "--tier"; text_option "--db"]
            ++ _gov_arg ++ [text_option "--config"]) NoPositional.
Definition p_verify : parser := mkParser [text_option "--db"; text_option "--config"; flag_option "--json"] NoPositional.
Definition p_drift : parser :=
  mkParser [text_option "--db"; needed_option "--source"; text_option "--config"; flag_option "--json"] NoPositional.
Definition p_backup : parser := mkParser [text_option "--db"; text_option "--out"; text_option "--config"] NoPositional.
Definition p_audit : parser :=
  mkParser [text_option "--db"; text_option "--kind"; int_option "--limit"; text_option "--config"; flag_option "--json"]
    NoPositional.
Definition top : parser := mkParser [] Subcommands.

(** What [args] holds for the command, defaults included. *)
Section values.
Context (k : known).
Definition text_of (n : string) : option string := values k !! n.
Definition int_value (n : string) : option Z :=
  match values k !! n with Some t => match py_int t with Ok z => Some z | Raise _ => None end | None => None end.
Definition given (n : string) : bool := bool_decide (is_Some (values k !! n)).

Definition args_serve : serve_args :=
  mkServeArgs (text_of "--db") (text_of "--policies") (text_of "--host") (int_value "--port") (text_of "--token-env")
    (int_value "--rate-limit") (text_of "--gov-trust-root") (text_of "--gov-revocation-list") (text_of "--config").
Definition args_gateway : gateway_args :=
  mkGatewayArgs (text_of "--db") (text_of "--policies") (text_of "--principal-id")
    (default "agent" (text_of "--principal-kind")) (default "local" (text_of "--privacy-tier")) (text_of "--source-id")
    (text_of "--gov-trust-root") (text_of "--gov-revocation-list") (text_of "--config") (default [] (taken k)).
Definition args_openapi : openapi_args :=
  mkOpenapiArgs (default "" (text_of "--spec")) (default "" (text_of "--source")) (default "untrusted" (text_of "--tier"))
    (text_of "--db") (text_of "--gov-trust-root") (text_of "--gov-revocation-list") (text_of "--config").
Definition args_drift : command :=
  Drift (text_of "--db") (text_of "--config") (default "" (text_of "--source")) (given "--json").
Definition args_audit : command :=
  Audit (text_of "--db") (text_of "--config") (text_of "--kind") (default 50 (int_value "--limit")) (given "--json").
End values.

(** The subcommands, with the [func] of each. *)
Definition subcommand (n : string) : option (parser * (known → command)) :=
  if decide (n = "version") then Some (p_version, λ _, Version)
  else if decide (n = "init-db") then Some (p_init, λ k, InitDb (text_of k "--db") (text_of k "--config"))
  else if decide (n = "serve") then Some (p_serve, λ k, Serve (args_serve k))
  else if decide (n = "gateway") then Some (p_gateway, λ k, RunGateway (args_gateway k))
  else if decide (n = "ingest-openapi") then Some (p_ingest_oa, λ k, IngestOpenapi (args_openapi k))
  else if decide (n = "verify-audit") then
    Some (p_verify, λ k, VerifyAudit (text_of k "--db") (text_of k "--config") (given k "--json"))
  else if decide (n = "drift") then Some (p_drift, args_drift)
  else if decide (n = "backup") then Some (p_backup, λ k, Backup (text_of k "--db") (text_of k "--out") (text_of k "--config"))
  else if decide (n = "audit") then Some (p_audit, args_audit)
  else None.

(** [parser.parse_args(argv)] *)
Definition parse_args (argv : list string) : parsing command :=
  k ← parse_known_args top argv;
  match taken k with
  | Some (n :: rest) =>
      match subcommand n with
      | Some (p, func) =>
          k' ← parse_known_args p rest;
          if decide (extras k ++ extras k' = []) then Parsed (func k') else usage_error
      | None => usage_error
      end
  | _ => usage_error
  end.

(** ** The process *)

Section process.
Context {rt : PyFloatRuntime} {dt : PyDatetime} {utf8 : Utf8} {crypto : Cryptography}
  {ce : Cedar} {policy_parser : CedarParser} {processes : Processes} {endpoint : BusEndpoint}.
Context (m : machine).

(** The status [sys.exit] gives the process for what [main] returned or raised. *)
Definition exit_status (r : res Z) : Z := match r with Ok z => Z.modulo z 256 | Raise _ => 1 end.

(** [sys.exit(main())] *)
Definition toolconnect (argv : list string) (h : host) : Z * host :=
  match parse_args argv with
  | Exits status => (status, h)
  | Parsed c => let '(r, h') := main m c h in (exit_status r, h')
  end.
End process.
