(* ===== verification/ArgvRuns.v ===== *)
(** Theorems about the command line: every command is reached by writing its settings down,
    in any order and spelling, and is read back as written. *)

From S2P Require Import Prelude PyJson PyJsonLoads PyStr PyColl PyEq PyIo DateTime Descriptor Catalog Policy.
From S2P Require Import Db AuditLog Migrate Hydrate BusPublish GovGrants McpSource Service RateLimiter.
From S2P Require Import Gateway GatewayBounds Server OpenApi Cli Argv.

(** ** Writing a command down *)

(** The options of a command with what is set: [None] is not given. *)
Definition table (c : command) : list (argument * option string) :=
  let text n o := (text_option n, o) in
  let needed n s := (needed_option n, Some s) in
  let int n o := (int_option n, string_of_Z <$> o) in
  let flag n (b : bool) := (flag_option n, if b then Some "" else None) in
  match c with
  | Version => []
  | InitDb d c => [text "--db" d; text "--config" c]
  | Serve a =>
      [text "--db" (sa_db a); text "--policies" (sa_policies a); text "--host" (sa_host a); int "--port" (sa_port a);
       text "--token-env" (sa_token_env a); int "--rate-limit" (sa_rate_limit a);
       text "--gov-trust-root" (sa_gov_trust_root a); text "--gov-revocation-list" (sa_gov_revocation_list a);
       text "--config" (sa_config a)]
  | RunGateway a =>
      [text "--db" (ga_db a); text "--policies" (ga_policies a); text "--principal-id" (ga_principal_id a);
       text "--principal-kind" (Some (ga_principal_kind a)); text "--privacy-tier" (Some (ga_privacy_tier a));
       text "--source-id" (ga_source_id a); text "--gov-trust-root" (ga_gov_trust_root a);
       text "--gov-revocation-list" (ga_gov_revocation_list a); text "--config" (ga_config a)]
  | IngestOpenapi a =>
      [needed "--spec" (oa_spec a); needed "--source" (oa_source a); text "--tier" (Some (oa_tier a));
       text "--db" (oa_db a); text "--gov-trust-root" (oa_gov_trust_root a);
       text "--gov-revocation-list" (oa_gov_revocation_list a); text "--config" (oa_config a)]
  | VerifyAudit d c json => [text "--db" d; text "--config" c; flag "--json" json]
  | Drift d c source_id json => [text "--db" d; needed "--source" source_id; text "--config" c; flag "--json" json]
  | Backup d out c => [text "--db" d; text "--out" out; text "--config" c]
  | Audit d c kind limit json =>
      [text "--db" d; text "--kind" kind; int "--limit" (Some limit); text "--config" c; flag "--json" json]
  end.

Definition settings (t : list (argument * option string)) : list (argument * string) :=
  omap (λ e, (e.1,.) <$> e.2) t.

Definition command_name (c : command) : string :=
  match c with
  | Version => "version" | InitDb _ _ => "init-db" | Serve _ => "serve" | RunGateway _ => "gateway"
  | IngestOpenapi _ => "ingest-openapi" | VerifyAudit _ _ _ => "verify-audit" | Drift _ _ _ _ => "drift"
  | Backup _ _ _ => "backup" | Audit _ _ _ _ _ => "audit"
  end.

(** What follows the options. *)
Definition downstream_of (c : command) : list string := match c with RunGateway a => ga_downstream a | _ => [] end.

Definition not_dashed (v : string) : Prop := match v with String "-" _ => False | _ => True end.

(** The spellings of a setting: joined by an equals sign, apart, or a switch. *)
Inductive spelled : argument * string → list string → Prop :=
| spelled_joined a v : is_Some (converts a) → v ≠ "--" → spelled (a, v) [name a +:+ "=" +:+ v]
| spelled_apart a v : is_Some (converts a) → not_dashed v → spelled (a, v) [name a; v]
| spelled_switch a : converts a = None → spelled (a, "") [name a].

(** A downstream command follows its [--]. *)
Definition separated (c : command) : Prop :=
  match downstream_of c with [] => True | first :: _ => first = "--" end.

(** ** Reading settings *)

Definition accepts (e : argument * string) : Prop := match converts e.1 with Some ok => ok e.2 = true | None => e.2 = "" end.

Definition stored (l : list (argument * string)) (ns : namespace) : namespace :=
  foldl (λ ns e, <[name e.1 := e.2]> ns) ns l.

(** An option's name: dashes, a letter, no equals sign, and not that of another action. *)
Definition option_name (s : string) : bool :=
  match s with String "-" (String "-" (String _ _)) => negb (string_has "=" s) | _ => false end.
Definition good_parser (p : parser) : Prop :=
  NoDup (name <$> arguments p) ∧ Forall (λ a, option_name (name a) = true ∧ name a ≠ "--help") (arguments p).

Lemma find_option_arguments l a :
  NoDup (name <$> l) → a ∈ l → find_option (name a) ((λ a, (name a, Store a)) <$> l) = Some (Store a).
Proof.
  induction l as [|b l IH]; simpl; [by intros _ ?%elem_of_nil|].
  intros [Hb Hnd]%NoDup_cons [-> | Ha]%elem_of_cons; [by rewrite decide_True|].
  rewrite decide_False; [by apply IH|]. intros He. apply Hb. rewrite <- He. by apply list_elem_of_fmap_2.
Qed.

Lemma find_option_no s l : Forall (λ o, o.1 ≠ s) l → find_option s l = None.
Proof. induction 1 as [|[s' x] l Hs _ IH]; simpl; [done|]. by rewrite decide_False. Qed.

Lemma find_option_own p a : good_parser p → a ∈ arguments p → find_option (name a) (option_strings p) = Some (Store a).
Proof.
  intros [Hnd Hall] Ha. rewrite Forall_forall in Hall. destruct (Hall a Ha) as [Hn Hh]. cbn.
  rewrite decide_False by (intros He; by rewrite He in Hn). rewrite decide_False by done. by apply find_option_arguments.
Qed.

Lemma string_has_app c s t : string_has c (s +:+ t) = string_has c s || string_has c t.
Proof. induction s as [|x s IH]; [done|]. rewrite sapp_cons. simpl. by rewrite IH, orb_assoc. Qed.

Lemma find_option_equals p s : good_parser p → string_has "=" s = true → find_option s (option_strings p) = None.
Proof.
  intros [_ Hall] Hs. apply find_option_no. repeat constructor; cbn; [by intros <-..|].
  apply Forall_fmap. eapply Forall_impl; [exact Hall|]. cbn. intros a [Hn _] <-.
  unfold option_name in Hn. repeat case_match; try done. by rewrite Hs in Hn.
Qed.

Lemma option_name_dashes s : option_name s = true → ∃ rest, s = String "-" rest ∧ rest ≠ "" ∧ string_has "=" s = false.
Proof.
  unfold option_name. intros H. repeat case_match; try done. eexists; split_and!; [done|done|by apply negb_true_iff].
Qed.

Lemma parse_optional_name p a :
  good_parser p → a ∈ arguments p → _parse_optional p (name a) = Parsed (Some (Some (Store a), None)).
Proof.
  intros Hp Ha. pose proof (find_option_own p a Hp Ha) as Hf. destruct Hp as [_ Hall]. rewrite Forall_forall in Hall.
  destruct (option_name_dashes _ (proj1 (Hall a Ha))) as (rest & He & Hr & _).
  rewrite He in *. unfold _parse_optional. by rewrite Hf.
Qed.

Lemma parse_optional_joined p a v :
  good_parser p → a ∈ arguments p →
  _parse_optional p (name a +:+ "=" +:+ v) = Parsed (Some (Some (Store a), Some v)).
Proof.
  intros Hp Ha. pose proof (find_option_own p a Hp Ha) as Hf.
  assert (find_option (name a +:+ "=" +:+ v) (option_strings p) = None) as Hn.
  { apply find_option_equals; [done|]. rewrite !string_has_app. cbn. by rewrite orb_true_r. }
  destruct Hp as [_ Hall]. rewrite Forall_forall in Hall.
  destruct (option_name_dashes _ (proj1 (Hall a Ha))) as (rest & He & Hr & Hq).
  assert (partition "=" (name a +:+ "=" +:+ v) = (name a, true, v)) as Hpart.
  { rewrite partition_app by done. change ("=" +:+ v) with (String "=" v). simpl. by rewrite sapp_nil_r. }
  revert Hn Hpart. rewrite He in *. rewrite sapp_cons. intros Hn Hpart. unfold _parse_optional.
  rewrite Hn, Hpart, Hf. rewrite decide_False; [done|]. by destruct rest.
Qed.

Lemma parse_optional_plain p v : not_dashed v → _parse_optional p v = Parsed None.
Proof. unfold not_dashed, _parse_optional. intros H. repeat case_match; done. Qed.

(** What one spelled setting is classified as, and what consuming it does. *)
Definition read_as (p : parser) (e : argument * string) (toks : list string) : Prop :=
  ∃ items, (∀ rest, classify p (toks ++ rest) = (items ++.) <$> classify p rest) ∧
  ∀ rest ns, consume p (items ++ rest) ns = consume p rest (<[name e.1 := e.2]> ns).

Lemma fmap_parsing_bind {A B C} (m : parsing A) (f : A → parsing B) (g : B → C) :
  g <$> (m ≫= f) = m ≫= (λ a, g <$> f a).
Proof. by destruct m. Qed.

Lemma spelled_read p e toks : good_parser p → e.1 ∈ arguments p → accepts e → spelled e toks → read_as p e toks.
Proof.
  intros Hp Ha Hok Hs.
  assert (∀ s rest, (s ≠ "--") → classify p (s :: rest) =
    (t ← _parse_optional p s; items ← classify p rest;
     Parsed (match t with Some t => Opt s t | None => Arg s end :: items))) as Hcl.
  { intros s rest Hne. cbn. by rewrite decide_False. }
  assert (∀ a, a ∈ arguments p → name a ≠ "--") as Hnd.
  { intros a Hin. destruct Hp as [_ Hall]. rewrite Forall_forall in Hall. intros E. destruct (Hall a Hin) as [Hn _].
    by rewrite E in Hn. }
  destruct Hs as [a v [ok Hc] _|a v [ok Hc] Hv|a Hc]; cbn in Ha; unfold accepts in Hok; cbn in Hok; rewrite Hc in Hok.
  - exists [Opt (name a +:+ "=" +:+ v) (Some (Store a), Some v)]. split.
    + intros rest. cbn [app]. rewrite Hcl; [by rewrite parse_optional_joined|].
      intros E. pose proof (string_has_app "=" (name a) ("=" +:+ v)) as Hh. rewrite E, string_has_app in Hh. cbn in Hh.
      by rewrite orb_true_r in Hh.
    + intros rest ns. cbn. rewrite Hc. unfold store. by rewrite Hc, Hok.
  - exists [Opt (name a) (Some (Store a), None); Arg v]. split.
    + intros rest. cbn [app]. rewrite Hcl by auto. rewrite parse_optional_name by done. cbn [mbind parsing_bind].
      rewrite Hcl; [|by intros ->]. rewrite parse_optional_plain by done. cbn. by destruct (classify p rest).
    + intros rest ns. cbn. rewrite Hc. unfold store. by rewrite Hc, Hok.
  - exists [Opt (name a) (Some (Store a), None)]. split.
    + intros rest. cbn [app]. rewrite Hcl by auto. by rewrite parse_optional_name.
    + intros rest ns. cbn. rewrite Hc. unfold store. by rewrite Hc.
Qed.

Lemma spelled_all_read p l toks :
  good_parser p → Forall (λ e, e.1 ∈ arguments p ∧ accepts e) l → Forall2 spelled l toks →
  ∃ items, (∀ rest, classify p (concat toks ++ rest) = (items ++.) <$> classify p rest) ∧
  ∀ rest ns, consume p (items ++ rest) ns = consume p rest (stored l ns).
Proof.
  intros Hp Hall Hs. induction Hs as [|e t l toks He _ IH]; [exists []; split; [|done]|].
  { intros rest. cbn. by destruct (classify p rest). }
  inversion_clear Hall as [|? ? [Hin Hok] Hall'].
  destruct (spelled_read p e t Hp Hin Hok He) as (i1 & Hc1 & Hk1). destruct (IH Hall') as (i2 & Hc2 & Hk2).
  exists (i1 ++ i2). split.
  - intros rest. cbn. rewrite <- app_assoc, Hc1, Hc2. destruct (classify p rest); cbn; [done|]. by rewrite app_assoc.
  - intros rest ns. by rewrite <- app_assoc, Hk1, Hk2.
Qed.

Lemma stored_other l n : ∀ ns, n ∉ (λ e, name e.1) <$> l → stored l ns !! n = ns !! n.
Proof.
  induction l as [|e l IH]; intros ns Hn; [done|]. rewrite fmap_cons, not_elem_of_cons in Hn. destruct Hn as [Hne Hn].
  change (stored (e :: l) ns) with (stored l (<[name e.1 := e.2]> ns)). rewrite (IH _ Hn). by apply lookup_insert_ne.
Qed.

Lemma NoDup_fmap_same {A B} (f : A → B) l x y : NoDup (f <$> l) → x ∈ l → y ∈ l → f x = f y → x = y.
Proof.
  induction l as [|z l IH]; [by intros _ ?%elem_of_nil|]. rewrite fmap_cons.
  intros [Hz Hnd]%NoDup_cons [-> |Hx]%elem_of_cons [-> |Hy]%elem_of_cons Hf; [done|..|by apply IH];
    exfalso; apply Hz; [rewrite Hf|rewrite <- Hf]; by apply list_elem_of_fmap_2.
Qed.

Lemma stored_lookup l e : ∀ ns, NoDup ((λ e, name e.1) <$> l) → e ∈ l → stored l ns !! name e.1 = Some e.2.
Proof.
  induction l as [|e' l IH]; intros ns Hnd Hin; [by apply elem_of_nil in Hin|].
  apply NoDup_cons in Hnd as [Hn Hnd]. apply elem_of_cons in Hin as [-> |Hin]; [|by apply IH].
  change (stored (e' :: l) ns) with (stored l (<[name e'.1 := e'.2]> ns)). rewrite stored_other by done.
  apply lookup_insert_eq.
Qed.

Lemma settings_names t : sublist ((λ e, name e.1) <$> settings t) ((λ e, name e.1) <$> t).
Proof. induction t as [|[a [v|]] t IH]; cbn; by constructor. Qed.

Lemma elem_of_settings t a v : (a, v) ∈ settings t ↔ (a, Some v) ∈ t.
Proof.
  unfold settings. rewrite list_elem_of_omap. split.
  - intros ([a' [w|]] & Hin & H); [|done]. by injection H as <- <-.
  - intros Hin. by exists (a, Some v).
Qed.

Lemma stored_settings t l e :
  NoDup ((λ e, name e.1) <$> t) → settings t ≡ₚ l → e ∈ t → stored l ∅ !! name e.1 = e.2.
Proof.
  intros Hnd Hl Hin.
  assert (NoDup ((λ e, name e.1) <$> l)) as Hndl.
  { rewrite <- Hl. eapply sublist_NoDup; [exact Hnd|apply settings_names]. }
  destruct e as [a [v|]]; cbn.
  - apply (stored_lookup l (a, v)); [done|]. rewrite <- Hl. by apply elem_of_settings.
  - rewrite stored_other; [apply lookup_empty|]. rewrite <- Hl. rewrite list_elem_of_fmap. intros ([b w] & Hn & Hb).
    apply elem_of_settings in Hb. cbn in Hn.
    assert ((a, None) = (b, Some w)) as [=].
    by apply (NoDup_fmap_same _ t _ _ Hnd).
Qed.

(** ** The command line *)

Lemma tuples_top d rest : (length (_get_option_tuples top (String "-" (String d rest))) ≤ 1)%nat.
Proof.
  unfold _get_option_tuples. destruct (decide (d = "-"%char)) as [-> |Hd].
  - assert (startswith (partition "=" (String "-" (String "-" rest))).1.1 "-h" = false) as Hb.
    { simpl. by destruct (partition "=" rest) as [[b f] v]. }
    destruct (partition _ _) as [[before found] value]. cbn [fst] in Hb. cbn -[startswith]. rewrite Hb. case_match; cbn; lia.
  - assert (startswith (String "-" (String d rest)) "--help" = false) as Hb.
    { apply bool_decide_false. simpl. rewrite decide_False by congruence. by intros [? [=]]. }
    cbn -[startswith partition]. rewrite Hb. repeat (case_match; cbn; try lia; try congruence).
Qed.

Lemma parse_optional_top s : ∃ t, _parse_optional top s = Parsed t.
Proof.
  unfold _parse_optional. destruct s as [|c rest]; [by eexists|].
  destruct (decide (c = "-"%char)) as [-> |Hc]; [|by (repeat case_match; try congruence; exists None)].
  destruct (find_option (String "-" rest) (option_strings top)); [by eexists|]. destruct (decide (rest = "")) as [-> |Hr]; [by eexists|].
  destruct (partition "=" (String "-" rest)) as [[before found] value].
  destruct (if found then find_option before (option_strings top) else None); [by eexists|].
  destruct rest as [|d rest]; [done|]. pose proof (tuples_top d rest) as Hl.
  destruct (_get_option_tuples top _) as [|t [|t' l]]; cbn in Hl; [case_match; by eexists|by eexists|lia].
Qed.

Lemma classify_top argv : ∃ items, classify top argv = Parsed items ∧ text_of_item <$> items = argv.
Proof.
  induction argv as [|s argv (items & IH & Ht)]; [by exists []|]. cbn. case_decide as Hs.
  - eexists; split; [done|]. cbn. rewrite <- list_fmap_compose, Hs. f_equal. by rewrite list_fmap_id.
  - destruct (parse_optional_top s) as [t ->]. cbn. rewrite IH. cbn. eexists; split; [done|].
    destruct t; cbn; by rewrite Ht.
Qed.

(** After a subcommand's name, its own parser reads the rest. *)
Lemma parse_args_subcommand n rest :
  not_dashed n →
  parse_args (n :: rest) =
    match subcommand n with
    | Some (p, func) => k ← parse_known_args p rest; if decide (extras k = []) then Parsed (func k) else usage_error
    | None => usage_error
    end.
Proof.
  intros Hn. unfold parse_args, parse_known_args. destruct (classify_top rest) as (items & Hc & Ht). cbn [classify].
  rewrite decide_False by (by intros ->). rewrite parse_optional_plain by done. cbn [mbind parsing_bind].
  rewrite Hc. cbn. by rewrite Ht.
Qed.

(** What is set fits a parser. *)
Record fits (p : parser) (t : list (argument * option string)) : Prop := mkFits {
  fits_once : NoDup ((λ e, name e.1) <$> t);
  fits_each : Forall (λ e, e.1 ∈ arguments p ∧ ∀ v, e.2 = Some v → accepts (e.1, v)) t;
  fits_required : Forall (λ a, required a = true → ∃ v, (a, Some v) ∈ t) (arguments p);
}.

Lemma parse_known_written p t l toks tail :
  good_parser p → fits p t → settings t ≡ₚ l → Forall2 spelled l toks →
  tail = [] ∨ positionals p = Remainder ∧ head tail = Some "--" →
  parse_known_args p (concat toks ++ tail) =
    Parsed (mkKnown (stored l ∅) [] (match positionals p with Remainder => Some tail | _ => None end)).
Proof.
  intros Hp [Hnd Heach Hreq] Hl Hs Htail. rewrite Forall_forall in Heach.
  assert (Forall (λ e, e.1 ∈ arguments p ∧ accepts e) l) as Hall.
  { apply Forall_forall. intros [a v] Hin. rewrite <- Hl in Hin. apply elem_of_settings, Heach in Hin.
    destruct Hin as [Hin Hok]. split; [done|by apply Hok]. }
  destruct (spelled_all_read p l toks Hp Hall Hs) as (items & Hc & Hk).
  assert (∃ more, classify p tail = Parsed more ∧ consume p more (stored l ∅) =
    Parsed (mkKnown (stored l ∅) [] (match positionals p with Remainder => Some tail | _ => None end))) as (more & Hm & Hd).
  { destruct Htail as [-> |[Hr Hh]]; [exists []; split; [done|]; cbn; by destruct (positionals p)|].
    destruct tail as [|first tail]; [done|]. injection Hh as ->. eexists; split; [done|]. cbn. rewrite Hr.
    cbn. by rewrite <- list_fmap_compose, list_fmap_id. }
  assert (forallb (λ a, negb (required a) || bool_decide (is_Some (stored l ∅ !! name a))) (arguments p) = true) as Hgiven.
  { apply forallb_forall. intros a Ha. apply list_elem_of_In in Ha. rewrite Forall_forall in Hreq.
    destruct (required a) eqn:Hq; [|done]. destruct (Hreq a Ha Hq) as [v Hv]. apply bool_decide_true.
    exists v. exact (stored_settings t l (a, Some v) Hnd Hl Hv). }
  unfold parse_known_args. rewrite Hc, Hm. cbn [fmap parsing_fmap mbind parsing_bind]. rewrite Hk, Hd.
  cbn [mbind parsing_bind values]. by rewrite Hgiven.
Qed.

Definition parser_of (c : command) : parser :=
  match c with
  | Version => p_version | InitDb _ _ => p_init | Serve _ => p_serve | RunGateway _ => p_gateway
  | IngestOpenapi _ => p_ingest_oa | VerifyAudit _ _ _ => p_verify | Drift _ _ _ _ => p_drift
  | Backup _ _ _ => p_backup | Audit _ _ _ _ _ => p_audit
  end.

Lemma good_parsers c : good_parser (parser_of c).
Proof.
  split.
  - destruct c; (apply (bool_decide_unpack _); reflexivity).
  - destruct c; repeat constructor; done.
Qed.

Lemma accepts_text n v : accepts (text_option n, v).
Proof. done. Qed.
Lemma accepts_needed n v : accepts (needed_option n, v).
Proof. done. Qed.
Lemma accepts_int n o v : string_of_Z <$> o = Some v → accepts (int_option n, v).
Proof. destruct o as [z|]; intros [= <-]. unfold accepts; cbn. unfold int_text. by rewrite py_int_of_Z. Qed.
Lemma accepts_flag n (b : bool) v : (if b then Some "" else None) = Some v → accepts (flag_option n, v).
Proof. destruct b; by intros [= <-]. Qed.

Ltac solve_member := cbn -[elem_of]; rewrite ?elem_of_cons; tauto.

Lemma table_fits c : fits (parser_of c) (table c).
Proof.
  split.
  - destruct c; (apply (bool_decide_unpack _); reflexivity).
  - destruct c; repeat (apply Forall_cons; split; [split; [solve_member|cbn [fst snd]]|]); try apply Forall_nil_2;
      eauto using accepts_text, accepts_needed, accepts_int, accepts_flag.
  - destruct c; repeat constructor; intros [=]; eexists; solve_member.
Qed.

Lemma int_read (o : option Z) :
  match string_of_Z <$> o with
  | Some t => match py_int t with Ok z => Some z | Raise _ => None end
  | None => None
  end = o.
Proof. destruct o as [z|]; [|done]. cbn [fmap option_fmap option_map]. by rewrite py_int_of_Z. Qed.

(** What [args] holds when every setting of a command is in the namespace. *)
Lemma args_of_table c ns taken_ :
  Forall (λ e, ns !! name e.1 = e.2) (table c) →
  taken_ = match c with RunGateway a => Some (ga_downstream a) | _ => None end →
  ∃ func, subcommand (command_name c) = Some (parser_of c, func) ∧ func (mkKnown ns [] taken_) = c.
Proof.
  intros Hns ->. destruct c; eexists; (split; [reflexivity|]); cbn [table] in Hns;
    repeat (apply Forall_cons in Hns as [?H Hns]); cbn [fst snd name text_option needed_option int_option flag_option] in *;
    unfold args_serve, args_gateway, args_openapi, args_drift, args_audit, text_of, int_value, given; cbn [values taken];
    repeat match goal with H : ns !! _ = _ |- _ => rewrite H; clear H end.
  all: rewrite ?int_read; try done; try (by destruct args).
  all: try rewrite (int_read (Some limit)); by destruct json.
Qed.

(** C33 -- A command is reached by writing it down: its name, then everything that is set in
    any order and in either spelling, then for the gateway the downstream command behind its
    [--].  It is read back exactly, integers and defaults included. *)
Theorem written_command_is_read c l toks :
  separated c → settings (table c) ≡ₚ l → Forall2 spelled l toks →
  parse_args (command_name c :: concat toks ++ downstream_of c) = Parsed c.
Proof.
  intros Hsep Hl Hs. pose proof (table_fits c) as Hfit.
  set (taken_ := match c with RunGateway a => Some (ga_downstream a) | _ => None end).
  destruct (args_of_table c (stored l ∅) taken_) as (func & Hsub & Hf); [|done|].
  { apply Forall_forall. intros e He. eapply stored_settings; [apply Hfit|done..]. }
  rewrite parse_args_subcommand by (by destruct c). rewrite Hsub.
  rewrite (parse_known_written _ _ l toks _ (good_parsers c) Hfit Hl Hs).
  - cbn [mbind parsing_bind extras]. rewrite decide_True by done. f_equal. transitivity (func (mkKnown (stored l ∅) [] taken_)); [|exact Hf].
    f_equal. f_equal. by destruct c.
  - unfold separated in Hsep. destruct (downstream_of c) as [|first rest] eqn:Hd; [by left|right].
    destruct c; try done. split; [done|]. cbn in Hsep. by rewrite Hsep.
Qed.

(** A gateway command with options in another order, in both spellings. *)
Definition sample_gateway : command :=
  RunGateway (mkGatewayArgs (Some "/db") (Some "p.cedar") (Some "a-1") "agent" "local" (Some "-odd") None None None
    ["--"; "server"; "--db"; "x"]).
Definition sample_writing : list string :=
  ["--source-id=-odd"; "--db"; "/db"; "--principal-id"; "a-1"; "--privacy-tier=local"; "--principal-kind"; "agent";
   "--policies=p.cedar"].

Lemma written_command_is_read_witness :
  parse_args ("gateway" :: sample_writing ++ ["--"; "server"; "--db"; "x"]) = Parsed sample_gateway.
Proof.
  apply (written_command_is_read sample_gateway
    [(text_option "--source-id", "-odd"); (text_option "--db", "/db"); (text_option "--principal-id", "a-1");
     (text_option "--privacy-tier", "local"); (text_option "--principal-kind", "agent"); (text_option "--policies", "p.cedar")]
    [["--source-id=-odd"]; ["--db"; "/db"]; ["--principal-id"; "a-1"]; ["--privacy-tier=local"];
     ["--principal-kind"; "agent"]; ["--policies=p.cedar"]]).
  - reflexivity.
  - cbn. solve_Permutation.
  - repeat constructor; (done || by eexists).
Defined.
