(* ===== verification/CliRuns.v ===== *)
(** The command line's guarantees: what any history of commands keeps on disk, restarts
    included; that no server and no gateway runs without its policies, its token and the
    governance evidence it was given; what the exit codes mean. *)

From S2P Require Import Prelude PyJson PyJsonLoads PyStr PyColl PyEq PyIo DateTime Descriptor Catalog Policy.
From S2P Require Import Sha256 Db AuditLog Migrate Grants Hydrate Store BusPublish GovGrants McpSource Service ServiceRuns.
From S2P Require Import RateLimiter Gateway GatewayRuns Server ServerRuns OpenApi OpenApiRuns Cli.

(** ** Sessions *)

(** A session of the gateway only adds to what is on file. *)
Section session.
Context {rt : PyFloatRuntime} {dt : PyDatetime} {utf8 : Utf8} {crypto : Cryptography}
  {engine : PolicyEngine} {processes : Processes} {endpoint : BusEndpoint} (gc : gateway).

Definition gw_grows {A} (m : gwm A) : Prop := ∀ o g, grows (g_db g) (g_db (m o g).2).

Lemma gw_grows_quiet {A} (m : gwm A) : quiet_op m → gw_grows m.
Proof. intros H o g. apply (H o g). Qed.
Lemma gw_grows_bind {A B} (m : gwm A) (k : A → gwm B) : gw_grows m → (∀ a, gw_grows (k a)) → gw_grows (m ≫= k).
Proof.
  intros Hm Hk o g. unfold mbind, gwm_bind. specialize (Hm o g). destruct (m o g) as [[a|e] g1]; [|done].
  transitivity (g_db g1); [done|apply Hk].
Qed.
Lemma gw_grows_attempt {A} (m : gwm A) : gw_grows m → gw_grows (attempt m).
Proof. intros Hm o g. unfold attempt. specialize (Hm o g). by destruct (m o g). Qed.
Lemma gw_grows_link {A} (m : st link A) : gw_grows (on_link m).
Proof. intros o g. unfold on_link. by destruct (m (g_link g)). Qed.
Lemma gw_grows_service {A} (m : svc A) : (∀ o w, grows (w_db w) (w_db (m o w).2)) → gw_grows (on_service m).
Proof. intros Hm o g. unfold on_service. specialize (Hm o (g_world g)). by destruct (m o (g_world g)). Qed.

Lemma gw_grows_forward id name args did gid : gw_grows (forward_call gc id name args did gid).
Proof.
  apply gw_grows_bind; [apply gw_grows_attempt, gw_grows_link|intros r].
  apply gw_grows_quiet. repeat case_match; eauto 10 with quiet.
Qed.

Lemma gw_grows_redeem id name args did gid : gw_grows (redeem_and_forward gc id name args did gid).
Proof.
  apply gw_grows_bind; [apply gw_grows_quiet; eauto with quiet|intros [pl|e]; [|apply gw_grows_quiet; eauto with quiet]].
  apply gw_grows_bind; [apply gw_grows_quiet; eauto with quiet|intros v].
  destruct (negb (py_truthy v)); [apply gw_grows_quiet; eauto with quiet|apply gw_grows_forward].
Qed.

Lemma gw_grows_governed id name args : gw_grows (governed_call gc id name args).
Proof.
  apply gw_grows_bind; [apply gw_grows_attempt, gw_grows_service; intros o w; apply authorize_grows|].
  intros [pl|e]; [|apply gw_grows_quiet; eauto with quiet].
  apply gw_grows_bind; [apply gw_grows_quiet; eauto with quiet|intros v].
  destruct (negb (py_truthy v)); [apply gw_grows_quiet; eauto 10 with quiet|].
  case_decide; [apply gw_grows_quiet; eauto with quiet|].
  apply gw_grows_bind; [apply gw_grows_quiet; eauto with quiet|intros gid].
  apply gw_grows_bind; [apply gw_grows_quiet; eauto with quiet|intros did]. apply gw_grows_redeem.
Qed.

Lemma gw_grows_request id method params : gw_grows (_dispatch_request gc id method params).
Proof.
  unfold _dispatch_request. repeat case_decide; try (apply gw_grows_quiet; by eauto with quiet).
  unfold _handle_tools_call. repeat case_match; first [apply gw_grows_governed|apply gw_grows_quiet; eauto with quiet].
Qed.

Lemma gw_grows_line line : gw_grows (_handle_line gc line).
Proof.
  assert (∀ msg method params, gw_grows (dispatch gc msg method params)) as Hd.
  { intros msg method params. apply gw_grows_bind; [|intros r; apply gw_grows_quiet; eauto with quiet].
    apply gw_grows_attempt. destruct (dhas "id" msg); [apply gw_grows_request|]. apply gw_grows_quiet; eauto with quiet. }
  assert (∀ m : gwm unit, quiet_op m → gw_grows m) as Hq by (intros m; apply gw_grows_quiet).
  unfold _handle_line, handle_message. repeat case_match; try apply Hd; apply Hq; eauto with quiet.
Qed.

Lemma session_grows input : gw_grows (session gc input).
Proof.
  unfold session. generalize (S (String.length input)) as fuel. intros fuel. revert input.
  induction fuel as [|fuel IH]; intros input; [by intros o g|]. simpl.
  destruct (readline _ input) as [line rest]. case_decide; [by intros o g|]. destruct (_ && _).
  - apply gw_grows_bind; [|intros _; apply IH]. apply gw_grows_quiet; eauto with quiet.
  - case_decide; [apply IH|]. apply gw_grows_bind; [apply gw_grows_attempt, gw_grows_line|intros _; apply IH].
Qed.
End session.

(** A history of requests only adds to what is on file. *)
Section http.
Context {rt : PyFloatRuntime} {dt : PyDatetime} {utf8 : Utf8} {crypto : Cryptography}
  {engine : PolicyEngine} {processes : Processes} {endpoint : BusEndpoint} (sv : server).

Lemma perform_grows cfg c o w : grows (w_db w) (w_db (perform cfg c o w).2).
Proof.
  destruct (perform_kept cfg c o w) as [Hk|(d1 & Hm & Hk)]; [by apply kept_grows|].
  transitivity d1; [by apply may_issue_grows|by apply kept_grows].
Qed.

Lemma routed_grows rq o w r w' : routed sv rq o w r w' → grows (w_db w) (w_db w').
Proof. intros [e|r' w1 _ Hk|call _]; [done|by apply kept_grows|apply perform_grows]. Qed.

Lemma serve_http_grows rqs o : ∀ w l, grows (w_db w) (w_db (serve_http sv rqs o w l).2).
Proof.
  induction rqs as [|[rq input] rqs IH]; intros w l; simpl; [done|].
  destruct (exchange_run sv rq o (mkConn w l input false []) eq_refl) as (result & Hr & _).
  set (c := (_dispatch sv rq o _).2) in *. specialize (IH (h_world c) (h_limiter c)).
  destruct (serve_http sv rqs o _ _) as [outs w']. transitivity (w_db (h_world c)); [by eapply routed_grows|done].
Qed.
End http.

(** ** Commands *)

Section cli.
Context {rt : PyFloatRuntime} {dt : PyDatetime} {utf8 : Utf8} {crypto : Cryptography}
  {ce : Cedar} {parser : CedarParser} {processes : Processes} {endpoint : BusEndpoint}.

(** The rows of a database on disk. *)
Definition rows_at (p : string) (h : host) : db := f_rows (file_at p h).

Lemma file_put p q f h :
  file_at p (put_file q f h) = if decide (p = q ∧ q ≠ memory) then f else file_at p h.
Proof.
  unfold file_at, put_file. destruct (decide (q = memory)) as [->|Hq].
  - rewrite (decide_False (P := p = memory ∧ memory ≠ memory)) by (by intros [_ []]). done.
  - destruct (decide (p = q ∧ q ≠ memory)) as [[-> _]|Hpq]; simpl.
    + by rewrite decide_False, lookup_insert_eq by done.
    + case_decide; [done|]. rewrite lookup_insert_ne; [done|]. intros ->. by apply Hpq.
Qed.

(** What a step does to the database at [p], from and to what is known of the disk. *)
Definition only_grows {A} (p : string) (P : host → Prop) (m : cli A) (Q : A → host → Prop) : Prop :=
  ∀ h, P h → let '(r, h') := m h in
    grows (rows_at p h) (rows_at p h') ∧ match r with Ok a => Q a h' | Raise _ => True end.

(** The file of an open store is the one on disk. *)
Definition holds (path : string) (f : store_file) (h : host) : Prop := path = memory ∨ file_at path h = f.
Definition anywhere : host → Prop := λ _, True.

Lemma og_bind {A B} p P Q R (m : cli A) (k : A → cli B) :
  only_grows p P m Q → (∀ a, only_grows p (Q a) (k a) R) → only_grows p P (m ≫= k) R.
Proof.
  intros Hm Hk h Hh. cbv [mbind st_bind]. specialize (Hm h Hh). destruct (m h) as [[a|e] h1]; [|by destruct Hm].
  destruct Hm as [Hg Ha]. specialize (Hk a h1 Ha). destruct (k a h1) as [r h2].
  destruct Hk as [Hg2 Hr]. split; [by transitivity (rows_at p h1)|done].
Qed.

Lemma og_ret {A} p P (a : A) : only_grows p P (mret a) (λ _, anywhere).
Proof. intros h _. by split. Qed.
Lemma og_lift {A} p P (r : res A) : only_grows p P (st_lift r) (λ _, P).
Proof. intros h Hh. by destruct r. Qed.
Lemma og_exit {A} p P message Q : only_grows p P (exit (A := A) message) Q.
Proof. intros h _. by split. Qed.

(** Output leaves the disk alone. *)
Definition about_disk (P : host → Prop) : Prop := ∀ h h', databases h = databases h' → P h → P h'.
Lemma holds_disk path f : about_disk (holds path f).
Proof. intros h h' E. unfold holds, file_at. by rewrite E. Qed.
Lemma anywhere_disk : about_disk anywhere.
Proof. done. Qed.

Lemma og_modify p P (g : host → host) :
  about_disk P → (∀ h, databases (g h) = databases h) → only_grows p P (st_modify g) (λ _, P).
Proof.
  intros HP Hg h Hh. cbn. split; [|by eapply HP; [symmetry; apply Hg|]].
  unfold rows_at, file_at. by rewrite Hg.
Qed.
Lemma og_print p P x : about_disk P → only_grows p P (print x) (λ _, P).
Proof. intros HP. by apply og_modify. Qed.
Lemma og_print_all p P l : about_disk P → only_grows p P (print_all l) (λ _, P).
Proof.
  intros HP. induction l as [|x l IH]; [by intros h Hh|]. simpl. eapply og_bind; [by apply og_print|]. by intros [].
Qed.

(** Writing back a file that grew. *)
Lemma put_grows p path f g h :
  holds path f h → grows (f_rows f) (f_rows g) → grows (rows_at p h) (rows_at p (put_file path g h)).
Proof.
  intros Hf Hg. unfold rows_at. rewrite file_put. case_decide as Hp; [|done]. destruct Hp as [-> Hne].
  destruct Hf as [->|Hf]; [done|]. by rewrite Hf.
Qed.

Lemma holds_put path f h : holds path f (put_file path f h).
Proof.
  unfold holds. rewrite file_put. destruct (decide (path = memory)) as [->|Hne]; [by left|].
  rewrite decide_True by done. by right.
Qed.

Lemma same_rows_grows f g : same_rows f g → grows (f_rows f) (f_rows g).
Proof.
  unfold same_rows. intros ->. apply kept_grows. split; simpl; try done; [by exists []; rewrite app_nil_r|].
  intros gid r H. exists r. split; [done|apply latched_refl].
Qed.

Section machine.
Context (m : machine).

Lemma og_open p path : only_grows p anywhere (SqliteStore m path) (holds path).
Proof.
  intros h _. unfold SqliteStore. pose proof (open_rows (m_opening m path) (file_at path h)) as Hr.
  destruct (open_store _ _) as [r f]. cbn in Hr. split; [|by destruct r; cbn; [apply holds_put|]].
  eapply put_grows; [by right|]. by apply same_rows_grows.
Qed.

Lemma og_store {A} p path f (body : act A) :
  act_keeps body → only_grows p (holds path f) (on_store m path f body) (λ _, anywhere).
Proof.
  intros Hb h Hh. unfold on_store. specialize (Hb (f_rows f) (m_oracle m) 0%nat I).
  destruct (body (m_oracle m) (mkSim (f_rows f) 0)) as [r s]. split; [|by destruct r].
  eapply put_grows; [done|]. by apply kept_grows.
Qed.

Lemma load_keeps : act_keeps load_catalog.
Proof. intros d. eapply outcome_mono; [apply load_catalog_outcome|]. by intros r d' [-> _]. Qed.

Lemma set_meta_keeps k v : act_keeps (set_meta k v).
Proof.
  intros d. unfold set_meta. step_outcome; [done|]. step_outcome; [done|]. split; simpl; try done; [by exists []; rewrite app_nil_r|].
  intros gid g H. exists g. split; [done|apply latched_refl].
Qed.

Lemma start_keeps service : act_keeps (start_service service).
Proof.
  apply act_bind_keeps; [apply load_keeps|intros c]. apply act_bind_keeps; [|intros _; eauto with keeps].
  destruct (gov_revocation_list service); eauto with keeps.
  apply act_bind_keeps; intros; apply set_meta_keeps.
Qed.

Lemma og_service p path f service :
  only_grows p (holds path f) (new_service m path f service) (λ w, holds path (with_rows f (w_db w))).
Proof.
  intros h Hh. unfold new_service. pose proof (start_keeps service (f_rows f) (m_oracle m) 0%nat I) as Hk.
  destruct (start_service _ _ _) as [r s]. split; [eapply put_grows; [done|by apply kept_grows]|].
  destruct r as [c|e]; cbn; [|done]. apply holds_put.
Qed.

Lemma og_run {A} p path f (body : world → res A * world) w :
  grows (w_db w) (w_db (body w).2) →
  only_grows p (holds path (with_rows f (w_db w))) (run_on path f body w) (λ _, anywhere).
Proof.
  intros Hb h Hh. unfold run_on. destruct (body w) as [r w']. split; [|by destruct r]. eapply put_grows; [done|]. done.
Qed.

Lemma serve_grows {engine : PolicyEngine} service host_ token rate w :
  grows (w_db w) (w_db (serve m service host_ token rate w).2).
Proof.
  unfold serve. destruct (make_server _ _ _ _) as [[sv l]|e]; [|done]. destruct (m_traffic m) as [rqs|e]; [|done].
  pose proof (serve_http_grows sv rqs (m_oracle m) w l) as H. by destruct (serve_http _ _ _ _ _).
Qed.

Lemma gateway_grows {engine : PolicyEngine} service principal sid command w :
  grows (w_db w) (w_db (run_gateway m service principal sid command w).2).
Proof.
  unfold run_gateway. unfold new_gateway. repeat case_decide; try done. destruct (m_spawn_fails m); [done|].
  set (gc := mkGateway _ _ _ _). set (g := mkGw _ _ _).
  pose proof (session_grows gc (m_stdin m) (m_oracle m) g) as Hs. unfold g_db in Hs. cbv zeta. cbn [snd].
  change w with (g_world g) at 1. exact Hs.
Qed.

Lemma push_grows {engine : PolicyEngine} args result o w :
  grows (w_db w) (w_db (register_and_push args result o w).2).
Proof.
  apply kept_grows. revert o w. change (svc_keeps (register_and_push args result)).
  apply svc_bind_keeps; [apply catalog_keeps|intros c]. apply svc_bind_keeps; [|intros _; apply ingest_payload_keeps].
  case_decide; [apply register_source_keeps|apply svc_ret_keeps].
Qed.

(** ** What a command keeps *)

(** A backup written over the database. *)
Definition writes_over (c : command) (p : string) : Prop :=
  match c with Backup _ out _ => m_expanduser m (default "" out) = p | _ => False end.

(** Composing a command's steps: its arguments, its database, its output. *)
Ltac og_step :=
  lazymatch goal with
  | |- only_grows _ _ (st_lift _ ≫= _) _ => eapply og_bind; [apply og_lift|intros ?]
  | |- only_grows _ _ (print _ ≫= _) _ =>
      eapply og_bind; [apply og_print; first [apply holds_disk|apply anywhere_disk]|intros ?]
  | |- only_grows _ _ (SqliteStore _ _ ≫= _) _ => eapply og_bind; [apply og_open|intros ?]
  | |- only_grows _ _ (new_service _ _ _ _ ≫= _) _ => eapply og_bind; [apply og_service|intros ?]
  | |- only_grows _ _ (mret _) _ => apply og_ret
  | |- only_grows _ _ (exit _) _ => apply og_exit
  | |- only_grows _ _ (if ?b then _ else _) _ => destruct b
  end.

Lemma verify_keeps : act_keeps verify.
Proof. apply act_bind_keeps; [apply select_keeps|intros v; apply lift_keeps]. Qed.

Lemma drift_keeps source_id : act_keeps (read_drift source_id).
Proof.
  apply act_bind_keeps; [apply load_keeps|intros c]. case_decide; [apply lift_keeps|].
  apply act_bind_keeps; [apply last_discovery_keeps|intros [[ds at_]|]]; [apply ret_keeps|apply lift_keeps].
Qed.

Lemma read_audit_act kind limit : act_keeps (read_audit kind limit).
Proof. apply act_bind_keeps; [apply select_keeps|intros rows; apply lift_keeps]. Qed.

Lemma serve_og p args : only_grows p anywhere (_cmd_serve m args) (λ _, anywhere).
Proof.
  unfold _cmd_serve. repeat og_step.
  eapply og_bind; [apply og_run, serve_grows|intros outs].
  eapply og_bind; [by apply og_modify|intros ?]. og_step.
Qed.

Lemma gateway_og p args : only_grows p anywhere (_cmd_gateway m args) (λ _, anywhere).
Proof.
  unfold _cmd_gateway. repeat (og_step || case_decide). 
  eapply og_bind; [apply og_run, gateway_grows|intros outs].
  eapply og_bind; [by apply og_modify|intros ?]. og_step.
Qed.

Lemma ingest_og p args : only_grows p anywhere (_cmd_ingest_openapi m args) (λ _, anywhere).
Proof.
  unfold _cmd_ingest_openapi. repeat og_step.
  eapply og_bind; [apply og_run, push_grows|intros out]. repeat og_step.
Qed.

(** A command that only reads its database. *)
Lemma reading_og {A B} p path f (body : act A) (k : A → cli B) :
  act_keeps body → (∀ a, only_grows p anywhere (k a) (λ _, anywhere)) →
  only_grows p (holds path f) (on_store m path f body ≫= k) (λ _, anywhere).
Proof. intros Hb Hk. eapply og_bind; [by apply og_store|exact Hk]. Qed.

Lemma command_og p c : ¬ writes_over c p → only_grows p anywhere (dispatch_command m c) (λ _, anywhere).
Proof.
  intros Hover. destruct c as [|d c|args|args|args|d c json|d c sid json|d out c|d c kind limit json]; cbn [dispatch_command].
  - unfold _cmd_version. repeat og_step.
  - unfold _cmd_init_db. repeat og_step. apply reading_og; [apply verify_keeps|intros v]. repeat og_step.
  - apply serve_og.
  - apply gateway_og.
  - apply ingest_og.
  - unfold _cmd_verify_audit. repeat og_step. apply reading_og; [apply verify_keeps|intros v]. repeat og_step.
  - unfold _cmd_drift. repeat og_step. apply reading_og; [apply drift_keeps|intros [r at_]].
    eapply (og_bind _ _ (λ _, anywhere)); [destruct json; [apply og_print|apply og_print_all]; done|intros ?]. repeat og_step.
  - unfold _cmd_backup. do 2 og_step. case_decide; [apply og_exit|]. og_step.
    eapply (og_bind _ _ (λ _, anywhere)); [|intros ?].
    { intros h Hh. unfold backup. destruct (m_backup_fails m); [done|]. split; [|done]. unfold rows_at.
      rewrite file_put, decide_False; [done|]. intros [-> _]. by apply Hover. }
    og_step. apply reading_og; [apply verify_keeps|intros v]. repeat og_step.
  - unfold _cmd_audit. repeat og_step. apply reading_og; [apply read_audit_act|intros rs].
    eapply (og_bind _ _ (λ _, anywhere)); [destruct json; [apply og_print|apply og_print_all]; done|intros ?]. repeat og_step.
Qed.

Lemma main_grows p c h : ¬ writes_over c p → grows (rows_at p h) (rows_at p (main m c h).2).
Proof.
  intros Hover. unfold main. pose proof (command_og p c Hover h I) as H.
  destruct (dispatch_command m c h) as [[z|e] h']; [apply H|]. destruct H as [Hg _]. by destruct e.
Qed.
End machine.

(** ** The life of a deployment *)

(** Commands one after the other, each on the machine as it then is. *)
Fixpoint lifetime (runs : list (machine * command)) (h : host) : host :=
  match runs with
  | [] => h
  | (m, c) :: runs' => lifetime runs' (main m c h).2
  end.

Lemma lifetime_grows p runs : Forall (λ mc, ¬ writes_over mc.1 mc.2 p) runs → ∀ h,
  grows (rows_at p h) (rows_at p (lifetime runs h)).
Proof.
  induction 1 as [|[m c] runs Hmc _ IH]; intros h; simpl; [done|].
  transitivity (rows_at p (main m c h).2); [by apply main_grows|apply IH].
Qed.

(** C4 -- Restarts keep the guarantees: over any sequence of commands, on any machine,
    with anything served and any failure, a database no backup is written over only
    extends its audit log, keeps every grant with its binding and its latches and every
    governance redemption, and gets no grant without its audited permit; so from a
    directory without that database, every grant that is ever on file has its permit. *)
Theorem deployment_keeps (runs : list (machine * command)) (h : host) (p : string) :
  Forall (λ mc, ¬ writes_over mc.1 mc.2 p) runs →
  let d := rows_at p h in let d' := rows_at p (lifetime runs h) in
  (∃ rows, audit_t d' = audit_t d ++ rows) ∧
  (∀ gid g, grants_t d !! gid = Some g → ∃ g', grants_t d' !! gid = Some g' ∧ latched g g') ∧
  (∀ gid r, redemptions_t d !! gid = Some r → redemptions_t d' !! gid = Some r) ∧
  (permitted d → permitted d') ∧ (databases h !! p = None → permitted d').
Proof.
  intros Hruns d d'. destruct (lifetime_grows p runs Hruns h) as [Hl Hg Hr Hp]. split_and!; try done.
  intros Hn. apply Hp. unfold rows_at, file_at. rewrite Hn.
  assert (permitted (f_rows new_file)) as He by (intros gid g; cbn; by rewrite lookup_empty). by case_decide.
Qed.
End cli.

(** ** What a command that finished did *)

Lemma cli_ok {A B} (m : cli A) (k : A → cli B) h b h' :
  (m ≫= k) h = (Ok b, h') → ∃ a h1, m h = (Ok a, h1) ∧ k a h1 = (Ok b, h').
Proof. cbv [mbind st_bind]. destruct (m h) as [[a|e] h1]; [|done]. intros H. by exists a, h1. Qed.

Lemma cli_raise {A B} (m : cli A) (k : A → cli B) h e h' :
  (m ≫= k) h = (Raise e, h') →
  m h = (Raise e, h') ∨ ∃ a h1, m h = (Ok a, h1) ∧ k a h1 = (Raise e, h').
Proof. cbv [mbind st_bind]. destruct (m h) as [[a|e'] h1]; intros H; [right; by exists a, h1|left; by injection H as -> ->]. Qed.

Lemma lift_ok {A} (r : res A) (h : host) a h' : st_lift r h = (Ok a, h') → r = Ok a ∧ h' = h.
Proof. by intros [= -> ->]. Qed.

Section exits.
Context {rt : PyFloatRuntime} {dt : PyDatetime} {utf8 : Utf8} {crypto : Cryptography}
  {ce : Cedar} {parser : CedarParser} {processes : Processes} {endpoint : BusEndpoint} (m : machine).

(** Peel the finished steps of a command off the front. *)
Ltac peel H :=
  lazymatch type of H with
  | (st_lift _ ≫= _) _ = (Ok _, _) =>
      let E := fresh "E" in apply cli_ok in H as (? & ? & [E ->]%lift_ok & H)
  | (_ ≫= _) _ = (Ok _, _) => let E := fresh "E" in apply cli_ok in H as (? & ? & E & H)
  end.

Lemma print_ok x h a h' : print x h = (Ok a, h') → databases h' = databases h ∧ http_out h' = http_out h.
Proof. by intros [= _ <-]. Qed.

Lemma open_ok path h f h' :
  SqliteStore m path h = (Ok f, h') →
  open_store (m_opening m path) (file_at path h) = (Ok tt, f) ∧ h' = put_file path f h.
Proof. unfold SqliteStore. destruct (open_store _ _) as [[[]|e] g]; [|done]. by intros [= -> <-]. Qed.

Lemma open_too_new path h e h' :
  SqliteStore m path h = (Raise e, h') → (open_store (m_opening m path) (file_at path h)).1 = Raise e.
Proof. unfold SqliteStore. destruct (open_store _ _) as [[[]|e'] g]; [done|]. by intros [= -> <-]. Qed.

Lemma store_ok {A} path f (body : act A) h a h' :
  on_store m path f body h = (Ok a, h') → (body (m_oracle m) (mkSim (f_rows f) 0)).1 = Ok a.
Proof. unfold on_store. destruct (body _ _) as [r s]. by intros [= -> _]. Qed.

Lemma run_on_ok {A} path f (body : world → res A * world) w h a h' :
  run_on path f body w h = (Ok a, h') → (body w).1 = Ok a.
Proof. unfold run_on. destruct (body w) as [r w']. by intros [= -> _]. Qed.

(** A command that finished: on its own, or refused a database of a newer version. *)
Lemma main_ok c h code h' :
  main m c h = (Ok code, h') →
  dispatch_command m c h = (Ok code, h') ∨
  code = 1 ∧ ∃ v s, dispatch_command m c h = (Raise (SchemaTooNewError v s), h').
Proof.
  unfold main. destruct (dispatch_command m c h) as [[z|e] h1]; [by left|].
  destruct e; intros H; try discriminate H. injection H as <- <-. right. split; [done|]. by eexists _, _.
Qed.

Lemma verify_run (d : db) v : (verify (m_oracle m) (mkSim d 0)).1 = Ok v → verify_chain d = Ok v.
Proof.
  unfold verify. cbv [mbind act_bind select sql lift]. cbn. by destruct (fault (m_oracle m) 0).
Qed.

(** ** [verify-audit] *)

Lemma verify_audit_ok d c json h code h' :
  _cmd_verify_audit m d c json h = (Ok code, h') →
  ∃ cfg path f v, _load_config m c = Ok cfg ∧ named_db m "verify-audit" (flag_or d (dget "db" cfg)) = Ok path ∧
    open_store (m_opening m path) (file_at path h) = (Ok tt, f) ∧
    verify_chain (f_rows f) = Ok v ∧ code = if AuditLog.ok v then 0 else 1.
Proof.
  unfold _cmd_verify_audit. intros H. do 5 peel H.
  match goal with E : SqliteStore _ _ _ = _ |- _ => apply open_ok in E as [Ho ->] end.
  match goal with E : on_store _ _ _ _ _ = _ |- _ => apply store_ok, verify_run in E end.
  injection H as <- _. by eexists _, _, _, _.
Qed.

(** Opening a current database changes nothing. *)
Lemma open_current fails f f' : openable 5 f → open_store fails f = (Ok tt, f') → f' = f.
Proof.
  intros Hf. unfold open_store, with_conn. rewrite (open_body_script (Some 5)) by done.
  destruct (execute_all (script (Some 5)) fails (mkConnection f None 0)) as [[[]|e] c] eqn:E; [|done].
  apply execute_all_view in E. change (view (mkConnection f None 0)) with f in E.
  change (script (Some 5)) with (_SCHEMA ++ []) in E. rewrite app_nil_r, (openable_schema 5) in E by done.
  injection E as E. destruct (fails (statements c)); cbn; [done|]. intros [= <-]. done.
Qed.

Lemma execute_all_raise l fails : ∀ c e c', execute_all l fails c = (Raise e, c') → e = OperationalError.
Proof.
  assert (∀ t f g e, needs t f g = Raise e → e = OperationalError) as Hn.
  { intros t f g e. unfold needs. case_decide; [done|by intros [= <-]]. }
  assert (∀ s f e, effect s f = Raise e → e = OperationalError) as He.
  { intros s f e. destruct s; simpl; try done; try apply Hn. destruct (f_label f); [by intros [= <-]|apply Hn]. }
  induction l as [|s l IH]; intros c e c'; simpl; [done|]. cbv [mbind sqlite_bind]. unfold execute.
  destruct (fails (statements c)); [by intros [= <- _]|].
  destruct (effect s (view c)) as [f|e'] eqn:E; [apply IH|]. apply He in E as ->. by intros [= <- _].
Qed.

Lemma open_current_raise fails f e : openable 5 f → (open_store fails f).1 = Raise e → e = OperationalError.
Proof.
  intros Hf. unfold open_store, with_conn. rewrite (open_body_script (Some 5)) by done.
  destruct (execute_all (script (Some 5)) fails (mkConnection f None 0)) as [[[]|e'] c] eqn:E.
  - destruct (fails (statements c)); cbn; [by intros [= <-]|done].
  - apply execute_all_raise in E as ->. cbn. by intros [= <-].
Qed.

Lemma py_int_raise s e : py_int s = Raise e → ∃ msg, e = ValueError msg.
Proof. unfold py_int. repeat case_match; try done; intros [= <-]; by eexists. Qed.

Lemma verify_raise d e : (verify (m_oracle m) (mkSim d 0)).1 = Raise e → e = OperationalError ∨ ∃ msg, e = ValueError msg.
Proof.
  unfold verify. cbv [mbind act_bind select sql lift]. cbn. destruct (fault (m_oracle m) 0); [by intros [= <-]; left|].
  cbn. unfold verify_chain. destruct (walk _ _ _ _) as [b|[[n ls] lh]]; [done|].
  destruct (meta d !! _AUDIT_HEAD_SEQ) as [t|]; [|done]. intros [H|(z & _ & H)]%bind_raise; [right; by eapply py_int_raise|].
  by case_decide.
Qed.

Lemma verify_same d d' :
  audit_t d' = audit_t d → meta d' !! _AUDIT_HEAD_SEQ = meta d !! _AUDIT_HEAD_SEQ →
  meta d' !! _AUDIT_HEAD_HASH = meta d !! _AUDIT_HEAD_HASH → verify_chain d' = verify_chain d.
Proof. unfold verify_chain. by intros -> -> ->. Qed.

(** A log without its newest records does not pass: the recorded head is ahead of it. *)
Lemma truncated_fails d0 d newest v :
  audit_ok d0 → newest ≠ [] → audit_t d0 = audit_t d ++ newest →
  meta d !! _AUDIT_HEAD_SEQ = meta d0 !! _AUDIT_HEAD_SEQ → verify_chain d = Ok v → AuditLog.ok v = false.
Proof.
  intros Hd Hnew Ht Hs Hv. destruct (AuditLog.ok v) eqn:Hok; [|done]. exfalso.
  destruct (verify_ok_iff d v Hv Hok) as (_ & Hseq & _).
  destruct newest as [|r newest _] using rev_ind; [done|]. rewrite app_assoc in Ht.
  pose proof (ao_head _ Hd) as Hh. pose proof (ao_sorted _ Hd) as Hsort. pose proof (ao_positive _ Hd) as Hpos.
  rewrite Ht in Hh, Hsort, Hpos. rewrite last_snoc in Hh. destruct Hh as [Hh _]. rewrite Hh in Hs.
  specialize (Hseq _ Hs). rewrite py_int_of_Z in Hseq. injection Hseq as Hseq.
  apply Forall_app in Hpos as [_ Hpos]. inversion_clear Hpos as [|? ? Hr _].
  destruct (last (audit_t d)) as [r0|] eqn:Hl; [|lia].
  rewrite fmap_app in Hsort. apply StronglySorted_app_1_elem_of with (x1 := au_seq r0) (x2 := au_seq r) in Hsort.
  - lia.
  - apply list_elem_of_fmap_2, elem_of_app. left. apply last_Some in Hl as [l ->]. apply elem_of_app. right. by left.
  - by left.
Qed.

(** The exit code of [verify-audit] on a current database is its verdict. *)
Lemma verify_audit_code db_ config_ json cfg path h code h' :
  _load_config m config_ = Ok cfg → named_db m "verify-audit" (flag_or db_ (dget "db" cfg)) = Ok path →
  openable 5 (file_at path h) → main m (VerifyAudit db_ config_ json) h = (Ok code, h') →
  ∃ v, verify_chain (rows_at path h) = Ok v ∧ code = if AuditLog.ok v then 0 else 1.
Proof.
  intros Hcfg Hpath Hopen Hrun. apply main_ok in Hrun as [Hrun|(_ & v & sup & Hrun)].
  - cbn [dispatch_command] in Hrun. apply verify_audit_ok in Hrun as (cfg' & path' & f & v & Hcfg' & Hpath' & Ho & Hv & ->).
    rewrite Hcfg in Hcfg'. injection Hcfg' as <-. rewrite Hpath in Hpath'. injection Hpath' as <-.
    apply open_current in Ho; [|done]. subst f. by exists v.
  - exfalso. cbn [dispatch_command] in Hrun. unfold _cmd_verify_audit in Hrun. rewrite Hcfg in Hrun.
    apply cli_raise in Hrun as [[=]|(? & ? & [= <- <-] & Hrun)].
    cbv beta in Hrun. rewrite Hpath in Hrun.
    apply cli_raise in Hrun as [[=]|(? & ? & [= <- <-] & Hrun)].
    apply cli_raise in Hrun as [Ho%open_too_new|(f & h1 & _ & Hrun)].
    + by apply open_current_raise in Ho.
    + apply cli_raise in Hrun as [Hrun|(v0 & h2 & _ & Hrun)].
      * unfold on_store in Hrun. pose proof (verify_raise (f_rows f)) as Hr. destruct (verify _ _) as [r st'].
        injection Hrun as -> _. destruct (Hr _ eq_refl) as [?|[? ?]]; congruence.
      * by destruct json; [|destruct (AuditLog.ok v0)].
Qed.

(** C31 -- Exit status 0 of [verify-audit] attests the log: of a current database whose
    recorded head is that of a log the store wrote, the command exits 0 or 1; it exits 0
    when the log is the one written, and whenever it does the records are those written,
    field by field, or the two logs exhibit a SHA-256 collision or a preimage of the
    genesis marker; and it exits 1 when the newest records of that log are missing. *)
Theorem verify_audit_attests (d0 : db) (db_ config_ : option string) (json : bool) (cfg : pydict) (path : string)
    (h h' : host) (code : Z) :
  _load_config m config_ = Ok cfg → named_db m "verify-audit" (flag_or db_ (dget "db" cfg)) = Ok path →
  openable 5 (file_at path h) → audit_ok d0 → audit_t d0 ≠ [] →
  let d := rows_at path h in
  meta d !! _AUDIT_HEAD_SEQ = meta d0 !! _AUDIT_HEAD_SEQ → meta d !! _AUDIT_HEAD_HASH = meta d0 !! _AUDIT_HEAD_HASH →
  main m (VerifyAudit db_ config_ json) h = (Ok code, h') →
  (code = 0 ∨ code = 1) ∧ (audit_t d = audit_t d0 → code = 0) ∧
  (code = 0 → row_content <$> audit_t d = row_content <$> audit_t d0 ∨
     text_collision (audit_t d0) (audit_t d) ∨ genesis_preimage (audit_t d0 ++ audit_t d)) ∧
  (∀ newest, newest ≠ [] → audit_t d0 = audit_t d ++ newest → code = 1).
Proof.
  intros Hcfg Hpath Hopen Hd0 Hne d Hs Hh Hrun.
  destruct (verify_audit_code _ _ _ _ _ _ _ _ Hcfg Hpath Hopen Hrun) as (v & Hv & ->). fold d in Hv.
  split; [by destruct (AuditLog.ok v); auto|]. split_and!.
  - intros Ha. rewrite (verify_same d0 d), (verify_complete d0) in Hv by done. by injection Hv as <-.
  - intros Hok. apply (tampering_core d0 d v); try done. by destruct (AuditLog.ok v).
  - intros newest Hnew Ht. by rewrite (truncated_fails d0 d newest v).
Qed.

(** ** [drift] *)

Lemma read_drift_run sid d r at_ :
  (read_drift sid (m_oracle m) (mkSim d 0)).1 = Ok (r, at_) →
  ∃ cat names, hydrated d cat ∧ sources cat !! sid ≠ None ∧
    (∃ text, discoveries_t d !! sid = Some (text, at_) ∧ name_set text = Ok names) ∧ r = drift cat sid names.
Proof.
  unfold read_drift. cbv [mbind act_bind]. pose proof (load_catalog_outcome any_world d (m_oracle m) 0%nat I) as Hl.
  destruct (load_catalog _ _) as [[cat|e] [d1 t1]]; [|done]. cbn in Hl. destruct Hl as [-> Hh].
  case_decide as Hs; [done|]. unfold last_discovery. cbv [mbind act_bind select sql lift mret act_ret]. cbn.
  destruct (fault _ _); [done|]. destruct (discoveries_t d !! sid) as [[text at']|] eqn:Hd; [|done].
  destruct (name_set text) as [names|e] eqn:Hn; [|done]. cbn. intros [= <- <-]. exists cat, names. split_and!; try done.
  by exists text.
Qed.

Lemma clean_status cat sid names :
  clean (drift cat sid names) = true →
  default ∅ (declared cat !! sid) = names ∧
  ∀ n, n ∈ names → is_Some (assertions cat !! (sid, n)) ∧
    ∀ tv, get cat sid n = Some tv → is_asserted tv = true ∧ claim_conflicts tv = [].
Proof.
  unfold clean, drift, get. simpl. generalize (default ∅ (declared cat !! sid)). intros decl.
  rewrite !andb_true_iff, !bool_decide_eq_true, !sorted_set_nil. intros ((((Hm & Hu) & Hn) & Hcf) & Hch).
  split; [by apply set_differences_empty|]. intros n Hd. split.
  - destruct (assertions cat !! (sid, n)) as [rec|] eqn:E; [by eexists|]. exfalso.
    assert (n ∈ (∅ : gset string)) as []%elem_of_empty. rewrite <- Hn.
    apply elem_of_filter. split; [|done]. unfold assertion_status. by rewrite E.
  - intros tv Ht.
    assert (n ∈ names ∩ mine cat sid) as Hboth.
    { apply elem_of_intersection. split; [done|]. unfold mine. apply elem_of_list_to_set, list_elem_of_fmap.
      exists (sid, n). split; [done|]. apply list_elem_of_filter. split; [done|]. apply list_elem_of_fmap.
      exists ((sid, n), tv). by rewrite elem_of_map_to_list. }
    split.
    + destruct (is_asserted tv) eqn:Ea; [done|]. exfalso.
      assert (n ∈ (∅ : gset string)) as []%elem_of_empty.
      destruct (assertions cat !! (sid, n)) as [rec|] eqn:E.
      * rewrite <- Hch. apply elem_of_filter. split; [|done]. unfold assertion_status. by rewrite E, Ht, Ea.
      * rewrite <- Hn. apply elem_of_filter. split; [|done]. unfold assertion_status. by rewrite E.
    + apply list_nil_iff. intros msg Hmsg. rewrite list_nil_iff in Hcf. apply (Hcf (n, msg)).
      apply list_elem_of_bind. exists n. split; [|by apply elem_of_sorted_set]. rewrite Ht.
      by apply list_elem_of_fmap_2.
Qed.


(** ** [serve] *)

(** The governance material a service runs with is what was named. *)
Record evidence (root_flag list_flag : option string) (cfg : pydict) (g : option string * pyval) : Prop := {
  ev_root : let named := governance_path m root_flag "TOOLCONNECT_GOV_TRUST_ROOT" "gov_trust_root" cfg in
    if missing named then g.1 = None
    else ∃ p text, named = PStr p ∧ read_text m (m_expanduser m p) = Ok text ∧ g.1 = Some text;
  ev_list : let named := governance_path m list_flag "TOOLCONNECT_GOV_REVOCATION_LIST" "gov_revocation_list" cfg in
    if missing named then g.2 = PNone
    else ∃ p text d, named = PStr p ∧ read_text m (m_expanduser m p) = Ok text ∧ json_loads text = Ok (PDict d) ∧ g.2 = PDict d;
}.

Lemma path_text_ok v p : path_text v = Ok p → v = PStr p.
Proof. destruct v; try done. by intros [= ->]. Qed.

Lemma text_value_ok v t : text_value v = Ok t → v = PStr t.
Proof. destruct v; try done. by intros [= ->]. Qed.

Lemma load_governance_ok root_flag list_flag cfg g :
  _load_governance m root_flag list_flag cfg = Ok g → evidence root_flag list_flag cfg g.
Proof.
  intros (root & Hr & (lst & Hl & [= <-])%bind_ok)%bind_ok. split; cbn [fst snd].
  - unfold load_trust_root in Hr. cbv zeta. destruct (missing _); [by injection Hr as <-|].
    apply bind_ok in Hr as (p & Hp%path_text_ok & Hr). destruct (negb _); [done|].
    destruct (read_text m _) as [text|e] eqn:Ht; [|done]. injection Hr as <-. by exists p, text.
  - unfold load_revocation_list in Hl. cbv zeta. destruct (missing _); [by injection Hl as <-|].
    apply bind_ok in Hl as (p & Hp%path_text_ok & Hl). destruct (negb _); [done|].
    apply bind_ok in Hl as (text & Ht & Hl). destruct (json_loads text) as [[| | | | | |d|]|[]] eqn:Hj; try done.
    injection Hl as <-. by exists p, text, d.
Qed.

Lemma load_engine_ok v engine :
  load_engine m v = Ok engine →
  ∃ p text, v = PStr p ∧ read_text m (m_expanduser m p) = Ok text ∧ new_engine text = Ok engine.
Proof.
  intros (p & Hp%path_text_ok & H)%bind_ok. destruct (negb _); [done|].
  destruct (read_text m _) as [text|e] eqn:Ht; cbn in H; [|by destruct (is_ValueError e)].
  destruct (new_engine text) as [en|e] eqn:He; [|by destruct (is_ValueError e)]. injection H as <-. by exists p, text.
Qed.

(** A request that does not present the token gets refusals only. *)
Definition presents (t : string) (rq : request) : Prop :=
  let '(scheme, _, presented) := partition " "%char (rq_authorization rq) in
  py_lower scheme = "bearer" ∧ py_strip presented = t.
Definition refusals (outs : list response) : Prop := Forall (λ rs, rs_status rs = 401 ∨ rs_status rs = 429) outs.

Lemma authenticated_presents service t rq :
  t ≠ "" → _authenticated (mkServer service (Some t)) rq = Ok true → presents t rq.
Proof.
  intros Ht. unfold _authenticated, presents. cbn [sv_token]. destruct t as [|a t]; [done|].
  destruct (partition _ _) as [[scheme f] presented].
  case_bool_decide; simpl; [|done]. case_bool_decide; simpl; [done|]. unfold compare_digest.
  destruct (all_chars _ _); [|done]. intros [= Heq%bool_decide_eq_true]. done.
Qed.

Lemma serve_guarded {engine : PolicyEngine} sv t o rqs : ∀ w l,
  (∀ rq, _authenticated sv rq = Ok true → presents t rq) →
  Forall2 (λ rq outs, presents t rq.1 ∨ refusals outs) rqs (serve_http sv rqs o w l).1.
Proof.
  intros w l Ht. revert w l. induction rqs as [|[rq input] rqs IH]; intros w l; simpl; [constructor|].
  set (c := mkConn w l input false []). pose proof (turned_away_core sv rq o c) as Hno.
  destruct (_dispatch sv rq o c) as [r c'] eqn:Hd. cbn [snd]. specialize (IH (h_world c') (h_limiter c')).
  destruct (serve_http sv rqs o _ _) as [outs w']. constructor; [|done]. cbn [fst].
  assert (_authenticated sv rq = Ok true ∨ _authenticated sv rq ≠ Ok true) as [Ha|Ha]
    by (destruct (_authenticated sv rq) as [[]|e]; [by left|by right..]); [left; by apply Ht|right].
  destruct Hno as (_ & _ & [->|(rs & -> & Hs)]); [by right|constructor|].
  constructor; [|constructor]. rewrite Hs. destruct (admitted rq c); auto.
Qed.

(** Steps that answer no request. *)
Definition mute {A} (x : cli A) : Prop := ∀ h, http_out (x h).2 = http_out h.

Lemma mute_lift {A} (r : res A) : mute (st_lift r).
Proof. by intros h. Qed.
Lemma mute_exit {A} msg : mute (exit (A := A) msg).
Proof. by intros h. Qed.
Lemma mute_print x : mute (print x).
Proof. by intros h. Qed.
Lemma put_mute path f h : http_out (put_file path f h) = http_out h.
Proof. unfold put_file. by case_decide. Qed.
Lemma mute_open path : mute (SqliteStore m path).
Proof. intros h. unfold SqliteStore. destruct (open_store _ _). apply put_mute. Qed.
Lemma mute_service path f service : mute (new_service m path f service).
Proof. intros h. unfold new_service. destruct (start_service _ _ _) as [r st']. apply put_mute. Qed.
Lemma mute_run {A} path f (body : world → res A * world) w : mute (run_on path f body w).
Proof. intros h. unfold run_on. destruct (body w). apply put_mute. Qed.

(** What was answered was answered after every step before it had finished. *)
Lemma answered_after {A B} (x : cli A) (k : A → cli B) h R (out : list (list response)) :
  (x ≫= k) h = R → mute x → http_out h = out → http_out R.2 ≠ out →
  ∃ a h1, x h = (Ok a, h1) ∧ http_out h1 = out ∧ k a h1 = R.
Proof.
  intros <- Hx <-. specialize (Hx h). cbv [mbind st_bind]. destruct (x h) as [[a|e] h1]; [|done]. cbn in Hx. intros H.
  by exists a, h1.
Qed.

Ltac answered H Ho Hne :=
  let E := fresh "E" in
  eapply answered_after in H as (? & ? & E & ? & H);
    [|first [apply mute_lift|apply mute_print|apply mute_open|apply mute_service|apply mute_run]|exact Ho|exact Hne];
  clear Ho; rename select (http_out _ = _) into Ho.

Lemma outside_loopback_ok host_ b s : outside_loopback host_ = Ok b → text_value host_ = Ok s → b = negb (bool_decide (s ∈ LOOPBACK_HOSTS)).
Proof. destruct host_; try done. by intros [= <-] [= ->]. Qed.

Lemma make_server_ok service host_ token rate sv l :
  make_server service host_ token rate = Ok (sv, l) →
  sv = mkServer service (if decide (default "" token = "") then None else token) ∧ l = new_limiter rate (60 * microseconds).
Proof. unfold make_server. destruct (_ && _); [done|]. by intros [= <- <-]. Qed.

(** A [serve] that answered got through its checks. *)
Lemma serve_answers args h :
  http_out (_cmd_serve m args h).2 ≠ http_out h →
  ∃ cfg named token host_ engine g token_text rate w outs,
    _load_config m (sa_config args) = Ok cfg ∧
    named = flag_or (sa_host args) (py_or (dget "host" cfg) (PStr DEFAULT_HOST)) ∧
    load_engine m (flag_or (sa_policies args) (dget "policies" cfg)) = Ok engine ∧
    _load_governance m (sa_gov_trust_root args) (sa_gov_revocation_list args) cfg = Ok g ∧
    text_value named = Ok host_ ∧ opt_token token = Ok token_text ∧
    (∃ outside, outside_loopback named = Ok outside ∧ outside && missing token = false) ∧
    (serve m (engine := engine) (new_config m g) host_ token_text rate w).1 = Ok outs ∧
    http_out (_cmd_serve m args h).2 = http_out h ++ outs.
Proof.
  intros Hne. remember (_cmd_serve m args h) as R eqn:H. symmetry in H.
  assert (http_out h = http_out h) as Ho by done. remember (http_out h) as out eqn:Hout in Hne, Ho at 2 |- *. clear Hout.
  unfold _cmd_serve in H.
  do 4 answered H Ho Hne.
  assert (∀ h1 e, http_out h1 = out → (Raise e, h1) = R → False) as Hno by (intros h1 e Hh <-; by apply Hne).
  destruct (missing _); [by destruct (Hno _ _ Ho H)|]. destruct (missing _); [by destruct (Hno _ _ Ho H)|].
  answered H Ho Hne.
  match type of H with (if ?b then _ else _) _ = _ => destruct b eqn:Hguard end; [by destruct (Hno _ _ Ho H)|].
  do 9 answered H Ho Hne. clear Hno Hne.
  repeat match goal with E : st_lift _ _ = (Ok _, _) |- _ => apply lift_ok in E as [? _] end.
  match goal with E : run_on _ _ _ _ _ = (Ok _, _) |- _ => apply run_on_ok in E end.
  subst R. cbv [mbind st_bind st_modify mret st_ret snd]. cbn [http_out]. rewrite Ho.
  do 10 eexists. split_and!; try reflexivity; try eassumption. by eexists.
Qed.

Lemma guarded_token token token_text :
  opt_token token = Ok token_text → missing token = false → ∃ t, token_text = Some t ∧ t ≠ "".
Proof.
  unfold opt_token. intros H Hm. rewrite Hm in H. destruct (text_value token) as [t|e] eqn:Ht; [|done].
  injection H as <-. exists t. split; [done|]. apply text_value_ok in Ht as ->. by intros ->.
Qed.

(** C16 -- [serve] fails closed: if the command answered any request at all, then it had a
    policy file that parsed, runs that engine, and runs with exactly the trust root and
    the revocation list it was told of, none when none was named; and what it answered is
    what the HTTP front answers to the machine's requests.  On a host that is not loopback
    it had a token that is not empty, and every request that did not present that token
    got nothing but 401 and 429. *)
Theorem serve_fails_closed (args : serve_args) (h : host) :
  http_out (main m (Serve args) h).2 ≠ http_out h →
  ∃ cfg policies text engine g host_ token rate rqs w,
    _load_config m (sa_config args) = Ok cfg ∧
    flag_or (sa_policies args) (dget "policies" cfg) = PStr policies ∧
    read_text m (m_expanduser m policies) = Ok text ∧ new_engine text = Ok engine ∧
    evidence (sa_gov_trust_root args) (sa_gov_revocation_list args) cfg g ∧
    flag_or (sa_host args) (py_or (dget "host" cfg) (PStr DEFAULT_HOST)) = PStr host_ ∧
    m_traffic m = Ok rqs ∧
    let sv := mkServer (new_config m g) token in
    let outs := (serve_http (engine := engine) sv rqs (m_oracle m) w (new_limiter rate (60 * microseconds))).1 in
    http_out (main m (Serve args) h).2 = http_out h ++ outs ∧
    (host_ ∉ LOOPBACK_HOSTS → ∃ t, token = Some t ∧ t ≠ "" ∧
       Forall2 (λ rq rs, presents t rq.1 ∨ refusals rs) rqs outs).
Proof.
  assert ((main m (Serve args) h).2 = (_cmd_serve m args h).2) as ->.
  { unfold main. cbn [dispatch_command]. destruct (_cmd_serve m args h) as [[z|e] h1]; [done|]. by destruct e. }
  intros (cfg & named & tok & host_ & engine & g & token & rate & w & outs & Hcfg & Hnamed & Hen & Hgov & Hhost & Htok
    & (outside & Hout & Hguard) & Hserve & ->)%serve_answers.
  apply load_engine_ok in Hen as (policies & text & Hpol & Htext & Hengine).
  unfold serve in Hserve. destruct (make_server _ host_ token _) as [[sv l]|e] eqn:Hsv; [|done].
  apply make_server_ok in Hsv as [-> ->]. destruct (m_traffic m) as [rqs|e] eqn:Htr; [|done].
  set (sv := mkServer _ _) in *. pose proof (serve_guarded (engine := engine) sv) as Hguarded.
  exists cfg, policies, text, engine, g, host_, (sv_token sv), rate, rqs, w.
  split_and!; [done..|by apply load_governance_ok|by rewrite <- Hnamed; apply text_value_ok|done|].
  change (mkServer (new_config m g) (sv_token sv)) with sv. cbv zeta.
  destruct (serve_http sv rqs _ _ _) as [outs' w'] eqn:Hrun. injection Hserve as <-. cbn [fst].
  split; [done|]. intros Hlo.
  rewrite (outside_loopback_ok _ _ _ Hout Hhost), (bool_decide_eq_false_2 _ Hlo) in Hguard.
  destruct (guarded_token _ _ Htok Hguard) as (t & -> & Ht). exists t.
  assert (sv_token sv = Some t) as Hsvt by (cbn; by rewrite decide_False).
  split_and!; [done..|]. specialize (Hguarded t (m_oracle m) rqs w (new_limiter rate (60 * microseconds))).
  rewrite Hrun in Hguarded. apply Hguarded. intros rq Ha. subst sv. cbn [default from_option] in Ha. rewrite decide_False in Ha by done.
  by apply (authenticated_presents (new_config m g)).
Qed.

End exits.

(** ** A deployment *)

(** A policy engine that permits everything, and refuses an empty policy file. *)
Definition toy_cedar : Cedar :=
  {| cedar_policies := unit; is_authorized _ _ _ := inr (Policy.mkResponse true ["permit-all"] ∅ []) |}.
Definition toy_parser : CedarParser (ce := toy_cedar) :=
  {| from_str (s : string) := if decide (s = "") then inl "no policies" else inr (tt : @cedar_policies toy_cedar) |}.

Definition sample_files (path : string) : option (option string) :=
  if decide (path = "policies.cedar") then Some (Some "permit(principal, action, resource);") else None.

Definition ask (authorization : string) : request * string :=
  let body := json_body (PDict [(KStr "principal", alice); (KStr "source_id", PStr "ws"); (KStr "name", PStr "search");
                                (KStr "args", call_args)]) in
  (post "/authorize" authorization body, body).

Definition sample_machine : machine :=
  mkMachine sample_files (λ p, p) {["TOOLCONNECT_AUTH_TOKEN" := "secret"]} (λ _, Ok []) None (λ _, steady) calm false
    (Ok [ask "Bearer guess"; ask "Bearer secret"]) "" false (λ _, false) [].

Definition on_disk (d : db) : store_file :=
  mkFile (tables_at 5) (indexes_at 5) true (set_meta_t (<["schema_version" := "5"]> (meta d)) d).
Definition disk_of (d : db) : host := mkHost {["/db" := on_disk d]} [] [] [] [].
Definition sample_serve_args : serve_args :=
  mkServeArgs (Some "/db") (Some "policies.cedar") (Some "0.0.0.0") None None None None None None.

Definition sample_main (c : command) (h : host) : res Z * host :=
  main (rt := coded_float_runtime) (dt := decimal_datetime) (utf8 := ascii_utf8) (crypto := toy_crypto)
    (ce := toy_cedar) (parser := toy_parser) (processes := no_processes) (endpoint := no_endpoint) sample_machine c h.

Definition served : host := (sample_main (Serve sample_serve_args) (disk_of sample_tables)).2.

(** Of two requests to authorize the one without the token is refused. *)
Lemma serve_fails_closed_witness :
  map (map rs_status) (http_out served) = [[401]; [200]] ∧
  ∃ rqs outs, m_traffic sample_machine = Ok rqs ∧ http_out served = outs ∧
    ∃ t, t ≠ "" ∧ Forall2 (λ rq rs, presents t rq.1 ∨ refusals rs) rqs outs.
Proof.
  assert (map (map rs_status) (http_out served) = [[401]; [200]]) as Hs by (vm_compute; reflexivity).
  split; [exact Hs|].
  assert (http_out served ≠ http_out (disk_of sample_tables)) as Hne by (intros E; rewrite E in Hs; discriminate Hs).
  destruct (serve_fails_closed (rt := coded_float_runtime) (dt := decimal_datetime) (utf8 := ascii_utf8)
    (crypto := toy_crypto) (ce := toy_cedar) (parser := toy_parser) (processes := no_processes)
    (endpoint := no_endpoint) sample_machine sample_serve_args (disk_of sample_tables) Hne)
    as (cfg & policies & text & engine & g & host_ & token & rate & rqs & w & _ & _ & _ & _ & _ & Hh & Htr & Hout & Hlo).
  destruct Hlo as (t & _ & Ht & Hall).
  { intros Hin. cbn in Hh. injection Hh as <-. revert Hin. apply (bool_decide_unpack _). vm_compute. exact I. }
  exists rqs, (http_out served). split; [exact Htr|]. split; [reflexivity|]. exists t. split; [exact Ht|].
  unfold served, sample_main. rewrite Hout. exact Hall.
Defined.

(** After a server and a check of the log there is a grant, and its permit. *)
Lemma deployment_keeps_witness :
  let runs := [(sample_machine, Serve sample_serve_args);
               (sample_machine, VerifyAudit (Some "/db") None true)] in
  let h := lifetime (rt := coded_float_runtime) (dt := decimal_datetime) (utf8 := ascii_utf8) (crypto := toy_crypto)
    (ce := toy_cedar) (parser := toy_parser) (processes := no_processes) (endpoint := no_endpoint)
    runs (disk_of sample_tables) in
  size (grants_t (rows_at "/db" h)) = 1%nat ∧ permitted (rt := coded_float_runtime) (rows_at "/db" h).
Proof.
  intros runs h. split; [vm_compute; reflexivity|].
  destruct (deployment_keeps (rt := coded_float_runtime) (dt := decimal_datetime) (utf8 := ascii_utf8)
    (crypto := toy_crypto) (ce := toy_cedar) (parser := toy_parser) (processes := no_processes)
    (endpoint := no_endpoint) runs (disk_of sample_tables) "/db") as (_ & _ & _ & Hp & _).
  - repeat constructor; cbn; intros [].
  - apply Hp. intros gid g H. vm_compute in H. discriminate H.
Defined.

Lemma on_disk_openable d : openable 5 (file_at "/db" (disk_of d)).
Proof.
  replace (file_at "/db" (disk_of d)) with (on_disk d) by reflexivity.
  apply at_version_openable; [lia|]. unfold at_version. split_and!; try reflexivity.
  cbn [on_disk f_rows meta set_meta_t]. by rewrite lookup_insert_eq.
Qed.

(** The log as it was written passes. *)
Lemma verify_audit_attests_witness :
  (sample_main (VerifyAudit (Some "/db") None true) (disk_of sample_log)).1 = Ok 0.
Proof.
  destruct (sample_main (VerifyAudit (Some "/db") None true) (disk_of sample_log)) as [[code|e] h'] eqn:E;
    [|vm_compute in E; discriminate E].
  assert (audit_t sample_log ≠ []) as Hne by (vm_compute; discriminate).
  destruct (verify_audit_attests (rt := coded_float_runtime) (dt := decimal_datetime) (utf8 := ascii_utf8)
    (crypto := toy_crypto) (ce := toy_cedar) (parser := toy_parser) (processes := no_processes)
    (endpoint := no_endpoint) sample_machine sample_log (Some "/db") None true [] "/db" (disk_of sample_log) h' code
    eq_refl eq_refl (on_disk_openable sample_log) sample_log_ok Hne eq_refl eq_refl E) as (_ & Hcode & _).
  rewrite (Hcode eq_refl). reflexivity.
Defined.

(** A source that serves exactly what it declares. *)
Definition observed (names : list string) : db :=
  set_discoveries_t {["ws" := (Hydrate.text_of (_canonical (rt := coded_float_runtime) (PList (PStr <$> names))), "0")]} sample_tables.

