(* ===== verification/CatalogExperiments.v ===== *)
(** The experiments of [src/experiments] that run on the in-memory catalog: the drift of one
    server against its specification, and the flow analysis of a catalog of real tools
    ([src/fixtures/real_catalog.py]).  What a script prints is a list of lines, one a call
    of [print]. *)

From Stdlib Require Import Floats.SpecFloat.
From S2P Require Import Prelude PyJson PyJsonLoads PyColl Descriptor Catalog Flow.

Definition newline : string := String "010" EmptyString.
Definition size_text {A} (l : list A) : string := string_of_Z (Z.of_nat (length l)).

(** [for x in l: f(x)] *)
Fixpoint st_each {S A} (f : A → st S unit) (l : list A) : st S unit :=
  match l with
  | [] => mret tt
  | x :: l' => _ ← f x; st_each f l'
  end.

(** ** [drift_experiment.py] *)

Definition DECLARED_BY_SPEC : list string :=
  ["claim_task"; "release_task"; "request_review"; "claim_review"; "complete_review";
   "record_decision"; "record_attempt"; "get_manager_inbox"; "get_handoff_summary"].

Definition DISCOVERED_AT_RUNTIME : list string :=
  ["create_task"; "open_task"; "get_handoff_summary"; "claim_task"; "release_task";
   "record_decision"; "record_attempt"; "request_review"; "submit_subtask";
   "get_status"; "list_artifacts"; "read_artifact_chunk"; "explain_route";
   "recall_memory"; "capture_memory_candidate"; "record_memory_feedback";
   "get_task_context_pack"].

Definition unreviewed : list string := ["get_task_context_pack"; "record_memory_feedback"].

(** The catalog the script builds, and its report. *)
Definition build_and_report {rt : PyFloatRuntime} : st Catalog DriftReport :=
  _ ← register_source (mkSource "agentconnect" TrustTier.VERIFIED "mcp") (Some (list_to_set DECLARED_BY_SPEC));
  let claim := mkClaimed (PStr "") (PBool true) PNone PNone PNone in
  _ ← st_each (λ name, _ ← ingest_claimed "agentconnect" name claim "1.0.0"; mret tt)
        (sorted_set (list_to_set DISCOVERED_AT_RUNTIME));
  let reviewed := mkAsserted Effect.READ {[DataClass.INTERNAL]} ∅ [] (PBool true) (PBool false) (PBool false)
                    (PBool false) (PStr "operator") in
  _ ← st_each (λ name, _ ← assert_descriptor "agentconnect" name reviewed; mret tt)
        (sorted_set (list_to_set DISCOVERED_AT_RUNTIME ∖ list_to_set unreviewed));
  c ← st_get;
  mret (drift c "agentconnect" (list_to_set DISCOVERED_AT_RUNTIME)).

Definition section_sign : string := String "167" EmptyString.
Definition bullet (n : string) : string := "    - " +:+ n.

(** What [main] prints, one string a call of [print]. *)
Definition report_lines (report : DriftReport) : list string :=
  ["Drift: AgentConnect MCP adapter vs BACKPLANE_SPEC.md " +:+ section_sign +:+ "17" +:+ newline;
   "  declared by spec:      " +:+ size_text DECLARED_BY_SPEC;
   "  discovered at runtime: " +:+ size_text DISCOVERED_AT_RUNTIME;
   newline +:+ "  " +:+ summary report +:+ newline;
   "  ADVERTISED, MISSING AT RUNTIME (a manager calling these gets tool-not-found):"]
  ++ map bullet (advertised_missing report)
  ++ [newline +:+ "  PRESENT BUT UNDECLARED (11) -- MOSTLY A FALSE POSITIVE:";
      "    " +:+ section_sign +:+ "17 lists coordination primitives, not the adapter's full surface.";
      "    Prose is not a manifest. Drift detection needs a declared artifact";
      "    (server.json, an OpenAPI doc) to diff against, or it invents findings."]
  ++ map bullet (undeclared_present report)
  ++ [newline +:+ "  DISCOVERED BUT UNASSERTED (quarantined; not invocable):"]
  ++ map bullet (unasserted report)
  ++ [newline +:+ "  Consequence: BACKPLANE_SPEC " +:+ section_sign +:+ "17 describes a review loop";
      "  (request_review -> inbox -> claim_review -> complete_review) that";
      "  cannot be completed over MCP. `request_review` exists; the three";
      "  tools needed to finish the loop do not. The capability is present in";
      "  AgentConnectService and absent from the adapter.";
      newline +:+ "  Detected by comparing two lists. No tool was invoked."].

(** [main()]: its exit code and its output. *)
Definition drift_experiment {rt : PyFloatRuntime} : res (Z * list string) :=
  report ← (build_and_report empty_catalog).1;
  Ok (0, report_lines report).

(** ** [real_catalog.py] *)

Abbreviation PUB := DataClass.PUBLIC.
Abbreviation INT := DataClass.INTERNAL.
Abbreviation PII := DataClass.PII.
Abbreviation SEC := DataClass.SECRET.
Abbreviation CRED := DataClass.CREDENTIAL.
Abbreviation EXT := DataClass.EXTERNAL.
Abbreviation R := Effect.READ.
Abbreviation W := Effect.WRITE.
Abbreviation D := Effect.DESTRUCTIVE.
Abbreviation X := Effect.EXTERNAL.

(** Source, tool, effect, what it reads, what it writes. *)
Definition TOOLS : list (string * string * Effect.t * list DataClass.t * list DataClass.t) :=
  [("agentconnect", "create_task", W, [INT], [INT]);
   ("agentconnect", "open_task", R, [INT], []);
   ("agentconnect", "get_handoff_summary", R, [INT], []);
   ("agentconnect", "claim_task", W, [INT], [INT]);
   ("agentconnect", "release_task", W, [INT], [INT]);
   ("agentconnect", "record_decision", W, [INT], [INT]);
   ("agentconnect", "record_attempt", W, [INT], [INT]);
   ("agentconnect", "request_review", W, [INT], [INT]);
   ("agentconnect", "submit_subtask", W, [INT], [INT]);
   ("agentconnect", "get_status", R, [INT], []);
   ("agentconnect", "list_artifacts", R, [INT], []);
   ("agentconnect", "read_artifact_chunk", R, [INT; SEC], []);
   ("agentconnect", "explain_route", R, [INT], []);
   ("agentconnect", "recall_memory", R, [INT], []);
   ("agentconnect", "capture_memory_candidate", W, [INT], [INT]);
   ("agentconnect", "record_memory_feedback", W, [INT], [INT]);
   ("agentconnect", "get_task_context_pack", R, [INT; SEC], []);
   ("brainconnect", "brain_recall", R, [INT], []);
   ("brainconnect", "brain_search", R, [INT], []);
   ("brainconnect", "brain_hybrid", R, [INT], []);
   ("brainconnect", "brain_graph", R, [INT], []);
   ("brainconnect", "brain_pending", R, [INT], []);
   ("brainconnect", "brain_capture", W, [INT], [INT]);
   ("brainconnect", "brain_feedback", W, [INT], [INT]);
   ("brainconnect", "brain_promote", W, [INT], [INT]);
   ("brainconnect", "brain_reject", W, [INT], [INT]);
   ("filesystem", "read_file", R, [INT; SEC; CRED], []);
   ("filesystem", "read_multiple_files", R, [INT; SEC; CRED], []);
   ("filesystem", "write_file", W, [], [INT]);
   ("filesystem", "edit_file", W, [INT], [INT]);
   ("filesystem", "create_directory", W, [], [INT]);
   ("filesystem", "list_directory", R, [INT], []);
   ("filesystem", "directory_tree", R, [INT], []);
   ("filesystem", "move_file", D, [INT], [INT]);
   ("filesystem", "search_files", R, [INT], []);
   ("filesystem", "get_file_info", R, [INT], []);
   ("filesystem", "list_allowed_directories", R, [PUB], []);
   ("github", "get_file_contents", R, [EXT; PUB], []);
   ("github", "search_repositories", R, [EXT; PUB], []);
   ("github", "create_or_update_file", X, [], [EXT]);
   ("github", "push_files", X, [], [EXT]);
   ("github", "create_repository", X, [], [EXT]);
   ("github", "create_issue", X, [], [EXT]);
   ("github", "create_pull_request", X, [], [EXT]);
   ("github", "fork_repository", X, [], [EXT]);
   ("github", "create_branch", X, [], [EXT]);
   ("slack", "slack_list_channels", R, [EXT], []);
   ("slack", "slack_get_channel_history", R, [EXT; PII], []);
   ("slack", "slack_post_message", X, [], [EXT]);
   ("slack", "slack_reply_to_thread", X, [], [EXT]);
   ("fetch", "fetch", X, [EXT; PUB], [EXT]);
   ("postgres", "query", R, [INT; PII], []);
   ("shell", "run_command", D, [INT; SEC; CRED], [INT; EXT])].

Definition AMBIGUOUS : list string :=
  ["read_artifact_chunk"; "get_task_context_pack"; "recall_memory"; "fetch"; "move_file";
   "brain_recall"].

Definition ARG_DEPENDENT : list string :=
  ["read_file"; "read_multiple_files"; "run_command"; "query"; "fetch"; "read_artifact_chunk";
   "write_file"].

Definition SOURCES : list (string * TrustTier.t) :=
  [("agentconnect", TrustTier.VERIFIED); ("brainconnect", TrustTier.VERIFIED);
   ("filesystem", TrustTier.KNOWN); ("github", TrustTier.KNOWN); ("slack", TrustTier.KNOWN);
   ("fetch", TrustTier.UNTRUSTED); ("postgres", TrustTier.KNOWN); ("shell", TrustTier.KNOWN)].

Definition CODING_AGENT_TOOLSET : list string :=
  ["read_file"; "write_file"; "edit_file"; "list_directory"; "search_files"; "create_task";
   "record_decision"; "read_artifact_chunk"; "get_task_context_pack"; "brain_recall";
   "brain_capture"; "create_or_update_file"; "push_files"; "create_pull_request"; "create_issue";
   "fetch"].

(** [build_catalog(assert_all)] *)
Definition build_catalog {rt : PyFloatRuntime} (assert_all : bool) : st Catalog unit :=
  _ ← st_each (λ '(sid, tier),
        let names := omap (λ '(s, n, _, _, _), if decide (s = sid) then Some n else None) TOOLS in
        register_source (mkSource sid tier "mcp") (Some (list_to_set names))) SOURCES;
  st_each (λ '(sid, name, eff, rd, wr),
    let claim := mkClaimed (PStr (name +:+ " (server-supplied)")) (PBool (bool_decide (eff = R)))
                   (PBool (bool_decide (eff = D))) PNone (PBool (bool_decide (eff = X))) in
    _ ← ingest_claimed sid name claim "1.0.0";
    if (assert_all : bool) then
      _ ← assert_descriptor sid name
            (mkAsserted eff (list_to_set rd) (list_to_set wr) [PStr sid] (PBool (bool_decide (eff ≠ D)))
               (PBool false) (PBool (bool_decide (name ∈ ["brain_promote"; "run_command"]))) (PBool false)
               (PStr "fixture-operator"));
      mret tt
    else mret tt) TOOLS.

(** ** Formatting *)

(** [f"{x:.kf}"] of a binary64 number: its exact value, rounded half to even. *)
Definition round_div (a b : Z) : Z :=
  let q := a / b in let r := a mod b in
  if 2 * r <? b then q else if b <? 2 * r then q + 1 else if Z.even q then q else q + 1.
Fixpoint zeros (n : nat) : string := match n with O => "" | S n' => "0" +:+ zeros n' end.
Definition fixed (k : nat) (x : spec_float) : string :=
  let text (s : bool) (n : Z) : string :=
    let digits := string_of_Z n in
    let digits := zeros (S k - String.length digits) +:+ digits in
    let cut := (String.length digits - k)%nat in
    (if s then "-" else "") +:+ String.substring 0 cut digits
      +:+ match k with O => "" | _ => "." +:+ String.substring cut k digits end in
  match x with
  | S754_zero s => text s 0
  | S754_finite s m e => text s (round_div (Z.pos m * 10 ^ Z.of_nat k * 2 ^ Z.max 0 e) (2 ^ Z.max 0 (- e)))
  | S754_infinity s => if s then "-inf" else "inf"
  | S754_nan => "nan"
  end.

(** [f"{s:n}"] *)
Fixpoint blanks (n : nat) : string := match n with O => "" | S n' => " " +:+ blanks n' end.
Definition padded (n : nat) (s : string) : string := s +:+ blanks (n - String.length s).

(** [100 * a / b], on lengths *)
Definition percent (a b : nat) : string := fixed 0 (SFdiv 53 1024 (float_of_nat (100 * a)) (float_of_nat b)) +:+ "%".

(** ** [flow_experiment.py] *)

Fixpoint dashes (s : string) : string := match s with EmptyString => "" | String _ s' => "-" +:+ dashes s' end.
Definition rule (title : string) : string := newline +:+ title +:+ newline +:+ dashes title.

Definition replace_reads (d : AssertedDescriptor) (reads_ : gset DataClass.t) (scope : string) : AssertedDescriptor :=
  mkAsserted (effect d) reads_ (writes d) [PStr scope] (reversible d) (idempotent d) (requires_approval d)
    (declassifies d) (PStr "fixture-operator").

(** [sorted({x for f in fs for x in g(f)})] *)
Definition all_names (g : FlowFinding → list string) (fs : list FlowFinding) : list string :=
  sorted_set (list_to_set (f ← fs; g f)).

(** The re-assertion of one tool under a narrower scope. *)
Definition narrow {rt : PyFloatRuntime} (name : string) : st Catalog unit :=
  c ← st_get;
  tid ← st_lift (resolve c name);
  match get c tid.1 name with
  | Some tv =>
      match asserted tv with
      | Some old => _ ← assert_descriptor tid.1 name (replace_reads old {[INT]} "project-root"); mret tt
      | None => st_throw (AttributeError "'NoneType' object has no attribute 'effect'")
      end
  | None => st_throw (AttributeError "'NoneType' object has no attribute 'asserted'")
  end.

Definition narrowed : list string := ["read_file"; "read_artifact_chunk"; "get_task_context_pack"].

(** The reports of the script: the whole catalog, the agent's toolset, the same with one
    accepted class pair, without its sinks, with narrowed scopes, and unasserted. *)
Record measures := mkMeasures {
  ms_catalog : Catalog;
  ms_full : FlowReport;
  ms_sub : FlowReport;
  ms_sup : FlowReport;
  ms_without_sinks : FlowReport;
  ms_after : FlowReport;
  ms_unl : FlowReport;
}.

Definition measure {rt : PyFloatRuntime} : res measures :=
  let '(r, cat) := build_catalog true empty_catalog in
  _ ← r;
  let full := analyze_toolset (toolset cat (map_to_list (tools cat)).*1) ∅ in
  selected ← select cat CODING_AGENT_TOOLSET;
  let sub := analyze_toolset selected ∅ in
  let sup := analyze_toolset selected {[(SEC, EXT)]} in
  let sinks_ := all_names sinks (findings sub) in
  let without := analyze_toolset (filter (λ t, ref_name (ref t) ∉ sinks_) selected) ∅ in
  let '(r, scoped) := st_each narrow narrowed cat in
  _ ← r;
  narrowed_set ← select scoped CODING_AGENT_TOOLSET;
  let '(r, raw) := build_catalog false empty_catalog in
  _ ← r;
  raw_set ← select raw CODING_AGENT_TOOLSET;
  Ok (mkMeasures cat full sub sup without (analyze_toolset narrowed_set ∅) (analyze_toolset raw_set ∅)).

Definition counts (r : FlowReport) : string :=
  "  findings=" +:+ size_text (findings r) +:+ "  pairwise_paths=" +:+ size_text (pairwise_paths r).

(** A reader, with what makes its label a guess. *)
Definition reader_line (r : string) : string :=
  let tags := (if decide (r ∈ ARG_DEPENDENT) then ["ARG_DEPENDENT"] else []) ++
              (if decide (r ∈ AMBIGUOUS) then ["AMBIGUOUS"] else []) in
  "  " +:+ padded 24 r +:+ " " +:+ match tags with [] => "solid" | _ => join "+" tags end.

Definition full_lines (cat : Catalog) (full : FlowReport) : list string :=
  ["catalog: " +:+ string_of_Z (Z.of_nat (size (tools cat))) +:+ " tools across "
     +:+ string_of_Z (Z.of_nat (size (sources cat))) +:+ " sources";
   rule "1. Full catalog (the worst case: an agent holding everything)"]
  ++ map (λ f, "  " +:+ describe f) (findings full)
  ++ [counts full; "  collapse ratio: " +:+ fixed 1 (collapse_ratio full) +:+ " pairwise paths per finding"].

Definition agent_lines (sub : FlowReport) : list string :=
  [rule "2. Realistic grant (a coding agent on this box)"; "  toolset size: " +:+ size_text CODING_AGENT_TOOLSET]
  ++ (f ← findings sub;
      ["  " +:+ describe f; "      readers: " +:+ join ", " (readers f); "      sinks:   " +:+ join ", " (sinks f)])
  ++ [counts sub; "  collapse ratio: " +:+ fixed 1 (collapse_ratio sub)].

Definition suppression_lines (sub sup : FlowReport) : list string :=
  let removed_f := Z.of_nat (length (findings sub)) - Z.of_nat (length (findings sup)) in
  let removed_p := Z.of_nat (length (pairwise_paths sub)) - Z.of_nat (length (pairwise_paths sup)) in
  [rule "3. Operator suppression is per CLASS-PAIR, not per tool-pair";
   "  accepting 1 class-pair removes " +:+ string_of_Z removed_f +:+ " finding (" +:+ string_of_Z removed_p
     +:+ " pairwise paths)";
   "  remaining: [" +:+ join ", " ((λ f, repr_str (DataClass.value (source_class f))) <$> findings sup) +:+ "]";
   "  decisions an operator makes:  " +:+ size_text (findings sub) +:+ " class-pairs";
   "  decisions pairwise would ask: " +:+ size_text (pairwise_paths sub) +:+ " tool-pairs"].

Definition shaky (rs : list string) : list string := filter (λ r, r ∈ ARG_DEPENDENT ∨ r ∈ AMBIGUOUS) rs.

Definition label_lines (sub : FlowReport) : list string :=
  let rs := all_names readers (findings sub) in
  [rule "3b. Are the findings trustworthy? Trace each to its label."]
  ++ map reader_line rs
  ++ ["  -> " +:+ size_text (shaky rs) +:+ "/" +:+ size_text rs +:+ " sensitive readers rest on a worst-case guess.";
      "  every finding above traces to a label a static descriptor cannot justify."].

Definition cut_lines (sub without : FlowReport) : list string :=
  let sinks_ := all_names sinks (findings sub) in
  let readers_ := all_names readers (findings sub) in
  [rule "4. What must be removed to break every path?";
   "  drop all " +:+ size_text sinks_ +:+ " sinks, or all " +:+ size_text readers_ +:+ " sensitive readers";
   "  sinks:   " +:+ join ", " sinks_; "  readers: " +:+ join ", " readers_;
   "  toolset minus sinks -> findings=" +:+ size_text (findings without)
     +:+ " (agent can no longer push code, create PRs, or fetch)"].

Definition burden_lines : list string :=
  let n := length TOOLS in
  [rule "5. Labeling burden and expressiveness";
   "  tools requiring a human assertion:  " +:+ size_text TOOLS +:+ "/" +:+ size_text TOOLS +:+ " (100%)";
   "  labels a judgment call (AMBIGUOUS): " +:+ size_text AMBIGUOUS +:+ "/" +:+ size_text TOOLS +:+ " = "
     +:+ percent (length AMBIGUOUS) n;
   "  class depends on ARGUMENTS not tool: " +:+ size_text ARG_DEPENDENT +:+ "/" +:+ size_text TOOLS +:+ " = "
     +:+ percent (length ARG_DEPENDENT) n;
   "    -> [" +:+ join ", " (repr_str <$> sorted_set (list_to_set ARG_DEPENDENT)) +:+ "]";
   "  a static descriptor CANNOT express the arg-dependent set."].

Definition scope_lines (sub after : FlowReport) : list string :=
  [rule "6. Scope-narrowing: classify (tool, scope), not tool";
   "  before scoping: " +:+ size_text (findings sub) +:+ " findings, " +:+ size_text (pairwise_paths sub) +:+ " paths";
   "  after scoping:  " +:+ size_text (findings after) +:+ " findings, " +:+ size_text (pairwise_paths after) +:+ " paths";
   "  the arg-dependence collapses once the SOURCE is scoped. The descriptor";
   "  should bind to (tool, scope), which is a registry fact, not a guess."].

Definition unlabeled_lines (unl : FlowReport) : list string :=
  [rule "7. Unlabeled tools are not skipped";
   "  with 0 assertions: findings=" +:+ size_text (findings unl) +:+ ", unlabeled=" +:+ size_text (unlabeled unl);
   "  an unasserted catalog reports NO findings -- silence, not safety.";
   "  this is why unasserted tools are quarantined rather than analyzed."].

(** [main()]: its exit code and its output. *)
Definition flow_experiment {rt : PyFloatRuntime} : res (Z * list string) :=
  ms ← measure;
  Ok (0, full_lines (ms_catalog ms) (ms_full ms) ++ agent_lines (ms_sub ms) ++ suppression_lines (ms_sub ms) (ms_sup ms)
         ++ label_lines (ms_sub ms) ++ cut_lines (ms_sub ms) (ms_without_sinks ms) ++ burden_lines
         ++ scope_lines (ms_sub ms) (ms_after ms) ++ unlabeled_lines (ms_unl ms)).

(** ** What the scripts find *)

(** Three primitives the specification declares are missing, the eleven tools it does not
    mention and the two not reviewed are listed, and nothing else is reported. *)
Lemma drift_experiment_finds {rt : PyFloatRuntime} :
  (λ r, (advertised_missing r, length (undeclared_present r), unasserted r, drift_conflicts r,
         redefined_after_assertion r)) <$> (build_and_report empty_catalog).1
  = Ok (["claim_review"; "complete_review"; "get_manager_inbox"], 11%nat, unreviewed, [], []).
Proof. vm_compute. reflexivity. Qed.


(** The figures of [docs/PHASE1_VALIDATION.md]: the size of the catalog, and findings and
    paths of the whole catalog, of the coding agent, with one accepted pair, without its
    sinks and with narrowed scopes; unasserted, everything is unlabeled. *)
Lemma flow_experiment_figures {rt : PyFloatRuntime} :
  let figures (r : FlowReport) := (length (findings r), length (pairwise_paths r)) in
  (λ ms, (size (tools (ms_catalog ms)), [figures (ms_full ms); figures (ms_sub ms); figures (ms_sup ms);
     figures (ms_without_sinks ms); figures (ms_after ms); figures (ms_unl ms)], length (unlabeled (ms_unl ms)),
     fixed 1 (collapse_ratio (ms_full ms)), fixed 1 (collapse_ratio (ms_sub ms)))) <$> measure
  = Ok (53, [(3, 110); (2, 20); (1, 5); (0, 0); (0, 0); (0, 0)], 16, "36.7", "10.0")%nat.
Proof. vm_compute. reflexivity. Qed.

(** The tools whose class depends on their arguments are not the sensitive readers: two of
    them read nothing sensitive, and two sensitive readers are not among them. *)
Lemma sensitive_readers_differ {rt : PyFloatRuntime} :
  (λ ms, let rs := all_names readers (findings (ms_full ms)) in
     (filter (λ n, n ∉ rs) ARG_DEPENDENT, filter (λ n, n ∉ ARG_DEPENDENT) rs)) <$> measure
  = Ok (["fetch"; "write_file"], ["get_task_context_pack"; "slack_get_channel_history"]).
Proof. vm_compute. reflexivity. Qed.

(** [fetch] on its own confers no path; the shell does. *)
Lemma single_tool_paths {rt : PyFloatRuntime} :
  let alone (name : string) : res nat :=
    let '(r, cat) := build_catalog true empty_catalog in
    _ ← r; held ← select cat [name]; Ok (length (findings (analyze_toolset held ∅))) in
  alone "fetch" = Ok 0%nat ∧ alone "run_command" = Ok 2%nat.
Proof. split; vm_compute; reflexivity. Qed.
