(* ===== verification/Experiments.v ===== *)
(** [src/experiments/audit_tail_truncation_demo.py]: the demonstration that a truncated
    audit log is detected, run on the modelled program, and that it always tells.

    The files of a temporary directory are the databases in it: creating a directory does
    nothing, a copy with its [-wal] and [-shm] sidecars is a copy of the database, and
    removing the tree removes the databases under it.  Copying and removing do not fail. *)

From S2P Require Import Prelude PyJson PyJsonLoads PyStr PyColl PyEq PyIo DateTime Descriptor Catalog Policy.
From S2P Require Import Sha256 Db AuditLog Migrate Grants Hydrate Store BusPublish GovGrants McpSource Service ServiceRuns.
From S2P Require Import Vouching WellTyped Cli CliRuns CatalogExperiments.

(** ** [audit_tail_truncation_demo.py] *)

Definition ALLOW_READS : string :=
  newline +:+ "@id(" +:+ String "034" ("allow-reads" +:+ String "034" (")" +:+ newline))
    +:+ "permit(principal, action == Action::" +:+ String "034" ("invoke" +:+ String "034" (", resource)" +:+ newline))
    +:+ "when { resource.effect == " +:+ String "034" ("read" +:+ String "034" (" };" +:+ newline)).

(** [path.name], of a path that does not end in a slash. *)
Fixpoint name_from (name path : string) : string :=
  match path with
  | EmptyString => name
  | String c path' => name_from (if decide (c = "/"%char) then "" else name +:+ String c "") path'
  end.
Definition path_name : string → string := name_from "".

(** [DELETE FROM audit WHERE seq = (SELECT MAX(seq) FROM audit)]: the rows that stay. *)
Definition max_seq (rows : list audit_row) : option Z :=
  match rows with [] => None | r :: rows' => Some (foldr Z.max (au_seq r) (au_seq <$> rows')) end.
Definition delete_newest (d : db) : db :=
  set_audit_t (filter (λ r, Some (au_seq r) ≠ max_seq (audit_t d)) (audit_t d)) (audit_autoincrement d) d.

Section demo.
Context {rt : PyFloatRuntime} {dt : PyDatetime} {utf8 : Utf8} {crypto : Cryptography}
  {ce : Cedar} {parser : CedarParser} {processes : Processes} {endpoint : BusEndpoint}.
Context (m : machine).

(** The calls of [_build_live_db] on its service. *)
Definition authorize_and_report {engine : PolicyEngine} (service : config) : svc unit :=
  d ← authorize service (PDict [str_pair "id" (PStr "a")]) "io.demo/s" "reader" PNone None PNone;
  did ← pure (ditem "decision_id" d);
  did ← pure (text_value did);
  _ ← record_outcome service did "success" PNone PNone;
  mret tt.

Definition populate {engine : PolicyEngine} (service : config) : svc unit :=
  _ ← Service.register_source "io.demo/s" "known" "mcp" (strings ["reader"]) PNone;
  _ ← ingest_payload "io.demo/s" (PList [PDict [str_pair "name" (PStr "reader");
        str_pair "claimed" (PDict [str_pair "read_only_hint" (PBool true)])]]);
  _ ← assert_tool "io.demo/s" "reader" (PDict [str_pair "effect" (PStr "read"); str_pair "asserted_by" (PStr "op")]);
  each (λ _, authorize_and_report service) (seq 0 3).

Definition _build_live_db (path : string) : cli unit :=
  f ← SqliteStore m path;
  engine ← st_lift (new_engine ALLOW_READS);
  let service := new_config m (None, PNone) in
  w ← new_service m path f service;
  run_on path f (populate (engine := engine) service (m_oracle m)) w.

Definition _copy_with_wal (src dst_dir : string) : cli string := λ h,
  let dst := dst_dir +:+ "/" +:+ path_name src in
  (Ok dst, match databases h !! src with Some f => put_file dst f h | None => h end).

Definition _truncate_tail (path : string) : cli unit := λ h,
  let f := file_at path h in
  on_store m path f
    (if decide ("audit" ∈ f_tables f) then transaction (update delete_newest) else lift (Raise OperationalError)) h.

(** [shutil.rmtree(work, ignore_errors=True)] *)
Definition rmtree (work : string) (h : host) : host :=
  mkHost (filter (λ pf, String.prefix (work +:+ "/") pf.1 = false) (databases h))
    (stdout h) (http_out h) (mcp_out h) (spawned h).

(** The body of the [try] of [main_demo], in the directory [mkdtemp] made. *)
Definition run_demo (work : string) : cli Z :=
  let live := work +:+ "/live.db" in
  _ ← _build_live_db live;
  clean ← _copy_with_wal live (work +:+ "/clean");
  rc_clean ← main m (VerifyAudit (Some clean) None false);
  _ ← print (Line (newline +:+ "[clean copy]      verify-audit exit = " +:+ string_of_Z rc_clean +:+ "  (expected 0)"));
  trunc ← _copy_with_wal live (work +:+ "/truncated");
  _ ← _truncate_tail trunc;
  rc_trunc ← main m (VerifyAudit (Some trunc) None false);
  _ ← print (Line ("[truncated copy]  verify-audit exit = " +:+ string_of_Z rc_trunc +:+ "  (expected 1)" +:+ newline));
  let ok := (rc_clean =? 0) && (rc_trunc =? 1) in
  _ ← print (Line ("RESULT: " +:+ (if ok then "PASS - tail truncation detected"
                                    else "FAIL - truncation NOT detected (regression!)")));
  mret (if ok then 0 else 1).

Definition main_demo (work : string) : cli Z := λ h,
  let '(r, h') := run_demo work h in (r, rmtree work h').
End demo.

(** ** Paths *)

Lemma name_from_app work acc : name_from acc (work +:+ "/live.db") = "live.db".
Proof. revert acc. induction work as [|c work IH]; intros acc; [done|apply IH]. Qed.

Lemma live_db_kept work : work +:+ "/live.db" ≠ memory.
Proof. intros E. pose proof (name_from_app work "") as H. by rewrite E in H. Qed.

Lemma apart work p q : p ≠ q → work +:+ p ≠ work +:+ q.
Proof. intros Hn E. apply Hn. induction work as [|c work IH]; [done|]. by injection E as E; apply IH. Qed.

(** ** The deletion *)

Lemma max_seq_last rows r :
  Forall (λ x, au_seq x < au_seq r) rows → max_seq (rows ++ [r]) = Some (au_seq r).
Proof.
  destruct rows as [|x rows]; [done|]. intros [Hx Hrows]%Forall_cons. cbn. f_equal.
  induction Hrows as [|y rows Hy _ IH]; csimpl.
  - lia.
  - rewrite IH; lia.
Qed.

(** The statement deletes exactly the newest record of a log the store wrote. *)
Lemma delete_newest_last d :
  audit_ok d → audit_t d ≠ [] → ∃ r, audit_t d = audit_t (delete_newest d) ++ [r].
Proof.
  intros Hd Hne. pose proof (ao_sorted _ Hd) as Hs. destruct (audit_t d) as [|r rows _] eqn:E using rev_ind; [done|].
  exists r. f_equal. cbn. rewrite E. clear Hd Hne E.
  assert (Forall (λ x, au_seq x < au_seq r) rows) as Hlt.
  { rewrite fmap_app in Hs. apply Forall_forall. intros x Hx.
    apply StronglySorted_app_1_elem_of with (x1 := au_seq x) (x2 := au_seq r) in Hs; [done| |by left].
    by apply list_elem_of_fmap_2. }
  rewrite (max_seq_last rows r Hlt), filter_app, filter_cons, filter_nil, decide_False by naive_solver.
  rewrite app_nil_r. symmetry. apply filter_all. eapply Forall_impl; [exact Hlt|]. intros x Hx [= E].
  cbv beta in Hx. lia.
Qed.

(** ** What stays *)

(** The version a database declares. *)
Definition same_version (d d' : db) : Prop := meta d' !! "schema_version" = meta d !! "schema_version".
#[export] Instance same_version_preorder : PreOrder same_version.
Proof. split; [done|]. intros d1 d2 d3 H1 H2. unfold same_version in *. congruence. Qed.

Lemma openable_rows v f d :
  openable v f → same_version (f_rows f) d → openable v (with_rows f d).
Proof. intros [] Hm. split; cbn; try done. by rewrite Hm. Qed.

Lemma open_new fails f :
  open_store fails new_file = (Ok tt, f) →
  openable 5 f ∧ f_rows f = set_meta_t {["schema_version" := "5"]} empty_db.
Proof.
  intros H. assert (unversioned new_file) as Hun by (split; [reflexivity|set_solver|reflexivity|reflexivity]).
  destruct (script_effects None new_file Hun) as (g & Hg & Ho & _).
  assert (f = g) as ->.
  { revert H. unfold open_store, with_conn. rewrite (open_body_script None) by done.
    destruct (execute_all (script None) fails (mkConnection new_file None 0)) as [[[]|e] c] eqn:Hc; [|done].
    apply execute_all_view in Hc. change (view (mkConnection new_file None 0)) with new_file in Hc.
    rewrite Hg in Hc. injection Hc as ->. by destruct (fails (statements c)); [|intros [= <-]]. }
  split; [done|]. vm_compute in Hg. injection Hg as <-. by vm_compute.
Qed.

Section demo_runs.
Context {rt : PyFloatRuntime} {dt : PyDatetime} {utf8 : Utf8} {crypto : Cryptography}
  {ce : Cedar} {parser : CedarParser} {processes : Processes} {endpoint : BusEndpoint}.

Section population.
Context {engine : PolicyEngine} (service : config).

Lemma append_in_txn_version kind body : act_preserves same_version (_append_audit_in_txn kind body).
Proof.
  unfold _append_audit_in_txn. preserve.
  all: apply ap_update; [apply _|intros d]; unfold same_version; cbn; by rewrite lookup_insert_ne.
Qed.
#[local] Hint Resolve append_in_txn_version : preserve.
Lemma append_version kind body : act_preserves same_version (append_audit kind body).
Proof. unfold append_audit. preserve. Qed.
Lemma upsert_source_version src ds cmd : act_preserves same_version (upsert_source src ds cmd).
Proof. unfold upsert_source. preserve. Qed.
Lemma upsert_tool_version tv : act_preserves same_version (upsert_tool tv).
Proof. unfold upsert_tool. preserve. Qed.
Lemma upsert_assertion_version sid n rec : act_preserves same_version (upsert_assertion sid n rec).
Proof. unfold upsert_assertion. preserve. Qed.
Lemma discovery_version sid names : act_preserves same_version (record_discovery sid names).
Proof. unfold record_discovery. preserve. Qed.
Lemma find_decision_version did : act_preserves same_version (find_decision did).
Proof. unfold find_decision. preserve. Qed.
Lemma issue_grant_version gid did pid sid n h at_ ex ttl :
  act_preserves same_version (issue_grant gid did pid sid n h at_ ex ttl).
Proof. unfold issue_grant. cbv zeta. preserve. Qed.
Lemma get_grant_version gid : act_preserves same_version (get_grant gid).
Proof. unfold get_grant, _grant_row_to_dict. preserve. Qed.
Lemma close_grant_version gid why : act_preserves same_version (close_grant gid why).
Proof. unfold close_grant, update_grant. cbv zeta. preserve. Qed.
#[local] Hint Resolve get_grant_version close_grant_version upsert_source_version upsert_tool_version upsert_assertion_version discovery_version
  find_decision_version issue_grant_version append_version : preserve.

Lemma authorize_version p sid n ctx args ttl : svc_preserves same_version (authorize service p sid n ctx args ttl).
Proof.
  unfold authorize, decide_and_issue, issue_for, broker_authorize, audit_log_append, publish_event.
  cbv zeta. preserve.
Qed.
Lemma outcome_version did out det gid : svc_preserves same_version (record_outcome service did out det gid).
Proof. unfold record_outcome, settle_grant, grant_of, publish_event. cbv zeta. preserve. Qed.
#[local] Hint Resolve authorize_version outcome_version : preserve.

Lemma populate_version : svc_preserves same_version (populate service).
Proof.
  unfold populate, Service.register_source, ingest_payload, ingest_one, assert_tool, get_tool,
    authorize_and_report. cbv zeta. preserve.
Qed.

(** Answering an authorization leaves its decision on the log. *)
Definition leaves_records {A} (x : svc A) : Prop :=
  ∀ o w a w', x o w = (Ok a, w') → audit_t (w_db w') ≠ [].

Lemma records_kept d d' : kept d d' → audit_t d ≠ [] → audit_t d' ≠ [].
Proof. intros [[rows ->] _ _ _] Hne E. by apply app_eq_nil in E as [E _]. Qed.

Lemma records_then {A B} (x : svc A) (k : A → svc B) :
  leaves_records x → (∀ a, svc_keeps (k a)) → leaves_records (x ≫= k).
Proof.
  intros Hx Hk o w b w'. cbv [mbind svc_bind]. destruct (x o w) as [[a|e] w1] eqn:E; [|done]. intros H.
  eapply records_kept; [|by eapply Hx]. pose proof (Hk a o w1) as Hkept. by rewrite H in Hkept.
Qed.

Lemma records_after {A B} (x : svc A) (k : A → svc B) : (∀ a, leaves_records (k a)) → leaves_records (x ≫= k).
Proof.
  intros Hk o w b w'. cbv [mbind svc_bind]. destruct (x o w) as [[a|e] w1]; [|done]. apply Hk.
Qed.

Lemma decide_records p sid n ctx requested : leaves_records (decide_and_issue p sid n ctx requested).
Proof.
  intros o w [[dec id] grant] w' H. pose proof (decide_run p sid n ctx requested o w) as Hr. rewrite H in Hr.
  destruct Hr as (_ & row & d1 & (Ha & _ & _) & _ & Hd).
  assert (audit_t d1 ≠ []) as Hne by (rewrite Ha; by destruct (audit_t (w_db w))).
  destruct requested as [[h ttl]|]; [|by destruct Hd as [_ ->]].
  destruct (allowed dec); [|by destruct Hd as [_ ->]]. destruct Hd as (gid & issued & seq & _ & _ & Happ).
  apply appended_logged in Happ as (row' & (-> & _ & _) & _). cbn. by destruct (audit_t d1).
Qed.

Lemma authorize_records p sid n ctx args ttl : leaves_records (authorize service p sid n ctx args ttl).
Proof.
  unfold authorize. apply records_after; intros requested. apply records_after; intros pr. cbv zeta.
  apply records_then; [apply decide_records|intros [[dec id] grant]]. pose proof publish_keeps. eauto 10 with keeps.
Qed.

Lemma populate_records : leaves_records (populate service).
Proof.
  unfold populate. do 3 (apply records_after; intros ?). simpl. do 2 (apply records_after; intros ?).
  apply records_then; [|intros ?; apply svc_ret_keeps]. unfold authorize_and_report.
  apply records_then; [apply authorize_records|intros d]. do 2 (apply svc_bind_keeps; [apply pure_keeps|intros ?]).
  apply svc_bind_keeps; [apply outcome_call_keeps|intros _; apply svc_ret_keeps].
Qed.

Lemma populate_typed : keeps_typed (populate service) (λ _, True).
Proof.
  unfold populate. eapply kt_bind; [apply kt_register|intros _ _].
  eapply kt_bind; [apply kt_push; cbn; split_and!; try done; by apply (bool_decide_unpack _)|intros _ _]. eapply kt_bind; [apply kt_assert|intros _ _].
  apply (kt_each _ _ (λ _, True)); [by apply Forall_true|intros _ _]. unfold authorize_and_report.
  eapply kt_bind; [apply kt_authorize|intros d _].
  do 2 (eapply kt_bind; [by apply (kt_pure _ (λ _, True))|intros ? _]).
  eapply kt_bind; [by apply kt_outcome|intros _ _]. by apply kt_ret.
Qed.
End population.

Context (m : machine).

(** ** The live database *)

Lemma start_run service o d :
  gov_revocation_list service = PNone → sound d →
  let '(r, s) := start_service service o (mkSim d 0) in s_db s = d ∧ ∀ c, r = Ok c → typed c.
Proof.
  intros Hs Hd. unfold start_service. rewrite Hs. cbv [mbind act_bind mret act_ret].
  pose proof (typed_load any_world d (so_rows _ Hd) o 0%nat I) as H. destruct (load_catalog o (mkSim d 0)) as [[c|e] s];
    destruct H as [Hdb Hc]; (split; [done|]); [by intros c' [= <-]|done].
Qed.

Lemma sound_new : sound (set_meta_t {["schema_version" := "5"]} empty_db).
Proof. split; [|split; simpl; try constructor; done|by intros gid g H]. split; cbn; intros *; by rewrite lookup_empty. Qed.

Lemma build_ok path h h1 :
  path ≠ memory → databases h !! path = None → _build_live_db m path h = (Ok tt, h1) →
  openable 5 (file_at path h1) ∧ sound (rows_at path h1) ∧ audit_t (rows_at path h1) ≠ [].
Proof.
  intros Hp Hn H. unfold _build_live_db in H.
  apply cli_ok in H as (f & h2 & [Ho ->]%open_ok & H).
  assert (file_at path h = new_file) as Hf by (unfold file_at; rewrite decide_False, Hn; done).
  rewrite Hf in Ho. apply open_new in Ho as [Ho Hrows].
  apply cli_ok in H as (engine & h3 & [_ ->]%lift_ok & H). cbv zeta in H. set (service := new_config m (None, PNone)) in H.
  apply cli_ok in H as (w & h4 & Hw & H). unfold new_service in Hw.
  pose proof (start_run service (m_oracle m) (f_rows f) eq_refl) as Hstart. rewrite Hrows in Hstart at 1.
  specialize (Hstart sound_new). destruct (start_service service _ _) as [r s]. destruct Hstart as [Hdb Hc].
  injection Hw as Hw <-. apply bind_ok in Hw as (c & -> & [= <-]). specialize (Hc c eq_refl).
  set (w := mkWorld c s [] []) in H. assert (typed_world w) as Htw.
  { split; [done|]. unfold w_db. cbn. rewrite Hdb, Hrows. apply sound_new. }
  unfold run_on in H. pose proof (populate_typed service (m_oracle m) w Htw) as Ht.
  pose proof (populate_version service (m_oracle m) w) as Hv. pose proof (populate_records service (m_oracle m) w) as Hr.
  destruct (populate service (m_oracle m) w) as [[[]|e] w'] eqn:E; [|done]. injection H as <-. destruct Ht as [Ht _].
  unfold rows_at. rewrite !file_put, decide_True by done. cbn [f_rows with_rows]. split_and!; [|apply Ht|by eapply Hr].
  apply openable_rows; [done|]. cbn in Hv. unfold w_db in Hv. cbn in Hv. by rewrite Hdb in Hv.
Qed.

(** ** Copies and checks *)

(** A step that leaves the database at [p] alone. *)
Definition elsewhere {A} (p : string) (x : cli A) : Prop := ∀ h, file_at p (x h).2 = file_at p h.

Lemma elsewhere_bind {A B} p (x : cli A) (k : A → cli B) :
  elsewhere p x → (∀ a, elsewhere p (k a)) → elsewhere p (x ≫= k).
Proof.
  intros Hx Hk h. cbv [mbind st_bind]. specialize (Hx h). destruct (x h) as [[a|e] h1]; [|done].
  by rewrite (Hk a h1).
Qed.

Lemma elsewhere_put p path f h : p ≠ path → file_at p (put_file path f h) = file_at p h.
Proof. intros Hp. rewrite file_put, decide_False; [done|]. by intros [? _]. Qed.

Lemma elsewhere_open p path : p ≠ path → elsewhere p (SqliteStore m path).
Proof. intros Hp h. unfold SqliteStore. destruct (open_store _ _). by apply elsewhere_put. Qed.

Lemma elsewhere_store {A} p path f (body : act A) : p ≠ path → elsewhere p (on_store m path f body).
Proof. intros Hp h. unfold on_store. destruct (body _ _). by apply elsewhere_put. Qed.

Lemma named_database what path :
  path ≠ "" → named_db m what (flag_or (Some path) (dget "db" [])) = Ok (m_expanduser m path).
Proof.
  intros Hp. unfold named_db, missing, flag_or, py_or, py_truthy.
  assert (bool_decide (path ≠ "") = true) as Hb by by apply bool_decide_eq_true_2. rewrite Hb. by rewrite Hb.
Qed.

Lemma elsewhere_lift {A B} p (r : res A) (k : A → cli B) :
  (∀ a, r = Ok a → elsewhere p (k a)) → elsewhere p (st_lift r ≫= k).
Proof. intros Hk h. destruct r as [a|e]; [by apply (Hk a)|done]. Qed.

Lemma check_elsewhere p path :
  path ≠ "" → p ≠ m_expanduser m path → elsewhere p (main m (VerifyAudit (Some path) None false)).
Proof.
  intros Hne Hp h. assert (elsewhere p (dispatch_command m (VerifyAudit (Some path) None false))) as H.
  { cbn [dispatch_command]. unfold _cmd_verify_audit. apply elsewhere_lift; intros cfg [= <-].
    apply elsewhere_lift; intros q Hq. rewrite named_database in Hq by done. injection Hq as <-.
    apply elsewhere_bind; [by apply elsewhere_open|intros f].
    apply elsewhere_bind; [by apply elsewhere_store|intros v]. apply elsewhere_bind; [by intros h'|by intros _ h']. }
  specialize (H h). unfold main. destruct (dispatch_command m _ h) as [[z|e] h1]; [done|]. by destruct e.
Qed.

(** A copy of the live database is that database, at a path of its own. *)
Lemma copy_ok work d h dst h' :
  let live := work +:+ "/live.db" in
  audit_t (rows_at live h) ≠ [] → _copy_with_wal live (work +:+ d) h = (Ok dst, h') →
  dst = work +:+ (d +:+ "/live.db") ∧ dst ≠ memory ∧ dst ≠ "" ∧ file_at dst h' = file_at live h ∧
  ∀ p, p ≠ dst → file_at p h' = file_at p h.
Proof.
  intros live Hrows [= <- <-]. unfold path_name. subst live. rewrite name_from_app.
  change ("/" +:+ "live.db") with "/live.db".
  assert ((work +:+ d) +:+ "/live.db" ≠ memory) as Hdst by apply live_db_kept.
  assert (databases h !! (work +:+ "/live.db") = Some (file_at (work +:+ "/live.db") h)) as ->.
  { revert Hrows. unfold rows_at, file_at. rewrite decide_False by apply live_db_kept. by destruct (databases h !! _). }
  split_and!; [apply sapp_assoc|done|by destruct work, d|by rewrite file_put, decide_True|].
  intros p Hp. exact (elsewhere_put p _ _ h Hp).
Qed.

Lemma truncate_ok path h h' :
  path ≠ memory → _truncate_tail m path h = (Ok tt, h') →
  file_at path h' = with_rows (file_at path h) (delete_newest (rows_at path h)).
Proof.
  intros Hp H. unfold _truncate_tail, on_store in H. case_decide as Ht; [|done].
  unfold transaction, update, sql in H. cbn [s_tick s_db] in H.
  destruct (fault (m_oracle m) 0); [done|]. cbn [s_tick s_db] in H.
  destruct (fault (m_oracle m) 1); [done|]. injection H as <-. by rewrite file_put, decide_True.
Qed.
(** A check of a copy that is current returns the verdict on its log. *)
Lemma check_code path h code h' :
  path ≠ "" → m_expanduser m path = path → openable 5 (file_at path h) →
  main m (VerifyAudit (Some path) None false) h = (Ok code, h') →
  ∃ v, verify_chain (rows_at path h) = Ok v ∧ code = if AuditLog.ok v then 0 else 1.
Proof.
  intros Hne Hexp Hopen H. eapply (verify_audit_code m (Some path) None false [] path); [done| |done|done].
  by rewrite named_database, Hexp.
Qed.

(** The demonstration tells: in a directory made for it, whatever fails and whatever the
    policies decide, a run of [main_demo] that finishes returns 0, that is [verify-audit]
    exited 0 on the copy of the live database and 1 on the copy without its newest record. *)
Theorem demo_detects_truncation (work : string) (h h' : host) (code : Z) :
  databases h !! (work +:+ "/live.db") = None →
  (∀ p, m_expanduser m (work +:+ p) = work +:+ p) →
  main_demo m work h = (Ok code, h') → code = 0.
Proof.
  intros Hnew Hexp H. unfold main_demo in H. destruct (run_demo m work h) as [r h0] eqn:E. injection H as -> _.
  unfold run_demo in E. set (live := work +:+ "/live.db") in E.
  apply cli_ok in E as ([] & h1 & Hb & E). apply build_ok in Hb as (Ho & [_ Hlog _] & Hne); [|apply live_db_kept|done].
  apply cli_ok in E as (clean & h2 & Hc & E). apply copy_ok in Hc as (Hpath & Hmem & Hnil & Hc & Hc'); [|done].
  assert (live ≠ clean) as Hlc by (rewrite Hpath; by apply apart).
  apply cli_ok in E as (rc_clean & h3 & Hv & E).
  pose proof (check_elsewhere live clean Hnil ltac:(by rewrite Hpath, Hexp, <- Hpath) h2) as Hl3. rewrite Hv in Hl3.
  apply check_code in Hv as (v & Hv & ->); [|done|by rewrite Hpath, Hexp|by rewrite Hc]. cbn [snd] in Hl3.
  unfold rows_at in Hv. rewrite Hc in Hv. rewrite verify_complete in Hv by done. injection Hv as <-.
  apply cli_ok in E as ([] & h4 & [Hp _]%print_ok & E).
  assert (file_at live h4 = file_at live h1) as Hl4.
  { unfold file_at at 1. rewrite Hp. fold (file_at live h3). by rewrite Hl3, Hc'. }
  clear Hc Hc' Hl3 Hp Hpath Hmem Hnil Hlc.
  apply cli_ok in E as (trunc & h5 & Hc & E). apply copy_ok in Hc as (Hpath & Hmem & Hnil & Hc & _); [|change (audit_t (f_rows (file_at live h4)) ≠ []); by rewrite Hl4].
  fold live in Hc.
  apply cli_ok in E as ([] & h6 & Ht%truncate_ok & E); [|done]. unfold rows_at in Ht. rewrite Hc, Hl4 in Ht.
  apply cli_ok in E as (rc_trunc & h7 & Hv & E).
  apply check_code in Hv as (v & Hv & ->); [|done|by rewrite Hpath, Hexp|rewrite Ht; by apply openable_rows].
  unfold rows_at in Hv. rewrite Ht in Hv. cbn [f_rows with_rows] in Hv.
  destruct (delete_newest_last _ Hlog Hne) as [newest Hnewest].
  assert (AuditLog.ok v = false) as Hok by exact (truncated_fails _ _ [newest] v Hlog ltac:(done) Hnewest eq_refl Hv).
  apply cli_ok in E as ([] & h8 & _ & E). apply cli_ok in E as ([] & h9 & _ & E).
  rewrite Hok in E. by injection E as <- _.
Qed.
End demo_runs.

(** A run of the demonstration. *)
Definition sample_demo : res Z * host :=
  main_demo (rt := coded_float_runtime) (dt := decimal_datetime) (utf8 := ascii_utf8) (crypto := toy_crypto)
    (ce := toy_cedar) (parser := toy_parser) (processes := no_processes) (endpoint := no_endpoint)
    sample_machine "/tmp/tc_tail_demo" (mkHost ∅ [] [] [] []).

Lemma sample_demo_output :
  is_ok sample_demo.1 = true ∧
  last (stdout sample_demo.2) = Some (Line "RESULT: PASS - tail truncation detected").
Proof. split; vm_compute; reflexivity. Qed.

Lemma demo_detects_truncation_witness :
  sample_demo.1 = Ok 0 ∧ last (stdout sample_demo.2) = Some (Line "RESULT: PASS - tail truncation detected").
Proof.
  pose proof sample_demo_output as [Hok Hlast]. split; [|exact Hlast]. revert Hok. clear Hlast. unfold sample_demo.
  match goal with |- is_ok ?run.1 = true → _ => destruct run as [[code|e] h'] eqn:E end; intros Hok; [|discriminate Hok].
  apply demo_detects_truncation in E; [rewrite E; reflexivity|reflexivity|intros p; reflexivity].
Defined.
